(* ===== verification/_CoqProject ===== *)
-Q . S2P
Prelude.v
Oid.v
Ber.v
BerFacts.v
Usm.v
Types.v
Varbind.v
BerPdu.v
Snmp.v
Codec.v
Mib.v
Request.v
Dispatch.v
Boots.v
Trap.v
Framing.v
EventLoop.v
LoopFacts.v
Agent.v
EndToEnd.v
Channel.v
Replay.v
Atomics.v
Secrets.v
Render.v
LogText.v
AgentText.v
TestAgents.v
Frames.v
Walk.v
Seeds.v
Session.v
Corpus.v
