(* ===== verification/Prelude.v ===== *)
(** * Verification of basic-snmp-agent

    A shallow embedding of the SNMPv3 agent library under [src/src/], of the manager-side
    frame library and the programs under [src/tests/] and [src/fuzz/] that drive it, and
    their theory.
    This file is the root: the overview below documents the whole development, the
    definitions after it are the prelude (results, machine integers, bytes, lists,
    automation) that every other file builds on.

    ** The program

    An application configures an agent with [AgentBuilder] ([lib.rs]), gives it MIB
    values with [Agent::set] and sends traps with [Agent::send_trap].  [build] fixes
    the engine identity, obtains the boots counter of this start from a persistent
    store ([usm/boots.rs]) and starts one thread that runs the event loop
    ([transport/event_loop.rs]).  The loop owns the MIB and the connections: it
    accepts TCP connections, buffers what they deliver, cuts the buffer into BER
    frames and hands each frame to the dispatch pipeline ([transport/dispatch.rs]).
    The pipeline decodes the envelope ([codec/]), applies the checks of the User-based
    Security Model ([usm/]), decrypts the scoped PDU, runs a handler
    ([transport/request.rs]) against the MIB ([mib.rs]) and encodes an encrypted and
    signed response; a refused message moves a statistics counter and may be answered
    by a Report.  Application threads talk to the loop through a channel of commands.
    Traps are encoded by the calling thread and sent by UDP ([transport/trap.rs]).

    Beside the library the repository has the encoders of a manager's requests
    ([src/tests/snmpv3-frames]), test agents with a known MIB and a trap sender
    ([src/tests/test-agent*]), and fuzz targets with the generator of their seeds
    ([src/fuzz]).

    ** Files, in dependency order

    - [Prelude]: [result] and [let?] (Rust's [Result] and [?]); [Z] with the width
      predicates [is_u8], [is_u32], [is_u64], [is_i32], [is_usize]; byte sequences,
      [len], big-endian conversions; tactics ([zrange], [inv_ok], [bool_cases]) and
      the hint databases [snmp], [snmp_len], [snmp_writer].
    - [Oid]: [codec/oid.rs].  The validated newtype, parsing, printing, order.
    - [Ber], [BerFacts]: [codec/ber.rs] and its theory against reference definitions
      ([length_octets], [be_signed], [tlv]).
    - [Usm]: [usm/keys.rs], [auth.rs], [privacy.rs], [kdf.rs], [engine_id.rs],
      [engine_time.rs], [time_window.rs], [security_params.rs], [counters.rs],
      [user.rs].
    - [Types]: [codec/value.rs], [codec/pdu/types.rs].
    - [Varbind], [BerPdu], [Snmp]: [codec/ber/varbind.rs], [pdu.rs], [snmp.rs].
    - [Codec]: [codec/pdu/decode.rs], [codec/pdu/encode.rs].
    - [Mib]: [mib.rs].  [Request]: [transport/request.rs].
    - [Dispatch]: [transport/dispatch.rs], [dispatch/dispatch_context.rs],
      [dispatch/report.rs].
    - [Boots]: [usm/boots.rs].  [Trap]: [transport/trap.rs].
    - [Framing], [EventLoop], [LoopFacts]: [transport/event_loop.rs]: its frame
      parser, its state and handlers, and their theory.
    - [Agent]: [lib.rs], [error.rs]: the builder, and the agent as a system of threads.
    - [EndToEnd]: the composition of application, channel, loop, pipeline and handlers
      against the specification of one register per OID.
    - [Channel]: the command channel, the handles and the loop ([lib.rs],
      [transport/event_loop.rs]) one atomic action at a time.
    - [Replay]: the composition of boots store, [build], loop and time window over the
      restarts of an installation.
    - [Atomics]: the privacy salt ([codec/pdu/encode.rs]) and the trap identifiers
      ([codec/pdu/types.rs]) as atomic actions of concurrent threads.
    - [Secrets]: [usm/keys.rs] and [usm/kdf.rs] on a heap that records released memory.
    - [Render]: [Display] and [Debug] of keys, users and the errors of [usm/].
    - [LogText]: the texts of the errors of [codec/], and the line logged for a frame that
      does not decode.
    - [AgentText]: the texts and sources of the errors of [error.rs], [usm/boots.rs] and
      [transport/event_loop.rs], with the addresses and I/O errors in them.
    - [TestAgents]: the programs under [src/tests/test-agent*], with what they print.
    - [Frames]: [src/tests/snmpv3-frames/src/lib.rs].
    - [Walk]: a manager of [Frames] that walks the MIB over a connection of the loop.
    - [Seeds]: [src/fuzz/arbitrary_snmpv3.rs], [fuzz_support.rs], the seeds of
      [generate_seeds.rs] and the fuzz targets.
    - [Session]: a manager of [Frames] and [Seeds] that knows a user's name and password:
      discovery, key localisation, signed requests, verified responses.
    - [Corpus]: [cross_pollinate] and [main] of [generate_seeds.rs] over directories.

    Definitions keep the names of the functions they translate; a method carries a
    prefix where two types have one of the same name ([store_get], [reader_new],
    [key_size]).

    ** How the code is modelled

    - Structs are records, enums inductive types with the source's constructors.
      Integers are [Z]; wrapping, checked and saturating operations are written out at
      their width ([u64_checked_shl], [next_sequential], [next_connection_token]).
      A fallible function returns [result]; a panic is [None] of an option where the
      code can panic.  Error values keep their kind and the interpolated data; [Render],
      [LogText] and [AgentText] make their texts of them.
    - State that the code mutates is passed explicitly.  The dispatch pipeline is a
      state-and-error monad over the counters ([Dispatch.Dispatch]); the
      process-global privacy salt ([SaltState]) and trap identifier counter are
      threaded through every encoder that draws from them.
    - The hash, HMAC and cipher crates are the class [CryptoOps]; what the code relies
      on (output sizes, totality on admissible keys, decryption inverts encryption) is
      the class [CryptoLaws].  No law says that MACs are unforgeable or that the cipher
      hides anything: the theorems say which octets were checked with which key.
      [ToyCrypto] is an instance of both classes; every witness evaluates with it.
    - mio, the sockets, the clock, the channel and the file system are the environment.
      A readiness event carries the results of the calls its handler makes; an
      exhausted list of results is [WouldBlock].  A run of the loop is a function of
      the sequence of event batches, so a theorem about every sequence holds for every
      behaviour of the environment.  File-system calls may each fail, and [save]
      records every state the disk goes through.
    - Threads are the interleavings of a step relation: [Agent.sys_step] for the commands
      and the loop, [Channel.app_step] and [Channel.loop_step] for the same with a step per
      call on the channel, the waker and the poll, [Atomics.shared_step] for the lock-free
      counters, whose calls are cut into their atomic actions.
    - [rasn::ber::encode] is the class [RasnBer], and [RasnLaws] says that it emits the
      definite-length encoding of X.690 ([RefRasn] is an instance); the accessors of
      [serde_json::Value] are the class [JsonValue] with [JsonLaws].
    - Interfaces are classes: [MibView] (what handlers need of a MIB, with the store as
      instance), [EngineBootsStore] and [BootsStoreLaws] (with the file store as
      instance), [CryptoOps] and [CryptoLaws], [RasnBer] and [RasnLaws], [JsonValue].

    ** What the theorems show

    - Security of the pipeline ([Dispatch], [Codec]).  A response is produced only for
      a message for this engine and user that carried a valid MAC over its octets and
      was timely ([served_is_authentic]); such a message is always answered, by a
      response that opens to exactly what the handler computed
      ([authentic_request_is_answered]); a message that was served once is never served
      after a restart of the same engine, nor more than 300 seconds later
      ([served_frame_is_not_replayable] of [Replay]; a start under another engine identifier
      on the same store resets the counter, [engine_change_readmits_frame]); a refusal moves at most one counter and is
      reported exactly when the sender asked ([refusal_reports_counter],
      [counters_change_at_most_one]).
    - The wire format ([Oid], [Ber], [BerFacts], [Varbind], [Snmp], [Codec]).  Round trips at
      every layer up to [v3_response_roundtrip]; soundness of the decoder on arbitrary
      octets ([decode_v3_message_sound], [tlv_roundtrip_and_sound]); exact integer
      decoding, and the wrap-around of over-long sub-identifiers
      ([sub_identifier_decoding_wraps]).
    - The stream and the loop ([Framing], [LoopFacts]).  Frames and verdict do not depend on
      how the stream was cut; an event refines the serving of complete frames in order
      ([requests_served_in_order]); the loop's invariant holds after any events;
      connections do not influence each other; an authentic request is answered end to
      end ([authentic_request_end_to_end]).
    - The MIB and the handlers ([Mib], [Request]).  The store is an ordered finite map,
      GETNEXT finds the least successor and a walk visits everything once; GETBULK
      returns complete rows and fits its budget, because the size estimate never
      undercounts.
    - The whole system ([EndToEnd], [Frames], [Walk], [Seeds], [Session], [Corpus]).  Under every interleaving a manager
      reads exactly what the application wrote last ([manager_reads_last_write]); every
      request the manager library builds with arguments in the decoder's ranges is decoded to
      what was meant, and answered, refused or dropped as its flags and context ask for
      ([manager_requests_are_answered], for agents without a user); a signed one is answered
      ([signed_request_is_answered]); discovery
      works ([discovery_probe_reports_engine]); a walk over a connection reads the whole MIB
      ([wire_walk_reads_mib], [test_agent_walk]); a manager with a name and a password
      discovers the engine and reads authentic values, one with another password reads none
      ([password_session_outcome], [auth_agent_session]); the seed generator completes and
      structured fuzz inputs get past the decoder ([generator_fills_corpora],
      [structured_inputs_decode]).
    - Concurrency ([Channel], [Atomics]).  The channel with its waker refines the system of
      [Agent] ([channel_refines_agent]), loses no wake-up ([acknowledged_set_is_applied])
      and ends with the last handle ([last_drop_ends_loop]).  Whatever the schedule, the shared counters hand out what as
      many sequential calls would, without repetition or deadlock
      ([concurrent_counters_linearise]); so the sequential threading of the salt in the
      other files loses no behaviour.
    - Secrets ([Secrets], [Render]).  Memory that held keys is zero when it is released,
      except by a truncation whose shortened block the allocator moves
      ([key_memory_is_zeroised]; [moving_shrink_leaves_key] shows what that leaves), and printed forms do not depend on key octets
      ([printing_reveals_no_key]).
    - Logs ([LogText]).  No text about a received frame quotes its octets, so the line logged
      for one that does not decode is short and holds no control character
      ([decode_failure_line_is_clean]); the text of an error of the agent ends with that of
      the error it wraps ([agent_error_keeps_source] of [AgentText]).
    - Test programs ([TestAgents]).  The MIB agents start and serve the documented table
      ([mib_agents_serve_test_mib]); the trap sender's exit code tells whether everything
      was sent ([trap_sender_exit_code]).
    - Keys, boots, traps, agent ([Usm], [Boots], [Trap], [Agent]).  Key derivation is
      RFC 3414's; boots strictly increase over restarts and a save is atomic; a trap
      reaches every destination; the MIB is written by [Agent::set] alone, in order,
      under every interleaving; [build] yields a consistent agent.

    ** Recursion and bounds

    Loops that are not structural take fuel, and a lemma shows that it is never
    exhausted.  [base128_groups] has 10 steps, as a [u64] has at most ten groups of
    seven bits; [decode_sub_identifiers] and [decode_varbinds] take the number of
    octets left, since each round consumes at least one
    ([decode_sub_identifiers_fuel], [decode_varbinds_fuel]); the frame loops take one
    more than the buffered octets, since a frame is never empty ([take_frames_fuel]);
    [next_connection_token] takes two more than the number of connections, since only
    taken and reserved tokens are skipped ([next_connection_token_fresh]); decimal
    printing takes the ten digits of a [u32].  The bounds of [Channel] count steps of the
    loop thread: [remaining] is the number left until a given command is received, with
    batches of at most [EVENTS_CAPACITY] tokens.
    Three bounds state that data fits the address space: [ISIZE_MAX] (no slice is
    longer), [PAYLOAD_MAX] (2^32 octets, above any frame, for the inputs of the
    encoders) and [VALUE_MAX] (for which the size estimate cannot overflow).

    ** What is not modelled

    Log lines other than the one of [LogText], [Debug] of the errors and the alternate form
    of [Debug]; the scope and flow label of an IPv6 address.  Volatile writes and fences are
    ordinary writes, and the hasher's internal state, which the source says it cannot clear,
    is not part of [Secrets].  [verify_mac] compares MACs in the hmac crate, so that the
    comparison takes constant time is a promise of that crate and not of code that could be
    modelled here.  Weak memory: the two counters are single locations accessed by atomic
    operations, which have one modification order whatever their [Ordering], and
    [Once::call_once] synchronises.  The kernel's ready list in [Channel] is served in order
    and a token stays in it until it is handed out, as epoll documents.  The JSON
    deserialiser, the name resolver and the level names of the log crate are parameters of
    [TestAgents].  The MIB agents end, in the model, where they park their main thread.
    Module roots (re-exports only), unit tests, the Behave scenarios (Python), the
    requirement documents and the tools have no definitions.

    ** State of the development

    Every operation of the library, of the frames library, of the test agents and of the
    fuzz programs is modelled.  What could still be stated over these definitions: the
    remaining Behave scenarios as theorems about the test agents, in the manner of
    [test_agent_walk] and [auth_agent_session], and an encrypting manager, for which the
    repository has no encoder. *)

From stdpp Require Export base tactics list list_numbers numbers option strings.
From Stdlib Require Export ZArith Lia.

#[export] Set Default Goal Selector "!".
Open Scope Z_scope.

(** ** Results: Rust's [Result<T, E>] and the [?] operator *)

Inductive result (A E : Type) : Type :=
| Ok (a : A)
| Err (e : E).
Arguments Ok {A E} a.
Arguments Err {A E} e.

Declare Scope rust_scope.
Delimit Scope rust_scope with rust.
Open Scope rust_scope.

Notation "'let?' x ':=' e 'in' k" :=
  (match e with Ok x => k | Err err => Err err end)
  (at level 10, x name, e at level 200, k at level 200) : rust_scope.
Notation "'let?' ' p ':=' e 'in' k" :=
  (match e with Ok p => k | Err err => Err err end)
  (at level 10, p strict pattern, e at level 200, k at level 200) : rust_scope.

(** [Result::map_err], [Result::ok], [Option::ok_or]. *)
Definition map_err {A E F} (f : E -> F) (r : result A E) : result A F :=
  match r with Ok a => Ok a | Err e => Err (f e) end.

Definition result_ok {A E} (r : result A E) : option A :=
  match r with Ok a => Some a | Err _ => None end.

Definition ok_or {A E} (o : option A) (e : E) : result A E :=
  match o with Some a => Ok a | None => Err e end.

Definition is_ok {A E} (r : result A E) : bool :=
  match r with Ok _ => true | Err _ => false end.

(** [iter().map(f).collect::<Result<Vec<_>, _>>()]: stops at the first error. *)
Fixpoint collect_results {A B E} (f : A -> result B E) (l : list A) : result (list B) E :=
  match l with
  | [] => Ok []
  | a :: l' => let? b := f a in let? bs := collect_results f l' in Ok (b :: bs)
  end.

(** [o.expect(..)] at a site that the development shows unreachable: the value
    of the panicking branch is [d], and a lemma next to the definition that uses
    it shows that the option is never [None]. *)
Definition expect_or {A} (d : A) (o : option A) : A :=
  match o with Some a => a | None => d end.

(** ** Machine integers as range predicates on [Z] *)

Definition is_u8 (z : Z) : Prop := 0 <= z < 256.
Definition is_u32 (z : Z) : Prop := 0 <= z < 4294967296.
Definition is_u64 (z : Z) : Prop := 0 <= z < 18446744073709551616.
Definition is_i32 (z : Z) : Prop := -2147483648 <= z < 2147483648.
(** [usize] on a 64-bit target. *)
Definition is_usize (z : Z) : Prop := is_u64 z.

#[export] Instance is_u8_dec z : Decision (is_u8 z).
Proof. unfold is_u8. apply _. Defined.
#[export] Instance is_u32_dec z : Decision (is_u32 z).
Proof. unfold is_u32. apply _. Defined.
#[export] Instance is_u64_dec z : Decision (is_u64 z).
Proof. unfold is_u64. apply _. Defined.
#[export] Instance is_i32_dec z : Decision (is_i32 z).
Proof. unfold is_i32. apply _. Defined.

Definition U32_MAX : Z := 4294967295.
Definition U64_MAX : Z := 18446744073709551615.
Definition USIZE_MAX : Z := U64_MAX.
Definition I32_MAX : Z := 2147483647.

(** [u32::try_from(z)], [i32::try_from(z)] on any wider source type. *)
Definition u32_try_from (z : Z) : option Z :=
  if (0 <=? z) && (z <=? U32_MAX) then Some z else None.
Definition i32_try_from (z : Z) : option Z :=
  if (-2147483648 <=? z) && (z <=? I32_MAX) then Some z else None.
Definition usize_checked_add (a b : Z) : option Z :=
  if a + b <=? USIZE_MAX then Some (a + b) else None.
Definition usize_checked_mul (a b : Z) : option Z :=
  if a * b <=? USIZE_MAX then Some (a * b) else None.
Definition u64_checked_add (a b : Z) : option Z :=
  if a + b <=? U64_MAX then Some (a + b) else None.
(** [a.saturating_sub(b)] on an unsigned type. *)
Definition saturating_sub (a b : Z) : Z := Z.max 0 (a - b).
(** [u64::leading_zeros]. *)
Definition leading_zeros64 (v : Z) : Z :=
  if v =? 0 then 64 else 63 - Z.log2 v.

(** ** Slices and vectors *)

Abbreviation bytes := (list Z).

Definition len {A} (l : list A) : Z := Z.of_nat (length l).
#[global] Arguments len : simpl never.
(** [slice.get(i)] *)
Definition get {A} (l : list A) (i : Z) : option A :=
  if (0 <=? i) && (i <? len l) then l !! Z.to_nat i else None.
(** [slice.get(a..b)] *)
Definition get_range {A} (l : list A) (a b : Z) : option (list A) :=
  if (0 <=? a) && (a <=? b) && (b <=? len l)
  then Some (take (Z.to_nat (b - a)) (drop (Z.to_nat a) l)) else None.
(** [slice.get(a..)] *)
Definition get_from {A} (l : list A) (a : Z) : option (list A) :=
  if (0 <=? a) && (a <=? len l) then Some (drop (Z.to_nat a) l) else None.
(** [is_empty] *)
Definition is_nil {A} (l : list A) : bool :=
  match l with [] => true | _ => false end.
(** [iter().take_while(p).count()] *)
Fixpoint count_while {A} (p : A -> bool) (l : list A) : Z :=
  match l with
  | [] => 0
  | x :: l' => if p x then 1 + count_while p l' else 0
  end.
(** [iter().position(p)] *)
Fixpoint position_of {A} (p : A -> bool) (l : list A) : option Z :=
  match l with
  | [] => None
  | x :: l' => if p x then Some 0 else (Z.add 1) <$> position_of p l'
  end.
(** Equality of byte slices. *)
Definition bytes_eqb (a b : bytes) : bool := bool_decide (a = b).

(** [to_be_bytes] of an [n]-byte integer; for a negative argument the floor
    division and modulus of [Z] give the two's-complement bytes. *)
Fixpoint to_be_bytes (n : nat) (v : Z) : bytes :=
  match n with
  | O => []
  | S m => (v / 256 ^ Z.of_nat m) mod 256 :: to_be_bytes m v
  end.
(** [uN::from_be_bytes]. *)
Definition from_be_bytes (bs : bytes) : Z := fold_left (fun acc b => acc * 256 + b) bs 0.
(** [i32::from_be_bytes] of four bytes. *)
Definition i32_from_be_bytes (bs : bytes) : Z :=
  let u := from_be_bytes bs in
  if u <? 2147483648 then u else u - 4294967296.

(** String literals are the byte sequence of their (ASCII) characters. *)
Definition str (s : string) : bytes := (fun c => Z.of_N (Ascii.N_of_ascii c)) <$> String.list_ascii_of_string s.

(** ** Automation *)

Create HintDb snmp.
Create Rewrite HintDb snmp_len.
Create Rewrite HintDb snmp_writer.
#[export] Hint Rewrite Nat2Z.id @length_app @length_cons @length_nil @length_replicate : snmp_len.

(** Unfolds the range predicates and lengths, then calls [lia]. *)
Ltac zrange :=
  unfold is_usize, is_u8, is_u32, is_u64, is_i32, USIZE_MAX, U64_MAX, U32_MAX, I32_MAX,
    len in *;
  autorewrite with snmp_len in *; lia.

(** Splits the boolean comparisons of the goal or of a hypothesis. *)
Ltac bool_cases :=
  repeat match goal with
  | |- context [?a <=? ?b] => destruct (Z.leb_spec a b)
  | |- context [?a <? ?b] => destruct (Z.ltb_spec a b)
  | |- context [?a =? ?b] => destruct (Z.eqb_spec a b)
  end; simpl.

(** Evaluates a boolean test whose outcome follows by linear arithmetic. *)
Ltac btrue e := replace e with true by (symmetry; bool_cases; first [reflexivity | lia | zrange]).
Ltac bfalse e := replace e with false by (symmetry; bool_cases; first [reflexivity | lia | zrange]).

(** Walks through the [?] chain of a hypothesis [H : ... = Ok _]: every match on
    a result, option or conditional is split and the failing branches closed. *)
Ltac inv_ok H :=
  repeat (match type of H with
  | Ok _ = Ok _ => injection H as H; try subst
  | Some _ = Some _ => injection H as H; try subst
  | Err _ = Ok _ => discriminate H
  | Ok _ = Err _ => discriminate H
  | None = Some _ => discriminate H
  | Some _ = None => discriminate H
  | match ?e with _ => _ end = _ =>
      let E := fresh "E" in destruct e eqn:E; cbn beta iota in H; try discriminate H
  end).

(** ** Lengths and slices *)

Lemma len_nonneg {A} (l : list A) : 0 <= len l.
Proof. unfold len. lia. Qed.
#[export] Hint Resolve len_nonneg : snmp core.

Lemma len_app {A} (a b : list A) : len (a ++ b) = len a + len b.
Proof. unfold len. rewrite length_app. lia. Qed.

Lemma len_cons {A} (x : A) l : len (x :: l) = 1 + len l.
Proof. unfold len. simpl. lia. Qed.

Lemma len_nil {A} : len (@nil A) = 0.
Proof. done. Qed.
#[export] Hint Rewrite @len_app @len_cons @len_nil : snmp_len.

Lemma len_0_nil {A} (l : list A) : len l = 0 -> l = [].
Proof. destruct l; [done|]. rewrite len_cons. pose proof (len_nonneg l). lia. Qed.

Lemma is_nil_true {A} (l : list A) : is_nil l = true <-> l = [].
Proof. destruct l; naive_solver. Qed.

Lemma drop_len_app {A} (a b : list A) : drop (Z.to_nat (len a)) (a ++ b) = b.
Proof. unfold len. rewrite Nat2Z.id. apply drop_app_length. Qed.

Lemma take_len_app {A} (a b : list A) : take (Z.to_nat (len a)) (a ++ b) = a.
Proof. unfold len. rewrite Nat2Z.id. apply take_app_length. Qed.

Lemma get_range_app {A} (a b c : list A) :
  get_range (a ++ b ++ c) (len a) (len a + len b) = Some b.
Proof.
  unfold get_range. autorewrite with snmp_len.
  pose proof (len_nonneg a). pose proof (len_nonneg b). pose proof (len_nonneg c).
  bool_cases; try lia.
  replace (len a + len b - len a) with (len b) by lia.
  by rewrite drop_len_app, take_len_app.
Qed.

Lemma get_range_Some {A} (l : list A) a b r :
  get_range l a b = Some r ->
  exists pre post, l = pre ++ r ++ post /\ len pre = a /\ len r = b - a /\ 0 <= a <= b /\ b <= len l.
Proof.
  unfold get_range. intros H.
  destruct (Z.leb_spec 0 a), (Z.leb_spec a b), (Z.leb_spec b (len l)); simplify_eq/=.
  exists (take (Z.to_nat a) l), (drop (Z.to_nat (b - a)) (drop (Z.to_nat a) l)).
  rewrite !take_drop. unfold len in *. rewrite length_take, length_take, length_drop.
  repeat split; lia.
Qed.

Lemma get_from_app {A} (a b : list A) : get_from (a ++ b) (len a) = Some b.
Proof.
  unfold get_from. autorewrite with snmp_len.
  pose proof (len_nonneg a). pose proof (len_nonneg b).
  bool_cases; try lia. by rewrite drop_len_app.
Qed.

Lemma count_while_bounds {A} (p : A -> bool) l : 0 <= count_while p l <= len l.
Proof.
  induction l as [|x l IH]; simpl; [done|].
  rewrite len_cons. case_match; lia.
Qed.

Lemma position_of_bounds {A} (p : A -> bool) l i :
  position_of p l = Some i -> 0 <= i < len l.
Proof.
  revert i. induction l as [|x l IH]; intros i; simpl; [done|].
  rewrite len_cons. pose proof (len_nonneg l).
  case_match; [intros; simplify_eq; lia|].
  destruct (position_of p l) as [j|]; simpl; intros; simplify_eq.
  specialize (IH j eq_refl). lia.
Qed.

(** ** Checked arithmetic *)

Lemma usize_checked_add_Some a b c :
  usize_checked_add a b = Some c <-> c = a + b /\ a + b <= USIZE_MAX.
Proof.
  unfold usize_checked_add. destruct (Z.leb_spec (a + b) USIZE_MAX).
  - split; [intros [= <-]; lia|intros [-> _]; done].
  - split; [done|lia].
Qed.

Lemma u32_try_from_Some z : is_u32 z -> u32_try_from z = Some z.
Proof. intros. unfold u32_try_from. by btrue ((0 <=? z) && (z <=? U32_MAX)). Qed.

Lemma u32_try_from_inv z y : u32_try_from z = Some y -> y = z /\ is_u32 z.
Proof.
  unfold u32_try_from. destruct (Z.leb_spec 0 z), (Z.leb_spec z U32_MAX); intros; simplify_eq/=.
  split; [done|zrange].
Qed.

Lemma i32_try_from_Some z : is_i32 z -> i32_try_from z = Some z.
Proof. intros. unfold i32_try_from. by btrue ((-2147483648 <=? z) && (z <=? I32_MAX)). Qed.

Lemma i32_try_from_inv z y : i32_try_from z = Some y -> y = z /\ is_i32 z.
Proof.
  unfold i32_try_from. destruct (Z.leb_spec (-2147483648) z), (Z.leb_spec z I32_MAX); intros; simplify_eq/=.
  split; [done|zrange].
Qed.

(** ** Results *)

Lemma collect_results_Ok {A B E} (f : A -> result B E) l bs :
  collect_results f l = Ok bs <-> Forall2 (fun a b => f a = Ok b) l bs.
Proof.
  revert bs. induction l as [|a l IH]; intros bs; simpl.
  - split; [intros; simplify_eq; constructor|]. by inversion 1.
  - destruct (f a) as [b|e] eqn:Ef.
    + destruct (collect_results f l) as [bs'|e'].
      * split; [intros; simplify_eq; constructor; [done|by apply IH]|].
        inversion 1 as [|? b' ? l' Hb Hl]; subst. apply IH in Hl. congruence.
      * split; [done|]. inversion 1 as [|? b' ? l' Hb Hl]; subst. apply IH in Hl. done.
    + split; [done|]. inversion 1 as [|? b' ? l' Hb Hl]; subst. congruence.
Qed.

Lemma collect_results_map {A B C E} (g : C -> A) (f : A -> result B E) l :
  collect_results f (g <$> l) = collect_results (fun c => f (g c)) l.
Proof. induction l as [|c l IH]; [done|]. rewrite fmap_cons. simpl. by rewrite IH. Qed.

(** ** Bytes and bit masks *)

(** A boolean property of an octet is proved by checking all 256 of them. *)
Lemma forall_u8 (P : Z -> bool) b :
  is_u8 b -> forallb P (seqZ 0 256) = true -> P b = true.
Proof.
  intros Hb H. rewrite forallb_forall in H. apply H.
  apply list_elem_of_In, elem_of_seqZ. unfold is_u8 in Hb. lia.
Qed.

Lemma land_0x80_u8 b : is_u8 b -> (Z.land b 0x80 =? 0) = (b <? 128).
Proof.
  intros Hb. apply eqb_prop.
  by apply (forall_u8 (fun b => Bool.eqb (Z.land b 0x80 =? 0) (b <? 128)) b Hb).
Qed.

Lemma land_0x80_u8_set b : is_u8 b -> (Z.land b 0x80 =? 0x80) = (128 <=? b).
Proof.
  intros Hb. apply eqb_prop.
  by apply (forall_u8 (fun b => Bool.eqb (Z.land b 0x80 =? 0x80) (128 <=? b)) b Hb).
Qed.

Lemma land_0x7F b : Z.land b 0x7F = b mod 128.
Proof. change 0x7F with (Z.ones 7). by rewrite Z.land_ones by lia. Qed.

(** ** Big-endian bytes *)

Lemma length_to_be_bytes n v : length (to_be_bytes n v) = n.
Proof. induction n; simpl; congruence. Qed.

Lemma len_to_be_bytes n v : len (to_be_bytes n v) = Z.of_nat n.
Proof. unfold len. by rewrite length_to_be_bytes. Qed.
#[export] Hint Rewrite len_to_be_bytes : snmp_len.

Lemma to_be_bytes_u8 n v : Forall is_u8 (to_be_bytes n v).
Proof.
  induction n; simpl; constructor; [|done]. apply Z.mod_pos_bound. lia.
Qed.

Lemma drop_to_be_bytes k n v : (k <= n)%nat -> drop k (to_be_bytes n v) = to_be_bytes (n - k) v.
Proof.
  revert n. induction k as [|k IH]; intros n Hk; [by rewrite Nat.sub_0_r|].
  destruct n as [|n]; [lia|]. simpl. apply IH. lia.
Qed.

Lemma fold_be_acc bs acc :
  fold_left (fun acc b => acc * 256 + b) bs acc = acc * 256 ^ len bs + from_be_bytes bs.
Proof.
  unfold from_be_bytes. revert acc. induction bs as [|b bs IH]; intros acc; simpl.
  - rewrite len_nil. lia.
  - rewrite IH, (IH (0 * 256 + b)), len_cons, Z.pow_add_r by (try apply len_nonneg; lia). lia.
Qed.

Lemma from_be_bytes_cons b bs : from_be_bytes (b :: bs) = b * 256 ^ len bs + from_be_bytes bs.
Proof. unfold from_be_bytes at 1. simpl. by rewrite fold_be_acc. Qed.

Lemma from_be_bytes_bound bs : Forall is_u8 bs -> 0 <= from_be_bytes bs < 256 ^ len bs.
Proof.
  induction 1 as [|b bs Hb _ IH]; [done|].
  rewrite from_be_bytes_cons, len_cons, Z.pow_add_r by (try apply len_nonneg; lia).
  unfold is_u8 in Hb. nia.
Qed.

Lemma from_be_bytes_zeros k bs : from_be_bytes (replicate k 0 ++ bs) = from_be_bytes bs.
Proof.
  induction k as [|k IH]; simpl; [done|]. rewrite from_be_bytes_cons, IH. lia.
Qed.

Lemma from_to_be_bytes n v : from_be_bytes (to_be_bytes n v) = v mod 256 ^ Z.of_nat n.
Proof.
  induction n as [|n IH]; [by rewrite Z.mod_1_r|].
  simpl to_be_bytes. rewrite from_be_bytes_cons, IH, len_to_be_bytes.
  rewrite Nat2Z.inj_succ, Z.pow_succ_r by lia.
  rewrite (Z.mul_comm 256), Z.rem_mul_r by lia. lia.
Qed.

Lemma from_to_be_bytes_id n v : 0 <= v < 256 ^ Z.of_nat n -> from_be_bytes (to_be_bytes n v) = v.
Proof. intros. rewrite from_to_be_bytes. by apply Z.mod_small. Qed.

Lemma to_be_bytes_mod n m v :
  (n <= m)%nat -> to_be_bytes n (v mod 256 ^ Z.of_nat m) = to_be_bytes n v.
Proof.
  induction n as [|n IH]; intros Hnm; simpl; [done|].
  rewrite IH by lia. f_equal.
  replace (Z.of_nat m) with (Z.of_nat n + Z.of_nat (m - n)) by lia.
  rewrite Z.pow_add_r by lia.
  rewrite Z.rem_mul_r by lia.
  rewrite (Z.mul_comm (256 ^ _)), Z.div_add by lia.
  rewrite (Z.div_small (v mod _)) by (apply Z.mod_pos_bound; lia). rewrite Z.add_0_l.
  replace (Z.of_nat (m - n)) with (1 + Z.of_nat (m - n - 1)) by lia.
  rewrite Z.pow_add_r by lia. change (256 ^ 1) with 256.
  rewrite Z.rem_mul_r by lia. rewrite (Z.mul_comm 256 (_ mod _)), Z.mod_add by lia.
  by rewrite Z.mod_mod by lia.
Qed.

