(* ===== verification/Oid.v ===== *)
(** * Object identifiers: [src/src/codec/oid.rs]

    The [Oid] newtype, its validation, its constructors ([from_slice],
    [try_from], [from_str]), [Display], the error categories, and the derived
    lexicographic order that the MIB store relies on.  A [str] is its UTF-8 byte
    sequence; [str::parse::<u32>] is modelled as the standard library documents
    it (an optional plus sign followed by decimal digits). *)

From S2P Require Import Prelude.

Definition MAX_OID_SUB_IDENTIFIERS : Z := 128.

Record Oid := MkOid { as_slice : list Z }.

(** [std::num::IntErrorKind], the payload of [ParseIntError]. *)
Inductive IntErrorKind := IntEmpty | IntInvalidDigit | IntPosOverflow.

Inductive OidErrorKind :=
| EmptyString
| LeadingDot
| TrailingDot
| ConsecutiveDots
| LeadingZero (part : bytes)
| TooFewComponents (n : Z)
| InvalidFirstArc (v : Z)
| InvalidSecondArc (first second : Z)
| TooManySubIdentifiers (n : Z)
| InvalidComponent (part : bytes) (source : IntErrorKind).

Record ParseOidError := MkParseOidError { kind : OidErrorKind }.

Inductive OidErrorCategory :=
| CatEmptyString | CatLeadingDot | CatTrailingDot | CatConsecutiveDots | CatLeadingZero
| CatTooFewComponents | CatInvalidFirstArc | CatInvalidSecondArc
| CatTooManySubIdentifiers | CatInvalidComponent.

#[export] Instance Oid_eq_dec : EqDecision Oid.
Proof. solve_decision. Defined.
#[export] Instance OidErrorCategory_eq_dec : EqDecision OidErrorCategory.
Proof. solve_decision. Defined.

(** [ParseOidError::category] *)
Definition category (e : ParseOidError) : OidErrorCategory :=
  match kind e with
  | EmptyString => CatEmptyString
  | LeadingDot => CatLeadingDot
  | TrailingDot => CatTrailingDot
  | ConsecutiveDots => CatConsecutiveDots
  | LeadingZero _ => CatLeadingZero
  | TooFewComponents _ => CatTooFewComponents
  | InvalidFirstArc _ => CatInvalidFirstArc
  | InvalidSecondArc _ _ => CatInvalidSecondArc
  | TooManySubIdentifiers _ => CatTooManySubIdentifiers
  | InvalidComponent _ _ => CatInvalidComponent
  end.

(** [Error::source] of the kind: only a failed integer parse has one. *)
Definition source (k : OidErrorKind) : option IntErrorKind :=
  match k with InvalidComponent _ e => Some e | _ => None end.

Definition validate_oid_components (components : list Z) : result unit OidErrorKind :=
  match components with
  | first :: second :: _ =>
      if 2 <? first then Err (InvalidFirstArc first)
      else if (first <=? 1) && (39 <? second) then Err (InvalidSecondArc first second)
      else if MAX_OID_SUB_IDENTIFIERS <? len components
           then Err (TooManySubIdentifiers (len components))
      else Ok tt
  | _ => Err (TooFewComponents (len components))
  end.

(** [Oid::from_slice]; [None] is the documented panic. *)
Definition from_slice (components : list Z) : option Oid :=
  match validate_oid_components components with
  | Err _ => None
  | Ok _ => Some (MkOid components)
  end.

(** [Oid::try_from(Vec<u32>)] *)
Definition try_from (components : list Z) : result Oid ParseOidError :=
  let? _ := map_err MkParseOidError (validate_oid_components components) in
  Ok (MkOid components).

(** [Oid::decompose]; [None] is the out-of-bounds panic that the construction
    invariant excludes. *)
Definition decompose (oid : Oid) : option (Z * Z * list Z) :=
  match as_slice oid with
  | first :: second :: rest => Some (first, second, rest)
  | _ => None
  end.

(** ** [str::parse::<u32>] and decimal [Display] of a [u32] *)

(** The digit loop: a non-digit is reported before an overflow of the same step. *)
Fixpoint parse_digits (digits : bytes) (acc : Z) : result Z IntErrorKind :=
  match digits with
  | [] => Ok acc
  | c :: rest =>
      if (48 <=? c) && (c <=? 57) then
        if U32_MAX <? acc * 10 then Err IntPosOverflow
        else if U32_MAX <? acc * 10 + (c - 48) then Err IntPosOverflow
        else parse_digits rest (acc * 10 + (c - 48))
      else Err IntInvalidDigit
  end.

Definition parse_u32 (s : bytes) : result Z IntErrorKind :=
  match s with
  | [] => Err IntEmpty
  | c :: rest =>
      if is_nil rest && ((c =? 43) || (c =? 45)) then Err IntInvalidDigit
      else if c =? 43 then parse_digits rest 0
      else parse_digits s 0
  end.

(** Decimal digits, least significant first into the accumulator; ten digits
    are enough for a [u32]. *)
Fixpoint show_go (fuel : nat) (n : Z) (acc : bytes) : bytes :=
  match fuel with
  | O => acc
  | S f =>
      let acc := (48 + n mod 10) :: acc in
      if n / 10 =? 0 then acc else show_go f (n / 10) acc
  end.

Definition show_u32 (n : Z) : bytes := show_go 10 n [].

(** ** Parsing and printing of dotted-decimal OIDs *)

Definition DOT : Z := 46.

Definition starts_with (c : Z) (s : bytes) : bool :=
  match s with [] => false | x :: _ => x =? c end.
Definition ends_with (c : Z) (s : bytes) : bool :=
  match last s with None => false | Some x => x =? c end.
(** [s.contains("..")] *)
Fixpoint contains_dot_dot (s : bytes) : bool :=
  match s with
  | x :: ((y :: _) as rest) => ((x =? DOT) && (y =? DOT)) || contains_dot_dot rest
  | _ => false
  end.
(** [s.split('.')]: always at least one part. *)
Fixpoint split_dot (s : bytes) : list bytes :=
  match s with
  | [] => [[]]
  | c :: rest =>
      if c =? DOT then [] :: split_dot rest
      else match split_dot rest with
           | [] => [[c]]
           | part :: parts => (c :: part) :: parts
           end
  end.

(** The closure mapped over the parts in [from_str]. *)
Definition parse_component (part : bytes) : result Z ParseOidError :=
  let? value := map_err (fun source => MkParseOidError (InvalidComponent part source))
                        (parse_u32 part) in
  if (1 <? len part) && starts_with 48 part
  then Err (MkParseOidError (LeadingZero part))
  else Ok value.

(** [FromStr for Oid] *)
Definition from_str (s : bytes) : result Oid ParseOidError :=
  if is_nil s then Err (MkParseOidError EmptyString)
  else if starts_with DOT s then Err (MkParseOidError LeadingDot)
  else if ends_with DOT s then Err (MkParseOidError TrailingDot)
  else if contains_dot_dot s then Err (MkParseOidError ConsecutiveDots)
  else
    let? components := collect_results parse_component (split_dot s) in
    let? _ := map_err MkParseOidError (validate_oid_components components) in
    Ok (MkOid components).

(** [Display for Oid] *)
Definition fmt (oid : Oid) : bytes :=
  match as_slice oid with
  | [] => []
  | first :: rest => show_u32 first ++ mjoin ((fun c => DOT :: show_u32 c) <$> rest)
  end.

(** ** The derived order *)

(** [Ord for Vec<u32>]: lexicographic, a strict prefix is smaller. *)
Fixpoint lex_compare (a b : list Z) : comparison :=
  match a, b with
  | [], [] => Eq
  | [], _ :: _ => Lt
  | _ :: _, [] => Gt
  | x :: a', y :: b' =>
      match x ?= y with Eq => lex_compare a' b' | c => c end
  end.

Definition compare (a b : Oid) : comparison := lex_compare (as_slice a) (as_slice b).
Definition oid_lt (a b : Oid) : Prop := compare a b = Lt.
#[export] Instance oid_lt_dec a b : Decision (oid_lt a b).
Proof. unfold oid_lt. apply _. Defined.

(** The construction invariant of [Oid]: [u32] components that satisfy the
    structural rules. *)
Definition oid_wf (oid : Oid) : Prop :=
  Forall is_u32 (as_slice oid) /\ validate_oid_components (as_slice oid) = Ok tt.

(** ** Decimal round trip *)

Definition is_digit (c : Z) : Prop := 48 <= c <= 57.

Lemma parse_digits_show_go f n acc :
  0 <= n <= U32_MAX -> n < 10 ^ Z.of_nat f -> (0 < f)%nat ->
  parse_digits (show_go f n acc) 0 = parse_digits acc n.
Proof.
  revert n acc. induction f as [|f IH]; intros n acc Hn Hf Hpos; [lia|].
  rewrite Nat2Z.inj_succ, Z.pow_succ_r in Hf by lia.
  pose proof (Z.div_mod n 10 ltac:(lia)) as Hdm.
  pose proof (Z.mod_pos_bound n 10 ltac:(lia)) as Hm.
  assert (Hdiv : 0 <= n / 10 <= n) by (split; [apply Z.div_pos|apply Z.div_le_upper_bound]; lia).
  assert (Hstep : forall q, q = n / 10 ->
    parse_digits ((48 + n mod 10) :: acc) q = parse_digits acc n).
  { intros q ->. simpl. bool_cases; try lia. f_equal. lia. }
  simpl. destruct (Z.eqb_spec (n / 10) 0) as [E|E]; [by apply Hstep|].
  rewrite IH; [by apply Hstep|lia|apply Z.div_lt_upper_bound; lia|].
  destruct f; [|lia]. assert (n / 10 = 0) by (apply Z.div_small; simpl in Hf; lia). lia.
Qed.

Lemma show_go_digits f n acc :
  Forall is_digit acc -> Forall is_digit (show_go f n acc).
Proof.
  revert n acc. induction f as [|f IH]; intros n acc Hacc; simpl; [done|].
  assert (Forall is_digit ((48 + n mod 10) :: acc)).
  { constructor; [|done]. pose proof (Z.mod_pos_bound n 10 ltac:(lia)). unfold is_digit. lia. }
  case_match; [done|]. by apply IH.
Qed.

(** A number is printed with a leading zero only when it is zero. *)
Lemma show_go_head f n acc :
  0 < n -> n < 10 ^ Z.of_nat f ->
  exists c rest, show_go f n acc = c :: rest /\ c <> 48.
Proof.
  revert n acc. induction f as [|f IH]; intros n acc Hn Hf; [simpl in Hf; lia|].
  rewrite Nat2Z.inj_succ, Z.pow_succ_r in Hf by lia.
  simpl. destruct (Z.eqb_spec (n / 10) 0) as [E|E].
  - eexists _, _. split; [done|].
    assert (n mod 10 = n); [|lia]. apply Z.mod_small.
    pose proof (Z.div_mod n 10 ltac:(lia)). pose proof (Z.mod_pos_bound n 10 ltac:(lia)). lia.
  - apply IH; [|apply Z.div_lt_upper_bound; lia].
    pose proof (Z.div_pos n 10 ltac:(lia) ltac:(lia)). lia.
Qed.

Lemma u32_ten_digits n : is_u32 n -> n < 10 ^ Z.of_nat 10.
Proof. unfold is_u32. change (10 ^ Z.of_nat 10) with 10000000000. lia. Qed.

Lemma show_u32_digits n : Forall is_digit (show_u32 n).
Proof. by apply show_go_digits. Qed.

Lemma show_u32_shape n :
  is_u32 n ->
  exists c rest, show_u32 n = c :: rest /\ is_digit c /\ (rest = [] \/ c <> 48).
Proof.
  intros Hn. pose proof (show_u32_digits n) as Hd. unfold show_u32 in *.
  destruct (Z.eqb_spec n 0) as [->|Hnz].
  - exists 48, []. split; [reflexivity|]. split; [unfold is_digit; lia|by left].
  - destruct (show_go_head 10 n []) as (c & rest & E & Hc); [unfold is_u32 in Hn; lia|by apply u32_ten_digits|].
    rewrite E in *. apply Forall_cons in Hd as [? ?]. eauto 10.
Qed.

Lemma parse_component_show n : is_u32 n -> parse_component (show_u32 n) = Ok n.
Proof.
  intros Hn. unfold parse_component, parse_u32.
  assert (Hp : parse_digits (show_u32 n) 0 = Ok n).
  { unfold show_u32. rewrite parse_digits_show_go; [done|zrange|by apply u32_ten_digits|lia]. }
  destruct (show_u32_shape n Hn) as (c & rest & E & Hc & Hz). rewrite E in *.
  unfold is_digit in Hc.
  replace (c =? 43) with false by (symmetry; apply Z.eqb_neq; lia).
  replace (c =? 45) with false by (symmetry; apply Z.eqb_neq; lia).
  rewrite andb_false_r, Hp. simpl. rewrite len_cons.
  destruct Hz as [->|Hz]; [done|].
  replace (c =? 48) with false by (symmetry; apply Z.eqb_neq; lia).
  by rewrite andb_false_r.
Qed.

(** ** Splitting the printed form *)

(** The printed parts: non-empty and free of dots. *)
Definition good_part (p : bytes) : Prop := p <> [] /\ Forall is_digit p.

Lemma good_part_show n : is_u32 n -> good_part (show_u32 n).
Proof.
  intros Hn. split; [|apply show_u32_digits].
  destruct (show_u32_shape n Hn) as (c & rest & -> & _). done.
Qed.

Definition join_dots (first : bytes) (rest : list bytes) : bytes :=
  first ++ mjoin ((fun p => DOT :: p) <$> rest).

Lemma join_dots_nil first : join_dots first [] = first.
Proof. unfold join_dots. simpl. apply app_nil_r. Qed.

Lemma join_dots_cons first p rest :
  join_dots first (p :: rest) = first ++ DOT :: join_dots p rest.
Proof. reflexivity. Qed.

Lemma digit_not_dot c : is_digit c -> (c =? DOT) = false.
Proof. unfold is_digit, DOT. intros. apply Z.eqb_neq. lia. Qed.

Lemma split_dot_digits p s :
  Forall is_digit p ->
  split_dot (p ++ s) = match split_dot s with [] => [p] | q :: qs => (p ++ q) :: qs end.
Proof.
  induction 1 as [|c p Hc Hp IH]; simpl.
  - destruct s as [|c s]; simpl; [done|]. destruct (c =? DOT); [done|].
    destruct (split_dot s); done.
  - rewrite digit_not_dot, IH by done. by destruct (split_dot s).
Qed.

Lemma split_dot_join first rest :
  Forall is_digit first -> Forall good_part rest ->
  split_dot (join_dots first rest) = first :: rest.
Proof.
  intros Hf Hr. revert first Hf.
  induction Hr as [|p rest [Hne Hp] Hr IH]; intros first Hf.
  - rewrite join_dots_nil. pose proof (split_dot_digits first [] Hf) as E.
    rewrite app_nil_r in E. rewrite E. simpl. by rewrite app_nil_r.
  - rewrite join_dots_cons, split_dot_digits by done. simpl.
    rewrite IH by done. by rewrite app_nil_r.
Qed.

Lemma contains_dot_dot_digit c s : is_digit c -> contains_dot_dot (c :: s) = contains_dot_dot s.
Proof. intros Hc. destruct s; [done|]. simpl. by rewrite digit_not_dot. Qed.

Lemma contains_dot_dot_digits p s :
  Forall is_digit p -> contains_dot_dot (p ++ s) = contains_dot_dot s.
Proof.
  induction 1 as [|c p Hc Hp IH]; [done|].
  rewrite <-app_comm_cons, contains_dot_dot_digit by done. done.
Qed.

Lemma contains_dot_dot_join first rest :
  Forall is_digit first -> Forall good_part rest ->
  contains_dot_dot (join_dots first rest) = false.
Proof.
  intros Hf Hr. revert first Hf.
  induction Hr as [|p rest [Hne Hp] Hr IH]; intros first Hf.
  - rewrite join_dots_nil, <-(app_nil_r first). by rewrite contains_dot_dot_digits.
  - rewrite join_dots_cons, contains_dot_dot_digits by done.
    specialize (IH p Hp). destruct p as [|c p]; [done|]. apply Forall_cons in Hp as [Hc _].
    unfold join_dots in *. simpl in *. rewrite IH, orb_false_r. by apply digit_not_dot.
Qed.

Lemma last_join first rest :
  good_part first -> Forall good_part rest ->
  exists c, last (join_dots first rest) = Some c /\ is_digit c.
Proof.
  intros Hf Hr. revert first Hf.
  induction Hr as [|p rest Hp Hr IH]; intros first [Hne Hd].
  - rewrite join_dots_nil. destruct (last first) as [c|] eqn:E.
    + exists c. split; [done|]. apply last_Some_elem_of in E. rewrite Forall_forall in Hd. by apply Hd.
    + by apply last_None in E.
  - destruct (IH p Hp) as (c & Hc & Hdc). exists c. split; [|done].
    by rewrite join_dots_cons, last_app, last_cons, Hc.
Qed.

Lemma fmt_join first rest :
  fmt (MkOid (first :: rest)) = join_dots (show_u32 first) (show_u32 <$> rest).
Proof. unfold fmt, join_dots. simpl. f_equal. by rewrite <-list_fmap_compose. Qed.

(** ** Order *)

Lemma lex_compare_refl a : lex_compare a a = Eq.
Proof. induction a as [|x a IH]; simpl; [done|]. by rewrite Z.compare_refl. Qed.

Lemma lex_compare_eq a b : lex_compare a b = Eq <-> a = b.
Proof.
  split; [|intros ->; apply lex_compare_refl].
  revert b. induction a as [|x a IH]; intros [|y b]; simpl; try done.
  destruct (Z.compare_spec x y); [|done..]. intros H'. apply IH in H'. congruence.
Qed.

Lemma lex_compare_antisym a b : lex_compare b a = CompOpp (lex_compare a b).
Proof.
  revert b. induction a as [|x a IH]; intros [|y b]; simpl; try done.
  rewrite (Z.compare_antisym x y). destruct (x ?= y); simpl; auto.
Qed.

Lemma lex_compare_trans a b c :
  lex_compare a b = Lt -> lex_compare b c = Lt -> lex_compare a c = Lt.
Proof.
  revert b c. induction a as [|x a IH]; intros [|y b] [|z c]; simpl; try done.
  destruct (Z.compare_spec x y), (Z.compare_spec y z), (Z.compare_spec x z);
    intros; subst; try lia; try discriminate; eauto.
Qed.

Lemma compare_eq a b : compare a b = Eq <-> a = b.
Proof. destruct a, b. unfold compare. simpl. rewrite lex_compare_eq. naive_solver. Qed.

#[export] Instance oid_lt_strict : StrictOrder oid_lt.
Proof.
  split.
  - intros a H. unfold oid_lt, compare in H. by rewrite lex_compare_refl in H.
  - intros a b c. apply lex_compare_trans.
Qed.

Lemma oid_lt_gt a b : compare a b = Gt <-> oid_lt b a.
Proof.
  unfold oid_lt, compare. rewrite (lex_compare_antisym (as_slice a)).
  by destruct (lex_compare (as_slice a) (as_slice b)).
Qed.

Lemma oid_compare_spec a b : CompareSpec (a = b) (oid_lt a b) (oid_lt b a) (compare a b).
Proof.
  destruct (compare a b) eqn:E; constructor; [by apply compare_eq|done|by apply oid_lt_gt].
Qed.

(** ** Construction invariant *)

Lemma validate_ok_shape cs :
  validate_oid_components cs = Ok tt ->
  exists first second rest, cs = first :: second :: rest /\ first <= 2 /\
    (first <= 1 -> second <= 39) /\ len cs <= MAX_OID_SUB_IDENTIFIERS.
Proof.
  unfold validate_oid_components. destruct cs as [|a [|b rest]]; [done..|]. intros H.
  destruct (Z.ltb_spec 2 a); [done|].
  destruct (Z.leb_spec a 1), (Z.ltb_spec 39 b); simpl in H; try done;
    destruct (Z.ltb_spec MAX_OID_SUB_IDENTIFIERS (len (a :: b :: rest))); try done;
    eexists _, _, _; (split; [done|]); repeat split; lia.
Qed.

Lemma parse_digits_range s acc n : 0 <= acc <= U32_MAX -> parse_digits s acc = Ok n -> is_u32 n.
Proof.
  revert acc. induction s as [|c s IH]; intros acc Hacc; simpl.
  - intros. simplify_eq. zrange.
  - destruct (Z.leb_spec 48 c), (Z.leb_spec c 57); simpl; try done.
    destruct (Z.ltb_spec U32_MAX (acc * 10)); [done|].
    destruct (Z.ltb_spec U32_MAX (acc * 10 + (c - 48))); [done|].
    apply IH. lia.
Qed.

Lemma parse_u32_range s n : parse_u32 s = Ok n -> is_u32 n.
Proof.
  assert (0 <= 0 <= U32_MAX) by (unfold U32_MAX; lia).
  unfold parse_u32. destruct s as [|c s]; [done|].
  case_match; [done|]. case_match; by apply parse_digits_range.
Qed.

Lemma parse_component_range p n : parse_component p = Ok n -> is_u32 n.
Proof.
  unfold parse_component. destruct (parse_u32 p) as [v|] eqn:E; simpl; [|done].
  case_match; [done|]. intros. simplify_eq. by apply parse_u32_range in E.
Qed.

Lemma try_from_wf cs oid : Forall is_u32 cs -> try_from cs = Ok oid -> oid_wf oid /\ as_slice oid = cs.
Proof.
  intros Hcs. unfold try_from. destruct (validate_oid_components cs) as [[]|] eqn:E; simpl; [|done].
  intros. simplify_eq. done.
Qed.

Lemma try_from_id oid : oid_wf oid -> try_from (as_slice oid) = Ok oid.
Proof. intros [_ Hv]. destruct oid as [cs]. unfold try_from. simpl in *. by rewrite Hv. Qed.

Lemma oid_wf_decompose oid :
  oid_wf oid ->
  exists first second rest, decompose oid = Some (first, second, rest) /\
    as_slice oid = first :: second :: rest /\ 0 <= first <= 2 /\ is_u32 second /\
    (first <= 1 -> second <= 39) /\ Forall is_u32 rest /\ len rest <= 126.
Proof.
  intros [Hu Hv]. destruct (validate_ok_shape _ Hv) as (a & b & rest & E & Ha & Hb & Hl).
  unfold decompose. rewrite E in *. exists a, b, rest.
  apply Forall_cons in Hu as [Hua Hu]. apply Forall_cons in Hu as [Hub Hu].
  rewrite !len_cons in Hl. unfold MAX_OID_SUB_IDENTIFIERS in Hl.
  unfold is_u32 in Hua. repeat split; try done; try lia; unfold is_u32 in Hub; lia.
Qed.

(** ** Properties *)

(** Parsing the printed form of any well-formed OID gives the OID
    back: [from_str] is a left inverse of [Display]. *)
Theorem from_str_fmt (oid : Oid) : oid_wf oid -> from_str (fmt oid) = Ok oid.
Proof.
  intros [Hu Hv]. destruct (validate_ok_shape _ Hv) as (a & b & rest & E & _).
  destruct oid as [cs]. simpl in *. subst cs. rewrite fmt_join.
  apply Forall_cons in Hu as [Ha Hu].
  assert (Hga : good_part (show_u32 a)) by by apply good_part_show.
  assert (Hg : Forall good_part (show_u32 <$> b :: rest)).
  { apply Forall_fmap. eapply Forall_impl; [exact Hu|]. intros. by apply good_part_show. }
  unfold from_str.
  rewrite contains_dot_dot_join, split_dot_join by (try apply Hga; done).
  destruct (last_join _ _ Hga Hg) as (c & Hlast & Hc).
  unfold ends_with. rewrite Hlast, digit_not_dot by done.
  destruct (show_u32_shape a Ha) as (d & p & Ed & Hd & _).
  assert (Hn : is_nil (join_dots (show_u32 a) (show_u32 <$> b :: rest)) = false)
    by (unfold join_dots; by rewrite Ed).
  assert (Hs : starts_with DOT (join_dots (show_u32 a) (show_u32 <$> b :: rest)) = false)
    by (unfold join_dots; rewrite Ed; by apply digit_not_dot).
  rewrite Hn, Hs, <-fmap_cons, collect_results_map.
  assert (Hcol : collect_results (fun c => parse_component (show_u32 c)) (a :: b :: rest)
                 = Ok (a :: b :: rest)).
  { apply collect_results_Ok, Forall_Forall2_diag, Forall_cons.
    split; [by apply parse_component_show|].
    eapply Forall_impl; [exact Hu|]. intros. by apply parse_component_show. }
  rewrite Hcol. unfold map_err. by rewrite Hv.
Qed.

Lemma from_str_fmt_witness :
  from_str (str "1.3.6.1.2.1") = Ok (MkOid [1; 3; 6; 1; 2; 1]).
Proof.
  apply (from_str_fmt (MkOid [1; 3; 6; 1; 2; 1])).
  split; [repeat constructor; done|reflexivity].
Defined.

(** Every OID that [from_str] accepts satisfies the construction
    invariant: at least two [u32] arcs, the first at most 2, the second at most
    39 under arcs 0 and 1, and at most 128 sub-identifiers. *)
Theorem from_str_wf (s : bytes) (oid : Oid) : from_str s = Ok oid -> oid_wf oid.
Proof.
  unfold from_str. intros H. repeat (case_match; [discriminate|]).
  destruct (collect_results _ _) as [cs|] eqn:Ec; [|done].
  destruct (validate_oid_components cs) as [[]|] eqn:Ev; simpl in H; [|done]. simplify_eq.
  split; [|done]. apply collect_results_Ok in Ec.
  eapply Forall2_Forall_r; [exact Ec|]. apply Forall_true. intros p n. apply parse_component_range.
Qed.

Lemma from_str_wf_witness : oid_wf (MkOid [2; 999]).
Proof. apply (from_str_wf (str "2.999")). reflexivity. Defined.

(** The leading-zero rejection only inspects the first character of a
    component, while [str::parse] accepts a leading plus sign: a component that
    hides its leading zeros behind a plus sign is accepted, so two different
    spellings denote the same OID. *)
Theorem from_str_plus_sign_accepts_leading_zero :
  from_str (str "1.06") = Err (MkParseOidError (LeadingZero (str "06"))) /\
  from_str (str "1.+06") = Ok (MkOid [1; 6]) /\
  from_str (str "+1.6") = from_str (str "1.6").
Proof. repeat split; reflexivity. Qed.
