(* ===== verification/Ber.v ===== *)
(** * BER primitives: [src/src/codec/ber.rs]

    Tag constants, [BerError], [BerWriter], [BerReader], and the length, integer
    and OID encoders and decoders.  An error keeps its [is_wrong_version] flag
    and a [BerMessage] with one constructor per message the code formats, whose
    arguments are the interpolated values; [LogText] has the texts.

    A reader operation maps a [BerReader] to [Ok (value, reader')] or [Err]; after
    an [Err] every caller drops the reader, so its position is not observable. *)

From S2P Require Import Prelude Oid.

(** ** Tags *)

Definition TAG_INTEGER : Z := 0x02.
Definition TAG_OCTET_STRING : Z := 0x04.
Definition TAG_NULL : Z := 0x05.
Definition TAG_OID : Z := 0x06.
Definition TAG_SEQUENCE : Z := 0x30.
Definition TAG_GET_REQUEST : Z := 0xA0.
Definition TAG_GET_NEXT_REQUEST : Z := 0xA1.
Definition TAG_RESPONSE : Z := 0xA2.
Definition TAG_SET_REQUEST : Z := 0xA3.
Definition TAG_GET_BULK_REQUEST : Z := 0xA5.
Definition TAG_INFORM_REQUEST : Z := 0xA6.
Definition TAG_TRAP : Z := 0xA7.
Definition TAG_REPORT : Z := 0xA8.
Definition TAG_NO_SUCH_OBJECT : Z := 0x80.
Definition TAG_NO_SUCH_INSTANCE : Z := 0x81.
Definition TAG_END_OF_MIB_VIEW : Z := 0x82.
Definition TAG_IP_ADDRESS : Z := 0x40.
Definition TAG_COUNTER32 : Z := 0x41.
Definition TAG_GAUGE32 : Z := 0x42.
Definition TAG_TIMETICKS : Z := 0x43.
Definition TAG_OPAQUE : Z := 0x44.
Definition TAG_COUNTER64 : Z := 0x46.

(** ** Errors *)

Inductive BerMessage :=
(* ber.rs *)
| UnexpectedEndPeekingTag (offset : Z)
| UnexpectedEndReadingLength (offset : Z)
| ReservedLengthByte (offset : Z)
| IndefiniteLength (offset : Z)
| LengthFieldTooLarge (count offset : Z)
| TruncatedLength (count offset : Z)
| LengthOverflow (offset : Z)
| TruncatedValue (length remaining tag offset : Z)
| ExpectedType (type_name : bytes) (expected got offset : Z)
| ExpectedTag (expected got offset : Z)
| NullNonEmpty (n offset : Z)
| IntegerZeroLength (offset : Z)
| IntegerTooLargeI32 (n offset : Z)
| NegativeUnsigned (offset : Z)
| IntegerTooLarge (bits n offset : Z)
| UnsignedExceedsU32 (value offset : Z)
| OidZeroLength (offset : Z)
| OidZeroConsumed (offset : Z)
| OidNoSubIdentifiers (offset : Z)
| OidFirstArcOverflow (offset : Z)
| OidSecondArcOverflow (offset : Z)
| OidArcOverflow (offset : Z)
| OidInvalid (offset : Z) (e : ParseOidError)
| OidTruncated (offset : Z)
| OidSubIdOverflow (offset : Z)
(* ber/varbind.rs *)
| TrailingAfterVarBindList
| ExceptionNonEmpty (tag n : Z)
| UnexpectedExceptionTag (tag : Z)
| TrailingInVarBind (n : Z)
| IpAddressLength (n : Z)
| UnsupportedApplicationTag (tag : Z)
| InvalidExceptionTag (tag : Z)
(* ber/pdu.rs *)
| TrailingAfterPdu
| UnrecognisedPduTag (tag : Z)
| MissingVarBindList
| TrailingInPdu
| InvalidStandardPduTag (tag : Z)
(* ber/snmp.rs *)
| WrongMessageVersion (version : Z)
| NegativeMsgId
| MaxSizeTooSmall
| MsgFlagsLength (n : Z)
| UserNameTooLong (n : Z)
| BadScopedDataTag (tag : Z).

Record BerError := MkBerError { message : BerMessage; is_wrong_version : bool }.

(** [BerError::new] and [BerError::wrong_version] *)
Definition ber_error (m : BerMessage) : BerError :=
  {| message := m; is_wrong_version := false |}.
Definition ber_wrong_version (m : BerMessage) : BerError :=
  {| message := m; is_wrong_version := true |}.

(** ** Length encoding *)

Definition encode_length (dest : bytes) (length : Z) : bytes :=
  if length <=? 127 then dest ++ [length]
  else
    let length_bytes := to_be_bytes 8 length in
    let leading_zero_bytes := leading_zeros64 length / 8 in
    let significant_bytes := expect_or [] (get_from length_bytes leading_zero_bytes) in
    dest ++ [0x80 + len significant_bytes] ++ significant_bytes.

(** ** Integer encoding *)

Definition encode_signed_i32 (value : Z) : bytes :=
  let raw_bytes := to_be_bytes 4 value in
  let strip_byte := if 0 <=? value then 0x00 else 0xFF in
  let skip_count :=
    count_while (fun byte => byte =? strip_byte) (take (length raw_bytes - 1) raw_bytes) in
  let needs_sign_preservation :=
    match get raw_bytes skip_count with
    | Some byte =>
        ((0 <? value) && negb (Z.land byte 0x80 =? 0))
        || ((value <? 0) && (Z.land byte 0x80 =? 0))
    | None => false
    end in
  let start := if needs_sign_preservation then saturating_sub skip_count 1 else skip_count in
  expect_or [] (get_from raw_bytes start).

Definition encode_unsigned_bytes (raw_bytes : bytes) : bytes :=
  let skip_count :=
    count_while (fun byte => byte =? 0) (take (length raw_bytes - 1) raw_bytes) in
  let significant := expect_or [] (get_from raw_bytes skip_count) in
  match significant with
  | first_byte :: _ =>
      if negb (Z.land first_byte 0x80 =? 0) then 0x00 :: significant else significant
  | [] => significant
  end.

Definition encode_unsigned_u32 (value : Z) : bytes := encode_unsigned_bytes (to_be_bytes 4 value).
Definition encode_unsigned_u64 (value : Z) : bytes := encode_unsigned_bytes (to_be_bytes 8 value).

(** ** OID encoding *)

(** The [while remaining > 0] loop; a [u64] has at most ten 7-bit groups. *)
Fixpoint base128_groups (fuel : nat) (remaining : Z) : list Z :=
  match fuel with
  | O => []
  | S f =>
      if 0 <? remaining
      then Z.land remaining 0x7F :: base128_groups f (Z.shiftr remaining 7)
      else []
  end.

Definition encode_base128 (dest : bytes) (value : Z) : bytes :=
  if value =? 0 then dest ++ [0x00]
  else
    let groups := base128_groups 10 value in
    dest ++ rev (imap (fun index group => group + (if decide (index = 0%nat) then 0x00 else 0x80)) groups).

Definition encode_oid (oid : Oid) : bytes :=
  match decompose oid with
  | None => [] (* excluded by the construction invariant of [Oid] *)
  | Some (first_arc, second_arc, remaining_arcs) =>
      let first_combined := first_arc * 40 + second_arc in
      fold_left encode_base128 remaining_arcs (encode_base128 [] first_combined)
  end.

(** ** [BerWriter] *)

Record BerWriter := MkBerWriter { buffer : bytes }.

Definition writer_new : BerWriter := {| buffer := [] |}.
Definition with_capacity (cap : Z) : BerWriter := {| buffer := [] |}.
Definition write_raw (w : BerWriter) (bs : bytes) : BerWriter := {| buffer := buffer w ++ bs |}.
Definition write_tlv (w : BerWriter) (tag : Z) (value : bytes) : BerWriter :=
  let b1 := buffer w ++ [tag] in
  let b2 := encode_length b1 (len value) in
  {| buffer := b2 ++ value |}.
Definition write_sequence (w : BerWriter) (contents : bytes) : BerWriter :=
  write_tlv w TAG_SEQUENCE contents.
Definition write_constructed (w : BerWriter) (tag : Z) (contents : bytes) : BerWriter :=
  write_tlv w tag contents.
Definition write_integer (w : BerWriter) (value : Z) : BerWriter :=
  write_tlv w TAG_INTEGER (encode_signed_i32 value).
Definition write_unsigned32 (w : BerWriter) (value : Z) : BerWriter :=
  write_tlv w TAG_INTEGER (encode_unsigned_u32 value).
Definition write_unsigned64 (w : BerWriter) (value : Z) : BerWriter :=
  write_tlv w TAG_INTEGER (encode_unsigned_u64 value).
Definition write_tagged_unsigned32 (w : BerWriter) (tag value : Z) : BerWriter :=
  write_tlv w tag (encode_unsigned_u32 value).
Definition write_tagged_unsigned64 (w : BerWriter) (tag value : Z) : BerWriter :=
  write_tlv w tag (encode_unsigned_u64 value).
Definition write_octet_string (w : BerWriter) (bs : bytes) : BerWriter :=
  write_tlv w TAG_OCTET_STRING bs.
Definition write_null (w : BerWriter) : BerWriter := {| buffer := buffer w ++ [TAG_NULL] ++ [0x00] |}.
Definition write_oid (w : BerWriter) (oid : Oid) : BerWriter := write_tlv w TAG_OID (encode_oid oid).
Definition writer_as_bytes (w : BerWriter) : bytes := buffer w.
Definition writer_len (w : BerWriter) : Z := len (buffer w).
Definition into_vec (w : BerWriter) : bytes := buffer w.

(** ** Integer decoding *)

Definition decode_signed_i32 (integer_bytes : bytes) (error_offset : Z) : result Z BerError :=
  if is_nil integer_bytes then Err (ber_error (IntegerZeroLength error_offset))
  else
    let is_negative :=
      match head integer_bytes with Some byte => negb (Z.land byte 0x80 =? 0) | None => false end in
    let significant :=
      if 1 <? len integer_bytes then
        let redundant_byte := if is_negative then 0xFF else 0x00 in
        let sign_bit_of_next := if is_negative then 0x80 else 0x00 in
        let first_significant :=
          default (len integer_bytes - 1)
            (position_of (fun '(leading, next) =>
                 negb (leading =? redundant_byte) || negb (Z.land next 0x80 =? sign_bit_of_next))
               (zip integer_bytes (drop 1 integer_bytes))) in
        expect_or [] (get_from integer_bytes first_significant)
      else integer_bytes in
    if 4 <? len significant then Err (ber_error (IntegerTooLargeI32 (len significant) error_offset))
    else
      let sign_byte :=
        match head significant with
        | Some byte => if negb (Z.land byte 0x80 =? 0) then 0xFF else 0x00
        | None => 0x00
        end in
      let word := replicate (4 - length significant) sign_byte ++ significant in
      Ok (i32_from_be_bytes word).

(** [decode_unsigned::<N>] *)
Definition decode_unsigned (N : Z) (integer_bytes : bytes) (error_offset : Z) : result Z BerError :=
  match head integer_bytes with
  | None => Err (ber_error (IntegerZeroLength error_offset))
  | Some first_byte =>
      if negb (Z.land first_byte 0x80 =? 0) then Err (ber_error (NegativeUnsigned error_offset))
      else
        let significant :=
          if 1 <? len integer_bytes then
            let first_nonzero :=
              default (len integer_bytes - 1)
                (position_of (fun b => negb (b =? 0)) integer_bytes) in
            expect_or [] (get_from integer_bytes first_nonzero)
          else integer_bytes in
        if N <? len significant
        then Err (ber_error (IntegerTooLarge (N * 8) (len significant) error_offset))
        else
          let word := replicate (8 - length significant) 0 ++ significant in
          Ok (from_be_bytes word)
  end.

Definition decode_unsigned_u32 (integer_bytes : bytes) (error_offset : Z) : result Z BerError :=
  let? value := decode_unsigned 4 integer_bytes error_offset in
  ok_or (u32_try_from value) (ber_error (UnsignedExceedsU32 value error_offset)).

Definition decode_unsigned_u64 (integer_bytes : bytes) (error_offset : Z) : result Z BerError :=
  decode_unsigned 8 integer_bytes error_offset.

(** ** OID decoding *)

(** [u64::checked_shl(rhs)]: [None] only when the shift amount is 64 or more; the
    bits shifted out of the word are lost. *)
Definition u64_checked_shl (v rhs : Z) : option Z :=
  if rhs <? 64 then Some (Z.shiftl v rhs mod 18446744073709551616) else None.

(** The [loop] of [decode_base128]: [bs] is what [bytes.get(bytes_consumed)] has
    not read yet. *)
Fixpoint decode_base128_loop (bs : bytes) (accumulator bytes_consumed error_offset : Z)
    : result (Z * Z) BerError :=
  match bs with
  | [] => Err (ber_error (OidTruncated error_offset))
  | byte :: rest =>
      let bytes_consumed := bytes_consumed + 1 in
      match u64_checked_shl accumulator 7 ≫= (fun shifted => u64_checked_add shifted (Z.land byte 0x7F)) with
      | None => Err (ber_error (OidSubIdOverflow error_offset))
      | Some accumulator =>
          if Z.land byte 0x80 =? 0 then Ok (accumulator, bytes_consumed)
          else decode_base128_loop rest accumulator bytes_consumed error_offset
      end
  end.

Definition decode_base128 (bs : bytes) (error_offset : Z) : result (Z * Z) BerError :=
  decode_base128_loop bs 0 0 error_offset.

(** The [while !remaining.is_empty()] loop of [decode_oid].  Each iteration
    consumes at least one byte, so the fuel [length oid_bytes] is never exhausted
    ([decode_sub_identifiers_fuel]). *)
Fixpoint decode_sub_identifiers (fuel : nat) (remaining : bytes) (error_offset : Z)
    : result (list Z) BerError :=
  if is_nil remaining then Ok []
  else
    match fuel with
    | O => Err (ber_error (OidZeroConsumed error_offset))
    | S f =>
        let? '(sub_id, bytes_consumed) := decode_base128 remaining error_offset in
        if bytes_consumed =? 0 then Err (ber_error (OidZeroConsumed error_offset))
        else
          let? rest := decode_sub_identifiers f
                         (expect_or [] (get_from remaining bytes_consumed)) error_offset in
          Ok (sub_id :: rest)
    end.

Definition decode_oid (oid_bytes : bytes) (error_offset : Z) : result Oid BerError :=
  if is_nil oid_bytes then Err (ber_error (OidZeroLength error_offset))
  else
    let? sub_identifiers := decode_sub_identifiers (length oid_bytes) oid_bytes error_offset in
    match sub_identifiers with
    | [] => Err (ber_error (OidNoSubIdentifiers error_offset))
    | first_combined :: other_sub_ids =>
        let '(first_arc, second_arc) :=
          if first_combined <? 40 then (0, first_combined)
          else if first_combined <? 80 then (1, first_combined - 40)
          else (2, first_combined - 80) in
        let? first_arc_u32 := ok_or (u32_try_from first_arc) (ber_error (OidFirstArcOverflow error_offset)) in
        let? second_arc_u32 := ok_or (u32_try_from second_arc) (ber_error (OidSecondArcOverflow error_offset)) in
        let? arcs := collect_results
                       (fun sub_id => ok_or (u32_try_from sub_id) (ber_error (OidArcOverflow error_offset)))
                       other_sub_ids in
        map_err (fun oid_error => ber_error (OidInvalid error_offset oid_error))
                (try_from (first_arc_u32 :: second_arc_u32 :: arcs))
    end.

(** ** [BerReader] *)

Record BerReader := MkBerReader { input : bytes; position : Z; base_offset : Z }.

Definition reader_new (inp : bytes) : BerReader :=
  {| input := inp; position := 0; base_offset := 0 |}.
Definition new_with_offset (inp : bytes) (base : Z) : BerReader :=
  {| input := inp; position := 0; base_offset := base |}.

(** [self.position += n] *)
Definition advance (r : BerReader) (n : Z) : BerReader :=
  {| input := input r; position := position r + n; base_offset := base_offset r |}.

Definition offset (r : BerReader) : Z := base_offset r + position r.
Definition reader_is_empty (r : BerReader) : bool := len (input r) <=? position r.
Definition remaining (r : BerReader) : bytes := expect_or [] (get_from (input r) (position r)).

Definition peek_tag (r : BerReader) : result Z BerError :=
  ok_or (get (input r) (position r)) (ber_error (UnexpectedEndPeekingTag (offset r))).

Definition read_tag (r : BerReader) : result (Z * BerReader) BerError :=
  let? tag := peek_tag r in
  Ok (tag, advance r 1).

(** The accumulation loop of [read_long_form_length]. *)
Fixpoint accumulate_length (length_bytes : bytes) (length off : Z) : result Z BerError :=
  match length_bytes with
  | [] => Ok length
  | length_byte :: rest =>
      match usize_checked_mul length 256 ≫= (fun shifted => usize_checked_add shifted length_byte) with
      | None => Err (ber_error (LengthOverflow off))
      | Some length => accumulate_length rest length off
      end
  end.

Definition read_long_form_length (r : BerReader) (first_byte : Z) : result (Z * BerReader) BerError :=
  if first_byte =? 0xFF then Err (ber_error (ReservedLengthByte (offset r)))
  else
    let extra_byte_count := Z.land first_byte 0x7F in
    if extra_byte_count =? 0 then Err (ber_error (IndefiniteLength (offset r)))
    else if 8 <? extra_byte_count
         then Err (ber_error (LengthFieldTooLarge extra_byte_count (offset r)))
    else
      let? length_bytes :=
        ok_or (get_range (input r) (position r) (position r + extra_byte_count))
              (ber_error (TruncatedLength extra_byte_count (offset r))) in
      let r := advance r extra_byte_count in
      let? length := accumulate_length length_bytes 0 (offset r) in
      Ok (length, r).

Definition read_length (r : BerReader) : result (Z * BerReader) BerError :=
  let? first_byte :=
    ok_or (get (input r) (position r)) (ber_error (UnexpectedEndReadingLength (offset r))) in
  let r := advance r 1 in
  if Z.land first_byte 0x80 =? 0 then Ok (first_byte, r)
  else read_long_form_length r first_byte.

Definition read_tlv (r : BerReader) : result ((Z * bytes) * BerReader) BerError :=
  let? '(tag, r) := read_tag r in
  let? '(length, r) := read_length r in
  let? value_slice :=
    ok_or (usize_checked_add (position r) length ≫= (fun end_ => get_range (input r) (position r) end_))
          (ber_error (TruncatedValue length (saturating_sub (len (input r)) (position r)) tag (offset r))) in
  Ok ((tag, value_slice), advance r length).

Definition read_expected_tlv (r : BerReader) (expected_tag : Z) (type_name : bytes)
    : result ((Z * bytes) * BerReader) BerError :=
  let tag_start_offset := offset r in
  let? '((tag, value_bytes), r) := read_tlv r in
  if negb (tag =? expected_tag)
  then Err (ber_error (ExpectedType type_name expected_tag tag tag_start_offset))
  else Ok ((tag_start_offset, value_bytes), r).

(** [read_constructed] returns the sub-reader and the advanced reader. *)
Definition read_constructed (r : BerReader) (expected_tag : Z) : result (BerReader * BerReader) BerError :=
  let tag_start_offset := offset r in
  let? '((tag, contents), r) := read_tlv r in
  if negb (tag =? expected_tag)
  then Err (ber_error (ExpectedTag expected_tag tag tag_start_offset))
  else
    let contents_offset := base_offset r + position r - len contents in
    Ok (new_with_offset contents contents_offset, r).

Definition read_sequence (r : BerReader) : result (BerReader * BerReader) BerError :=
  read_constructed r TAG_SEQUENCE.

Definition read_integer (r : BerReader) : result (Z * BerReader) BerError :=
  let? '((tag_start_offset, integer_bytes), r) := read_expected_tlv r TAG_INTEGER (str "INTEGER") in
  let? v := decode_signed_i32 integer_bytes tag_start_offset in
  Ok (v, r).

Definition read_unsigned32 (r : BerReader) : result (Z * BerReader) BerError :=
  let? '((tag_start_offset, integer_bytes), r) := read_expected_tlv r TAG_INTEGER (str "INTEGER") in
  let? v := decode_unsigned_u32 integer_bytes tag_start_offset in
  Ok (v, r).

Definition read_unsigned64 (r : BerReader) : result (Z * BerReader) BerError :=
  let? '((tag_start_offset, integer_bytes), r) := read_expected_tlv r TAG_INTEGER (str "INTEGER") in
  let? v := decode_unsigned_u64 integer_bytes tag_start_offset in
  Ok (v, r).

Definition read_tagged_unsigned32 (r : BerReader) (expected_tag : Z) : result (Z * BerReader) BerError :=
  let? '((tag_start_offset, integer_bytes), r) :=
    read_expected_tlv r expected_tag (str "tagged unsigned32") in
  let? v := decode_unsigned_u32 integer_bytes tag_start_offset in
  Ok (v, r).

Definition read_tagged_unsigned64 (r : BerReader) (expected_tag : Z) : result (Z * BerReader) BerError :=
  let? '((tag_start_offset, integer_bytes), r) :=
    read_expected_tlv r expected_tag (str "tagged unsigned64") in
  let? v := decode_unsigned_u64 integer_bytes tag_start_offset in
  Ok (v, r).

Definition read_octet_string (r : BerReader) : result (bytes * BerReader) BerError :=
  let? '((_, string_bytes), r) := read_expected_tlv r TAG_OCTET_STRING (str "OCTET STRING") in
  Ok (string_bytes, r).

Definition read_null (r : BerReader) : result (unit * BerReader) BerError :=
  let? '((tag_start_offset, null_contents), r) := read_expected_tlv r TAG_NULL (str "NULL") in
  if negb (is_nil null_contents)
  then Err (ber_error (NullNonEmpty (len null_contents) tag_start_offset))
  else Ok (tt, r).

Definition read_oid (r : BerReader) : result (Oid * BerReader) BerError :=
  let? '((tag_start_offset, oid_bytes), r) := read_expected_tlv r TAG_OID (str "OID") in
  let? oid := decode_oid oid_bytes tag_start_offset in
  Ok (oid, r).
