(* ===== verification/BerFacts.v ===== *)
(** * Theory of the BER primitives

    Reference definitions for lengths, integers and sub-identifiers
    ([length_octets], [be_signed], [tlv]), the equivalence of the code's encoders
    and decoders with them, the reader invariant, and the round trips of every
    primitive TLV. *)

From S2P Require Import Prelude Oid Ber.

(** [isize::MAX]: no Rust slice is longer. *)
Definition ISIZE_MAX : Z := 9223372036854775807.

(** ** Definite lengths *)

Definition length_octets (n : Z) : bytes := encode_length [] n.

Lemma encode_length_app dest n : encode_length dest n = dest ++ length_octets n.
Proof. unfold length_octets, encode_length. by case_match. Qed.

Lemma length_octets_short n : n <= 127 -> length_octets n = [n].
Proof. intros. unfold length_octets, encode_length. by btrue (n <=? 127). Qed.

(** The long form is the shortest: [k] octets with a non-zero leading one. *)
Lemma length_octets_long n :
  127 < n <= USIZE_MAX ->
  exists k, (1 <= k <= 8)%nat /\ length_octets n = (128 + Z.of_nat k) :: to_be_bytes k n /\
    256 ^ (Z.of_nat k - 1) <= n < 256 ^ Z.of_nat k.
Proof.
  intros [Hlo Hhi]. unfold length_octets, encode_length.
  bfalse (n <=? 127). cbv zeta. rewrite app_nil_l.
  unfold leading_zeros64. bfalse (n =? 0).
  pose proof (Z.log2_spec n ltac:(lia)) as [Hl1 Hl2]. set (l := Z.log2 n) in *.
  assert (Hl : 0 <= l < 64).
  { split; [apply Z.log2_nonneg|]. apply Z.log2_lt_pow2; [lia|]. unfold USIZE_MAX, U64_MAX in Hhi. lia. }
  assert (Hq : (63 - l) / 8 = 7 - l / 8) by (Z.div_mod_to_equations; lia).
  assert (0 <= l / 8 <= 7) by (Z.div_mod_to_equations; lia).
  rewrite Hq. exists (Z.to_nat (1 + l / 8)). unfold get_from. rewrite len_to_be_bytes.
  btrue ((0 <=? 7 - l / 8) && (7 - l / 8 <=? Z.of_nat 8)).
  cbn [expect_or]. rewrite drop_to_be_bytes by lia.
  replace (8 - Z.to_nat (7 - l / 8))%nat with (Z.to_nat (1 + l / 8)) by lia.
  rewrite len_to_be_bytes. split; [lia|]. split; [done|].
  rewrite Z2Nat.id by lia. change 256 with (2 ^ 8). rewrite <-!Z.pow_mul_r by lia.
  assert (8 * (l / 8) <= l < 8 * (l / 8) + 8) by (Z.div_mod_to_equations; lia).
  replace (8 * (1 + l / 8 - 1)) with (8 * (l / 8)) by lia.
  pose proof (Z.pow_le_mono_r 2 (8 * (l / 8)) l ltac:(lia) ltac:(lia)).
  pose proof (Z.pow_le_mono_r 2 (Z.succ l) (8 * (1 + l / 8)) ltac:(lia) ltac:(lia)). lia.
Qed.

Lemma length_octets_len n : 0 <= n <= USIZE_MAX -> 1 <= len (length_octets n) <= 9.
Proof.
  intros Hn. destruct (Z.leb_spec n 127).
  - rewrite length_octets_short by done. zrange.
  - destruct (length_octets_long n) as (k & Hk & -> & _); [lia|].
    rewrite len_cons, len_to_be_bytes. lia.
Qed.

Lemma length_octets_u8 n : 0 <= n <= USIZE_MAX -> Forall is_u8 (length_octets n).
Proof.
  intros Hn. destruct (Z.leb_spec n 127).
  - rewrite length_octets_short by done. repeat constructor; zrange.
  - destruct (length_octets_long n) as (k & Hk & -> & _); [lia|].
    constructor; [zrange|apply to_be_bytes_u8].
Qed.

Lemma accumulate_length_ok bs acc off :
  Forall is_u8 bs -> 0 <= acc -> acc * 256 ^ len bs + from_be_bytes bs <= USIZE_MAX ->
  accumulate_length bs acc off = Ok (acc * 256 ^ len bs + from_be_bytes bs).
Proof.
  intros Hbs. revert acc. induction Hbs as [|b bs Hb Hbs IH]; intros acc Hacc Hmax.
  - simpl. f_equal. unfold from_be_bytes. rewrite len_nil. simpl. lia.
  - rewrite from_be_bytes_cons, len_cons, Z.pow_add_r in * by (try apply len_nonneg; lia).
    change (256 ^ 1) with 256 in *. unfold is_u8 in Hb.
    pose proof (from_be_bytes_bound bs Hbs) as Hf.
    assert (Hp : 0 < 256 ^ len bs) by (apply Z.pow_pos_nonneg; [lia|apply len_nonneg]).
    assert (Hstep : (acc * 256 + b) * 256 ^ len bs <= USIZE_MAX) by lia.
    assert (acc * 256 + b <= USIZE_MAX) by nia.
    simpl. unfold usize_checked_mul, usize_checked_add.
    btrue (acc * 256 <=? USIZE_MAX). simpl.
    btrue (acc * 256 + b <=? USIZE_MAX).
    rewrite IH by lia. f_equal. lia.
Qed.

(** The overflow guard of [read_long_form_length] is unreachable, as its comment
    says: at most eight octets are accumulated. *)
Lemma accumulate_length_no_overflow bs off :
  Forall is_u8 bs -> len bs <= 8 -> accumulate_length bs 0 off = Ok (from_be_bytes bs).
Proof.
  intros Hbs Hl. pose proof (from_be_bytes_bound bs Hbs) as Hf.
  pose proof (Z.pow_le_mono_r 256 (len bs) 8 ltac:(lia) Hl).
  change (256 ^ 8) with 18446744073709551616 in *.
  rewrite accumulate_length_ok; [f_equal; lia|done|lia|zrange].
Qed.

(** ** Readers *)

Definition reader_ok (r : BerReader) : Prop :=
  0 <= position r <= len (input r) /\ len (input r) <= ISIZE_MAX.

(** What the reader has not consumed. *)
Definition rest (r : BerReader) : bytes := drop (Z.to_nat (position r)) (input r).

Lemma rest_split r : reader_ok r -> exists pre, input r = pre ++ rest r /\ len pre = position r.
Proof.
  intros [Hp _]. exists (take (Z.to_nat (position r)) (input r)). unfold rest.
  rewrite take_drop. split; [done|]. unfold len in *. rewrite length_take. lia.
Qed.

Lemma rest_len r : reader_ok r -> len (rest r) = len (input r) - position r.
Proof. intros (pre & E & Hp)%rest_split. rewrite E, len_app. lia. Qed.

Lemma remaining_rest r : reader_ok r -> remaining r = rest r.
Proof.
  intros (pre & E & Hp)%rest_split. unfold remaining. rewrite E.
  by rewrite <-Hp, get_from_app.
Qed.

Lemma reader_is_empty_rest r : reader_ok r -> reader_is_empty r = is_nil (rest r).
Proof.
  intros Hr. pose proof (rest_len r Hr) as Hl. destruct Hr as [Hp _]. unfold reader_is_empty.
  destruct (rest r) as [|x l].
  - rewrite len_nil in Hl. simpl. lia.
  - rewrite len_cons in Hl. pose proof (len_nonneg l). simpl. lia.
Qed.

Lemma rest_advance r a b : reader_ok r -> rest r = a ++ b -> rest (advance r (len a)) = b.
Proof.
  intros Hr E. destruct (rest_split r Hr) as (pre & Ei & Hp). unfold rest, advance. simpl.
  rewrite Ei, E, app_assoc. replace (position r + len a) with (len (pre ++ a)) by (rewrite len_app; lia).
  apply drop_len_app.
Qed.

Lemma reader_ok_advance r a b : reader_ok r -> rest r = a ++ b -> reader_ok (advance r (len a)).
Proof.
  intros Hr E. pose proof (rest_len r Hr) as Hl. rewrite E, len_app in Hl.
  destruct Hr as [Hp Hm]. unfold reader_ok, advance. simpl.
  pose proof (len_nonneg a). pose proof (len_nonneg b). lia.
Qed.

Lemma reader_new_ok b : len b <= ISIZE_MAX -> reader_ok (reader_new b).
Proof. intros. split; [|done]. simpl. pose proof (len_nonneg b). lia. Qed.

Lemma rest_reader_new b : rest (reader_new b) = b.
Proof. done. Qed.

Lemma new_with_offset_ok b o : len b <= ISIZE_MAX -> reader_ok (new_with_offset b o).
Proof. intros. split; [|done]. simpl. pose proof (len_nonneg b). lia. Qed.

Lemma advance_advance r a b : advance (advance r a) b = advance r (a + b).
Proof. unfold advance. simpl. f_equal. lia. Qed.

Lemma get_rest r x l : reader_ok r -> rest r = x :: l -> get (input r) (position r) = Some x.
Proof.
  intros Hr E. pose proof (rest_len r Hr) as Hl. rewrite E, len_cons in Hl.
  pose proof (len_nonneg l). destruct Hr as [Hp _]. unfold get.
  btrue ((0 <=? position r) && (position r <? len (input r))).
  unfold rest in E. by rewrite <-(Nat.add_0_r (Z.to_nat _)), <-lookup_drop, E.
Qed.

Lemma get_rest_Some r x :
  reader_ok r -> get (input r) (position r) = Some x -> exists l, rest r = x :: l.
Proof.
  intros Hr Hg. destruct (rest r) as [|y l] eqn:E.
  - pose proof (rest_len r Hr) as Hl. rewrite E, len_nil in Hl. unfold get in Hg.
    replace (position r <? len (input r)) with false in Hg by lia. by rewrite andb_false_r in Hg.
  - rewrite (get_rest r y l Hr E) in Hg. simplify_eq. eauto.
Qed.

Lemma get_range_rest r a b :
  reader_ok r -> rest r = a ++ b ->
  get_range (input r) (position r) (position r + len a) = Some a.
Proof.
  intros Hr E. destruct (rest_split r Hr) as (pre & Ei & Hp). rewrite Ei, E, <-Hp. apply get_range_app.
Qed.

Lemma get_range_rest_Some r n a :
  reader_ok r -> get_range (input r) (position r) (position r + n) = Some a ->
  exists b, rest r = a ++ b /\ len a = n.
Proof.
  intros Hr (pre & post & Ei & Hp & Hl & _)%get_range_Some. exists post. split; [|lia].
  unfold rest. rewrite Ei, <-Hp. apply drop_len_app.
Qed.

(** ** TLVs *)

(** The octets [write_tlv] appends. *)
Definition tlv (tag : Z) (value : bytes) : bytes := tag :: length_octets (len value) ++ value.

Lemma write_tlv_buffer w tag value : buffer (write_tlv w tag value) = buffer w ++ tlv tag value.
Proof.
  unfold write_tlv, tlv. simpl. rewrite encode_length_app, <-!app_assoc. done.
Qed.

Lemma tlv_len tag value :
  len value <= USIZE_MAX -> 2 + len value <= len (tlv tag value) <= 10 + len value.
Proof.
  intros. unfold tlv. rewrite len_cons, len_app.
  pose proof (length_octets_len (len value) ltac:(pose proof (len_nonneg value); lia)). lia.
Qed.

Lemma read_tag_rest r x l :
  reader_ok r -> rest r = x :: l -> read_tag r = Ok (x, advance r 1).
Proof. intros Hr E. unfold read_tag, peek_tag. by rewrite (get_rest r x l Hr E). Qed.

Lemma rest_advance_1 r x l :
  reader_ok r -> rest r = x :: l -> reader_ok (advance r 1) /\ rest (advance r 1) = l.
Proof.
  intros Hr E. change 1 with (len [x]).
  split; [by apply (reader_ok_advance r [x] l)|by apply (rest_advance r [x] l)].
Qed.

(** [read_length] inverts [encode_length]. *)
Lemma read_length_octets r n post :
  reader_ok r -> 0 <= n <= USIZE_MAX -> rest r = length_octets n ++ post ->
  read_length r = Ok (n, advance r (len (length_octets n))).
Proof.
  intros Hr Hn E. unfold read_length. destruct (Z.leb_spec n 127) as [Hs|Hl].
  - rewrite length_octets_short in * by done. rewrite (get_rest r n post Hr E). simpl.
    rewrite land_0x80_u8 by zrange. by btrue (n <? 128).
  - destruct (length_octets_long n) as (k & Hk & Eo & Hb); [lia|]. rewrite Eo in *.
    rewrite (get_rest r _ _ Hr E). simpl. destruct (rest_advance_1 r _ _ Hr E) as [Hr1 E1].
    rewrite land_0x80_u8 by zrange. bfalse (128 + Z.of_nat k <? 128).
    unfold read_long_form_length. bfalse (128 + Z.of_nat k =? 255).
    rewrite land_0x7F. replace ((128 + Z.of_nat k) mod 128) with (Z.of_nat k)
      by (Z.div_mod_to_equations; lia).
    bfalse (Z.of_nat k =? 0). bfalse (8 <? Z.of_nat k).
    replace (Z.of_nat k) with (len (to_be_bytes k n)) at 1 by apply len_to_be_bytes.
    rewrite (get_range_rest _ _ _ Hr1 E1). simpl.
    rewrite accumulate_length_no_overflow; [|apply to_be_bytes_u8|rewrite len_to_be_bytes; lia].
    rewrite from_to_be_bytes_id by lia. rewrite advance_advance, len_cons, len_to_be_bytes. done.
Qed.

(** [read_tlv] inverts [write_tlv]. *)
Lemma read_tlv_tlv r tag v post :
  reader_ok r -> rest r = tlv tag v ++ post ->
  read_tlv r = Ok ((tag, v), advance r (len (tlv tag v))).
Proof.
  intros Hr E. unfold tlv in E. rewrite <-app_comm_cons, <-app_assoc in E.
  assert (Hlen : len v <= ISIZE_MAX - position r - 1 - len (length_octets (len v))).
  { pose proof (rest_len r Hr) as Hl. rewrite E in Hl. autorewrite with snmp_len in Hl.
    pose proof (len_nonneg post). destruct Hr. lia. }
  pose proof (len_nonneg v). pose proof (len_nonneg (length_octets (len v))).
  unfold read_tlv. rewrite (read_tag_rest _ _ _ Hr E).
  destruct (rest_advance_1 _ _ _ Hr E) as [Hr1 E1]. destruct Hr as [Hp _].
  unfold ISIZE_MAX in Hlen.
  rewrite (read_length_octets _ (len v) _ Hr1 ltac:(zrange) E1).
  pose proof (reader_ok_advance _ _ _ Hr1 E1) as Hr2. pose proof (rest_advance _ _ _ Hr1 E1) as E2.
  rewrite advance_advance in *. unfold usize_checked_add. simpl position in *.
  btrue (position r + (1 + len (length_octets (len v))) + len v <=? USIZE_MAX).
  cbn [mbind option_bind]. pose proof (get_range_rest _ _ _ Hr2 E2) as Hg. simpl position in Hg.
  rewrite Hg. simpl. rewrite advance_advance. unfold tlv. rewrite len_cons, len_app.
  do 2 f_equal. f_equal. lia.
Qed.

(** Conversely, whatever [read_tlv] accepts is a header followed by the value. *)
Lemma read_length_sound r n r' :
  reader_ok r -> Forall is_u8 (rest r) -> read_length r = Ok (n, r') ->
  exists hdr, rest r = hdr ++ rest r' /\ r' = advance r (len hdr) /\ 1 <= len hdr <= 9 /\
    0 <= n <= USIZE_MAX /\ reader_ok r'.
Proof.
  intros Hr Hu H. unfold read_length in H.
  destruct (get (input r) (position r)) as [b|] eqn:Eb; simpl in H; [|done].
  destruct (get_rest_Some r b Hr Eb) as [l El]. rewrite El in Hu.
  apply Forall_cons in Hu as [Hb Hl]. destruct (rest_advance_1 r _ _ Hr El) as [Hr1 E1].
  destruct (Z.land b 0x80 =? 0).
  { injection H as <- <-. exists [b]. rewrite E1, El. split_and!; try done; zrange. }
  unfold read_long_form_length in H. do 3 (case_match; [done|]).
  assert (0 <= Z.land b 127 < 128) by (rewrite land_0x7F; apply Z.mod_pos_bound; lia).
  destruct (get_range _ _ _) as [bs|] eqn:Eg; simpl in H; [|done].
  destruct (get_range_rest_Some _ _ _ Hr1 Eg) as (post & Ep & Hbs).
  rewrite E1 in Ep. rewrite Ep in E1, El, Hl. apply Forall_app in Hl as [Hlu _].
  rewrite accumulate_length_no_overflow in H by (try done; lia). injection H as <- <-.
  pose proof (from_be_bytes_bound bs Hlu).
  pose proof (Z.pow_le_mono_r 256 (len bs) 8 ltac:(lia) ltac:(lia)).
  change (256 ^ 8) with 18446744073709551616 in *.
  exists (b :: bs). rewrite <-Hbs, (rest_advance _ _ _ Hr1 E1), El, advance_advance, len_cons.
  split_and!; try done; try zrange. rewrite <-advance_advance. by eapply reader_ok_advance.
Qed.

Lemma read_tlv_sound r tag v r' :
  reader_ok r -> Forall is_u8 (rest r) -> read_tlv r = Ok ((tag, v), r') ->
  exists hdr, rest r = hdr ++ v ++ rest r' /\ r' = advance r (len hdr + len v) /\
    2 <= len hdr <= 10 /\ head hdr = Some tag /\ reader_ok r'.
Proof.
  intros Hr Hu H. unfold read_tlv, read_tag, peek_tag in H.
  destruct (get (input r) (position r)) as [b|] eqn:Eb; simpl in H; [|done].
  destruct (get_rest_Some r b Hr Eb) as [l El]. rewrite El in Hu.
  apply Forall_cons in Hu as [Hb Hl]. destruct (rest_advance_1 r _ _ Hr El) as [Hr1 E1].
  destruct (read_length (advance r 1)) as [[n r2]|] eqn:En; [|done].
  rewrite <-E1 in Hl.
  destruct (read_length_sound _ _ _ Hr1 Hl En) as (hdr & Eh & Er2 & Hhdr & Hn & Hr2).
  destruct (usize_checked_add _ _) as [e|] eqn:Ea; simpl in H; [|done].
  apply usize_checked_add_Some in Ea as [-> _].
  destruct (get_range _ _ _) as [v'|] eqn:Eg; simpl in H; [|done]. injection H as -> -> <-.
  destruct (get_range_rest_Some _ _ _ Hr2 Eg) as (post & Ep & <-).
  exists (tag :: hdr). rewrite (rest_advance _ _ _ Hr2 Ep), El, <-E1, Eh, Ep.
  split; [by rewrite <-app_comm_cons|]. rewrite Er2, !advance_advance, len_cons.
  split; [f_equal; lia|]. split; [lia|]. split; [done|].
  rewrite Er2, !advance_advance in *. rewrite Z.add_assoc, <-advance_advance.
  by eapply reader_ok_advance.
Qed.

(** ** INTEGER contents *)

(** Two's-complement value of a big-endian octet string of any length. *)
Definition be_signed (bs : bytes) : Z :=
  from_be_bytes bs - match bs with b :: _ => if 128 <=? b then 256 ^ len bs else 0 | [] => 0 end.

(** The octets left after removing redundant leading sign octets. *)
Fixpoint strip_sign (is_negative : bool) (bs : bytes) : bytes :=
  match bs with
  | b :: ((c :: _) as t) =>
      if (b =? (if is_negative then 0xFF else 0x00)) && Bool.eqb (128 <=? c) is_negative
      then strip_sign is_negative t else bs
  | _ => bs
  end.

Lemma get_from_position_cons {A} (o : option Z) (x : A) (l : list A) n :
  (forall i, o = Some i -> 0 <= i <= len l) -> 0 <= n <= len l ->
  get_from (x :: l) (default (1 + n) (Z.add 1 <$> o)) = get_from l (default n o).
Proof.
  intros Ho Hn. assert (Hi : 0 <= default n o <= len l) by (destruct o; simpl; auto).
  replace (default (1 + n) (Z.add 1 <$> o)) with (1 + default n o) by (by destruct o).
  unfold get_from. rewrite len_cons. set (i := default n o) in *.
  btrue ((0 <=? i) && (i <=? len l)). btrue ((0 <=? 1 + i) && (1 + i <=? 1 + len l)).
  by replace (Z.to_nat (1 + i)) with (S (Z.to_nat i)) by lia.
Qed.

(** The [zip]/[position] search of [decode_signed_i32] is [strip_sign]. *)
Lemma strip_sign_code (neg : bool) bs :
  Forall is_u8 bs -> bs <> [] ->
  get_from bs (default (len bs - 1)
    (position_of (fun '(leading, next) =>
        negb (leading =? (if neg then 0xFF else 0x00))
        || negb (Z.land next 0x80 =? (if neg then 0x80 else 0x00)))
      (zip bs (drop 1 bs)))) = Some (strip_sign neg bs).
Proof.
  intros Hu. induction Hu as [|b t Hb Ht IH]; intros Hne; [done|].
  destruct t as [|c t']; [done|].
  apply Forall_cons in Ht as Hc. destruct Hc as [Hc _].
  change (zip (b :: c :: t') (drop 1 (b :: c :: t')))
    with ((b, c) :: zip (c :: t') (drop 1 (c :: t'))).
  change (strip_sign neg (b :: c :: t')) with
    (if (b =? (if neg then 0xFF else 0x00)) && Bool.eqb (128 <=? c) neg
     then strip_sign neg (c :: t') else b :: c :: t').
  cbn [position_of].
  assert (E : (Z.land c 0x80 =? (if neg then 0x80 else 0x00)) = Bool.eqb (128 <=? c) neg).
  { destruct neg; [rewrite land_0x80_u8_set by done; by destruct (128 <=? c)|].
    rewrite land_0x80_u8 by done. destruct (Z.leb_spec 128 c), (Z.ltb_spec c 128); done || lia. }
  rewrite E, <-negb_andb. destruct (_ && _); cbn [negb]; [|done].
  rewrite len_cons. replace (1 + len (c :: t') - 1) with (1 + (len (c :: t') - 1)) by lia.
  rewrite get_from_position_cons; [by apply IH| |rewrite !len_cons; pose proof (len_nonneg t'); lia].
  intros i Hi%position_of_bounds. unfold len in *. rewrite length_zip_with, length_drop in Hi. lia.
Qed.

Lemma strip_sign_head neg b t :
  Forall is_u8 (b :: t) -> (128 <=? b) = neg ->
  let s := strip_sign neg (b :: t) in
  Forall is_u8 s /\ be_signed s = be_signed (b :: t) /\
  exists c u, s = c :: u /\ (128 <=? c) = neg /\
    match u with [] => True | d :: _ => c = (if neg then 0xFF else 0) -> (128 <=? d) <> neg end.
Proof.
  revert b. induction t as [|c t IH]; intros b Hu Hneg s; subst s.
  { simpl. split_and!; [done..|]. by exists b, []. }
  change (strip_sign neg (b :: c :: t)) with
    (if (b =? (if neg then 0xFF else 0x00)) && Bool.eqb (128 <=? c) neg
     then strip_sign neg (c :: t) else b :: c :: t).
  destruct ((b =? _) && _) eqn:E.
  - apply andb_true_iff in E as [Eb Ec]. apply eqb_prop in Ec. apply Z.eqb_eq in Eb.
    apply Forall_cons in Hu as [_ Hu]. destruct (IH c Hu Ec) as (Hs & Hv & Hr).
    split_and!; [done| |done]. rewrite Hv. unfold be_signed. rewrite (from_be_bytes_cons b).
    rewrite Hneg, Ec, (len_cons b), Z.pow_add_r by (try apply len_nonneg; lia).
    destruct neg; subst b; lia.
  - split_and!; [done..|]. exists b, (c :: t). split_and!; [done..|]. intros -> Hc.
    apply andb_false_iff in E as [E|E]; [lia|]. rewrite Hc in E. by destruct neg.
Qed.

Lemma be_signed_bounds b t :
  Forall is_u8 (b :: t) ->
  if 128 <=? b then (b - 256) * 256 ^ len t <= be_signed (b :: t) < (b - 255) * 256 ^ len t
  else b * 256 ^ len t <= be_signed (b :: t) < (b + 1) * 256 ^ len t.
Proof.
  intros [Hb Ht]%Forall_cons. pose proof (from_be_bytes_bound t Ht). unfold be_signed.
  rewrite from_be_bytes_cons, len_cons, Z.pow_add_r by (try apply len_nonneg; lia).
  case_match; lia.
Qed.

(** Minimal two's complement of more than four octets is outside [i32]. *)
Lemma minimal_signed_range neg c u :
  Forall is_u8 (c :: u) -> (128 <=? c) = neg ->
  match u with [] => True | d :: _ => c = (if neg then 0xFF else 0) -> (128 <=? d) <> neg end ->
  is_i32 (be_signed (c :: u)) <-> len (c :: u) <= 4.
Proof.
  intros Hu Hneg Hmin. pose proof (be_signed_bounds c u Hu) as Hb. rewrite Hneg in Hb.
  destruct (Z.leb_spec (len (c :: u)) 4) as [Hl|Hl]; rewrite len_cons in Hl.
  - split; [rewrite len_cons; lia|]. intros _.
    pose proof (Z.pow_le_mono_r 256 (len u) 3 ltac:(lia) ltac:(lia)).
    assert (0 < 256 ^ len u) by (apply Z.pow_pos_nonneg; [lia|apply len_nonneg]).
    change (256 ^ 3) with 16777216 in *. apply Forall_cons in Hu as [Hc _].
    unfold is_u8, is_i32 in *. destruct neg; nia.
  - split; [|rewrite len_cons; lia]. intros Hi. exfalso. destruct u as [|d u]; [by rewrite len_nil in Hl|].
    rewrite len_cons in Hl.
    pose proof (be_signed_bounds d u ltac:(by apply Forall_cons in Hu as [_ Hu])) as Hd.
    pose proof (Z.pow_le_mono_r 256 3 (len u) ltac:(lia) ltac:(lia)) as Hp.
    change (256 ^ 3) with 16777216 in *. apply Forall_cons in Hu as [Hc Hu].
    apply Forall_cons in Hu as [Hd8 Hu]. pose proof (from_be_bytes_bound u Hu).
    unfold be_signed, is_i32, is_u8 in *. rewrite Hneg, !from_be_bytes_cons, !len_cons in *.
    rewrite !Z.pow_add_r in * by (try apply len_nonneg; lia). change (256 ^ 1) with 256 in *.
    destruct neg; [destruct (Z.eqb_spec c 255)|destruct (Z.eqb_spec c 0)];
      try (specialize (Hmin ltac:(done)); destruct (Z.leb_spec 128 d); try done); nia.
Qed.

Lemma be_signed_extend neg c u k :
  is_u8 c -> (128 <=? c) = neg ->
  be_signed (replicate k (if neg then 0xFF else 0) ++ c :: u) = be_signed (c :: u).
Proof.
  intros Hc Hneg. induction k as [|k IH]; [done|]. rewrite <-IH. cbn [replicate app].
  unfold be_signed. set (w := replicate k _ ++ _).
  rewrite (from_be_bytes_cons (if neg then _ else _)), (len_cons (if neg then _ else _)), Z.pow_add_r
    by (try apply len_nonneg; lia).
  assert (Hw : exists d w', w = d :: w' /\ (128 <=? d) = neg).
  { subst w. destruct k; simpl; [eauto|]. eexists _, _. split; [done|]. by destruct neg. }
  destruct Hw as (d & w' & -> & Hd). rewrite Hd. destruct neg; simpl; lia.
Qed.

Lemma i32_from_be_bytes_signed bs :
  Forall is_u8 bs -> len bs = 4 -> i32_from_be_bytes bs = be_signed bs.
Proof.
  intros Hu Hl. destruct bs as [|b t]; [done|]. unfold i32_from_be_bytes, be_signed.
  rewrite from_be_bytes_cons, len_cons in *. replace (len t) with 3 by lia.
  apply Forall_cons in Hu as [Hb Ht]. pose proof (from_be_bytes_bound t Ht) as Hf.
  replace (len t) with 3 in Hf by lia. change (256 ^ 3) with 16777216 in *.
  change (256 ^ (1 + 3)) with 4294967296. unfold is_u8 in Hb. cbv zeta.
  destruct (Z.leb_spec 128 b), (Z.ltb_spec (b * 16777216 + from_be_bytes t) 2147483648); lia.
Qed.

(** [decode_signed_i32] on any non-empty octets: the two's-complement value when it
    is an [i32], and the size error otherwise, with any number of redundant leading
    octets accepted. *)
Lemma decode_signed_i32_value b t off :
  Forall is_u8 (b :: t) ->
  decode_signed_i32 (b :: t) off =
    if decide (is_i32 (be_signed (b :: t))) then Ok (be_signed (b :: t))
    else Err (ber_error (IntegerTooLargeI32 (len (strip_sign (128 <=? b) (b :: t))) off)).
Proof.
  intros Hu. set (neg := 128 <=? b). unfold decode_signed_i32. cbn [is_nil head].
  apply Forall_cons in Hu as Hb. destruct Hb as [Hb _].
  replace (negb (Z.land b 0x80 =? 0)) with neg
    by (rewrite land_0x80_u8 by done; subst neg; destruct (Z.leb_spec 128 b), (Z.ltb_spec b 128); done || lia).
  cbv zeta. replace (if 1 <? len (b :: t) then _ else _) with (strip_sign neg (b :: t)); last first.
  { destruct (Z.ltb_spec 1 (len (b :: t))) as [H|H].
    - by rewrite strip_sign_code.
    - destruct t; [done|]. rewrite !len_cons in H. pose proof (len_nonneg t). lia. }
  destruct (strip_sign_head neg b t Hu eq_refl) as (Hs & Hv & c & u & Es & Hc & Hmin).
  rewrite Es in *. pose proof (minimal_signed_range neg c u Hs Hc Hmin) as Hr. rewrite <-Hv.
  apply Forall_cons in Hs as Hc8. destruct Hc8 as [Hc8 _].
  destruct (Z.ltb_spec 4 (len (c :: u))); [by rewrite decide_False by (rewrite Hr; lia)|].
  rewrite decide_True by (apply Hr; lia). cbn [head]. f_equal.
  replace (if negb _ then 0xFF else 0) with (if neg then 0xFF else 0)
    by (rewrite land_0x80_u8 by done; rewrite <-Hc; destruct (Z.leb_spec 128 c), (Z.ltb_spec c 128); done || lia).
  rewrite i32_from_be_bytes_signed.
  - by apply be_signed_extend.
  - apply Forall_app. split; [|done]. apply Forall_replicate. destruct neg; zrange.
  - unfold len in *. rewrite length_app, length_replicate. lia.
Qed.

(** Evaluates a slice access at a known index of a list with a known spine. *)
Ltac eval_slice f :=
  match goal with
  | |- context [f ?A ?l ?i] =>
      let r := eval vm_compute in (f A l i) in change (f A l i) with r; cbv beta iota
  end.

Lemma be_signed_explicit bs :
  be_signed bs = fold_left (fun acc b => acc * 256 + b) bs 0 -
    match bs with b :: t => if 128 <=? b then fold_left (fun acc _ => acc * 256) bs 1 else 0 | [] => 0 end.
Proof.
  unfold be_signed. f_equal. destruct bs as [|b t]; [done|]. case_match; [|done].
  assert (Hw : forall l acc, fold_left (fun acc (_ : Z) => acc * 256) l acc = acc * 256 ^ len l).
  { induction l as [|x l IH]; intros acc; simpl; [rewrite len_nil; lia|].
    rewrite IH, len_cons, Z.pow_add_r by (try apply len_nonneg; lia). lia. }
  rewrite Hw. lia.
Qed.

Lemma encode_signed_i32_spec v :
  is_i32 v ->
  let s := encode_signed_i32 v in
  Forall is_u8 s /\ be_signed s = v /\ 1 <= len s <= 4.
Proof.
  intros Hv s. subst s. unfold encode_signed_i32. cbv zeta.
  pose proof (from_to_be_bytes 4 v) as Hf. pose proof (to_be_bytes_u8 4 v) as Hu.
  assert (exists b0 b1 b2 b3, to_be_bytes 4 v = [b0; b1; b2; b3]) as (b0 & b1 & b2 & b3 & E)
    by (by repeat eexists). rewrite E in *. clear E.
  change (from_be_bytes [b0; b1; b2; b3]) with ((((0 * 256 + b0) * 256 + b1) * 256 + b2) * 256 + b3) in Hf.
  rewrite !Forall_cons in Hu. destruct Hu as (H0 & H1 & H2 & H3 & _).
  assert (Hsum : ((b0 * 256 + b1) * 256 + b2) * 256 + b3 = if 0 <=? v then v else v + 4294967296).
  { change (256 ^ Z.of_nat 4) with 4294967296 in Hf. unfold is_i32 in Hv.
    destruct (Z.leb_spec 0 v); [rewrite Z.mod_small in Hf by lia; lia|].
    rewrite <-(Z.mod_add v 1), Z.mod_small in Hf by lia. lia. }
  clear Hf. cbn [length Nat.sub take count_while].
  destruct (Z.leb_spec 0 v) as [Hp|Hp];
    [destruct (Z.eqb_spec b0 0); [destruct (Z.eqb_spec b1 0); [destruct (Z.eqb_spec b2 0)|]|]
    |destruct (Z.eqb_spec b0 255); [destruct (Z.eqb_spec b1 255); [destruct (Z.eqb_spec b2 255)|]|]];
    eval_slice @get; rewrite land_0x80_u8 by done;
    match goal with |- context [?b <? 128] => destruct (Z.ltb_spec b 128) end;
    destruct (Z.ltb_spec 0 v), (Z.ltb_spec v 0); try lia;
    cbn [negb andb orb]; eval_slice @get_from; cbn [expect_or]; rewrite be_signed_explicit; cbn [fold_left];
    match goal with |- context [128 <=? ?b] => destruct (Z.leb_spec 128 b) end;
    split_and!; try (by repeat apply Forall_cons_2); zrange.
Qed.

Lemma decode_encode_signed_i32 v off : is_i32 v -> decode_signed_i32 (encode_signed_i32 v) off = Ok v.
Proof.
  intros Hv. destruct (encode_signed_i32_spec v Hv) as (Hu & Hs & Hl).
  destruct (encode_signed_i32 v) as [|b t]; [rewrite len_nil in Hl; lia|].
  by rewrite decode_signed_i32_value, Hs, decide_True.
Qed.

(** Removing leading zero octets, keeping the last octet. *)
Fixpoint strip_zeros (bs : bytes) : bytes :=
  match bs with
  | b :: ((_ :: _) as t) => if b =? 0 then strip_zeros t else bs
  | _ => bs
  end.

Lemma strip_zeros_spec bs :
  Forall is_u8 bs -> bs <> [] ->
  let s := strip_zeros bs in
  Forall is_u8 s /\ from_be_bytes s = from_be_bytes bs /\ len s <= len bs /\
  exists c u, s = c :: u /\ (c <> 0 \/ u = []).
Proof.
  intros Hu. induction Hu as [|b t Hb Ht IH]; intros Hne; [done|]. cbv zeta in *.
  destruct t as [|c t'].
  { simpl. split_and!; [by constructor|done|done|]. exists b, []. auto. }
  change (strip_zeros (b :: c :: t')) with (if b =? 0 then strip_zeros (c :: t') else b :: c :: t').
  destruct (Z.eqb_spec b 0).
  - destruct IH as (H1 & H2 & H3 & H4); [done|]. split_and!; [done| |rewrite len_cons; lia|done].
    rewrite H2, (from_be_bytes_cons b). lia.
  - split_and!; [by constructor|done|done|]. eauto 10.
Qed.

Lemma strip_zeros_position bs :
  bs <> [] ->
  get_from bs (default (len bs - 1) (position_of (fun b => negb (b =? 0)) bs)) = Some (strip_zeros bs).
Proof.
  induction bs as [|b t IH]; intros Hne; [done|]. cbn [position_of].
  destruct t as [|c t'].
  { simpl. by destruct (b =? 0). }
  change (strip_zeros (b :: c :: t')) with (if b =? 0 then strip_zeros (c :: t') else b :: c :: t').
  destruct (b =? 0); cbn [negb]; [|done].
  rewrite len_cons. replace (1 + len (c :: t') - 1) with (1 + (len (c :: t') - 1)) by lia.
  rewrite get_from_position_cons; [by apply IH| |rewrite !len_cons; pose proof (len_nonneg t'); lia].
  intros i Hi%position_of_bounds. lia.
Qed.

Lemma strip_zeros_count_while bs :
  bs <> [] ->
  get_from bs (count_while (fun byte => byte =? 0) (take (length bs - 1) bs)) = Some (strip_zeros bs).
Proof.
  induction bs as [|b t IH]; intros Hne; [done|]. destruct t as [|c t']; [done|].
  change (strip_zeros (b :: c :: t')) with (if b =? 0 then strip_zeros (c :: t') else b :: c :: t').
  replace (length (b :: c :: t') - 1)%nat with (S (length (c :: t') - 1)) by (simpl; lia).
  cbn [take count_while]. destruct (b =? 0); [|done]. rewrite <-IH by done.
  set (n := count_while _ _).
  assert (0 <= n <= len (c :: t')).
  { subst n. pose proof (count_while_bounds (fun byte => byte =? 0) (take (length (c :: t') - 1) (c :: t'))) as H.
    unfold len in *. rewrite length_take in H. lia. }
  apply (get_from_position_cons None b (c :: t') n); done.
Qed.

(** [decode_unsigned::<N>] on any octets: the value when the octets are non-empty,
    not negative and the value fits [N] octets; the matching error otherwise. *)
Lemma decode_unsigned_value N bs off :
  Forall is_u8 bs -> 1 <= N <= 8 ->
  decode_unsigned N bs off =
    match bs with
    | [] => Err (ber_error (IntegerZeroLength off))
    | b :: _ =>
        if 128 <=? b then Err (ber_error (NegativeUnsigned off))
        else if from_be_bytes bs <? 256 ^ N then Ok (from_be_bytes bs)
        else Err (ber_error (IntegerTooLarge (N * 8) (len (strip_zeros bs)) off))
    end.
Proof.
  intros Hu HN. unfold decode_unsigned. destruct bs as [|b t]; [done|]. cbn [head].
  apply Forall_cons in Hu as Hb. destruct Hb as [Hb _]. rewrite land_0x80_u8 by done.
  destruct (Z.ltb_spec b 128), (Z.leb_spec 128 b); try lia; [|done]. cbn [negb].
  replace (if 1 <? len (b :: t) then _ else _) with (strip_zeros (b :: t)); last first.
  { destruct (Z.ltb_spec 1 (len (b :: t))) as [Hl|Hl].
    - by rewrite strip_zeros_position.
    - destruct t; [done|]. rewrite !len_cons in Hl. pose proof (len_nonneg t). lia. }
  destruct (strip_zeros_spec (b :: t) Hu) as (Hs & Hv & Hl & c & u & Es & Hc); [done|].
  rewrite Es in *. apply Forall_cons in Hs as Hc8. destruct Hc8 as [Hc8 Hu8].
  pose proof (from_be_bytes_bound u Hu8) as Hub. rewrite from_be_bytes_zeros, <-Hv. rewrite from_be_bytes_cons.
  assert (Hlen : N < len (c :: u) <-> 256 ^ N <= c * 256 ^ len u + from_be_bytes u).
  { rewrite len_cons. unfold is_u8 in Hc8. split; intros Hx.
    - destruct Hc as [Hc| ->]; [|rewrite len_nil in Hx; lia].
      pose proof (Z.pow_le_mono_r 256 N (len u) ltac:(lia) ltac:(lia)). nia.
    - apply Z.nle_gt. intros Hle.
      pose proof (Z.pow_le_mono_r 256 (1 + len u) N ltac:(lia) ltac:(lia)) as Hp.
      rewrite Z.pow_add_r in Hp by (try apply len_nonneg; lia). nia. }
  destruct (Z.ltb_spec N (len (c :: u))), (Z.ltb_spec (c * 256 ^ len u + from_be_bytes u) (256 ^ N));
    done || lia.
Qed.

Lemma decode_unsigned_u32_value bs off :
  Forall is_u8 bs ->
  decode_unsigned_u32 bs off =
    match bs with
    | [] => Err (ber_error (IntegerZeroLength off))
    | b :: _ =>
        if 128 <=? b then Err (ber_error (NegativeUnsigned off))
        else if from_be_bytes bs <=? U32_MAX then Ok (from_be_bytes bs)
        else Err (ber_error (IntegerTooLarge 32 (len (strip_zeros bs)) off))
    end.
Proof.
  intros Hu. unfold decode_unsigned_u32. rewrite decode_unsigned_value by (done || lia).
  destruct bs as [|b t]; [done|]. destruct (128 <=? b); [done|].
  pose proof (from_be_bytes_bound (b :: t) Hu). change (256 ^ 4) with 4294967296.
  destruct (Z.ltb_spec (from_be_bytes (b :: t)) 4294967296),
    (Z.leb_spec (from_be_bytes (b :: t)) U32_MAX); try zrange; [|done].
  by rewrite u32_try_from_Some by zrange.
Qed.

Lemma encode_unsigned_bytes_spec raw :
  Forall is_u8 raw -> raw <> [] ->
  let s := encode_unsigned_bytes raw in
  Forall is_u8 s /\ from_be_bytes s = from_be_bytes raw /\ 1 <= len s <= len raw + 1 /\
  exists c u, s = c :: u /\ (128 <=? c) = false.
Proof.
  intros Hu Hne. unfold encode_unsigned_bytes. rewrite strip_zeros_count_while by done. cbn [expect_or].
  destruct (strip_zeros_spec raw Hu Hne) as (Hs & Hv & Hl & c & u & Es & _). rewrite Es in *.
  apply Forall_cons in Hs as Hc8. destruct Hc8 as [Hc8 _]. cbv zeta.
  pose proof (len_nonneg u). rewrite !len_cons in *.
  rewrite land_0x80_u8 by done. destruct (Z.ltb_spec c 128); cbn [negb].
  - rewrite len_cons. split_and!; [done|done|lia|lia|]. exists c, u. split; [done|]. lia.
  - rewrite !len_cons, (from_be_bytes_cons 0). split_and!; [by constructor|lia|lia|lia|].
    by exists 0, (c :: u).
Qed.

Lemma decode_encode_unsigned_u32 v off :
  is_u32 v -> decode_unsigned_u32 (encode_unsigned_u32 v) off = Ok v.
Proof.
  intros Hv. unfold encode_unsigned_u32.
  destruct (encode_unsigned_bytes_spec (to_be_bytes 4 v)) as (Hu & He & _ & c & u & Es & Hc);
    [apply to_be_bytes_u8|done|].
  rewrite from_to_be_bytes_id in He by (change (256 ^ Z.of_nat 4) with 4294967296; zrange).
  rewrite decode_unsigned_u32_value, He, Es, Hc by done. by btrue (v <=? U32_MAX).
Qed.

Lemma decode_encode_unsigned_u64 v off :
  is_u64 v -> decode_unsigned_u64 (encode_unsigned_u64 v) off = Ok v.
Proof.
  intros Hv. unfold decode_unsigned_u64, encode_unsigned_u64.
  destruct (encode_unsigned_bytes_spec (to_be_bytes 8 v)) as (Hu & He & _ & c & u & Es & Hc);
    [apply to_be_bytes_u8|done|].
  rewrite from_to_be_bytes_id in He by (change (256 ^ Z.of_nat 8) with 18446744073709551616; zrange).
  rewrite decode_unsigned_value, He, Es, Hc by (done || lia).
  change (256 ^ 8) with 18446744073709551616. by btrue (v <? 18446744073709551616).
Qed.

(** ** OBJECT IDENTIFIER contents *)

Definition base128 (v : Z) : bytes := encode_base128 [] v.

Lemma encode_base128_app dest v : encode_base128 dest v = dest ++ base128 v.
Proof. unfold base128, encode_base128. by case_match. Qed.

(** Value of 7-bit groups, least significant first. *)
Fixpoint le_value (gs : list Z) : Z :=
  match gs with [] => 0 | g :: gs' => g + 128 * le_value gs' end.

Definition is_group (g : Z) : Prop := 0 <= g < 128.

Lemma le_value_nonneg gs : Forall is_group gs -> 0 <= le_value gs.
Proof. induction 1 as [|g gs Hg _ IH]; simpl; [done|]. unfold is_group in Hg. lia. Qed.

Lemma base128_groups_spec f v :
  0 <= v < 128 ^ Z.of_nat f ->
  Forall is_group (base128_groups f v) /\ le_value (base128_groups f v) = v /\
  (forall m, 0 <= m -> v < 128 ^ m -> len (base128_groups f v) <= m).
Proof.
  revert v. induction f as [|f IH]; intros v Hv.
  { split_and!; [constructor| |intros; cbn; rewrite len_nil; lia]. simpl in *. lia. }
  cbn [base128_groups]. destruct (Z.ltb_spec 0 v) as [Hp|Hp].
  - rewrite land_0x7F, Z.shiftr_div_pow2 by lia. change (2 ^ 7) with 128.
    rewrite Nat2Z.inj_succ, Z.pow_succ_r in Hv by lia.
    destruct (IH (v / 128)) as (H1 & H2 & H3).
    { split; [apply Z.div_pos; lia|]. apply Z.div_lt_upper_bound; lia. }
    split_and!.
    + constructor; [|done]. apply Z.mod_pos_bound. lia.
    + simpl. rewrite H2. pose proof (Z.div_mod v 128). lia.
    + intros m Hm Hvm. rewrite len_cons. destruct (Z.eqb_spec m 0) as [->|]; [simpl in Hvm; lia|].
      enough (len (base128_groups f (v / 128)) <= m - 1) by lia. apply H3; [lia|].
      apply Z.div_lt_upper_bound; [lia|]. rewrite <-Z.pow_succ_r by lia. by replace (Z.succ (m - 1)) with m by lia.
  - split_and!; [constructor|simpl; lia|intros; rewrite len_nil; lia].
Qed.

Lemma base128_shape v :
  is_u64 v ->
  exists g gs, base128 v = rev (Z.add 128 <$> gs) ++ [g] /\ is_group g /\ Forall is_group gs /\
    v = g + 128 * le_value gs /\ (forall m, 0 < m -> v < 128 ^ m -> len gs <= m - 1).
Proof.
  intros Hv. unfold base128, encode_base128. destruct (Z.eqb_spec v 0) as [->|Hn].
  { exists 0, []. split_and!; [done|done|constructor|done|]. intros. rewrite len_nil. lia. }
  destruct (base128_groups_spec 10 v) as (H1 & H2 & H3).
  { change (128 ^ Z.of_nat 10) with 1180591620717411303424. zrange. }
  cbv zeta. destruct (base128_groups 10 v) as [|g gs]; [simpl in H2; lia|].
  apply Forall_cons in H1 as [Hg Hgs]. exists g, gs. split_and!; try done.
  - cbn [imap app rev]. rewrite decide_True by done. rewrite Z.add_0_r. f_equal. f_equal.
    rewrite <-imap_const. apply imap_ext. intros i x _. simpl. lia.
  - intros m Hm Hvm. specialize (H3 m ltac:(lia) Hvm). rewrite len_cons in H3. lia.
Qed.

Lemma base128_len v m : is_u64 v -> 0 < m -> v < 128 ^ m -> 1 <= len (base128 v) <= m.
Proof.
  intros Hv Hm Hvm. destruct (base128_shape v Hv) as (g & gs & -> & _ & _ & _ & Hl).
  specialize (Hl m Hm Hvm). unfold len in *. rewrite length_app, length_rev, length_fmap. simpl. lia.
Qed.

Lemma base128_u8 v : is_u64 v -> Forall is_u8 (base128 v).
Proof.
  intros Hv. destruct (base128_shape v Hv) as (g & gs & -> & Hg & Hgs & _).
  apply Forall_app. split; [|constructor; [unfold is_group in Hg; zrange|constructor]].
  apply Forall_rev, Forall_fmap. eapply Forall_impl; [done|].
  intros x Hx. unfold is_group in Hx. unfold compose. zrange.
Qed.

(** One iteration of the loop of [decode_base128]: the sum never overflows,
    because the shifted accumulator has its low seven bits clear. *)
Lemma base128_step acc byte :
  is_u64 acc -> is_u8 byte ->
  u64_checked_shl acc 7 ≫= (fun shifted => u64_checked_add shifted (Z.land byte 0x7F)) =
    Some ((acc * 128 + byte mod 128) mod 18446744073709551616).
Proof.
  intros Ha Hb. unfold u64_checked_shl. simpl. rewrite land_0x7F, Z.shiftl_mul_pow2 by lia.
  change (2 ^ 7) with 128. unfold u64_checked_add.
  pose proof (Z.mod_pos_bound byte 128 ltac:(lia)) as Hm.
  assert (E : (acc * 128) mod 18446744073709551616 = 128 * (acc mod 144115188075855872)).
  { rewrite (Z.mul_comm acc). by rewrite <-(Z.mul_mod_distr_l acc 144115188075855872 128). }
  pose proof (Z.mod_pos_bound acc 144115188075855872 ltac:(lia)).
  rewrite <-Z.add_mod_idemp_l, E, (Z.mod_small (_ + _)) by lia.
  by btrue (128 * (acc mod 144115188075855872) + byte mod 128 <=? U64_MAX).
Qed.

Lemma decode_base128_high gs tl n off :
  Forall is_group gs -> is_u64 (le_value gs) ->
  decode_base128_loop (rev (Z.add 128 <$> gs) ++ tl) 0 n off =
  decode_base128_loop tl (le_value gs) (n + len gs) off.
Proof.
  intros Hgs. revert tl. induction Hgs as [|g gs Hg Hgs IH]; intros tl Hv.
  { by replace (n + len (@nil Z)) with n by (rewrite len_nil; lia). }
  rewrite fmap_cons. cbn [rev]. rewrite <-app_assoc. cbn [le_value] in Hv.
  pose proof (le_value_nonneg gs Hgs). unfold is_group, is_u64 in *.
  rewrite IH by lia. cbn [app decode_base128_loop].
  rewrite base128_step by zrange. rewrite land_0x80_u8 by zrange. bfalse (128 + g <? 128).
  rewrite len_cons. replace (n + (1 + len gs)) with (n + len gs + 1) by lia. cbn [le_value].
  f_equal. rewrite <-(Z.mod_small (g + _) 18446744073709551616) by lia. f_equal.
  replace ((128 + g) mod 128) with g by (Z.div_mod_to_equations; lia). lia.
Qed.

(** [decode_base128] inverts [encode_base128] and reports the octets it consumed. *)
Lemma decode_base128_app v post off :
  is_u64 v -> decode_base128 (base128 v ++ post) off = Ok (v, len (base128 v)).
Proof.
  intros Hv. destruct (base128_shape v Hv) as (g & gs & -> & Hg & Hgs & Ev & _).
  unfold decode_base128. rewrite <-app_assoc.
  pose proof (le_value_nonneg gs Hgs). unfold is_group, is_u64 in *.
  rewrite decode_base128_high by (try done; zrange). cbn [app decode_base128_loop].
  rewrite base128_step by zrange. rewrite land_0x80_u8 by zrange. btrue (g <? 128).
  rewrite (Z.mod_small g), Z.mod_small by lia. f_equal. f_equal; [lia|].
  unfold len. rewrite length_app, length_rev, length_fmap. simpl. lia.
Qed.

Lemma decode_base128_loop_consumed bs acc n off v m :
  decode_base128_loop bs acc n off = Ok (v, m) -> n < m <= n + len bs.
Proof.
  revert acc n. induction bs as [|b bs IH]; intros acc n; cbn [decode_base128_loop]; [done|]. rewrite len_cons.
  destruct (u64_checked_shl _ _ ≫= _) as [acc'|]; [|done]. pose proof (len_nonneg bs).
  case_match; [intros; simplify_eq; lia|]. intros ?%IH. lia.
Qed.

Lemma get_from_consumed bs off v m :
  decode_base128 bs off = Ok (v, m) ->
  exists pre post, bs = pre ++ post /\ get_from bs m = Some post /\ len pre = m /\ 0 < m.
Proof.
  intros H%decode_base128_loop_consumed. exists (take (Z.to_nat m) bs), (drop (Z.to_nat m) bs).
  rewrite take_drop. unfold get_from. btrue ((0 <=? m) && (m <=? len bs)).
  split_and!; [done|done| |lia]. unfold len in *. rewrite length_take. lia.
Qed.

(** The fuel of [decode_sub_identifiers] is not observable: the recursion never
    runs out of it, and the zero-consumption guard never fires. *)
Lemma decode_sub_identifiers_fuel f bs off :
  (length bs <= f)%nat ->
  decode_sub_identifiers f bs off = decode_sub_identifiers (length bs) bs off /\
  decode_sub_identifiers f bs off <> Err (ber_error (OidZeroConsumed off)).
Proof.
  revert bs. induction f as [f IH] using lt_wf_ind. intros bs Hf.
  destruct bs as [|b t]; [by destruct f|]. destruct f as [|f]; [simpl in Hf; lia|].
  cbn [decode_sub_identifiers length is_nil].
  destruct (decode_base128 (b :: t) off) as [[v m]|e] eqn:E.
  - destruct (get_from_consumed _ _ _ _ E) as (pre & post & Ebs & -> & Hm & Hm0).
    bfalse (m =? 0). cbn [expect_or].
    assert (length post <= length t)%nat.
    { assert (length (b :: t) = length pre + length post)%nat by (rewrite Ebs; apply length_app).
      unfold len in Hm. simpl in *. lia. }
    simpl in Hf. destruct (IH f ltac:(lia) post ltac:(lia)) as [H1 H2].
    destruct (IH (length t) ltac:(lia) post ltac:(lia)) as [H3 _].
    rewrite H1 in H2 |- *. rewrite H3.
    split; [done|]. destruct (decode_sub_identifiers (length post) post off); congruence.
  - split; [done|]. clear -E. unfold decode_base128 in E. revert E. generalize 0 at 1. generalize 0.
    induction (b :: t) as [|x l IHl]; intros n a; cbn [decode_base128_loop]; [intros [= <-]; done|].
    destruct (u64_checked_shl _ _ ≫= _); [|intros [= <-]; done]. case_match; [done|]. apply IHl.
Qed.

Lemma encode_oid_concat oid first second arcs :
  decompose oid = Some (first, second, arcs) ->
  encode_oid oid = concat (base128 <$> (first * 40 + second) :: arcs).
Proof.
  intros E. unfold encode_oid. rewrite E. clear E. rewrite fmap_cons. cbn [concat].
  change (encode_base128 [] (first * 40 + second)) with (base128 (first * 40 + second)).
  generalize (base128 (first * 40 + second)). induction arcs as [|a arcs IH]; intros acc.
  - by rewrite app_nil_r.
  - cbn [fold_left]. rewrite encode_base128_app, IH. rewrite fmap_cons. cbn [concat]. by rewrite <-app_assoc.
Qed.

Lemma decode_sub_identifiers_concat vs f off :
  Forall is_u64 vs -> (length vs <= f)%nat ->
  decode_sub_identifiers f (concat (base128 <$> vs)) off = Ok vs.
Proof.
  intros Hvs. revert f. induction Hvs as [|v vs Hv Hvs IH]; intros f Hf; [by destruct f|].
  rewrite fmap_cons. cbn [concat]. destruct f as [|f]; [simpl in Hf; lia|]. cbn [decode_sub_identifiers].
  pose proof (base128_len v 10 Hv ltac:(lia) ltac:(unfold is_u64 in Hv; lia)) as Hl.
  replace (is_nil _) with false by (destruct (base128 v); [rewrite len_nil in Hl; lia|done]).
  rewrite decode_base128_app by done. bfalse (len (base128 v) =? 0).
  rewrite get_from_app. cbn [expect_or]. simpl in Hf. rewrite IH by lia. done.
Qed.

Lemma concat_base128_length vs : Forall is_u64 vs -> (length vs <= length (concat (base128 <$> vs)))%nat.
Proof.
  induction 1 as [|v vs Hv _ IH]; [done|]. rewrite fmap_cons. cbn [concat length]. rewrite length_app.
  pose proof (base128_len v 10 Hv ltac:(lia) ltac:(unfold is_u64 in Hv; lia)) as Hl. unfold len in Hl. lia.
Qed.

Lemma decode_encode_oid oid off : oid_wf oid -> decode_oid (encode_oid oid) off = Ok oid.
Proof.
  intros Hwf. destruct (oid_wf_decompose oid Hwf) as (a & b & arcs & Ed & Es & Ha & Hb & Hab & Harcs & _).
  rewrite (encode_oid_concat oid a b arcs Ed).
  assert (Hu : Forall is_u64 (a * 40 + b :: arcs)).
  { constructor; [unfold is_u32 in Hb; zrange|]. eapply Forall_impl; [done|]. intros; zrange. }
  unfold decode_oid. pose proof (concat_base128_length _ Hu) as Hl.
  destruct (concat (base128 <$> _)) as [|c cs] eqn:Ec; [simpl in Hl; lia|].
  rewrite <-Ec in *. replace (is_nil _) with false by (by rewrite Ec).
  rewrite decode_sub_identifiers_concat by done.
  assert (Hsplit : (if a * 40 + b <? 40 then (0, a * 40 + b)
      else if a * 40 + b <? 80 then (1, a * 40 + b - 40) else (2, a * 40 + b - 80)) = (a, b)).
  { unfold is_u32 in Hb. bool_cases; f_equal; lia. }
  rewrite Hsplit. rewrite !u32_try_from_Some by zrange. cbn [ok_or].
  assert (Hc : collect_results (fun sub_id => ok_or (u32_try_from sub_id) (ber_error (OidArcOverflow off))) arcs = Ok arcs).
  { apply collect_results_Ok, Forall_Forall2_diag. eapply Forall_impl; [done|].
    intros x Hx. by rewrite u32_try_from_Some. }
  rewrite Hc, <-Es, try_from_id by done. done.
Qed.

Lemma encode_oid_u8 oid : oid_wf oid -> Forall is_u8 (encode_oid oid).
Proof.
  intros Hwf. destruct (oid_wf_decompose oid Hwf) as (a & b & arcs & Ed & Es & Ha & Hb & Hab & Harcs & _).
  rewrite (encode_oid_concat oid a b arcs Ed). apply Forall_concat, Forall_fmap.
  constructor; [apply base128_u8; unfold is_u32 in Hb; zrange|].
  eapply Forall_impl; [done|]. intros x Hx. apply base128_u8. zrange.
Qed.

(** An OID content is at most five octets per sub-identifier. *)
Lemma encode_oid_len oid : oid_wf oid -> len (encode_oid oid) <= 5 * len (as_slice oid) - 5.
Proof.
  intros Hwf. destruct (oid_wf_decompose oid Hwf) as (a & b & arcs & Ed & Es & Ha & Hb & Hab & Harcs & _).
  rewrite (encode_oid_concat oid a b arcs Ed), Es, !len_cons, fmap_cons. cbn [concat]. rewrite len_app.
  pose proof (base128_len (a * 40 + b) 5 ltac:(zrange) ltac:(lia) ltac:(unfold is_u32 in Hb; lia)).
  enough (len (concat (base128 <$> arcs)) <= 5 * len arcs) by lia.
  clear -Harcs. induction Harcs as [|x l Hx _ IH]; [done|]. rewrite fmap_cons. cbn [concat].
  rewrite len_app, len_cons.
  pose proof (base128_len x 5 ltac:(zrange) ltac:(lia) ltac:(unfold is_u32 in Hx; lia)). lia.
Qed.

(** Whatever octets a peer sends, an OID that is accepted satisfies the
    construction invariant. *)
Lemma decode_oid_wf bs off oid : decode_oid bs off = Ok oid -> oid_wf oid.
Proof.
  unfold decode_oid. intros H. destruct (is_nil bs); [done|].
  destruct (decode_sub_identifiers _ _ _) as [[|fc subs]|]; [done| |done].
  destruct (if fc <? 40 then _ else _) as [a b].
  destruct (u32_try_from a) as [a'|] eqn:Ea; [|done]. apply u32_try_from_inv in Ea as [-> Ha].
  destruct (u32_try_from b) as [b'|] eqn:Eb; [|done]. apply u32_try_from_inv in Eb as [-> Hb].
  cbn [ok_or] in H. destruct (collect_results _ _) as [arcs|] eqn:Ec; [|done].
  apply collect_results_Ok in Ec.
  assert (Harcs : Forall is_u32 arcs).
  { clear H. induction Ec as [|x y l l' Hxy _ IH]; constructor; [|done].
    destruct (u32_try_from x) as [x'|] eqn:Ex; simpl in Hxy; [|done].
    apply u32_try_from_inv in Ex as [-> Hx]. by simplify_eq. }
  destruct (try_from _) as [o|] eqn:Et; simpl in H; [|done]. simplify_eq.
  eapply try_from_wf; [|exact Et].
  by apply Forall_cons_2; [|apply Forall_cons_2].
Qed.

(** ** Reading back what was written *)

(** [reads p enc a]: at any position where the octets [enc] follow, the reader
    operation [p] returns [a] and consumes exactly [enc]. *)
Definition reads {A} (p : BerReader -> result (A * BerReader) BerError) (enc : bytes) (a : A) : Prop :=
  forall r post, reader_ok r -> rest r = enc ++ post -> p r = Ok (a, advance r (len enc)).

Lemma reads_expected tag name v :
  forall r post, reader_ok r -> rest r = tlv tag v ++ post ->
  read_expected_tlv r tag name = Ok ((offset r, v), advance r (len (tlv tag v))).
Proof.
  intros r post Hr E. unfold read_expected_tlv. rewrite (read_tlv_tlv r tag v post Hr E).
  by rewrite Z.eqb_refl.
Qed.

Lemma read_integer_reads v : is_i32 v -> reads read_integer (tlv TAG_INTEGER (encode_signed_i32 v)) v.
Proof.
  intros Hv r post Hr E. unfold read_integer. rewrite (reads_expected _ _ _ r post Hr E).
  by rewrite decode_encode_signed_i32.
Qed.

Lemma read_tagged_unsigned32_reads tag v :
  is_u32 v -> reads (fun r => read_tagged_unsigned32 r tag) (tlv tag (encode_unsigned_u32 v)) v.
Proof.
  intros Hv r post Hr E. unfold read_tagged_unsigned32. rewrite (reads_expected _ _ _ r post Hr E).
  by rewrite decode_encode_unsigned_u32.
Qed.

Lemma read_tagged_unsigned64_reads tag v :
  is_u64 v -> reads (fun r => read_tagged_unsigned64 r tag) (tlv tag (encode_unsigned_u64 v)) v.
Proof.
  intros Hv r post Hr E. unfold read_tagged_unsigned64. rewrite (reads_expected _ _ _ r post Hr E).
  by rewrite decode_encode_unsigned_u64.
Qed.

Lemma read_octet_string_reads bs : reads read_octet_string (tlv TAG_OCTET_STRING bs) bs.
Proof.
  intros r post Hr E. unfold read_octet_string. by rewrite (reads_expected _ _ _ r post Hr E).
Qed.

Lemma read_null_reads : reads read_null (tlv TAG_NULL []) tt.
Proof. intros r post Hr E. unfold read_null. by rewrite (reads_expected _ _ _ r post Hr E). Qed.

Lemma read_oid_reads oid : oid_wf oid -> reads read_oid (tlv TAG_OID (encode_oid oid)) oid.
Proof.
  intros Hv r post Hr E. unfold read_oid. rewrite (reads_expected _ _ _ r post Hr E).
  by rewrite decode_encode_oid.
Qed.

(** The sub-reader of a constructed value starts at its contents. *)
Lemma read_constructed_tlv r tag v post :
  reader_ok r -> rest r = tlv tag v ++ post ->
  read_constructed r tag =
    Ok (new_with_offset v (offset r + 1 + len (length_octets (len v))), advance r (len (tlv tag v))).
Proof.
  intros Hr E. unfold read_constructed. rewrite (read_tlv_tlv r tag v post Hr E).
  rewrite Z.eqb_refl. cbn [negb]. do 3 f_equal. unfold tlv, offset, advance. cbn.
  rewrite len_cons, len_app. lia.
Qed.

(** ** What any accepted input satisfies *)

Lemma read_expected_sound r tag name o v r' :
  reader_ok r -> Forall is_u8 (rest r) -> read_expected_tlv r tag name = Ok ((o, v), r') ->
  exists hdr, rest r = hdr ++ v ++ rest r' /\ r' = advance r (len hdr + len v) /\ 2 <= len hdr <= 10 /\
    reader_ok r' /\ Forall is_u8 v /\ Forall is_u8 (rest r').
Proof.
  intros Hr Hu H. unfold read_expected_tlv in H.
  destruct (read_tlv r) as [[[t v'] r2]|] eqn:Et; [|done].
  destruct (negb (t =? tag)); [done|]. injection H as _ <- <-.
  destruct (read_tlv_sound _ _ _ _ Hr Hu Et) as (hdr & E & Ha & Hl & _ & Hr2).
  rewrite E, !Forall_app in Hu. destruct Hu as (_ & Hv & Hu'). by exists hdr.
Qed.

Lemma decode_signed_i32_range bs off v :
  Forall is_u8 bs -> decode_signed_i32 bs off = Ok v -> is_i32 v.
Proof.
  intros Hu H. destruct bs as [|b t]; [done|]. rewrite decode_signed_i32_value in H by done.
  by case_decide; simplify_eq.
Qed.

Lemma decode_unsigned_u32_range bs off v :
  Forall is_u8 bs -> decode_unsigned_u32 bs off = Ok v -> is_u32 v.
Proof.
  intros Hu H. rewrite decode_unsigned_u32_value in H by done. destruct bs as [|b t]; [done|].
  destruct (128 <=? b); [done|]. destruct (Z.leb_spec (from_be_bytes (b :: t)) U32_MAX); [|done].
  injection H as <-. pose proof (from_be_bytes_bound _ Hu). zrange.
Qed.

Lemma decode_unsigned_u64_range bs off v :
  Forall is_u8 bs -> decode_unsigned_u64 bs off = Ok v -> is_u64 v.
Proof.
  intros Hu H. unfold decode_unsigned_u64 in H. rewrite decode_unsigned_value in H by (done || lia).
  destruct bs as [|b t]; [done|]. destruct (128 <=? b); [done|].
  change (256 ^ 8) with 18446744073709551616 in H.
  destruct (Z.ltb_spec (from_be_bytes (b :: t)) 18446744073709551616); [|done].
  injection H as <-. pose proof (from_be_bytes_bound _ Hu). zrange.
Qed.

Lemma read_integer_sound r v r' :
  reader_ok r -> Forall is_u8 (rest r) -> read_integer r = Ok (v, r') ->
  is_i32 v /\ reader_ok r' /\ Forall is_u8 (rest r') /\
  exists used, rest r = used ++ rest r' /\ r' = advance r (len used).
Proof.
  intros Hr Hu H. unfold read_integer in H.
  destruct (read_expected_tlv r _ _) as [[[o bs] r2]|] eqn:E; [|done].
  destruct (decode_signed_i32 bs o) as [w|] eqn:Ed; [|done]. injection H as <- <-.
  destruct (read_expected_sound _ _ _ _ _ _ Hr Hu E) as (hdr & Er & Ha & _ & Hr2 & Hv & Hu2).
  split_and!; [exact (decode_signed_i32_range _ _ _ Hv Ed)|done|done|]. exists (hdr ++ bs).
  split; [by rewrite <-app_assoc|by rewrite len_app].
Qed.

Lemma read_octet_string_sound r v r' :
  reader_ok r -> Forall is_u8 (rest r) -> read_octet_string r = Ok (v, r') ->
  Forall is_u8 v /\ reader_ok r' /\ Forall is_u8 (rest r') /\
  exists hdr, rest r = hdr ++ v ++ rest r' /\ r' = advance r (len hdr + len v).
Proof.
  intros Hr Hu H. unfold read_octet_string in H.
  destruct (read_expected_tlv r _ _) as [[[o bs] r2]|] eqn:E; [|done]. injection H as <- <-.
  destruct (read_expected_sound _ _ _ _ _ _ Hr Hu E) as (hdr & Er & Ha & _ & Hr2 & Hv & Hu2).
  split_and!; [done..|]. by exists hdr.
Qed.

Lemma read_oid_sound r v r' :
  reader_ok r -> Forall is_u8 (rest r) -> read_oid r = Ok (v, r') ->
  oid_wf v /\ reader_ok r' /\ Forall is_u8 (rest r').
Proof.
  intros Hr Hu H. unfold read_oid in H.
  destruct (read_expected_tlv r _ _) as [[[o bs] r2]|] eqn:E; [|done].
  destruct (decode_oid bs o) as [w|] eqn:Ed; [|done]. injection H as <- <-.
  destruct (read_expected_sound _ _ _ _ _ _ Hr Hu E) as (hdr & Er & Ha & _ & Hr2 & Hv & Hu2).
  split_and!; [by eapply decode_oid_wf|done|done].
Qed.

(** ** Properties *)

(** Claim C36: reading back an OID.  At any position of any input where the octets
    that [write_oid] produces for a well-formed OID follow, [read_oid] returns that
    OID and leaves the reader exactly behind them; and conversely every OID that
    [read_oid] accepts, from whatever octets, satisfies the [Oid] invariant. *)
Theorem oid_ber_roundtrip (r : BerReader) (oid : Oid) (post : bytes) :
  reader_ok r -> oid_wf oid -> rest r = into_vec (write_oid writer_new oid) ++ post ->
  (exists r', read_oid r = Ok (oid, r') /\ rest r' = post /\ reader_ok r') /\
  (forall r0 oid0 r1, read_oid r0 = Ok (oid0, r1) -> oid_wf oid0).
Proof.
  intros Hr Hwf E. unfold write_oid, into_vec in E. rewrite write_tlv_buffer in E. cbn [buffer writer_new app] in E.
  split.
  - eexists. split; [by eapply read_oid_reads|]. split; [by eapply rest_advance|by eapply reader_ok_advance].
  - intros r0 oid0 r1 H0. unfold read_oid in H0. destruct (read_expected_tlv _ _ _) as [[[o bs] r2]|]; [|done].
    destruct (decode_oid bs o) as [oid1|] eqn:Ed; [|done]. injection H0 as -> _. by eapply decode_oid_wf.
Qed.

Lemma oid_ber_roundtrip_witness :
  exists r', read_oid (reader_new [6; 4; 136; 55; 1; 2; 5; 0]) = Ok (MkOid [2; 999; 1; 2], r') /\ rest r' = [5; 0].
Proof.
  destruct (oid_ber_roundtrip (reader_new [6; 4; 136; 55; 1; 2; 5; 0]) (MkOid [2; 999; 1; 2]) [5; 0]) as [(r' & E & Er & _) _].
  - vm_compute. split_and?; congruence.
  - split; [refine (bool_decide_unpack _ _); vm_compute; exact I|reflexivity].
  - reflexivity.
  - exists r'. split; [exact E|exact Er].
Defined.

(** Claim C37: the TLV layer is exact and never reads outside the input.  Octets
    written by [write_tlv] read back as the same tag and value, whatever precedes
    and follows them; and on arbitrary octets an accepted TLV is a header of two to
    ten octets that starts with the tag, followed by the value, followed by what the
    reader has left. *)
Theorem tlv_roundtrip_and_sound (r : BerReader) (tag : Z) (v : bytes) :
  reader_ok r -> Forall is_u8 (rest r) ->
  (forall post, rest r = into_vec (write_tlv writer_new tag v) ++ post ->
     exists r', read_tlv r = Ok ((tag, v), r') /\ rest r' = post /\ reader_ok r') /\
  (forall r', read_tlv r = Ok ((tag, v), r') ->
     exists hdr, rest r = hdr ++ v ++ rest r' /\ 2 <= len hdr <= 10 /\ head hdr = Some tag /\ reader_ok r' /\
       offset r' = offset r + len hdr + len v).
Proof.
  intros Hr Hu. split.
  - intros post E. unfold into_vec in E. rewrite write_tlv_buffer in E. cbn [buffer writer_new app] in E.
    eexists. split; [by eapply read_tlv_tlv|]. split; [by eapply rest_advance|by eapply reader_ok_advance].
  - intros r' E. destruct (read_tlv_sound _ _ _ _ Hr Hu E) as (hdr & Er & Ea & Hh & Ht & Hr').
    exists hdr. split_and!; try done; try lia. rewrite Ea. unfold offset, advance. cbn. lia.
Qed.

Lemma tlv_roundtrip_and_sound_witness :
  exists r', read_tlv (reader_new [4; 2; 7; 8; 9]) = Ok ((4, [7; 8]), r') /\ rest r' = [9].
Proof.
  destruct (tlv_roundtrip_and_sound (reader_new [4; 2; 7; 8; 9]) 4 [7; 8]) as [Hrt _].
  - vm_compute. split_and?; congruence.
  - refine (bool_decide_unpack _ _). vm_compute. exact I.
  - destruct (Hrt [9] eq_refl) as (r' & E & Er & _). exists r'. split; [exact E|exact Er].
Defined.

(** Claim C38: INTEGER contents are decoded exactly.  On any non-empty octets,
    [decode_signed_i32] returns their two's-complement value when it is an [i32] and
    a size error otherwise, with any number of redundant leading octets; and
    [decode_unsigned_u32] returns the unsigned value when the sign bit is clear and
    it is a [u32], and the matching error otherwise. *)
Theorem integer_decoding_exact (b : Z) (t : bytes) (off : Z) :
  Forall is_u8 (b :: t) ->
  decode_signed_i32 (b :: t) off =
    (if decide (is_i32 (be_signed (b :: t))) then Ok (be_signed (b :: t))
     else Err (ber_error (IntegerTooLargeI32 (len (strip_sign (128 <=? b) (b :: t))) off))) /\
  decode_unsigned_u32 (b :: t) off =
    (if 128 <=? b then Err (ber_error (NegativeUnsigned off))
     else if from_be_bytes (b :: t) <=? U32_MAX then Ok (from_be_bytes (b :: t))
     else Err (ber_error (IntegerTooLarge 32 (len (strip_zeros (b :: t))) off))).
Proof. intros Hu. split; [by apply decode_signed_i32_value|by rewrite decode_unsigned_u32_value]. Qed.

Lemma integer_decoding_exact_witness :
  decode_signed_i32 [255; 255; 255; 255; 254] 0 = Ok (-2) /\
  decode_unsigned_u32 [255; 255; 255; 255; 254] 0 = Err (ber_error (NegativeUnsigned 0)).
Proof.
  apply (integer_decoding_exact 255 [255; 255; 255; 254] 0). refine (bool_decide_unpack _ _). vm_compute. exact I.
Defined.

(** The base-128 number spelled by octets, most significant first. *)
Definition base128_number (bs : bytes) : Z := fold_left (fun acc b => acc * 128 + b mod 128) bs 0.

Lemma decode_base128_loop_value hi lo post acc n off :
  Forall (fun b => 128 <= b <= 255) hi -> 0 <= lo < 128 ->
  is_u64 (acc mod 18446744073709551616) ->
  decode_base128_loop (hi ++ lo :: post) (acc mod 18446744073709551616) n off =
    Ok (fold_left (fun acc b => acc * 128 + b mod 128) (hi ++ [lo]) acc mod 18446744073709551616, n + len hi + 1).
Proof.
  intros Hhi Hlo. revert acc n. induction Hhi as [|b hi Hb Hhi IH]; intros acc n Ha; cbn [app decode_base128_loop].
  - rewrite base128_step by zrange. rewrite land_0x80_u8 by zrange. btrue (lo <? 128).
    cbn [fold_left]. rewrite len_nil, Z.add_0_r. do 2 f_equal.
    rewrite <-Z.add_mod_idemp_l, Z.mul_mod_idemp_l, Z.add_mod_idemp_l by lia. done.
  - rewrite base128_step by zrange. rewrite land_0x80_u8 by zrange. bfalse (b <? 128).
    rewrite <-Z.add_mod_idemp_l, Z.mul_mod_idemp_l, Z.add_mod_idemp_l by lia.
    rewrite IH by (apply Z.mod_pos_bound; lia). cbn [fold_left]. rewrite len_cons. do 2 f_equal. lia.
Qed.

(** Claim C39: what [decode_base128] computes on a sub-identifier of any length: the
    spelled number reduced modulo 2^64.  The overflow error is never reported,
    because [checked_shl] only checks the shift amount, so a sub-identifier of
    eleven or more octets is silently truncated; the second half shows an encoding
    that is accepted as 1.3.5 although its last arc spells 2^71 + 5. *)
Theorem sub_identifier_decoding_wraps (hi post : bytes) (lo off : Z) :
  Forall (fun b => 128 <= b <= 255) hi -> 0 <= lo < 128 ->
  decode_base128 (hi ++ lo :: post) off =
    Ok (base128_number (hi ++ [lo]) mod 18446744073709551616, len hi + 1) /\
  decode_oid (0x2B :: 0x82 :: replicate 9 0x80 ++ [0x05]) 0 = Ok (MkOid [1; 3; 5]) /\
  base128_number (0x82 :: replicate 9 0x80 ++ [0x05]) = 2 ^ 71 + 5.
Proof.
  intros Hhi Hlo. split; [|split; vm_compute; reflexivity].
  assert (H0 : is_u64 (0 mod 18446744073709551616)) by (rewrite Z.mod_0_l; zrange).
  exact (decode_base128_loop_value hi lo post 0 0 off Hhi Hlo H0).
Qed.

Lemma sub_identifier_decoding_wraps_witness :
  decode_base128 [130; 128; 128; 128; 128; 128; 128; 128; 128; 128; 5; 9] 0 = Ok (5, 11).
Proof.
  apply (sub_identifier_decoding_wraps [130; 128; 128; 128; 128; 128; 128; 128; 128; 128] [9] 5 0);
    [refine (bool_decide_unpack _ _); vm_compute; exact I|lia].
Defined.
