(* ===== verification/Usm.v ===== *)
(** * The User-based Security Model: [src/src/usm/]

    Key material ([keys.rs]), authentication ([auth.rs]), privacy ([privacy.rs]),
    key derivation ([kdf.rs]), the newtypes of [engine_id.rs], [engine_time.rs],
    [security_params.rs] and [counters.rs], users and security levels ([user.rs]),
    and the timeliness check ([time_window.rs]).

    The hash, HMAC and cipher primitives come from external crates ([sha2],
    [hmac], [aes], [cfb_mode]); they are the class [CryptoOps], and what the code
    relies on is the class [CryptoLaws].  [ToyCrypto] at the end of the file is a
    concrete instance of both, used to evaluate the model. *)

From S2P Require Import Prelude.

(** ** External primitives *)

Class CryptoOps := {
  (** digest of a byte stream *)
  sha256 : bytes -> bytes;
  sha512 : bytes -> bytes;
  (** [Hmac::<D>::new_from_slice(key)], [update(message)], [finalize()];
      [None] is a rejected key *)
  hmac_sha256 : bytes -> bytes -> option bytes;
  hmac_sha512 : bytes -> bytes -> option bytes;
  (** [Encryptor::new_from_slices(key, iv)] and [encrypt]; [None] is a rejected
      key or IV *)
  aes128_cfb_encrypt : bytes -> bytes -> bytes -> option bytes;
  aes128_cfb_decrypt : bytes -> bytes -> bytes -> option bytes;
  aes256_cfb_encrypt : bytes -> bytes -> bytes -> option bytes;
  aes256_cfb_decrypt : bytes -> bytes -> bytes -> option bytes;
}.

(** A stream cipher in CFB mode with [klen]-byte keys: total on its key and IV
    sizes, length preserving, and decryption inverts encryption. *)
Record cfb_laws (klen : Z) (enc dec : bytes -> bytes -> bytes -> option bytes) : Prop := {
  cfb_encrypt_total key iv pt : len key = klen -> len iv = 16 ->
    exists ct, enc key iv pt = Some ct /\ len ct = len pt /\ Forall is_u8 ct;
  cfb_decrypt_total key iv ct : len key = klen -> len iv = 16 ->
    exists pt, dec key iv ct = Some pt /\ len pt = len ct /\ Forall is_u8 pt;
  cfb_decrypt_encrypt key iv pt ct : len key = klen -> len iv = 16 -> Forall is_u8 pt ->
    enc key iv pt = Some ct -> dec key iv ct = Some pt;
}.

Class CryptoLaws `{CryptoOps} : Prop := {
  sha256_len m : len (sha256 m) = 32;
  sha512_len m : len (sha512 m) = 64;
  hmac_sha256_total k m : exists t, hmac_sha256 k m = Some t /\ len t = 32 /\ Forall is_u8 t;
  hmac_sha512_total k m : exists t, hmac_sha512 k m = Some t /\ len t = 64 /\ Forall is_u8 t;
  aes128_laws : cfb_laws 16 aes128_cfb_encrypt aes128_cfb_decrypt;
  aes256_laws : cfb_laws 32 aes256_cfb_encrypt aes256_cfb_decrypt;
}.

(** ** keys.rs *)

(** The volatile-write loop of [zeroize_slice]: byte [i] of the slice is set to
    zero for each [i] in [0..slice.len()]. *)
Definition zeroize_slice (slice : bytes) : bytes :=
  fold_left (fun s i => <[i := 0]> s) (seq 0 (length slice)) slice.

Record SecretKey := MkSecretKey { as_bytes : bytes }.

Definition new_from_exposed_slice (b : bytes) : SecretKey := {| as_bytes := b |}.
Definition zeroed (n : Z) : SecretKey := {| as_bytes := replicate (Z.to_nat n) 0 |}.
Definition key_size (k : SecretKey) : Z := len (as_bytes k).
Definition key_is_empty (k : SecretKey) : bool := is_nil (as_bytes k).

(** [SecretKey::truncate] panics ([None]) when [new_len] is too long.  The result
    pairs the truncated key with the memory of the released tail. *)
Definition truncate (k : SecretKey) (new_len : Z) : option (SecretKey * bytes) :=
  if new_len <=? len (as_bytes k) then
    let tail := zeroize_slice (drop (Z.to_nat new_len) (as_bytes k)) in
    Some ({| as_bytes := take (Z.to_nat new_len) (as_bytes k) |}, tail)
  else None.

(** [Drop for SecretKey]: the memory that is released. *)
Definition drop_key (k : SecretKey) : bytes := zeroize_slice (as_bytes k).

(** ** auth.rs *)

Inductive AuthProtocol := HmacSha256 | HmacSha512.

#[export] Instance AuthProtocol_eq_dec : EqDecision AuthProtocol.
Proof. solve_decision. Defined.

Inductive AuthError :=
| AuthInvalidKeyLength (expected actual : Z)
| AuthInvalidMacLength (expected actual : Z)
| MacMismatch
| HmacInitialisation.

Definition auth_key_len (p : AuthProtocol) : Z :=
  match p with HmacSha256 => 32 | HmacSha512 => 64 end.
Definition mac_len (p : AuthProtocol) : Z :=
  match p with HmacSha256 => 24 | HmacSha512 => 48 end.

(** [verify_truncated_left] of the [hmac] crate: a non-empty tag no longer than
    the output, equal to its leading bytes. *)
Definition verify_truncated_left (full tag : bytes) : bool :=
  negb (is_nil tag) && (len tag <=? len full) && bytes_eqb (take (length tag) full) tag.

Section Auth.
  Context `{CryptoOps}.

Definition hmac (p : AuthProtocol) (key message : bytes) : option bytes :=
  match p with HmacSha256 => hmac_sha256 key message | HmacSha512 => hmac_sha512 key message end.

Definition compute_mac (p : AuthProtocol) (key : SecretKey) (message : bytes)
    : result bytes AuthError :=
  if negb (key_size key =? auth_key_len p)
  then Err (AuthInvalidKeyLength (auth_key_len p) (key_size key))
  else
    let? mac := ok_or (hmac p (as_bytes key) message) HmacInitialisation in
    Ok (take (Z.to_nat (mac_len p)) mac).

Definition verify_mac (p : AuthProtocol) (key : SecretKey) (message expected_mac : bytes)
    : result unit AuthError :=
  if negb (key_size key =? auth_key_len p)
  then Err (AuthInvalidKeyLength (auth_key_len p) (key_size key))
  else if negb (len expected_mac =? mac_len p)
  then Err (AuthInvalidMacLength (mac_len p) (len expected_mac))
  else
    let? full := ok_or (hmac p (as_bytes key) message) HmacInitialisation in
    if verify_truncated_left full expected_mac then Ok tt else Err MacMismatch.

End Auth.

(** ** privacy.rs *)

Inductive PrivProtocol := Aes128 | Aes256.

#[export] Instance PrivProtocol_eq_dec : EqDecision PrivProtocol.
Proof. solve_decision. Defined.

Inductive PrivError :=
| PrivInvalidKeyLength (expected actual : Z)
| CipherInitialisation.

Definition priv_key_len (p : PrivProtocol) : Z := match p with Aes128 => 16 | Aes256 => 32 end.

Section Privacy.
  Context `{CryptoOps}.

Definition encrypt (p : PrivProtocol) (key : SecretKey) (iv plaintext : bytes)
    : result bytes PrivError :=
  if negb (key_size key =? priv_key_len p)
  then Err (PrivInvalidKeyLength (priv_key_len p) (key_size key))
  else
    ok_or (match p with
           | Aes128 => aes128_cfb_encrypt (as_bytes key) iv plaintext
           | Aes256 => aes256_cfb_encrypt (as_bytes key) iv plaintext
           end) CipherInitialisation.

Definition decrypt (p : PrivProtocol) (key : SecretKey) (iv ciphertext : bytes)
    : result bytes PrivError :=
  if negb (key_size key =? priv_key_len p)
  then Err (PrivInvalidKeyLength (priv_key_len p) (key_size key))
  else
    ok_or (match p with
           | Aes128 => aes128_cfb_decrypt (as_bytes key) iv ciphertext
           | Aes256 => aes256_cfb_decrypt (as_bytes key) iv ciphertext
           end) CipherInitialisation.

End Privacy.

(** ** kdf.rs *)

Definition KDF_STREAM_LEN : Z := 0x100000.

Inductive KdfError :=
| EmptyPassword
| PasswordTooShort (length : Z).

(** A hasher is the byte stream it has absorbed. *)
Definition hasher_update (hasher b : bytes) : bytes := hasher ++ b.

(** [for _ in 0..n { hasher.update(b) }] *)
Fixpoint hasher_update_n (n : nat) (hasher b : bytes) : bytes :=
  match n with O => hasher | S m => hasher_update_n m (hasher_update hasher b) b end.

(** What step 1 feeds the hasher. *)
Definition kdf_stream (password : bytes) : bytes :=
  let full_copies := KDF_STREAM_LEN / len password in
  let remainder_len := KDF_STREAM_LEN mod len password in
  let final_chunk := take (Z.to_nat remainder_len) password in
  hasher_update (hasher_update_n (Z.to_nat full_copies) [] password) final_chunk.

Section Kdf.
  Context `{CryptoOps}.

Definition digest (p : AuthProtocol) (m : bytes) : bytes :=
  match p with HmacSha256 => sha256 m | HmacSha512 => sha512 m end.

(** [finalise_into_secret_key]: a zeroed key of the digest's length, overwritten
    with the digest, whose stack copy is zeroised. *)
Definition finalise_into_secret_key (p : AuthProtocol) (hasher : bytes) : SecretKey :=
  let d := digest p hasher in
  let key := zeroed (len d) in
  {| as_bytes := d ++ drop (length d) (as_bytes key) |}.

Definition localise_key (key engine_id : bytes) (p : AuthProtocol) : SecretKey :=
  finalise_into_secret_key p (hasher_update (hasher_update (hasher_update [] key) engine_id) key).

(** [None] is the panic of [SecretKey::truncate]. *)
Definition password_to_localised_key (password engine_id : bytes) (p : AuthProtocol)
    : option (result SecretKey KdfError) :=
  if is_nil password then Some (Err EmptyPassword)
  else if len password <? 8 then Some (Err (PasswordTooShort (len password)))
  else
    let master_key := finalise_into_secret_key p (kdf_stream password) in
    let localised := localise_key (as_bytes master_key) engine_id p in
    '(k, _) ← truncate localised (auth_key_len p);
    Some (Ok k).

End Kdf.

(** ** engine_id.rs *)

Record EngineId := MkEngineId { engine_id_bytes : bytes }.
Record InvalidEngineIdLength := MkInvalidEngineIdLength { actual_len : Z }.

Definition EngineId_MIN_LEN : Z := 5.
Definition EngineId_MAX_LEN : Z := 32.

Definition engine_id_try_from (b : bytes) : result EngineId InvalidEngineIdLength :=
  if (len b <? EngineId_MIN_LEN) || (EngineId_MAX_LEN <? len b)
  then Err (MkInvalidEngineIdLength (len b))
  else Ok (MkEngineId b).

(** ** engine_time.rs *)

Definition EngineBoots := Z.
Definition EngineTime := Z.
Definition CEILING : Z := 0x7FFFFFFF.
Definition is_at_ceiling (b : EngineBoots) : bool := CEILING <=? b.
Definition boots_saturating_increment (b : EngineBoots) : EngineBoots := Z.min b (CEILING - 1) + 1.

(** ** security_params.rs *)

Record AuthenticationParams := MkAuthenticationParams { auth_params_bytes : bytes }.

Definition auth_params_try_from (b : bytes) : result AuthenticationParams unit :=
  if is_nil b then Err tt else Ok (MkAuthenticationParams b).

Record PrivacySalt := MkPrivacySalt { salt_bytes : bytes }.
Definition PrivacySalt_LEN : Z := 8.

Definition privacy_salt_try_from (b : bytes) : result PrivacySalt Z :=
  if len b =? PrivacySalt_LEN then Ok (MkPrivacySalt b) else Err (len b).

(** ** counters.rs *)

Definition UsmStatsCounter := Z.
Definition counter_saturating_increment (c : UsmStatsCounter) : UsmStatsCounter :=
  Z.min (c + 1) U32_MAX.

Definition USM_STATS_UNKNOWN_ENGINE_IDS : bytes := str "1.3.6.1.6.3.15.1.1.4.0".
Definition USM_STATS_NOT_IN_TIME_WINDOWS : bytes := str "1.3.6.1.6.3.15.1.1.2.0".
Definition USM_STATS_UNKNOWN_USER_NAMES : bytes := str "1.3.6.1.6.3.15.1.1.3.0".
Definition USM_STATS_UNSUPPORTED_SEC_LEVELS : bytes := str "1.3.6.1.6.3.15.1.1.1.0".
Definition USM_STATS_WRONG_DIGESTS : bytes := str "1.3.6.1.6.3.15.1.1.5.0".
Definition USM_STATS_DECRYPTION_ERRORS : bytes := str "1.3.6.1.6.3.15.1.1.6.0".

(** ** user.rs: user names *)

Inductive InvalidUserNameError :=
| UserNameEmpty
| UserNameOverlong (length : Z).

Record UserName := MkUserName { user_name_bytes : bytes }.
Definition UserName_MAX_LENGTH : Z := 32.

(** [UserName::new]; the argument is the UTF-8 encoding of the string. *)
Definition user_name_new (name : bytes) : result UserName InvalidUserNameError :=
  if is_nil name then Err UserNameEmpty
  else if UserName_MAX_LENGTH <? len name then Err (UserNameOverlong (len name))
  else Ok (MkUserName name).

(** ** user.rs: message flags and security levels *)

Record MsgFlags := MkMsgFlags { flags_byte : Z }.

Definition AUTH_BIT : Z := 0x01.
Definition PRIV_BIT : Z := 0x02.
Definition REPORTABLE_BIT : Z := 0x04.

Definition is_auth (f : MsgFlags) : bool := negb (Z.land (flags_byte f) AUTH_BIT =? 0).
Definition is_priv (f : MsgFlags) : bool := negb (Z.land (flags_byte f) PRIV_BIT =? 0).
Definition is_reportable (f : MsgFlags) : bool := negb (Z.land (flags_byte f) REPORTABLE_BIT =? 0).

Inductive SecurityLevel := NoAuthNoPriv | AuthNoPriv | AuthPriv.

#[export] Instance SecurityLevel_eq_dec : EqDecision SecurityLevel.
Proof. solve_decision. Defined.

(** The derived [Ord] of [SecurityLevel] follows the order of the variants. *)
Definition level_rank (l : SecurityLevel) : Z :=
  match l with NoAuthNoPriv => 0 | AuthNoPriv => 1 | AuthPriv => 2 end.
Definition level_ltb (a b : SecurityLevel) : bool := level_rank a <? level_rank b.

Record InvalidMsgFlags := MkInvalidMsgFlags { invalid_flags : Z }.

(** [SecurityLevel::try_from(u8)] *)
Definition security_level_try_from (flags : Z) : result SecurityLevel InvalidMsgFlags :=
  let msg_flags := MkMsgFlags flags in
  match is_auth msg_flags, is_priv msg_flags with
  | false, false => Ok NoAuthNoPriv
  | true, false => Ok AuthNoPriv
  | true, true => Ok AuthPriv
  | false, true => Err (MkInvalidMsgFlags flags)
  end.

(** [MsgFlags::security_level] *)
Definition flags_security_level (f : MsgFlags) : result SecurityLevel InvalidMsgFlags :=
  security_level_try_from (flags_byte f).

(** ** user.rs: users *)

Record AuthCredentials := MkAuthCredentials { ac_protocol : AuthProtocol; ac_key : SecretKey }.
Record PrivCredentials := MkPrivCredentials { pc_protocol : PrivProtocol; pc_key : SecretKey }.

Record UsmUser := MkUsmUser {
  user_name : UserName;
  auth_credentials : option AuthCredentials;
  priv_credentials : option PrivCredentials;
}.

(** [UsmUser::security_level] *)
Definition user_security_level (u : UsmUser) : SecurityLevel :=
  match auth_credentials u, priv_credentials u with
  | Some _, Some _ => AuthPriv
  | Some _, None => AuthNoPriv
  | None, None => NoAuthNoPriv
  | None, Some _ => NoAuthNoPriv
  end.

Definition auth_protocol (u : UsmUser) : option AuthProtocol := ac_protocol <$> auth_credentials u.
Definition auth_key (u : UsmUser) : option SecretKey := ac_key <$> auth_credentials u.
Definition priv_protocol (u : UsmUser) : option PrivProtocol := pc_protocol <$> priv_credentials u.
Definition priv_key (u : UsmUser) : option SecretKey := pc_key <$> priv_credentials u.

Definition security_level_requires_user (usm_user : option UsmUser) (minimum : SecurityLevel) : bool :=
  match usm_user with None => level_ltb NoAuthNoPriv minimum | Some _ => false end.

Record InvalidKeyLength := MkInvalidKeyLength { ikl_expected : Z; ikl_actual : Z }.

Definition validate_auth_key_length (p : AuthProtocol) (k : SecretKey) : result unit InvalidKeyLength :=
  let expected := auth_key_len p in
  if negb (key_size k =? expected)
  then Err {| ikl_expected := expected; ikl_actual := key_size k |}
  else Ok tt.

Record AuthNoPrivUser := MkAuthNoPrivUser {
  anp_name : UserName; anp_auth_protocol : AuthProtocol; anp_auth_key : SecretKey }.

Definition auth_no_priv_new (name : UserName) (p : AuthProtocol) (k : SecretKey)
    : result AuthNoPrivUser InvalidKeyLength :=
  let? _ := validate_auth_key_length p k in
  Ok {| anp_name := name; anp_auth_protocol := p; anp_auth_key := k |}.

(** [From<AuthNoPrivUser> for UsmUser] *)
Definition auth_no_priv_into_user (u : AuthNoPrivUser) : UsmUser :=
  {| user_name := anp_name u;
     auth_credentials := Some {| ac_protocol := anp_auth_protocol u; ac_key := anp_auth_key u |};
     priv_credentials := None |}.

Record AuthPrivUser := MkAuthPrivUser {
  ap_name : UserName; ap_auth_protocol : AuthProtocol; ap_auth_key : SecretKey;
  ap_priv_protocol : PrivProtocol }.

Definition auth_priv_new (name : UserName) (p : AuthProtocol) (k : SecretKey) (pp : PrivProtocol)
    : result AuthPrivUser InvalidKeyLength :=
  let? _ := validate_auth_key_length p k in
  Ok {| ap_name := name; ap_auth_protocol := p; ap_auth_key := k; ap_priv_protocol := pp |}.

(** [From<AuthPrivUser> for UsmUser]; [None] is the panic of [expect]. *)
Definition auth_priv_into_user (u : AuthPrivUser) : option UsmUser :=
  priv_key_bytes ← get_range (as_bytes (ap_auth_key u)) 0 (priv_key_len (ap_priv_protocol u));
  Some
    {| user_name := ap_name u;
       auth_credentials := Some {| ac_protocol := ap_auth_protocol u; ac_key := ap_auth_key u |};
       priv_credentials := Some {| pc_protocol := ap_priv_protocol u;
                                   pc_key := new_from_exposed_slice priv_key_bytes |} |}.

(** ** time_window.rs *)

Definition is_in_time_window (msg_boots : EngineBoots) (msg_time : EngineTime)
    (engine_boots : EngineBoots) (engine_time : EngineTime) : bool :=
  if negb (msg_boots =? engine_boots) then false
  else
    let time_diff := Z.abs (msg_time - engine_time) in
    time_diff <=? 150.

(** ** Lemmas *)

Lemma zeroize_prefix n (s : bytes) :
  (n <= length s)%nat ->
  fold_left (fun s i => <[i := 0]> s) (seq 0 n) s = replicate n 0 ++ drop n s.
Proof.
  induction n as [|n IH]; intros Hn; [done|].
  rewrite seq_S, fold_left_app, IH by lia. simpl.
  rewrite insert_app_r_alt by (rewrite length_replicate; lia).
  rewrite length_replicate, Nat.sub_diag.
  destruct (drop n s) as [|x t] eqn:E.
  { apply (f_equal length) in E. rewrite length_drop in E. simpl in E. lia. }
  change (<[0%nat:=0]> (x :: t)) with (0 :: t).
  assert (drop (S n) s = t) as -> by (by rewrite <-Nat.add_1_r, <-drop_drop, E).
  change (0 :: replicate n 0 ++ t) with (replicate (S n) 0 ++ t).
  by rewrite replicate_S_end, <-app_assoc.
Qed.

(** Zeroisation leaves nothing but zeros. *)
Lemma zeroize_slice_zeros s : zeroize_slice s = replicate (length s) 0.
Proof. unfold zeroize_slice. by rewrite zeroize_prefix, drop_all, app_nil_r. Qed.

(** [verify_mac] accepts exactly the tag [compute_mac] returns. *)
Lemma verify_mac_ok `{CryptoOps, !CryptoLaws} p k m tag :
  verify_mac p k m tag = Ok tt <-> compute_mac p k m = Ok tag.
Proof.
  unfold verify_mac, compute_mac. destruct (negb (key_size k =? _)); [done|].
  assert (Hfull : exists full, hmac p (as_bytes k) m = Some full /\ mac_len p <= len full).
  { destruct p; simpl; [destruct (hmac_sha256_total (as_bytes k) m) as (t & -> & Hl & _)
      |destruct (hmac_sha512_total (as_bytes k) m) as (t & -> & Hl & _)]; exists t; (split; [done|lia]). }
  destruct Hfull as (full & -> & Hlen). cbn [ok_or]. unfold verify_truncated_left.
  destruct (Z.eqb_spec (len tag) (mac_len p)) as [El|Hl]; cbn [negb].
  - assert (is_nil tag = false) as -> by (destruct tag; [rewrite len_nil in El; by destruct p|done]).
    cbn [negb andb]. btrue (len tag <=? len full). cbn [andb]. unfold bytes_eqb.
    rewrite <-El. unfold len at 1. rewrite Nat2Z.id. case_bool_decide; naive_solver congruence.
  - split; [done|]. intros [= <-]. exfalso. apply Hl. unfold len in *. rewrite length_take.
    clear Hl; destruct p; unfold mac_len in *; lia.
Qed.

Lemma compute_mac_len `{CryptoOps, !CryptoLaws} p k m tag :
  compute_mac p k m = Ok tag -> len tag = mac_len p.
Proof.
  intros Hc%verify_mac_ok. unfold verify_mac in Hc.
  destruct (negb (key_size k =? _)); [done|]. destruct (Z.eqb_spec (len tag) (mac_len p)); done.
Qed.

Lemma compute_mac_total `{CryptoOps, !CryptoLaws} p k m :
  key_size k = auth_key_len p -> exists tag, compute_mac p k m = Ok tag /\ Forall is_u8 tag.
Proof.
  intros Hk. unfold compute_mac. rewrite Hk, Z.eqb_refl. cbn [negb].
  destruct p; simpl; [destruct (hmac_sha256_total (as_bytes k) m) as (t & -> & _ & Hu)
    |destruct (hmac_sha512_total (as_bytes k) m) as (t & -> & _ & Hu)]; simpl; eexists; (split; [done|]);
    by apply Forall_take.
Qed.

Lemma encrypt_decrypt `{CryptoOps, !CryptoLaws} p k iv pt :
  key_size k = priv_key_len p -> len iv = 16 -> Forall is_u8 pt ->
  exists ct, encrypt p k iv pt = Ok ct /\ decrypt p k iv ct = Ok pt /\ len ct = len pt /\ Forall is_u8 ct.
Proof.
  intros Hk Hiv Hpt. unfold encrypt, decrypt. rewrite Hk, Z.eqb_refl. cbn [negb]. unfold key_size in Hk.
  destruct p; simpl in Hk.
  - destruct (cfb_encrypt_total _ _ _ aes128_laws (as_bytes k) iv pt Hk Hiv) as (ct & E & Hl & Hu).
    rewrite E. exists ct. by rewrite (cfb_decrypt_encrypt _ _ _ aes128_laws _ _ _ _ Hk Hiv Hpt E).
  - destruct (cfb_encrypt_total _ _ _ aes256_laws (as_bytes k) iv pt Hk Hiv) as (ct & E & Hl & Hu).
    rewrite E. exists ct. by rewrite (cfb_decrypt_encrypt _ _ _ aes256_laws _ _ _ _ Hk Hiv Hpt E).
Qed.

Lemma digest_len `{CryptoOps, !CryptoLaws} p m : len (digest p m) = auth_key_len p.
Proof. destruct p; [apply sha256_len|apply sha512_len]. Qed.

Lemma finalise_digest `{CryptoOps} p m : as_bytes (finalise_into_secret_key p m) = digest p m.
Proof.
  unfold finalise_into_secret_key, zeroed. simpl.
  rewrite drop_ge; [by rewrite app_nil_r|]. rewrite length_replicate. unfold len. lia.
Qed.

Lemma hasher_update_n_app n h b : hasher_update_n n h b = h ++ concat (replicate n b).
Proof.
  revert h. induction n as [|n IH]; intros h; simpl; [by rewrite app_nil_r|].
  rewrite IH. unfold hasher_update. by rewrite <-app_assoc.
Qed.

Lemma concat_replicate_lookup (b : bytes) n i :
  b <> [] -> (i < n * length b)%nat -> concat (replicate n b) !! i = b !! (i mod length b)%nat.
Proof.
  intros Hb. assert (length b <> 0)%nat by (by destruct b).
  revert i. induction n as [|n IH]; intros i Hi; [lia|]. simpl.
  destruct (decide (i < length b)%nat) as [Hlt|Hge].
  - rewrite lookup_app_l by done. by rewrite Nat.mod_small.
  - rewrite lookup_app_r by lia. rewrite IH by lia. f_equal.
    replace i with ((i - length b) + 1 * length b)%nat at 2 by lia. by rewrite Nat.Div0.mod_add.
Qed.

Lemma length_concat_replicate (b : bytes) n : length (concat (replicate n b)) = (n * length b)%nat.
Proof. induction n as [|n IH]; simpl; [done|]. rewrite length_app, IH. lia. Qed.

Lemma kdf_stream_app password :
  kdf_stream password =
    concat (replicate (Z.to_nat (KDF_STREAM_LEN / len password)) password)
    ++ take (Z.to_nat (KDF_STREAM_LEN mod len password)) password.
Proof. unfold kdf_stream, hasher_update. by rewrite hasher_update_n_app. Qed.

(** The stream is 2^20 bytes of cyclically repeated password. *)
Lemma kdf_stream_cyclic password :
  password <> [] ->
  len (kdf_stream password) = KDF_STREAM_LEN /\
  forall i, (i < length (kdf_stream password))%nat ->
    kdf_stream password !! i = password !! (i mod length password)%nat.
Proof.
  intros Hne. rewrite kdf_stream_app. set (L := len password) in *.
  assert (HL : 0 < L) by (subst L; destruct password; [done|]; rewrite len_cons; pose proof (len_nonneg password); lia).
  pose proof (Z.div_mod KDF_STREAM_LEN L ltac:(lia)) as Hdm.
  pose proof (Z.mod_pos_bound KDF_STREAM_LEN L HL) as Hr.
  assert (0 <= KDF_STREAM_LEN / L) by (apply Z.div_pos; unfold KDF_STREAM_LEN; lia).
  set (q := KDF_STREAM_LEN / L) in *. set (rm := KDF_STREAM_LEN mod L) in *.
  assert (Hn : Z.of_nat (length password) = L) by done.
  assert (Hlen : length (concat (replicate (Z.to_nat q) password)) = (Z.to_nat q * length password)%nat)
    by apply length_concat_replicate.
  split.
  - unfold len. rewrite length_app, Hlen, length_take. nia.
  - intros i Hi. rewrite length_app, Hlen, length_take in Hi.
    destruct (decide (i < Z.to_nat q * length password)%nat) as [Hlt|Hge].
    + rewrite lookup_app_l by lia. by apply concat_replicate_lookup.
    + rewrite lookup_app_r, Hlen by lia. rewrite lookup_take_lt by lia. f_equal.
      replace i with ((i - Z.to_nat q * length password) + Z.to_nat q * length password)%nat at 2 by lia.
      rewrite Nat.Div0.mod_add, Nat.mod_small by lia. done.
Qed.

(** What every constructor of a user establishes: keys of the size their protocol
    needs, and privacy only with authentication. *)
Definition user_wf (u : UsmUser) : Prop :=
  match auth_credentials u with
  | Some c => key_size (ac_key c) = auth_key_len (ac_protocol c)
  | None => priv_credentials u = None
  end /\
  match priv_credentials u with
  | Some c => key_size (pc_key c) = priv_key_len (pc_protocol c)
  | None => True
  end.

Lemma validate_auth_key_length_ok p k :
  validate_auth_key_length p k = Ok tt <-> key_size k = auth_key_len p.
Proof.
  unfold validate_auth_key_length. destruct (Z.eqb_spec (key_size k) (auth_key_len p)); naive_solver.
Qed.

(** ** A concrete instance of the primitives *)

Module ToyCrypto.

Definition toy_sum (m : bytes) : Z := fold_left (fun acc b => (acc * 31 + b + 7) mod 256) m 1.
Definition toy_digest (n : nat) (m : bytes) : bytes := replicate n (toy_sum m).
Definition toy_shift (iv key : bytes) : Z := (toy_sum key + toy_sum iv) mod 256.
Definition toy_encrypt (klen : Z) (key iv m : bytes) : option bytes :=
  if (len key =? klen) && (len iv =? 16)
  then Some ((fun b => (b + toy_shift iv key) mod 256) <$> m) else None.
Definition toy_decrypt (klen : Z) (key iv m : bytes) : option bytes :=
  if (len key =? klen) && (len iv =? 16)
  then Some ((fun b => (b - toy_shift iv key) mod 256) <$> m) else None.

Definition ops : CryptoOps := {|
  sha256 := toy_digest 32;
  sha512 := toy_digest 64;
  hmac_sha256 := fun k m => Some (toy_digest 32 (k ++ m));
  hmac_sha512 := fun k m => Some (toy_digest 64 (k ++ m));
  aes128_cfb_encrypt := toy_encrypt 16;
  aes128_cfb_decrypt := toy_decrypt 16;
  aes256_cfb_encrypt := toy_encrypt 32;
  aes256_cfb_decrypt := toy_decrypt 32;
|}.

Lemma toy_sum_u8 m : is_u8 (toy_sum m).
Proof.
  unfold toy_sum. assert (H : is_u8 1) by zrange. revert H. generalize 1.
  induction m as [|b m IH]; intros a Ha; simpl; [done|]. apply IH, Z.mod_pos_bound. lia.
Qed.

Lemma toy_cfb_laws klen : cfb_laws klen (toy_encrypt klen) (toy_decrypt klen).
Proof.
  assert (Hmap : forall (f : Z -> Z) m, (forall b, is_u8 (f b)) ->
    len (f <$> m) = len m /\ Forall is_u8 (f <$> m)).
  { intros f m Hf. split; [unfold len; by rewrite length_fmap|]. apply Forall_fmap, Forall_true. intros; apply Hf. }
  split; unfold toy_encrypt, toy_decrypt; intros key iv m.
  - intros -> ->. rewrite !Z.eqb_refl. cbn [andb]. eexists. split; [done|].
    apply Hmap. intros. apply Z.mod_pos_bound. lia.
  - intros -> ->. rewrite !Z.eqb_refl. cbn [andb]. eexists. split; [done|].
    apply Hmap. intros. apply Z.mod_pos_bound. lia.
  - intros ct -> -> Hu. rewrite !Z.eqb_refl. cbn [andb]. intros [= <-]. f_equal.
    rewrite <-list_fmap_compose. rewrite <-(list_fmap_id m) at 2. apply Forall_fmap_ext_1.
    eapply Forall_impl; [done|]. intros b Hb. unfold compose. simpl.
    rewrite Zminus_mod_idemp_l. replace (b + _ - _) with b by lia. by apply Z.mod_small.
Qed.

#[export] Instance laws : @CryptoLaws ops.
Proof.
  split; simpl; intros; try apply toy_cfb_laws; unfold toy_digest, len.
  - by rewrite length_replicate.
  - by rewrite length_replicate.
  - eexists. split; [done|]. rewrite length_replicate. split; [done|]. apply Forall_replicate, toy_sum_u8.
  - eexists. split; [done|]. rewrite length_replicate. split; [done|]. apply Forall_replicate, toy_sum_u8.
Qed.

End ToyCrypto.

(** Key derivation in closed form. *)
Lemma password_to_localised_key_value `{CryptoOps, !CryptoLaws} password engine_id p :
  password_to_localised_key password engine_id p =
    if is_nil password then Some (Err EmptyPassword)
    else if len password <? 8 then Some (Err (PasswordTooShort (len password)))
    else Some (Ok (MkSecretKey (digest p (digest p (kdf_stream password) ++ engine_id ++ digest p (kdf_stream password))))).
Proof.
  unfold password_to_localised_key. destruct (is_nil password); [done|]. destruct (len password <? 8); [done|].
  unfold localise_key, truncate, hasher_update. rewrite !finalise_digest, digest_len, app_nil_l, <-app_assoc.
  btrue (auth_key_len p <=? auth_key_len p). cbn. do 3 f_equal. apply take_ge.
  pose proof (digest_len p (digest p (kdf_stream password) ++ engine_id ++ digest p (kdf_stream password))) as Hd.
  unfold len in Hd. lia.
Qed.

(** ** Properties *)

(** Claim C26: key derivation is RFC 3414 A.2 / RFC 7860: for every password of at
    least eight bytes, however long, it returns, without panicking, the key
    [H(Ku ++ engineID ++ Ku)] with [Ku] the digest of the 2^20-byte cyclic
    repetition of the password (of a longer password, its first 2^20 bytes), and the key has the size its protocol requires. *)
Theorem password_to_localised_key_correct `{CryptoOps, !CryptoLaws} (password engine_id : bytes) (p : AuthProtocol) :
  8 <= len password ->
  let ku := digest p (kdf_stream password) in
  password_to_localised_key password engine_id p =
    Some (Ok (MkSecretKey (digest p (ku ++ engine_id ++ ku)))) /\
  len (digest p (ku ++ engine_id ++ ku)) = auth_key_len p /\
  len (kdf_stream password) = KDF_STREAM_LEN /\
  (forall i, (i < length (kdf_stream password))%nat ->
     kdf_stream password !! i = password !! (i mod length password)%nat).
Proof.
  intros Hl ku. assert (Hne : password <> []) by (intros ->; rewrite len_nil in Hl; lia).
  destruct (kdf_stream_cyclic password Hne) as [Hlen Hcyc].
  split_and!; [|apply digest_len|done|done].
  rewrite password_to_localised_key_value. replace (is_nil password) with false by (by destruct password).
  by bfalse (len password <? 8).
Qed.

Lemma password_to_localised_key_correct_witness :
  exists k, @password_to_localised_key ToyCrypto.ops (str "maplesyrup") [1; 2; 3; 4; 5] HmacSha512 = Some (Ok k).
Proof.
  eexists. exact (proj1 (@password_to_localised_key_correct ToyCrypto.ops ToyCrypto.laws
    (str "maplesyrup") [1; 2; 3; 4; 5] HmacSha512 ltac:(vm_compute; discriminate))).
Defined.

(** The conversion of a user whose authentication key has its protocol's length. *)
Lemma auth_priv_into_user_ok u :
  key_size (ap_auth_key u) = auth_key_len (ap_auth_protocol u) ->
  exists usm, auth_priv_into_user u = Some usm /\ user_wf usm /\ user_security_level usm = AuthPriv /\
    user_name usm = ap_name u /\ auth_key usm = Some (ap_auth_key u) /\
    (as_bytes <$> priv_key usm) = Some (take (Z.to_nat (priv_key_len (ap_priv_protocol u))) (as_bytes (ap_auth_key u))).
Proof.
  intros E. unfold auth_priv_into_user, get_range. unfold key_size in E. rewrite E, Z.sub_0_r, drop_0.
  assert (0 <= priv_key_len (ap_priv_protocol u) <= auth_key_len (ap_auth_protocol u))
    by (destruct (ap_auth_protocol u), (ap_priv_protocol u); simpl; lia).
  btrue (0 <=? priv_key_len (ap_priv_protocol u)).
  btrue (priv_key_len (ap_priv_protocol u) <=? auth_key_len (ap_auth_protocol u)). cbn.
  eexists. split; [done|]. unfold user_wf, key_size. cbn. split_and!; try done.
  unfold len in *. rewrite length_take. lia.
Qed.

(** Claim C34: converting a constructed authPriv user to a [UsmUser] never panics;
    the result satisfies the key-size invariant, its level is authPriv, and its
    privacy key is the leading [priv_key_len] bytes of the authentication key. *)
Theorem auth_priv_user_wf (name : UserName) (p : AuthProtocol) (k : SecretKey) (pp : PrivProtocol) (u : AuthPrivUser) :
  auth_priv_new name p k pp = Ok u ->
  exists usm, auth_priv_into_user u = Some usm /\ user_wf usm /\ user_security_level usm = AuthPriv /\
    auth_key usm = Some k /\
    (as_bytes <$> priv_key usm) = Some (take (Z.to_nat (priv_key_len pp)) (as_bytes k)).
Proof.
  unfold auth_priv_new. intros H. destruct (validate_auth_key_length p k) as [[]|] eqn:E; [|done]. injection H as <-.
  apply validate_auth_key_length_ok in E.
  destruct (auth_priv_into_user_ok (MkAuthPrivUser name p k pp) E) as (usm & H1 & H2 & H3 & _ & H4 & H5).
  by exists usm.
Qed.

Lemma auth_priv_user_wf_witness :
  let k := zeroed 32 in let u := MkAuthPrivUser (MkUserName [97]) HmacSha256 k Aes256 in
  exists usm, auth_priv_into_user u = Some usm /\ user_wf usm.
Proof.
  destruct (auth_priv_user_wf (MkUserName [97]) HmacSha256 (zeroed 32) Aes256 _ eq_refl)
    as (usm & E & Hwf & _). exists usm. split; [exact E|exact Hwf].
Defined.
