(* ===== verification/Types.v ===== *)
(** * Values and PDUs: [src/src/codec/value.rs], [src/src/codec/pdu/types.rs]

    The SMIv2 values, varbinds, error-status codes, identifiers and PDU structures
    that every other component exchanges.  The newtypes [RequestId], [MessageId]
    and [SecurityModel] over [i32] are aliases of [Z]. *)

From S2P Require Import Prelude Oid Ber Usm.

(** ** Values *)

Inductive Value :=
| Integer32 (n : Z)
| ObjectIdentifier (oid : Oid)
| IpAddress (octets : bytes)
| OctetString (b : bytes)
| Counter32 (n : Z)
| Counter64 (n : Z)
| Gauge32 (n : Z)
| TimeTicks (n : Z)
| Opaque (b : bytes).

#[export] Instance Value_eq_dec : EqDecision Value.
Proof. solve_decision. Defined.

(** The payload of each variant is in the range of its Rust type. *)
Definition value_wf (v : Value) : Prop :=
  match v with
  | Integer32 n => is_i32 n
  | ObjectIdentifier oid => oid_wf oid
  | IpAddress octets => len octets = 4 /\ Forall is_u8 octets
  | OctetString b | Opaque b => Forall is_u8 b
  | Counter32 n | Gauge32 n | TimeTicks n => is_u32 n
  | Counter64 n => is_u64 n
  end.

(** Decimal digits of a non-negative number below 10^20. *)
Definition show_u64 (n : Z) : bytes := show_go 20 n [].

Definition show_i32 (n : Z) : bytes := if n <? 0 then 45 :: show_u64 (- n) else show_u64 n.

(** [{:X}] of a nibble. *)
Definition hex_digit (d : Z) : Z := if d <? 10 then 48 + d else 55 + d.

(** [fmt_hex]: [{byte:02X}] for each byte. *)
Definition fmt_hex (b : bytes) : bytes :=
  concat ((fun byte => [hex_digit (byte / 16); hex_digit (byte mod 16)]) <$> b).

(** [Ipv4Addr]'s [Display]. *)
Definition fmt_ipv4 (octets : bytes) : bytes :=
  match octets with
  | [] => []
  | o :: rest => show_u32 o ++ concat ((fun x => DOT :: show_u32 x) <$> rest)
  end.

(** [Display for Value] *)
Definition value_fmt (v : Value) : bytes :=
  match v with
  | Integer32 n => show_i32 n
  | ObjectIdentifier oid => fmt oid
  | IpAddress octets => fmt_ipv4 octets
  | OctetString b | Opaque b => fmt_hex b
  | Counter32 n | Gauge32 n | TimeTicks n => show_u64 n
  | Counter64 n => show_u64 n
  end.

(** [From<&[u8]>], [From<Vec<u8>>] and [From<&str>] for [Value]. *)
Definition value_from_bytes (b : bytes) : Value := OctetString b.

(** ** Identifiers *)

Definition RequestId := Z.
Definition RequestId_ZERO : RequestId := 0.
Definition MessageId := Z.

(** Wrap-around of [i32] addition. *)
Definition i32_wrap (z : Z) : Z := (z + 2147483648) mod 4294967296 - 2147483648.

(** [MessageId::next_sequential]: [fetch_add(1)] wraps, and the sign bit of the
    returned value is cleared.  Returns the identifier and the new counter. *)
Definition next_sequential (counter : Z) : MessageId * Z :=
  (Z.land counter I32_MAX, i32_wrap (counter + 1)).

(** ** Varbinds *)

Inductive VarbindValue :=
| VValue (v : Value)
| Unspecified
| NoSuchObject
| NoSuchInstance
| EndOfMibView.

#[export] Instance VarbindValue_eq_dec : EqDecision VarbindValue.
Proof. solve_decision. Defined.

Record Varbind := MkVarbind { vb_oid : Oid; vb_value : VarbindValue }.

#[export] Instance Varbind_eq_dec : EqDecision Varbind.
Proof. solve_decision. Defined.

Definition varbind_value_wf (v : VarbindValue) : Prop :=
  match v with VValue x => value_wf x | _ => True end.
Definition varbind_wf (vb : Varbind) : Prop := oid_wf (vb_oid vb) /\ varbind_value_wf (vb_value vb).

(** ** Error status *)

Inductive ErrorStatus :=
| NoError | TooBig | NoSuchName | BadValue | ReadOnly | GenErr | NoAccess | WrongType
| WrongLength | WrongEncoding | WrongValue | NoCreation | InconsistentValue
| ResourceUnavailable | CommitFailed | UndoFailed | AuthorizationError | NotWritable
| InconsistentName.

#[export] Instance ErrorStatus_eq_dec : EqDecision ErrorStatus.
Proof. solve_decision. Defined.

(** [From<ErrorStatus> for i32]: the [repr(i32)] discriminant. *)
Definition error_status_code (s : ErrorStatus) : Z :=
  match s with
  | NoError => 0 | TooBig => 1 | NoSuchName => 2 | BadValue => 3 | ReadOnly => 4
  | GenErr => 5 | NoAccess => 6 | WrongType => 7 | WrongLength => 8 | WrongEncoding => 9
  | WrongValue => 10 | NoCreation => 11 | InconsistentValue => 12 | ResourceUnavailable => 13
  | CommitFailed => 14 | UndoFailed => 15 | AuthorizationError => 16 | NotWritable => 17
  | InconsistentName => 18
  end.

Record InvalidErrorStatus := MkInvalidErrorStatus { invalid_code : Z }.

(** [TryFrom<i32> for ErrorStatus] *)
Definition error_status_try_from (code : Z) : result ErrorStatus InvalidErrorStatus :=
  if code =? 0 then Ok NoError
  else if code =? 1 then Ok TooBig
  else if code =? 2 then Ok NoSuchName
  else if code =? 3 then Ok BadValue
  else if code =? 4 then Ok ReadOnly
  else if code =? 5 then Ok GenErr
  else if code =? 6 then Ok NoAccess
  else if code =? 7 then Ok WrongType
  else if code =? 8 then Ok WrongLength
  else if code =? 9 then Ok WrongEncoding
  else if code =? 10 then Ok WrongValue
  else if code =? 11 then Ok NoCreation
  else if code =? 12 then Ok InconsistentValue
  else if code =? 13 then Ok ResourceUnavailable
  else if code =? 14 then Ok CommitFailed
  else if code =? 15 then Ok UndoFailed
  else if code =? 16 then Ok AuthorizationError
  else if code =? 17 then Ok NotWritable
  else if code =? 18 then Ok InconsistentName
  else Err (MkInvalidErrorStatus code).

(** [Display for ErrorStatus]: [name(code)]. *)
Definition error_status_name (s : ErrorStatus) : bytes :=
  match s with
  | NoError => str "noError" | TooBig => str "tooBig" | NoSuchName => str "noSuchName"
  | BadValue => str "badValue" | ReadOnly => str "readOnly" | GenErr => str "genErr"
  | NoAccess => str "noAccess" | WrongType => str "wrongType" | WrongLength => str "wrongLength"
  | WrongEncoding => str "wrongEncoding" | WrongValue => str "wrongValue"
  | NoCreation => str "noCreation" | InconsistentValue => str "inconsistentValue"
  | ResourceUnavailable => str "resourceUnavailable" | CommitFailed => str "commitFailed"
  | UndoFailed => str "undoFailed" | AuthorizationError => str "authorizationError"
  | NotWritable => str "notWritable" | InconsistentName => str "inconsistentName"
  end.

Definition error_status_fmt (s : ErrorStatus) : bytes :=
  error_status_name s ++ [40] ++ show_u32 (error_status_code s) ++ [41].

(** ** Inbound PDUs *)

Record GetRequest := MkGetRequest { get_request_id : RequestId; get_varbinds : list Varbind }.
Record GetNextRequest := MkGetNextRequest { next_request_id : RequestId; next_varbinds : list Varbind }.
Record GetBulkRequest := MkGetBulkRequest {
  bulk_request_id : RequestId; non_repeaters : Z; max_repetitions : Z; bulk_varbinds : list Varbind }.
Record SetRequest := MkSetRequest { set_request_id : RequestId; set_varbinds : list Varbind }.

Inductive InboundPdu :=
| PduGetRequest (r : GetRequest)
| PduGetNextRequest (r : GetNextRequest)
| PduGetBulkRequest (r : GetBulkRequest)
| PduSetRequest (r : SetRequest).

Inductive V3ScopedData :=
| Plaintext (pdu : InboundPdu)
| Encrypted (ciphertext : bytes).

Record DecodedScopedPdu := MkDecodedScopedPdu {
  dsp_context_engine_id : bytes; dsp_context_name : bytes; dsp_pdu : InboundPdu }.

Record UsmSecurityFields := MkUsmSecurityFields {
  auth_engine_id : bytes;
  auth_engine_boots : Z;
  auth_engine_time : Z;
  security_flags : MsgFlags;
  auth_params : option AuthenticationParams;
  priv_params : option PrivacySalt;
}.

Definition SecurityModel := Z.
Definition SecurityModel_USM : SecurityModel := 3.
Definition is_usm (m : SecurityModel) : bool := m =? SecurityModel_USM.

Record V3InboundMessage := MkV3InboundMessage {
  msg_id : MessageId;
  max_size : Z;
  security_model : SecurityModel;
  msg_engine_id : bytes;
  msg_context_name : bytes;
  msg_user_name : bytes;
  scoped_data : V3ScopedData;
  usm : UsmSecurityFields;
  raw_message : bytes;
  auth_params_offset : option Z;
}.

(** ** Outbound PDUs *)

Record GetResponse := MkGetResponse {
  resp_request_id : RequestId;
  error_status : ErrorStatus;
  error_index : Z;
  resp_varbinds : list Varbind;
}.

Record WireTrapPdu := MkWireTrapPdu { trap_request_id : RequestId; trap_varbinds : list Varbind }.

(** ** Errors *)

Inductive DecodeErrorKind := KindBer | UnsupportedPduType | InvalidOid | WrongVersion.

(** One constructor per message the code formats. *)
Inductive DecodeMessage :=
| BerDecodeFailed (e : BerError)
| VersionMismatch (e : BerError)
| VarBindDecodeFailed (e : BerError)
| VarBindValueDecodeFailed (e : BerError)
| ScopedPduDecodeFailed (e : BerError)
| PduDecodeFailed (e : BerError)
| UnexpectedOutboundPdu (tag : Z).

Record DecodeError := MkDecodeError { kind : DecodeErrorKind; decode_message : DecodeMessage }.

Inductive EncodeError :=
| VarbindValueEncodingFailed (e : BerError)
| ErrorIndexTooLarge (i : Z)
| PduEncodingFailed (what : bytes) (e : BerError)
| EngineBootsTooLarge (b : Z)
| EngineTimeTooLarge (t : Z)
| PrivacyWithoutAuthentication
| AesEncryptionFailed (e : PrivError)
| MessageEncodingFailed (e : BerError)
| AuthOffsetMissing
| HmacComputationFailed (e : AuthError)
| AuthRangeOverflow
| AuthRangeOutOfBounds.

(** ** [std::io::Error] and [std::net::SocketAddr] *)

Inductive IoErrorKind := NotFound | InvalidData | InvalidInput | OtherKind.

(** What [Display] prints: a text, of the operating system or of [io::Error::new], or
    the one that [TrapSender::send_trap] makes of an encoding error. *)
Inductive IoMessage := Text (text : bytes) | TrapEncodingFailed (e : EncodeError).

Record IoError := MkIoError { io_kind : IoErrorKind; io_message : IoMessage }.

Definition io_error_new (kind : IoErrorKind) (text : bytes) : IoError := MkIoError kind (Text text).

(** Four or sixteen octets, and the port; scope and flow of an IPv6 address are zero. *)
Definition SocketAddr : Type := bytes * Z.

(** ** Lemmas *)

Lemma next_sequential_value counter :
  is_i32 counter ->
  fst (next_sequential counter) = (if counter <? 0 then counter + 2147483648 else counter) /\
  is_i32 (snd (next_sequential counter)).
Proof.
  intros Hc. unfold next_sequential, i32_wrap, is_i32 in *. cbn [fst snd]. split.
  - change I32_MAX with (Z.ones 31). rewrite Z.land_ones by lia. change (2 ^ 31) with 2147483648.
    destruct (Z.ltb_spec counter 0); [|apply Z.mod_small; lia].
    rewrite <-(Z.mod_add counter 1), Z.mod_small by lia. lia.
  - pose proof (Z.mod_pos_bound (counter + 1 + 2147483648) 4294967296 ltac:(lia)). lia.
Qed.

(** [n] calls in sequence. *)
Fixpoint sequential_ids (n : nat) (counter : Z) : list MessageId :=
  match n with
  | O => []
  | S m => let '(id, c) := next_sequential counter in id :: sequential_ids m c
  end.

Lemma length_sequential_ids n counter : length (sequential_ids n counter) = n.
Proof.
  revert counter. induction n as [|n IH]; intros counter; [done|]. cbn [sequential_ids].
  destruct (next_sequential counter). simpl. by rewrite IH.
Qed.

Lemma sequential_ids_lookup n counter i :
  is_i32 counter -> (i < n)%nat ->
  sequential_ids n counter !! i = Some ((counter + Z.of_nat i) mod 2147483648).
Proof.
  revert i counter. induction n as [|n IH]; intros i counter Hc Hi; [lia|]. cbn [sequential_ids].
  destruct (next_sequential_value counter Hc) as [Hf Hs].
  destruct (next_sequential counter) as [id c] eqn:E. cbn [fst snd] in *.
  destruct i as [|i]; simpl lookup.
  - subst id. f_equal. rewrite Z.add_0_r. unfold is_i32 in Hc. destruct (Z.ltb_spec counter 0).
    + rewrite <-(Z.mod_add counter 1), Z.mod_small by lia. lia.
    + by rewrite Z.mod_small by lia.
  - rewrite IH by (done || lia). f_equal. injection E as _ <-. unfold i32_wrap.
    replace ((counter + 1 + 2147483648) mod 4294967296 - 2147483648 + Z.of_nat i)
      with ((counter + 1 + 2147483648) mod 4294967296 + (Z.of_nat i - 2147483648)) by lia.
    replace (counter + Z.of_nat (S i)) with (counter + 1 + Z.of_nat i) by lia.
    rewrite (Z.mod_eq (_ + 2147483648) 4294967296) by lia.
    set (q := (counter + 1 + 2147483648) / 4294967296).
    replace (counter + 1 + 2147483648 - 4294967296 * q + (Z.of_nat i - 2147483648))
      with (counter + 1 + Z.of_nat i + (- 2 * q) * 2147483648) by lia.
    by rewrite Z.mod_add by lia.
Qed.

(** ** Properties *)

(** [ErrorStatus::try_from] inverts the conversion to [i32], and accepts
    no other code than those of the nineteen variants. *)
Theorem error_status_roundtrip (s : ErrorStatus) (code : Z) :
  error_status_try_from (error_status_code s) = Ok s /\
  (error_status_try_from code = Ok s <-> code = error_status_code s).
Proof.
  split; [by destruct s|]. split; [|intros ->; by destruct s].
  unfold error_status_try_from. intros H.
  repeat match type of H with
  | context [code =? ?k] => destruct (Z.eqb_spec code k); [subst code; by inversion H|]
  end.
  done.
Qed.

(** Starting from the counter's initial value 1 (or any non-negative
    one), the [i]-th identifier handed out is the counter plus [i] modulo 2^31:
    never negative, and no identifier repeats within 2^31 calls. *)
Theorem message_ids_fresh (n : nat) (counter : Z) (i j : nat) (a b : MessageId) :
  is_i32 counter -> Z.of_nat n <= 2147483648 ->
  sequential_ids n counter !! i = Some a -> sequential_ids n counter !! j = Some b ->
  0 <= a <= I32_MAX /\ (a = b -> i = j).
Proof.
  intros Hc Hn Ha Hb.
  pose proof (lookup_lt_Some _ _ _ Ha) as Hi. pose proof (lookup_lt_Some _ _ _ Hb) as Hj.
  rewrite length_sequential_ids in Hi, Hj.
  rewrite sequential_ids_lookup in Ha, Hb by done. injection Ha as <-. injection Hb as <-.
  pose proof (Z.mod_pos_bound (counter + Z.of_nat i) 2147483648 ltac:(lia)).
  split; [zrange|]. intros E. Z.div_mod_to_equations. nia.
Qed.

Lemma message_ids_fresh_witness :
  sequential_ids 3 I32_MAX = [2147483647; 0; 1] /\ 0 <= 0 <= I32_MAX /\ (0 = 1 -> 1%nat = 2%nat).
Proof.
  split; [vm_compute; reflexivity|].
  apply (message_ids_fresh 3 I32_MAX 1 2 0 1); [zrange|lia|vm_compute; reflexivity..].
Defined.
