(* ===== verification/Varbind.v ===== *)
(** * VarBind and VarBindList: [src/src/codec/ber/varbind.rs]

    Decoding to [DecodedVarbind], interpretation of APPLICATION-tagged values, the
    encoders, and the round trip of a whole list. *)

From S2P Require Import Prelude Oid Ber BerFacts Usm Types.

(** ** Decoding *)

Inductive DecodedVarbindValue :=
| DUnspecified
| DNoSuchObject
| DNoSuchInstance
| DEndOfMibView
| DInteger (n : Z)
| DOctetString (b : bytes)
| DObjectIdentifier (oid : Oid)
| Raw (tag : Z) (value_bytes : bytes).

Record DecodedVarbind := MkDecodedVarbind { name : Oid; decoded_value : DecodedVarbindValue }.

Definition decode_varbind_value (r : BerReader) : result DecodedVarbindValue BerError :=
  let? tag := peek_tag r in
  let? '(value, r) :=
    if tag =? TAG_NULL then
      let? '(_, r) := read_null r in Ok (DUnspecified, r)
    else if (tag =? TAG_NO_SUCH_OBJECT) || (tag =? TAG_NO_SUCH_INSTANCE) || (tag =? TAG_END_OF_MIB_VIEW) then
      let? '((_, exception_bytes), r) := read_tlv r in
      if negb (is_nil exception_bytes)
      then Err (ber_error (ExceptionNonEmpty tag (len exception_bytes)))
      else if tag =? TAG_NO_SUCH_OBJECT then Ok (DNoSuchObject, r)
      else if tag =? TAG_NO_SUCH_INSTANCE then Ok (DNoSuchInstance, r)
      else if tag =? TAG_END_OF_MIB_VIEW then Ok (DEndOfMibView, r)
      else Err (ber_error (UnexpectedExceptionTag tag))
    else if tag =? TAG_INTEGER then
      let? '(integer_value, r) := read_integer r in Ok (DInteger integer_value, r)
    else if tag =? TAG_OCTET_STRING then
      let? '(string_bytes, r) := read_octet_string r in Ok (DOctetString string_bytes, r)
    else if tag =? TAG_OID then
      let? '(oid_value, r) := read_oid r in Ok (DObjectIdentifier oid_value, r)
    else
      let? '((raw_tag, raw_value), r) := read_tlv r in Ok (Raw raw_tag raw_value, r) in
  if negb (reader_is_empty r)
  then Err (ber_error (TrailingInVarBind (len (remaining r))))
  else Ok value.

(** The [while !list_reader.is_empty()] loop.  Each iteration consumes at least
    two bytes, so the fuel [length] of the list's contents is never exhausted
    ([decode_varbinds_fuel]). *)
Fixpoint decode_varbinds (fuel : nat) (list_reader : BerReader) : result (list DecodedVarbind) BerError :=
  if reader_is_empty list_reader then Ok []
  else
    match fuel with
    | O => Err (ber_error TrailingAfterVarBindList)
    | S f =>
        let? '(varbind_reader, list_reader) := read_sequence list_reader in
        let? '(name, varbind_reader) := read_oid varbind_reader in
        let? value := decode_varbind_value varbind_reader in
        let? varbinds := decode_varbinds f list_reader in
        Ok ({| name := name; decoded_value := value |} :: varbinds)
    end.

Definition decode_varbind_list (raw_varbind_list_bytes : bytes) : result (list DecodedVarbind) BerError :=
  let? '(list_reader, outer_reader) := read_sequence (reader_new raw_varbind_list_bytes) in
  if negb (reader_is_empty outer_reader) then Err (ber_error TrailingAfterVarBindList)
  else decode_varbinds (length (input list_reader)) list_reader.

Definition decode_varbind_value_to_value (decoded : DecodedVarbindValue) : result VarbindValue BerError :=
  match decoded with
  | DUnspecified => Ok Unspecified
  | DNoSuchObject => Ok NoSuchObject
  | DNoSuchInstance => Ok NoSuchInstance
  | DEndOfMibView => Ok EndOfMibView
  | DInteger integer_value => Ok (VValue (Integer32 integer_value))
  | DOctetString string_bytes => Ok (VValue (OctetString string_bytes))
  | DObjectIdentifier oid => Ok (VValue (ObjectIdentifier oid))
  | Raw tag value_bytes =>
      if tag =? TAG_IP_ADDRESS then
        if len value_bytes =? 4 then Ok (VValue (IpAddress value_bytes))
        else Err (ber_error (IpAddressLength (len value_bytes)))
      else if tag =? TAG_COUNTER32 then
        let? counter_value := decode_unsigned_u32 value_bytes 0 in Ok (VValue (Counter32 counter_value))
      else if tag =? TAG_GAUGE32 then
        let? gauge_value := decode_unsigned_u32 value_bytes 0 in Ok (VValue (Gauge32 gauge_value))
      else if tag =? TAG_TIMETICKS then
        let? timeticks_value := decode_unsigned_u32 value_bytes 0 in Ok (VValue (TimeTicks timeticks_value))
      else if tag =? TAG_OPAQUE then Ok (VValue (Opaque value_bytes))
      else if tag =? TAG_COUNTER64 then
        let? counter64_value := decode_unsigned_u64 value_bytes 0 in Ok (VValue (Counter64 counter64_value))
      else Err (ber_error (UnsupportedApplicationTag tag))
  end.

(** ** Encoding *)

Definition encode_varbind_list (encoded_varbinds : list bytes) : bytes :=
  let inner_writer := fold_left write_raw encoded_varbinds writer_new in
  into_vec (write_sequence writer_new (writer_as_bytes inner_writer)).

Definition encode_varbind (oid : Oid) (encoded_value_tlv : bytes) : bytes :=
  let inner_writer := write_raw (write_oid writer_new oid) encoded_value_tlv in
  into_vec (write_sequence writer_new (writer_as_bytes inner_writer)).

Definition encode_null_value : bytes := [TAG_NULL; 0x00].
Definition encode_integer_value (value : Z) : bytes := into_vec (write_integer writer_new value).
Definition encode_octet_string_value (b : bytes) : bytes := into_vec (write_octet_string writer_new b).
Definition encode_oid_value (oid : Oid) : bytes := into_vec (write_oid writer_new oid).

Definition encode_exception (tag : Z) : result bytes BerError :=
  if negb (tag =? TAG_NO_SUCH_OBJECT) && negb (tag =? TAG_NO_SUCH_INSTANCE) && negb (tag =? TAG_END_OF_MIB_VIEW)
  then Err (ber_error (InvalidExceptionTag tag))
  else Ok [tag; 0x00].

Definition encode_varbind_value (value : VarbindValue) : result bytes BerError :=
  match value with
  | Unspecified => Ok encode_null_value
  | NoSuchObject => encode_exception TAG_NO_SUCH_OBJECT
  | NoSuchInstance => encode_exception TAG_NO_SUCH_INSTANCE
  | EndOfMibView => encode_exception TAG_END_OF_MIB_VIEW
  | VValue (Integer32 integer_value) => Ok (encode_integer_value integer_value)
  | VValue (OctetString string_bytes) => Ok (encode_octet_string_value string_bytes)
  | VValue (ObjectIdentifier oid) => Ok (encode_oid_value oid)
  | VValue (IpAddress octets) => Ok (into_vec (write_tlv writer_new TAG_IP_ADDRESS octets))
  | VValue (Counter32 v) => Ok (into_vec (write_tagged_unsigned32 writer_new TAG_COUNTER32 v))
  | VValue (Gauge32 v) => Ok (into_vec (write_tagged_unsigned32 writer_new TAG_GAUGE32 v))
  | VValue (TimeTicks v) => Ok (into_vec (write_tagged_unsigned32 writer_new TAG_TIMETICKS v))
  | VValue (Opaque opaque_bytes) => Ok (into_vec (write_tlv writer_new TAG_OPAQUE opaque_bytes))
  | VValue (Counter64 v) => Ok (into_vec (write_tagged_unsigned64 writer_new TAG_COUNTER64 v))
  end.

(** ** The encoders as concatenations of TLVs *)

Lemma write_raw_buffer w b : buffer (write_raw w b) = buffer w ++ b.
Proof. done. Qed.

Lemma fold_write_raw l w : buffer (fold_left write_raw l w) = buffer w ++ concat l.
Proof.
  revert w. induction l as [|b l IH]; intros w; cbn [fold_left concat]; [by rewrite app_nil_r|].
  by rewrite IH, write_raw_buffer, <-app_assoc.
Qed.

Lemma encode_varbind_list_tlv l : encode_varbind_list l = tlv TAG_SEQUENCE (concat l).
Proof.
  unfold encode_varbind_list, into_vec, write_sequence, writer_as_bytes.
  by rewrite write_tlv_buffer, fold_write_raw.
Qed.

Lemma encode_varbind_tlv oid v : encode_varbind oid v = tlv TAG_SEQUENCE (tlv TAG_OID (encode_oid oid) ++ v).
Proof.
  unfold encode_varbind, into_vec, write_sequence, writer_as_bytes, write_oid.
  by rewrite write_tlv_buffer, write_raw_buffer, write_tlv_buffer.
Qed.

(** The content octets and the tag [encode_varbind_value] writes. *)
Definition value_tag (v : VarbindValue) : Z :=
  match v with
  | Unspecified => TAG_NULL
  | NoSuchObject => TAG_NO_SUCH_OBJECT
  | NoSuchInstance => TAG_NO_SUCH_INSTANCE
  | EndOfMibView => TAG_END_OF_MIB_VIEW
  | VValue (Integer32 _) => TAG_INTEGER
  | VValue (OctetString _) => TAG_OCTET_STRING
  | VValue (ObjectIdentifier _) => TAG_OID
  | VValue (IpAddress _) => TAG_IP_ADDRESS
  | VValue (Counter32 _) => TAG_COUNTER32
  | VValue (Gauge32 _) => TAG_GAUGE32
  | VValue (TimeTicks _) => TAG_TIMETICKS
  | VValue (Opaque _) => TAG_OPAQUE
  | VValue (Counter64 _) => TAG_COUNTER64
  end.

Definition value_content (v : VarbindValue) : bytes :=
  match v with
  | VValue (Integer32 n) => encode_signed_i32 n
  | VValue (OctetString b) | VValue (Opaque b) | VValue (IpAddress b) => b
  | VValue (ObjectIdentifier oid) => encode_oid oid
  | VValue (Counter32 n) | VValue (Gauge32 n) | VValue (TimeTicks n) => encode_unsigned_u32 n
  | VValue (Counter64 n) => encode_unsigned_u64 n
  | _ => []
  end.

Lemma encode_varbind_value_tlv v : encode_varbind_value v = Ok (tlv (value_tag v) (value_content v)).
Proof.
  destruct v as [[]| | | |]; try done; cbn [encode_varbind_value];
    unfold encode_integer_value, encode_octet_string_value, encode_oid_value, write_integer,
      write_octet_string, write_oid, write_tagged_unsigned32, write_tagged_unsigned64, into_vec;
    by rewrite write_tlv_buffer.
Qed.

Definition decoded_of (v : VarbindValue) : DecodedVarbindValue :=
  match v with
  | Unspecified => DUnspecified
  | NoSuchObject => DNoSuchObject
  | NoSuchInstance => DNoSuchInstance
  | EndOfMibView => DEndOfMibView
  | VValue (Integer32 n) => DInteger n
  | VValue (OctetString b) => DOctetString b
  | VValue (ObjectIdentifier oid) => DObjectIdentifier oid
  | _ => Raw (value_tag v) (value_content v)
  end.

Lemma decoded_of_value v :
  varbind_value_wf v -> decode_varbind_value_to_value (decoded_of v) = Ok v.
Proof.
  destruct v as [[]| | | |]; cbn; intros Hwf; try done.
  - by destruct Hwf as [-> _].
  - by rewrite decode_encode_unsigned_u32.
  - by rewrite decode_encode_unsigned_u64.
  - by rewrite decode_encode_unsigned_u32.
  - by rewrite decode_encode_unsigned_u32.
Qed.

Lemma decode_varbind_value_tlv v r :
  varbind_value_wf v -> reader_ok r -> rest r = tlv (value_tag v) (value_content v) ->
  decode_varbind_value r = Ok (decoded_of v).
Proof.
  intros Hwf Hr E. rewrite <-(app_nil_r (tlv _ _)) in E.
  assert (Hend : reader_is_empty (advance r (len (tlv (value_tag v) (value_content v)))) = true).
  { rewrite reader_is_empty_rest by (by eapply reader_ok_advance). by rewrite (rest_advance _ _ _ Hr E). }
  unfold decode_varbind_value, peek_tag.
  rewrite (get_rest r (value_tag v) (length_octets (len (value_content v)) ++ value_content v) Hr)
    by (by rewrite E, app_nil_r). cbn [ok_or].
  destruct v as [[]| | | |]; cbn -[tlv reader_is_empty] in *;
    first [rewrite (read_integer_reads _ Hwf r [] Hr E)
          |rewrite (read_octet_string_reads _ r [] Hr E)
          |rewrite (read_oid_reads _ Hwf r [] Hr E)
          |rewrite (read_null_reads r [] Hr E)
          |rewrite (read_tlv_tlv r _ _ [] Hr E)];
    cbn -[tlv reader_is_empty]; by rewrite Hend.
Qed.

(** ** Round trip of a list *)

Definition varbind_octets (vb : Varbind) : bytes :=
  tlv TAG_SEQUENCE (tlv TAG_OID (encode_oid (vb_oid vb)) ++ tlv (value_tag (vb_value vb)) (value_content (vb_value vb))).

Definition decoded_varbind_of (vb : Varbind) : DecodedVarbind :=
  {| name := vb_oid vb; decoded_value := decoded_of (vb_value vb) |}.

Lemma len_le_app_l (a b : bytes) n : len (a ++ b) <= n -> len a <= n.
Proof. rewrite len_app. pose proof (len_nonneg b). lia. Qed.

Lemma len_tlv_content tag v n : len (tlv tag v) <= n -> len v <= n.
Proof.
  unfold tlv. rewrite len_cons, len_app. pose proof (len_nonneg (length_octets (len v))). lia.
Qed.

Lemma rest_len_ISIZE r : reader_ok r -> len (rest r) <= ISIZE_MAX.
Proof. intros Hr. rewrite rest_len by done. destruct Hr. lia. Qed.

(** Entering a constructed value: the sub-reader covers exactly the contents. *)
Lemma read_constructed_enter r tag v post :
  reader_ok r -> rest r = tlv tag v ++ post ->
  exists sub r', read_constructed r tag = Ok (sub, r') /\
    reader_ok sub /\ rest sub = v /\ input sub = v /\ reader_ok r' /\ rest r' = post /\
    r' = advance r (len (tlv tag v)) /\
    position sub = 0 /\ offset sub = offset r + len (tlv tag v) - len v.
Proof.
  intros Hr E. rewrite (read_constructed_tlv r tag v post Hr E). eexists _, _. split; [done|].
  pose proof (rest_len_ISIZE r Hr) as Hl. rewrite E in Hl. apply len_le_app_l, len_tlv_content in Hl.
  split_and!; [by apply new_with_offset_ok|done|done|by eapply reader_ok_advance
    |by apply (rest_advance _ _ _ Hr E)|done|done|].
  unfold tlv, offset, new_with_offset. cbn [base_offset position]. rewrite len_cons, len_app. lia.
Qed.

Lemma decode_varbinds_octets vbs f r :
  Forall varbind_wf vbs -> reader_ok r -> rest r = concat (varbind_octets <$> vbs) ->
  (length vbs <= f)%nat ->
  decode_varbinds f r = Ok (decoded_varbind_of <$> vbs).
Proof.
  intros Hwf. revert f r. induction Hwf as [|vb vbs [Ho Hv] Hvbs IH]; intros f r Hr E Hf.
  { destruct f; cbn [decode_varbinds]; by rewrite reader_is_empty_rest, E. }
  rewrite fmap_cons in E. cbn [concat] in E. destruct f as [|f]; [simpl in Hf; lia|].
  cbn [decode_varbinds]. rewrite reader_is_empty_rest, E by done. cbn [is_nil].
  destruct (read_constructed_enter r _ _ _ Hr E) as (sub & r' & Er & Hs & Es & _ & Hr' & Er' & _).
  unfold read_sequence. rewrite Er. rewrite (read_oid_reads _ Ho sub _ Hs Es).
  rewrite (decode_varbind_value_tlv (vb_value vb)); [|done|by eapply reader_ok_advance|by apply (rest_advance _ _ _ Hs Es)].
  simpl in Hf. rewrite (IH f r') by (done || lia). done.
Qed.

Lemma concat_varbind_octets_length vbs : (length vbs <= length (concat (varbind_octets <$> vbs)))%nat.
Proof.
  induction vbs as [|vb vbs IH]; [done|]. rewrite fmap_cons. cbn [concat]. rewrite length_app.
  assert (1 <= length (varbind_octets vb))%nat by (unfold varbind_octets; apply le_n_S, Nat.le_0_l).
  cbn [length]. lia.
Qed.

Lemma decode_varbind_list_octets vbs :
  Forall varbind_wf vbs -> len (tlv TAG_SEQUENCE (concat (varbind_octets <$> vbs))) <= ISIZE_MAX ->
  decode_varbind_list (tlv TAG_SEQUENCE (concat (varbind_octets <$> vbs))) = Ok (decoded_varbind_of <$> vbs).
Proof.
  intros Hwf Hl. unfold decode_varbind_list.
  set (L := concat _) in *. pose proof (reader_new_ok _ Hl) as Hr.
  assert (E : rest (reader_new (tlv TAG_SEQUENCE L)) = tlv TAG_SEQUENCE L ++ [])
    by (by rewrite app_nil_r).
  destruct (read_constructed_enter _ _ _ _ Hr E) as (sub & r' & Er & Hs & Es & Ei & Hr' & Er' & _).
  unfold read_sequence. rewrite Er, reader_is_empty_rest, Er', Ei by done. cbn [is_nil negb].
  apply decode_varbinds_octets; [done|done|done|]. apply concat_varbind_octets_length.
Qed.

(** ** Termination: the fuel is not observable *)

Lemma read_constructed_sound r tag sub r' :
  reader_ok r -> Forall is_u8 (rest r) -> read_constructed r tag = Ok (sub, r') ->
  exists hdr, rest r = hdr ++ rest sub ++ rest r' /\ 2 <= len hdr <= 10 /\ reader_ok sub /\ reader_ok r' /\
    input sub = rest sub /\ position sub = 0 /\ offset sub = offset r + len hdr /\
    r' = advance r (len hdr + len (rest sub)).
Proof.
  intros Hr Hu H. unfold read_constructed in H.
  destruct (read_tlv r) as [[[t v] r2]|] eqn:Et; [|done].
  destruct (read_tlv_sound _ _ _ _ Hr Hu Et) as (hdr & E & -> & Hl & _ & Hr2).
  destruct (negb (t =? tag)); [done|]. injection H as <- <-. exists hdr.
  pose proof (rest_len_ISIZE r Hr) as HI. rewrite E, !len_app in HI.
  pose proof (len_nonneg hdr). pose proof (len_nonneg (rest (advance r (len hdr + len v)))).
  split_and!; try done; try lia.
  - apply new_with_offset_ok. lia.
  - unfold offset, new_with_offset, advance. cbn. lia.
Qed.

Lemma decode_varbinds_fuel f r :
  reader_ok r -> Forall is_u8 (rest r) -> (length (rest r) <= f)%nat ->
  decode_varbinds f r = decode_varbinds (length (rest r)) r.
Proof.
  revert r. induction f as [f IH] using lt_wf_ind. intros r Hr Hu Hf.
  destruct (rest r) as [|x t] eqn:E.
  { destruct f; cbn [decode_varbinds length]; by rewrite reader_is_empty_rest, E. }
  destruct f as [|f]; [simpl in Hf; lia|].
  cbn [length decode_varbinds]. destruct (reader_is_empty r); [done|].
  destruct (read_sequence r) as [[sub r']|] eqn:Er; [|done]. rewrite <-E in Hu.
  destruct (read_constructed_sound _ _ _ _ Hr Hu Er) as (hdr & Eh & Hh & Hs & Hr' & _).
  destruct (read_oid sub) as [[oid sub']|]; [|done]. destruct (decode_varbind_value sub'); [|done].
  assert (Hlen : (length (rest r') <= length t)%nat).
  { rewrite E in Eh. apply (f_equal length) in Eh. rewrite !length_app in Eh. unfold len in Hh. simpl in *. lia. }
  simpl in Hf. rewrite Eh, !Forall_app in Hu. destruct Hu as (_ & _ & Hu').
  rewrite (IH f), (IH (length t)) by (done || lia). done.
Qed.

(** ** What any accepted list satisfies *)

Definition decoded_value_wf (d : DecodedVarbindValue) : Prop :=
  match d with
  | DInteger n => is_i32 n
  | DOctetString b | Raw _ b => Forall is_u8 b
  | DObjectIdentifier oid => oid_wf oid
  | _ => True
  end.

Definition decoded_varbind_wf (d : DecodedVarbind) : Prop :=
  oid_wf (name d) /\ decoded_value_wf (decoded_value d).

Lemma decode_varbind_value_wf r d :
  reader_ok r -> Forall is_u8 (rest r) -> decode_varbind_value r = Ok d -> decoded_value_wf d.
Proof.
  intros Hr Hu H. unfold decode_varbind_value in H. destruct (peek_tag r) as [tag|]; [|done].
  match type of H with match ?e with _ => _ end = _ =>
    assert (Hd : forall d' r', e = Ok (d', r') -> decoded_value_wf d');
    [clear H; intros d' r' H|destruct e as [[d' r']|]; [|done]] end.
  - destruct (tag =? TAG_NULL); [destruct (read_null r) as [[]|]; by simplify_eq|].
    destruct (_ || _ || _).
    { destruct (read_tlv r) as [[[] ]|]; [|done]. repeat (case_match; simplify_eq; try done). }
    destruct (tag =? TAG_INTEGER).
    { destruct (read_integer r) as [[]|] eqn:E; simplify_eq. by destruct (read_integer_sound _ _ _ Hr Hu E). }
    destruct (tag =? TAG_OCTET_STRING).
    { destruct (read_octet_string r) as [[]|] eqn:E; simplify_eq. by destruct (read_octet_string_sound _ _ _ Hr Hu E). }
    destruct (tag =? TAG_OID).
    { destruct (read_oid r) as [[]|] eqn:E; simplify_eq. by destruct (read_oid_sound _ _ _ Hr Hu E). }
    destruct (read_tlv r) as [[[t v] r2]|] eqn:E; simplify_eq.
    destruct (read_tlv_sound _ _ _ _ Hr Hu E) as (hdr & Er & _). rewrite Er, !Forall_app in Hu. by destruct Hu as (_ & Hv & _).
  - destruct (negb _); [done|]. injection H as <-. by eapply Hd.
Qed.

Lemma decode_varbinds_wf f r l :
  reader_ok r -> Forall is_u8 (rest r) -> decode_varbinds f r = Ok l -> Forall decoded_varbind_wf l.
Proof.
  revert r l. induction f as [|f IH]; intros r l Hr Hu H; cbn [decode_varbinds] in H.
  { destruct (reader_is_empty r); [|done]. injection H as <-. constructor. }
  destruct (reader_is_empty r); [injection H as <-; constructor|].
  destruct (read_sequence r) as [[sub r']|] eqn:E; [|done].
  destruct (read_constructed_sound _ _ _ _ Hr Hu E) as (hdr & Er & _ & Hs & Hr' & _).
  rewrite Er, !Forall_app in Hu. destruct Hu as (_ & Hsu & Hu').
  destruct (read_oid sub) as [[oid sub']|] eqn:Eo; [|done].
  destruct (read_oid_sound _ _ _ Hs Hsu Eo) as (Ho & Hs' & Hsu').
  destruct (decode_varbind_value sub') as [d|] eqn:Ed; [|done].
  destruct (decode_varbinds f r') as [ds|] eqn:Eds; [|done]. injection H as <-.
  constructor; [|exact (IH _ _ Hr' Hu' Eds)]. split; [done|]. exact (decode_varbind_value_wf _ _ Hs' Hsu' Ed).
Qed.

Lemma decode_varbind_list_wf raw l :
  Forall is_u8 raw -> len raw <= ISIZE_MAX -> decode_varbind_list raw = Ok l -> Forall decoded_varbind_wf l.
Proof.
  intros Hu Hl H. unfold decode_varbind_list in H.
  destruct (read_sequence _) as [[sub r']|] eqn:E; [|done].
  destruct (read_constructed_sound _ _ _ _ (reader_new_ok _ Hl) Hu E) as (hdr & Er & _ & Hs & _).
  destruct (negb _); [done|]. rewrite rest_reader_new in Er. rewrite Er, !Forall_app in Hu.
  destruct Hu as (_ & Hsu & _). exact (decode_varbinds_wf _ _ _ Hs Hsu H).
Qed.

Lemma decode_value_wf d v :
  decoded_value_wf d -> decode_varbind_value_to_value d = Ok v -> varbind_value_wf v.
Proof.
  destruct d; cbn; intros Hwf H; simplify_eq; try done.
  destruct (tag =? TAG_IP_ADDRESS).
  { destruct (Z.eqb_spec (len value_bytes) 4); simplify_eq. done. }
  destruct (tag =? TAG_COUNTER32).
  { destruct (decode_unsigned_u32 _ _) eqn:E; simplify_eq. by eapply decode_unsigned_u32_range. }
  destruct (tag =? TAG_GAUGE32).
  { destruct (decode_unsigned_u32 _ _) eqn:E; simplify_eq. by eapply decode_unsigned_u32_range. }
  destruct (tag =? TAG_TIMETICKS).
  { destruct (decode_unsigned_u32 _ _) eqn:E; simplify_eq. by eapply decode_unsigned_u32_range. }
  destruct (tag =? TAG_OPAQUE); [by simplify_eq|]. destruct (tag =? TAG_COUNTER64); [|done].
  destruct (decode_unsigned_u64 _ _) eqn:E; simplify_eq. by eapply decode_unsigned_u64_range.
Qed.
