(* ===== verification/BerPdu.v ===== *)
(** * PDU structures: [src/src/codec/ber/pdu.rs]

    Decoding and encoding of the context-tagged PDU TLVs; the VarBindList is kept
    as raw octets. *)

From S2P Require Import Prelude Oid Ber BerFacts Usm Types Varbind.

Inductive DecodedPdu :=
| Standard (tag request_id : Z) (raw_varbind_list : bytes)
| Bulk (request_id non_repeaters max_repetitions : Z) (raw_varbind_list : bytes).

Definition read_validated_varbind_list (pdu_reader : BerReader) : result bytes BerError :=
  if reader_is_empty pdu_reader then Err (ber_error MissingVarBindList)
  else
    let raw_varbind_list := remaining pdu_reader in
    let? '(_, pdu_reader) := read_sequence pdu_reader in
    if negb (reader_is_empty pdu_reader) then Err (ber_error TrailingInPdu)
    else Ok raw_varbind_list.

Definition STANDARD_TAGS : list Z :=
  [TAG_GET_REQUEST; TAG_GET_NEXT_REQUEST; TAG_RESPONSE; TAG_SET_REQUEST; TAG_INFORM_REQUEST;
   TAG_TRAP; TAG_REPORT].

(** [ber::pdu::decode_pdu] *)
Definition ber_decode_pdu (raw_pdu_bytes : bytes) : result DecodedPdu BerError :=
  let outer_reader := reader_new raw_pdu_bytes in
  let? pdu_tag := peek_tag outer_reader in
  let? '(pdu_reader, outer_reader) := read_constructed outer_reader pdu_tag in
  if negb (reader_is_empty outer_reader) then Err (ber_error TrailingAfterPdu)
  else
    let? '(request_id, pdu_reader) := read_integer pdu_reader in
    if pdu_tag =? TAG_GET_BULK_REQUEST then
      let? '(non_repeaters, pdu_reader) := read_integer pdu_reader in
      let? '(max_repetitions, pdu_reader) := read_integer pdu_reader in
      let? raw_varbind_list := read_validated_varbind_list pdu_reader in
      Ok (Bulk request_id non_repeaters max_repetitions raw_varbind_list)
    else if existsb (Z.eqb pdu_tag) STANDARD_TAGS then
      let? '(_, pdu_reader) := read_integer pdu_reader in
      let? '(_, pdu_reader) := read_integer pdu_reader in
      let? raw_varbind_list := read_validated_varbind_list pdu_reader in
      Ok (Standard pdu_tag request_id raw_varbind_list)
    else Err (ber_error (UnrecognisedPduTag pdu_tag)).

Definition VALID_STANDARD_PDU_TAGS : list Z :=
  [TAG_GET_REQUEST; TAG_GET_NEXT_REQUEST; TAG_RESPONSE; TAG_SET_REQUEST; TAG_INFORM_REQUEST;
   TAG_TRAP; TAG_REPORT].

(** [ber::pdu::encode_pdu] *)
Definition ber_encode_pdu (tag request_id error_status error_index : Z) (raw_varbind_list : bytes)
    : result bytes BerError :=
  if negb (existsb (Z.eqb tag) VALID_STANDARD_PDU_TAGS) then Err (ber_error (InvalidStandardPduTag tag))
  else
    let inner := write_integer writer_new request_id in
    let inner := write_integer inner error_status in
    let inner := write_integer inner error_index in
    let inner := write_raw inner raw_varbind_list in
    Ok (into_vec (write_constructed writer_new tag (writer_as_bytes inner))).

Definition encode_bulk_pdu (request_id non_repeaters max_repetitions : Z) (raw_varbind_list : bytes) : bytes :=
  let inner := write_integer writer_new request_id in
  let inner := write_integer inner non_repeaters in
  let inner := write_integer inner max_repetitions in
  let inner := write_raw inner raw_varbind_list in
  into_vec (write_constructed writer_new TAG_GET_BULK_REQUEST (writer_as_bytes inner)).

(** ** Round trips *)

Definition int_tlv (v : Z) : bytes := tlv TAG_INTEGER (encode_signed_i32 v).

Lemma write_integer_buffer w v : buffer (write_integer w v) = buffer w ++ int_tlv v.
Proof. apply write_tlv_buffer. Qed.

Definition pdu_octets (tag a b c : Z) (vbl : bytes) : bytes :=
  tlv tag (int_tlv a ++ int_tlv b ++ int_tlv c ++ vbl).

Lemma ber_encode_pdu_octets tag a b c vbl :
  ber_encode_pdu tag a b c vbl =
    if existsb (Z.eqb tag) VALID_STANDARD_PDU_TAGS then Ok (pdu_octets tag a b c vbl)
    else Err (ber_error (InvalidStandardPduTag tag)).
Proof.
  unfold ber_encode_pdu. destruct (existsb _ _); [|done]. cbn [negb]. f_equal.
  unfold into_vec, write_constructed, writer_as_bytes, pdu_octets.
  by rewrite write_tlv_buffer, write_raw_buffer, !write_integer_buffer, <-!app_assoc.
Qed.

Lemma encode_bulk_pdu_octets a b c vbl :
  encode_bulk_pdu a b c vbl = pdu_octets TAG_GET_BULK_REQUEST a b c vbl.
Proof.
  unfold encode_bulk_pdu, into_vec, write_constructed, writer_as_bytes, pdu_octets.
  by rewrite write_tlv_buffer, write_raw_buffer, !write_integer_buffer, <-!app_assoc.
Qed.

(** One step of a sequence of reads: [p] succeeds and the remaining octets follow. *)
Lemma reads_step {A} (p : BerReader -> result (A * BerReader) BerError) enc a r post :
  reads p enc a -> reader_ok r -> rest r = enc ++ post ->
  p r = Ok (a, advance r (len enc)) /\ reader_ok (advance r (len enc)) /\ rest (advance r (len enc)) = post.
Proof.
  intros Hp Hr E. split; [by apply (Hp r post)|].
  split; [by eapply reader_ok_advance|by apply (rest_advance _ _ _ Hr E)].
Qed.

(** Rewrites the next read of a chain by the lemma [lem : reads _ _ _]. *)
Ltac read_next lem Hr E :=
  let Eq := fresh in let Hr' := fresh in let E' := fresh in
  destruct (reads_step _ _ _ _ _ lem Hr E) as (Eq & Hr' & E');
  rewrite Eq; clear Eq Hr E; rename Hr' into Hr; rename E' into E.

Lemma read_validated_varbind_list_reads r v :
  reader_ok r -> rest r = tlv TAG_SEQUENCE v -> read_validated_varbind_list r = Ok (tlv TAG_SEQUENCE v).
Proof.
  intros Hr E. unfold read_validated_varbind_list.
  rewrite reader_is_empty_rest, remaining_rest, E by done. cbn [is_nil].
  rewrite <-(app_nil_r (tlv _ _)) in E.
  destruct (read_constructed_enter _ _ _ _ Hr E) as (sub & r' & Er & _ & _ & _ & Hr' & Er' & _).
  unfold read_sequence. rewrite Er, reader_is_empty_rest, Er' by done. done.
Qed.

Lemma ber_decode_pdu_octets tag a b c v :
  is_i32 a -> is_i32 b -> is_i32 c -> len (pdu_octets tag a b c (tlv TAG_SEQUENCE v)) <= ISIZE_MAX ->
  ber_decode_pdu (pdu_octets tag a b c (tlv TAG_SEQUENCE v)) =
    if tag =? TAG_GET_BULK_REQUEST then Ok (Bulk a b c (tlv TAG_SEQUENCE v))
    else if existsb (Z.eqb tag) STANDARD_TAGS then Ok (Standard tag a (tlv TAG_SEQUENCE v))
    else Err (ber_error (UnrecognisedPduTag tag)).
Proof.
  intros Ha Hb Hc Hl. unfold ber_decode_pdu. set (body := pdu_octets _ _ _ _ _) in *.
  pose proof (reader_new_ok body Hl) as Hr.
  assert (E : rest (reader_new body) = body ++ []) by (by rewrite app_nil_r).
  unfold peek_tag. erewrite (get_rest (reader_new body) tag _ Hr eq_refl). cbn [ok_or].
  destruct (read_constructed_enter _ _ _ _ Hr E) as (sub & r' & Er & Hs & Es & _ & Hr' & Er' & _).
  rewrite Er, reader_is_empty_rest, Er' by done. cbn [is_nil negb].
  destruct (reads_step _ _ _ _ _ (read_integer_reads a Ha) Hs Es) as (-> & Hs1 & Es1).
  destruct (reads_step _ _ _ _ _ (read_integer_reads b Hb) Hs1 Es1) as (E2 & Hs2 & Es2).
  destruct (reads_step _ _ _ _ _ (read_integer_reads c Hc) Hs2 Es2) as (E3 & Hs3 & Es3).
  rewrite E2, E3, (read_validated_varbind_list_reads _ v Hs3 Es3). done.
Qed.

(** ** Soundness *)

Lemma read_validated_varbind_list_sound r v :
  reader_ok r -> read_validated_varbind_list r = Ok v -> v = rest r.
Proof.
  intros Hr H. unfold read_validated_varbind_list in H. rewrite remaining_rest in H by done.
  destruct (reader_is_empty r); [done|]. destruct (read_sequence r) as [[]|]; [|done].
  by destruct (negb _); simplify_eq.
Qed.

Definition decoded_pdu_wf (p : DecodedPdu) : Prop :=
  match p with
  | Standard _ a vbl => is_i32 a /\ Forall is_u8 vbl /\ len vbl <= ISIZE_MAX
  | Bulk a b c vbl => is_i32 a /\ is_i32 b /\ is_i32 c /\ Forall is_u8 vbl /\ len vbl <= ISIZE_MAX
  end.

Lemma ber_decode_pdu_wf raw p :
  Forall is_u8 raw -> len raw <= ISIZE_MAX -> ber_decode_pdu raw = Ok p -> decoded_pdu_wf p.
Proof.
  intros Hu Hl H. unfold ber_decode_pdu in H. destruct (peek_tag _) as [tag|]; [|done].
  destruct (read_constructed _ _) as [[sub r']|] eqn:E; [|done].
  destruct (read_constructed_sound _ _ _ _ (reader_new_ok _ Hl) Hu E) as (hdr & Er & _ & Hs & _).
  rewrite rest_reader_new in Er. rewrite Er, !Forall_app in Hu. destruct Hu as (_ & Hsu & _).
  destruct (negb _); [done|].
  destruct (read_integer sub) as [[a s1]|] eqn:E1; [|done].
  destruct (read_integer_sound _ _ _ Hs Hsu E1) as (Ha & Hs1 & Hu1 & _).
  assert (Hk : forall (k : Z -> Z -> bytes -> DecodedPdu) q, 
    (let? '(b, s) := read_integer s1 in let? '(c, s) := read_integer s in
     let? v := read_validated_varbind_list s in Ok (k b c v)) = Ok q ->
    exists b c v, q = k b c v /\ is_i32 b /\ is_i32 c /\ Forall is_u8 v /\ len v <= ISIZE_MAX).
  { intros k q Hq. destruct (read_integer s1) as [[b s2]|] eqn:E2; [|done].
    destruct (read_integer_sound _ _ _ Hs1 Hu1 E2) as (Hb & Hs2 & Hu2 & _).
    destruct (read_integer s2) as [[c s3]|] eqn:E3; [|done].
    destruct (read_integer_sound _ _ _ Hs2 Hu2 E3) as (Hc & Hs3 & Hu3 & _).
    destruct (read_validated_varbind_list s3) as [v|] eqn:Ev; [|done]. injection Hq as <-.
    apply read_validated_varbind_list_sound in Ev; [|done]. subst v.
    exists b, c, (rest s3). split_and!; try done. by apply rest_len_ISIZE. }
  destruct (tag =? TAG_GET_BULK_REQUEST).
  - apply (Hk (fun b c v => Bulk a b c v)) in H as (b & c & v & -> & Hb & Hc & Hv & Hvl). done.
  - destruct (existsb _ _); [|done].
    apply (Hk (fun b c v => Standard tag a v)) in H as (b & c & v & -> & Hb & Hc & Hv & Hvl). done.
Qed.
