(* ===== verification/Snmp.v ===== *)
(** * SNMP message envelopes: [src/src/codec/ber/snmp.rs]

    Decoding and encoding of the SNMPv3 envelope, its header, USM security
    parameters and ScopedPDU, and the SNMPv2c envelope.  The theory at the end
    relates the recorded offset of [msgAuthenticationParameters] to the octets of
    the message, for what is encoded and for anything that is accepted. *)

From S2P Require Import Prelude Oid Ber BerFacts Usm Types Varbind BerPdu.

Definition SNMPV3_VERSION : Z := 3.
Definition MSG_USER_NAME_MAX_LENGTH : Z := 32.
Definition SNMPV2C_VERSION : Z := 1.
Definition MSG_MAX_SIZE_UDP : Z := 0xFFFF.

(** ** Intermediate types *)

Record UsmFields := MkUsmFields {
  uf_engine_id : bytes;
  uf_engine_boots : Z;
  uf_engine_time : Z;
  uf_user_name : bytes;
  uf_auth_params : bytes;
  uf_priv_params : bytes;
}.

Inductive ScopedData :=
| SPlaintext (context_engine_id context_name raw_pdu : bytes)
| SEncrypted (ciphertext : bytes).

Record V3MessageEnvelope := MkV3MessageEnvelope {
  env_msg_id : Z;
  env_max_size : Z;
  env_security_flags : Z;
  env_security_model : Z;
  env_usm : UsmFields;
  env_scoped_data : ScopedData;
  env_raw_message : bytes;
  env_auth_params_offset : option Z;
}.

Record DecodedScopedPduFields := MkDecodedScopedPduFields {
  dspf_context_engine_id : bytes; dspf_context_name : bytes; dspf_raw_pdu : bytes }.

Record HeaderData := MkHeaderData {
  hd_msg_id : Z; hd_max_size : Z; hd_security_flags : Z; hd_security_model : Z }.

Record DecodedUsm := MkDecodedUsm { du_fields : UsmFields; du_auth_params_offset : option Z }.

(** ** Decoding *)

Definition decode_header_data (msg_reader : BerReader) : result (HeaderData * BerReader) BerError :=
  let? '(header_reader, msg_reader) := read_sequence msg_reader in
  let? '(msg_id, header_reader) := read_integer header_reader in
  if msg_id <? 0 then Err (ber_error NegativeMsgId)
  else
    let? '(max_size, header_reader) := read_integer header_reader in
    if max_size <? 484 then Err (ber_error MaxSizeTooSmall)
    else
      let? '(flags_bytes, header_reader) := read_octet_string header_reader in
      match flags_bytes with
      | [security_flags] =>
          let? '(security_model, _) := read_integer header_reader in
          Ok ({| hd_msg_id := msg_id; hd_max_size := max_size;
                 hd_security_flags := security_flags; hd_security_model := security_model |}, msg_reader)
      | _ => Err (ber_error (MsgFlagsLength (len flags_bytes)))
      end.

Definition decode_usm_security_parameters (msg_reader : BerReader) : result (DecodedUsm * BerReader) BerError :=
  let? '(usm_params_bytes, msg_reader) := read_octet_string msg_reader in
  let usm_value_offset := offset msg_reader - len usm_params_bytes in
  let? '(usm_reader, _) := read_sequence (new_with_offset usm_params_bytes usm_value_offset) in
  let? '(engine_id, usm_reader) := read_octet_string usm_reader in
  let? '(engine_boots, usm_reader) := read_integer usm_reader in
  let? '(engine_time, usm_reader) := read_integer usm_reader in
  let? '(user_name, usm_reader) := read_octet_string usm_reader in
  if MSG_USER_NAME_MAX_LENGTH <? len user_name then Err (ber_error (UserNameTooLong (len user_name)))
  else
    let? '(auth_params, usm_reader) := read_octet_string usm_reader in
    let auth_params_offset :=
      if is_nil auth_params then None else Some (offset usm_reader - len auth_params) in
    let? '(priv_params, _) := read_octet_string usm_reader in
    Ok ({| du_fields := {| uf_engine_id := engine_id; uf_engine_boots := engine_boots;
                           uf_engine_time := engine_time; uf_user_name := user_name;
                           uf_auth_params := auth_params; uf_priv_params := priv_params |};
           du_auth_params_offset := auth_params_offset |}, msg_reader).

Definition decode_scoped_pdu_data (msg_reader : BerReader) : result ScopedData BerError :=
  let? scoped_data_tag := peek_tag msg_reader in
  if scoped_data_tag =? TAG_SEQUENCE then
    let? '(scoped_reader, _) := read_sequence msg_reader in
    let? '(context_engine_id, scoped_reader) := read_octet_string scoped_reader in
    let? '(context_name, scoped_reader) := read_octet_string scoped_reader in
    Ok (SPlaintext context_engine_id context_name (remaining scoped_reader))
  else if scoped_data_tag =? TAG_OCTET_STRING then
    let? '(ciphertext, _) := read_octet_string msg_reader in
    Ok (SEncrypted ciphertext)
  else Err (ber_error (BadScopedDataTag scoped_data_tag)).

Definition decode_v3_envelope (b : bytes) : result V3MessageEnvelope BerError :=
  let? '(msg_reader, _) := read_sequence (reader_new b) in
  let? '(version, msg_reader) := read_integer msg_reader in
  if negb (version =? SNMPV3_VERSION) then Err (ber_wrong_version (WrongMessageVersion version))
  else
    let? '(header, msg_reader) := decode_header_data msg_reader in
    let? '(decoded_usm, msg_reader) := decode_usm_security_parameters msg_reader in
    let? scoped_data := decode_scoped_pdu_data msg_reader in
    Ok {| env_msg_id := hd_msg_id header; env_max_size := hd_max_size header;
          env_security_flags := hd_security_flags header;
          env_security_model := hd_security_model header;
          env_usm := du_fields decoded_usm; env_scoped_data := scoped_data;
          env_raw_message := b; env_auth_params_offset := du_auth_params_offset decoded_usm |}.

(** [ber::snmp::decode_scoped_pdu] *)
Definition ber_decode_scoped_pdu (b : bytes) : result DecodedScopedPduFields BerError :=
  let? '(scoped_reader, _) := read_sequence (reader_new b) in
  let? '(context_engine_id, scoped_reader) := read_octet_string scoped_reader in
  let? '(context_name, scoped_reader) := read_octet_string scoped_reader in
  Ok {| dspf_context_engine_id := context_engine_id; dspf_context_name := context_name;
        dspf_raw_pdu := remaining scoped_reader |}.

(** ** Encoding *)

Definition wrap_in_outer_sequence (inner_bytes : bytes) : bytes :=
  into_vec (write_sequence writer_new inner_bytes).

Definition encode_scoped_pdu (context_engine_id context_name raw_pdu_bytes : bytes) : bytes :=
  let inner := write_octet_string writer_new context_engine_id in
  let inner := write_octet_string inner context_name in
  let inner := write_raw inner raw_pdu_bytes in
  wrap_in_outer_sequence (writer_as_bytes inner).

Definition encode_usm_params (engine_id : bytes) (engine_boots engine_time : Z)
    (user_name auth_params priv_params : bytes) : bytes :=
  let inner := write_octet_string writer_new engine_id in
  let inner := write_integer inner engine_boots in
  let inner := write_integer inner engine_time in
  let inner := write_octet_string inner user_name in
  let inner := write_octet_string inner auth_params in
  let inner := write_octet_string inner priv_params in
  wrap_in_outer_sequence (writer_as_bytes inner).

Definition encode_header_data (msg_id max_size flags_byte security_model : Z) : bytes :=
  let inner := write_integer writer_new msg_id in
  let inner := write_integer inner max_size in
  let inner := write_octet_string inner [flags_byte] in
  let inner := write_integer inner security_model in
  wrap_in_outer_sequence (writer_as_bytes inner).

Definition find_auth_params_offset (encoded_message : bytes) (auth_params_len : Z)
    : result (option Z) BerError :=
  if auth_params_len =? 0 then Ok None
  else
    let? '(msg_reader, _) := read_sequence (reader_new encoded_message) in
    let? '(_, msg_reader) := read_integer msg_reader in
    let? '(_, msg_reader) := read_sequence msg_reader in
    let? '(usm_params_bytes, msg_reader) := read_octet_string msg_reader in
    let usm_value_offset := offset msg_reader - len usm_params_bytes in
    let? '(usm_reader, _) := read_sequence (new_with_offset usm_params_bytes usm_value_offset) in
    let? '(_, usm_reader) := read_octet_string usm_reader in
    let? '(_, usm_reader) := read_integer usm_reader in
    let? '(_, usm_reader) := read_integer usm_reader in
    let? '(_, usm_reader) := read_octet_string usm_reader in
    let? '(auth_params_value, usm_reader) := read_octet_string usm_reader in
    Ok (Some (offset usm_reader - len auth_params_value)).

Definition encode_v3_message (msg_id max_size flags_byte security_model : Z) (engine_id : bytes)
    (engine_boots engine_time : Z) (user_name auth_params priv_params scoped_pdu_or_ciphertext : bytes)
    (encrypted : bool) : result (bytes * option Z) BerError :=
  let header_bytes := encode_header_data msg_id max_size flags_byte security_model in
  let usm_bytes := encode_usm_params engine_id engine_boots engine_time user_name auth_params priv_params in
  let msg_inner := write_integer writer_new SNMPV3_VERSION in
  let msg_inner := write_raw msg_inner header_bytes in
  let msg_inner := write_octet_string msg_inner usm_bytes in
  let msg_inner :=
    if encrypted then write_octet_string msg_inner scoped_pdu_or_ciphertext
    else write_raw msg_inner scoped_pdu_or_ciphertext in
  let encoded_message := wrap_in_outer_sequence (writer_as_bytes msg_inner) in
  let? auth_params_offset := find_auth_params_offset encoded_message (len auth_params) in
  Ok (encoded_message, auth_params_offset).

Definition encode_v2c_message (community raw_pdu_tlv : bytes) : bytes :=
  let inner := write_integer writer_new SNMPV2C_VERSION in
  let inner := write_octet_string inner community in
  let inner := write_raw inner raw_pdu_tlv in
  wrap_in_outer_sequence (writer_as_bytes inner).

(** ** The encoders as concatenations of TLVs *)

Definition oct_tlv (b : bytes) : bytes := tlv TAG_OCTET_STRING b.
Definition seq_tlv (b : bytes) : bytes := tlv TAG_SEQUENCE b.

Lemma write_octet_string_buffer w b : buffer (write_octet_string w b) = buffer w ++ oct_tlv b.
Proof. apply write_tlv_buffer. Qed.

Lemma wrap_in_outer_sequence_tlv b : wrap_in_outer_sequence b = seq_tlv b.
Proof. unfold wrap_in_outer_sequence, into_vec, write_sequence. by rewrite write_tlv_buffer. Qed.

#[export] Hint Rewrite write_octet_string_buffer write_integer_buffer write_raw_buffer : snmp_writer.

(** Turns a chain of writer operations into the concatenation it appends. *)
Ltac writer_octets :=
  rewrite ?wrap_in_outer_sequence_tlv; unfold writer_as_bytes;
  autorewrite with snmp_writer; rewrite <-?app_assoc; try reflexivity.

Lemma encode_scoped_pdu_octets e c p : encode_scoped_pdu e c p = seq_tlv (oct_tlv e ++ oct_tlv c ++ p).
Proof. unfold encode_scoped_pdu. by writer_octets. Qed.

Lemma encode_usm_params_octets e b t u a p :
  encode_usm_params e b t u a p =
    seq_tlv (oct_tlv e ++ int_tlv b ++ int_tlv t ++ oct_tlv u ++ oct_tlv a ++ oct_tlv p).
Proof. unfold encode_usm_params. by writer_octets. Qed.

Lemma encode_header_data_octets i m f s :
  encode_header_data i m f s = seq_tlv (int_tlv i ++ int_tlv m ++ oct_tlv [f] ++ int_tlv s).
Proof. unfold encode_header_data. by writer_octets. Qed.

Lemma encode_v2c_message_octets c p :
  encode_v2c_message c p = seq_tlv (int_tlv SNMPV2C_VERSION ++ oct_tlv c ++ p).
Proof. unfold encode_v2c_message. by writer_octets. Qed.

(** The octets of a whole SNMPv3 message. *)
Definition v3_octets (i m f s : Z) (e : bytes) (b t : Z) (u a p scoped : bytes) : bytes :=
  seq_tlv (int_tlv SNMPV3_VERSION
    ++ seq_tlv (int_tlv i ++ int_tlv m ++ oct_tlv [f] ++ int_tlv s)
    ++ oct_tlv (seq_tlv (oct_tlv e ++ int_tlv b ++ int_tlv t ++ oct_tlv u ++ oct_tlv a ++ oct_tlv p))
    ++ scoped).

Definition scoped_octets (encrypted : bool) (b : bytes) : bytes := if encrypted then oct_tlv b else b.

Lemma encode_v3_message_octets i m f s e b t u a p scoped encrypted :
  encode_v3_message i m f s e b t u a p scoped encrypted =
    let M := v3_octets i m f s e b t u a p (scoped_octets encrypted scoped) in
    let? o := find_auth_params_offset M (len a) in Ok (M, o).
Proof.
  unfold encode_v3_message. rewrite encode_header_data_octets, encode_usm_params_octets.
  unfold v3_octets, scoped_octets. cbv zeta. destruct encrypted; by writer_octets.
Qed.

(** ** Where the authentication parameters are *)

(** Tag and length octets of a value of length [n]. *)
Definition tlv_header (tag n : Z) : bytes := tag :: length_octets n.

Lemma tlv_header_app tag v : tlv tag v = tlv_header tag (len v) ++ v.
Proof. done. Qed.

Definition usm_prefix (e : bytes) (b t : Z) (u : bytes) (alen : Z) : bytes :=
  oct_tlv e ++ int_tlv b ++ int_tlv t ++ oct_tlv u ++ tlv_header TAG_OCTET_STRING alen.

(** Everything before and after [msgAuthenticationParameters]; both depend on the
    parameters only through their length. *)
Definition v3_prefix (i m f s : Z) (e : bytes) (b t : Z) (u : bytes) (alen : Z) (p scoped : bytes) : bytes :=
  let usm_len := len (usm_prefix e b t u alen) + alen + len (oct_tlv p) in
  let head := int_tlv SNMPV3_VERSION ++ seq_tlv (int_tlv i ++ int_tlv m ++ oct_tlv [f] ++ int_tlv s) in
  let usm_hdr := tlv_header TAG_SEQUENCE usm_len in
  let oct_hdr := tlv_header TAG_OCTET_STRING (len usm_hdr + usm_len) in
  tlv_header TAG_SEQUENCE (len head + len oct_hdr + len usm_hdr + usm_len + len scoped)
    ++ head ++ oct_hdr ++ usm_hdr ++ usm_prefix e b t u alen.

Definition v3_suffix (p scoped : bytes) : bytes := oct_tlv p ++ scoped.

Lemma v3_octets_split i m f s e b t u a p scoped :
  v3_octets i m f s e b t u a p scoped =
    v3_prefix i m f s e b t u (len a) p scoped ++ a ++ v3_suffix p scoped.
Proof.
  unfold v3_octets, v3_prefix, v3_suffix. cbv zeta.
  assert (Hu : oct_tlv e ++ int_tlv b ++ int_tlv t ++ oct_tlv u ++ oct_tlv a ++ oct_tlv p
               = usm_prefix e b t u (len a) ++ a ++ oct_tlv p).
  { unfold usm_prefix. rewrite <-!app_assoc. do 4 f_equal. unfold oct_tlv at 1.
    by rewrite tlv_header_app, <-app_assoc. }
  rewrite Hu. set (U := usm_prefix e b t u (len a)).
  assert (HL : len (U ++ a ++ oct_tlv p) = len U + len a + len (oct_tlv p)) by (rewrite !len_app; lia).
  assert (Hs : seq_tlv (U ++ a ++ oct_tlv p) =
    tlv_header TAG_SEQUENCE (len U + len a + len (oct_tlv p)) ++ U ++ a ++ oct_tlv p)
    by (unfold seq_tlv; by rewrite tlv_header_app, HL).
  set (H2 := tlv_header TAG_SEQUENCE (len U + len a + len (oct_tlv p))) in *.
  assert (Ho : oct_tlv (seq_tlv (U ++ a ++ oct_tlv p)) =
    tlv_header TAG_OCTET_STRING (len H2 + (len U + len a + len (oct_tlv p))) ++ H2 ++ U ++ a ++ oct_tlv p).
  { unfold oct_tlv at 1. by rewrite tlv_header_app, Hs, (len_app H2), HL. }
  rewrite Ho. set (H1 := tlv_header TAG_OCTET_STRING _) in *.
  set (V := int_tlv SNMPV3_VERSION). set (HD := seq_tlv (int_tlv i ++ _)).
  unfold seq_tlv at 1. rewrite tlv_header_app. rewrite <-!app_assoc. do 2 f_equal.
  rewrite !len_app. lia.
Qed.

Lemma offset_advance r n : offset (advance r n) = offset r + n.
Proof. unfold offset, advance. cbn. lia. Qed.

(** Entering the OCTET STRING that wraps the USM parameters, as both
    [decode_usm_security_parameters] and [find_auth_params_offset] do. *)
Lemma enter_usm r v post :
  reader_ok r -> rest r = oct_tlv (seq_tlv v) ++ post ->
  exists r' sub r'', read_octet_string r = Ok (seq_tlv v, r') /\ reader_ok r' /\ rest r' = post /\
    read_sequence (new_with_offset (seq_tlv v) (offset r' - len (seq_tlv v))) = Ok (sub, r'') /\
    reader_ok sub /\ rest sub = v /\
    offset sub = offset r + len (oct_tlv (seq_tlv v)) - len v.
Proof.
  intros Hr E. destruct (reads_step _ _ _ _ _ (read_octet_string_reads (seq_tlv v)) Hr E) as (E1 & Hr1 & Er1).
  pose proof (rest_len_ISIZE r Hr) as Hl. rewrite E in Hl. apply len_le_app_l, len_tlv_content in Hl.
  set (o := offset (advance r (len (oct_tlv (seq_tlv v)))) - len (seq_tlv v)).
  assert (E0 : rest (new_with_offset (seq_tlv v) o) = tlv TAG_SEQUENCE v ++ []) by (by rewrite app_nil_r).
  destruct (read_constructed_enter _ _ _ _ (new_with_offset_ok _ o Hl) E0)
    as (sub & r'' & Es & Hs & Ers & _ & _ & _ & _ & _ & Hos).
  eexists _, sub, r''. split_and!; try done. fold o. rewrite Hos.
  change (offset (new_with_offset (seq_tlv v) o)) with (o + 0). subst o. rewrite offset_advance.
  change (tlv TAG_SEQUENCE v) with (seq_tlv v). lia.
Qed.

Lemma version_i32 : is_i32 SNMPV3_VERSION.
Proof. unfold SNMPV3_VERSION. zrange. Qed.

Section Message.
  Context (i m f s : Z) (e : bytes) (b t : Z) (u a p scoped : bytes).
Let M := v3_octets i m f s e b t u a p scoped.
  Hypothesis Hlen : len M <= ISIZE_MAX.
  Hypothesis Hi : is_i32 i. Hypothesis Hm : is_i32 m. Hypothesis Hs : is_i32 s.
  Hypothesis Hb : is_i32 b. Hypothesis Ht : is_i32 t.

(** The readers after the version, the header and the USM wrapper. *)
Lemma enter_message :
  exists sub r0, read_sequence (reader_new M) = Ok (sub, r0) /\ reader_ok sub /\
    rest sub = int_tlv SNMPV3_VERSION
      ++ seq_tlv (int_tlv i ++ int_tlv m ++ oct_tlv [f] ++ int_tlv s)
      ++ oct_tlv (seq_tlv (oct_tlv e ++ int_tlv b ++ int_tlv t ++ oct_tlv u ++ oct_tlv a ++ oct_tlv p))
      ++ scoped /\
    offset sub = len M - len (rest sub).
Proof.
  assert (E : rest (reader_new M) = M ++ []) by (by rewrite app_nil_r).
  destruct (read_constructed_enter _ _ _ _ (reader_new_ok _ Hlen) E)
    as (sub & r' & Er & Hr & Es & _ & _ & _ & _ & _ & Ho).
  exists sub, r'. split_and!; try done. rewrite Ho, Es. change (offset (reader_new M)) with 0. done.
Qed.

Lemma find_auth_params_offset_octets :
  find_auth_params_offset M (len a) =
    Ok (if is_nil a then None else Some (len (v3_prefix i m f s e b t u (len a) p scoped))).
Proof.
  unfold find_auth_params_offset. destruct (decide (a = [])) as [->|Hne]; [done|].
  replace (is_nil a) with false by (by destruct a).
  assert (Hn : len a <> 0) by (intros E0%len_0_nil; done). bfalse (len a =? 0).
  destruct enter_message as (sub & r0 & -> & Hr & E & Ho).
  pose proof (f_equal (@len Z) (v3_octets_split i m f s e b t u a p scoped)) as HM. fold M in HM.
  rewrite E in Ho.
  read_next (read_integer_reads SNMPV3_VERSION version_i32) Hr E.
  destruct (read_constructed_enter _ _ _ _ Hr E) as (sub2 & r2 & Er2 & _ & _ & _ & Hr2 & E2 & Ha2 & _).
  unfold read_sequence at 1. rewrite Er2.
  destruct (enter_usm _ _ _ Hr2 E2) as (r3 & sub3 & r4 & -> & _ & _ & -> & Hr3 & E3 & Ho3).
  read_next (read_octet_string_reads e) Hr3 E3.
  read_next (read_integer_reads b Hb) Hr3 E3.
  read_next (read_integer_reads t Ht) Hr3 E3.
  read_next (read_octet_string_reads u) Hr3 E3.
  read_next (read_octet_string_reads a) Hr3 E3.
  do 2 f_equal. rewrite !offset_advance, Ho3, Ha2, !offset_advance, Ho.
  unfold v3_suffix in HM. rewrite !len_app in *.
  change (tlv TAG_OCTET_STRING) with oct_tlv. change (tlv TAG_SEQUENCE) with seq_tlv.
  change (tlv TAG_INTEGER (encode_signed_i32 ?x)) with (int_tlv x). lia.
Qed.

Lemma decode_header_octets r post :
  0 <= i -> 484 <= m -> reader_ok r ->
  rest r = seq_tlv (int_tlv i ++ int_tlv m ++ oct_tlv [f] ++ int_tlv s) ++ post ->
  exists r', decode_header_data r = Ok (MkHeaderData i m f s, r') /\ reader_ok r' /\ rest r' = post /\
    r' = advance r (len (seq_tlv (int_tlv i ++ int_tlv m ++ oct_tlv [f] ++ int_tlv s))).
Proof.
  intros Hi0 Hm0 Hr E. unfold decode_header_data.
  destruct (read_constructed_enter _ _ _ _ Hr E) as (sub & r' & Er & Hs' & Es & _ & Hr' & Er' & Ha & _).
  unfold read_sequence. rewrite Er. rewrite <-(app_nil_r (int_tlv s)) in Es.
  read_next (read_integer_reads i Hi) Hs' Es. bfalse (i <? 0).
  read_next (read_integer_reads m Hm) Hs' Es. bfalse (m <? 484).
  read_next (read_octet_string_reads [f]) Hs' Es.
  read_next (read_integer_reads s Hs) Hs' Es. by exists r'.
Qed.

Lemma decode_usm_octets r post :
  len u <= MSG_USER_NAME_MAX_LENGTH -> reader_ok r ->
  rest r = oct_tlv (seq_tlv (oct_tlv e ++ int_tlv b ++ int_tlv t ++ oct_tlv u ++ oct_tlv a ++ oct_tlv p)) ++ post ->
  exists r', reader_ok r' /\ rest r' = post /\
    decode_usm_security_parameters r =
      Ok (MkDecodedUsm (MkUsmFields e b t u a p)
            (if is_nil a then None
             else Some (offset r + len (oct_tlv (seq_tlv (oct_tlv e ++ int_tlv b ++ int_tlv t ++ oct_tlv u ++ oct_tlv a ++ oct_tlv p)))
                        - len (oct_tlv p) - len a)), r').
Proof.
  intros Hul Hr E. unfold decode_usm_security_parameters.
  destruct (enter_usm _ _ _ Hr E) as (r3 & sub3 & r4 & -> & Hr' & Er' & -> & Hr3 & E3 & Ho3).
  rewrite <-(app_nil_r (oct_tlv p)) in E3.
  read_next (read_octet_string_reads e) Hr3 E3.
  read_next (read_integer_reads b Hb) Hr3 E3.
  read_next (read_integer_reads t Ht) Hr3 E3.
  read_next (read_octet_string_reads u) Hr3 E3.
  bfalse (MSG_USER_NAME_MAX_LENGTH <? len u).
  read_next (read_octet_string_reads a) Hr3 E3.
  pose proof (read_octet_string_reads p) as Hp.
  rewrite (Hp _ _ Hr3 E3). exists r3. split_and!; [done|done|].
  do 3 f_equal. destruct (is_nil a); [done|]. f_equal.
  rewrite !offset_advance, Ho3, !len_app.
  change (tlv TAG_OCTET_STRING) with oct_tlv. change (tlv TAG_INTEGER (encode_signed_i32 ?x)) with (int_tlv x).
  lia.
Qed.

(** What follows the USM parameters, as the decoder sees it. *)
Definition scoped_data_octets (d : ScopedData) : bytes :=
  match d with
  | SPlaintext ce cn raw => seq_tlv (oct_tlv ce ++ oct_tlv cn ++ raw)
  | SEncrypted ct => oct_tlv ct
  end.

Lemma decode_scoped_octets r d :
  reader_ok r -> rest r = scoped_data_octets d -> decode_scoped_pdu_data r = Ok d.
Proof.
  intros Hr E. unfold decode_scoped_pdu_data, peek_tag. rewrite <-(app_nil_r (scoped_data_octets d)) in E.
  destruct d as [ce cn raw|ct]; cbn [scoped_data_octets] in E.
  - rewrite (get_rest r TAG_SEQUENCE _ Hr E). cbn [ok_or]. rewrite Z.eqb_refl.
    destruct (read_constructed_enter _ _ _ _ Hr E) as (sub & r' & Er & Hs' & Es & _).
    unfold read_sequence. rewrite Er.
    read_next (read_octet_string_reads ce) Hs' Es.
    read_next (read_octet_string_reads cn) Hs' Es. by rewrite remaining_rest, Es.
  - rewrite (get_rest r TAG_OCTET_STRING _ Hr E). cbn [ok_or].
    change (TAG_OCTET_STRING =? TAG_SEQUENCE) with false. cbv iota. rewrite Z.eqb_refl.
    by rewrite (read_octet_string_reads ct r [] Hr E).
Qed.

Lemma decode_v3_envelope_octets d :
  scoped = scoped_data_octets d -> 0 <= i -> 484 <= m -> len u <= MSG_USER_NAME_MAX_LENGTH ->
  decode_v3_envelope M = Ok
    {| env_msg_id := i; env_max_size := m; env_security_flags := f; env_security_model := s;
       env_usm := MkUsmFields e b t u a p; env_scoped_data := d; env_raw_message := M;
       env_auth_params_offset :=
         if is_nil a then None else Some (len (v3_prefix i m f s e b t u (len a) p scoped)) |}.
Proof.
  intros Hd Hi0 Hm0 Hul. unfold decode_v3_envelope.
  destruct enter_message as (sub & r0 & -> & Hr & E & Ho).
  pose proof (f_equal (@len Z) (v3_octets_split i m f s e b t u a p scoped)) as HM. fold M in HM.
  rewrite E in Ho.
  read_next (read_integer_reads SNMPV3_VERSION version_i32) Hr E. rewrite Z.eqb_refl. cbn [negb].
  destruct (decode_header_octets _ _ Hi0 Hm0 Hr E) as (r2 & -> & Hr2 & E2 & Ha2).
  destruct (decode_usm_octets _ _ Hul Hr2 E2) as (r3 & Hr3 & E3 & ->).
  rewrite (decode_scoped_octets _ d Hr3) by congruence. f_equal. f_equal.
  cbn [du_auth_params_offset]. destruct (is_nil a); [done|]. f_equal.
  rewrite Ha2, !offset_advance, Ho. unfold v3_suffix in HM. rewrite !len_app in *.
  change (tlv TAG_INTEGER (encode_signed_i32 ?x)) with (int_tlv x). lia.
Qed.
End Message.

(** ** Any accepted message *)

(** The reader covers a contiguous part of [msg] and its offsets are absolute. *)
Definition within (msg : bytes) (r : BerReader) : Prop :=
  exists pre post, msg = pre ++ input r ++ post /\ len pre = base_offset r.

Lemma within_new msg : within msg (reader_new msg).
Proof. exists [], []. by rewrite app_nil_r. Qed.

Lemma within_slice msg r a v c :
  within msg r -> reader_ok r -> rest r = a ++ v ++ c ->
  exists pre post, msg = pre ++ v ++ post /\ len pre = offset r + len a.
Proof.
  intros (pre & post & E & Hl) Hr Er. destruct (rest_split r Hr) as (p & Ep & Hp).
  exists (pre ++ p ++ a), (c ++ post). rewrite E, Ep, Er, <-!app_assoc. split; [done|].
  rewrite !len_app. unfold offset. lia.
Qed.

Lemma within_constructed msg r tag sub r' :
  within msg r -> reader_ok r -> Forall is_u8 (rest r) -> read_constructed r tag = Ok (sub, r') ->
  within msg sub /\ within msg r' /\ reader_ok sub /\ reader_ok r' /\
  Forall is_u8 (rest sub) /\ Forall is_u8 (rest r').
Proof.
  intros Hw Hr Hu H.
  destruct (read_constructed_sound _ _ _ _ Hr Hu H) as (hdr & E & _ & Hs & Hr' & Ei & Hp & Ho & Ha).
  rewrite E, !Forall_app in Hu. destruct Hu as (_ & Hsu & Hu').
  split_and!; try done; [|by rewrite Ha].
  destruct (within_slice msg r _ _ _ Hw Hr E) as (pre & post & Em & Hl).
  exists pre, post. rewrite Ei. split; [done|]. unfold offset in Ho |- *. unfold offset in Hl. lia.
Qed.

(** Decoded USM fields hold octets and [i32] values. *)
Definition usm_fields_wf (u : UsmFields) : Prop :=
  Forall is_u8 (uf_engine_id u) /\ is_i32 (uf_engine_boots u) /\ is_i32 (uf_engine_time u) /\
  Forall is_u8 (uf_user_name u) /\ len (uf_user_name u) <= MSG_USER_NAME_MAX_LENGTH /\
  Forall is_u8 (uf_auth_params u) /\ Forall is_u8 (uf_priv_params u).

(** The recorded offset is where the authentication parameters are in [msg]. *)
Definition auth_offset_ok (msg auth_params : bytes) (o : option Z) : Prop :=
  match o with
  | None => auth_params = []
  | Some off => auth_params <> [] /\ exists pre post, msg = pre ++ auth_params ++ post /\ len pre = off
  end.

Lemma decode_usm_sound msg r d r' :
  within msg r -> reader_ok r -> Forall is_u8 (rest r) ->
  decode_usm_security_parameters r = Ok (d, r') ->
  usm_fields_wf (du_fields d) /\ auth_offset_ok msg (uf_auth_params (du_fields d)) (du_auth_params_offset d) /\
  within msg r' /\ reader_ok r' /\ Forall is_u8 (rest r').
Proof.
  intros Hw Hr Hu H. unfold decode_usm_security_parameters in H.
  destruct (read_octet_string r) as [[usmb r1]|] eqn:E1; [|done].
  destruct (read_octet_string_sound _ _ _ Hr Hu E1) as (Hub & Hr1 & Hu1 & hdr & Er & Ha).
  destruct (within_slice msg r _ _ _ Hw Hr Er) as (pre & post & Em & Hpre).
  assert (Ho : offset r1 - len usmb = len pre) by (rewrite Ha, offset_advance; lia). rewrite Ho in H.
  pose proof (rest_len_ISIZE r Hr) as HI. rewrite Er, app_assoc in HI.
  apply len_le_app_l in HI. rewrite len_app in HI.
  assert (Hw2 : within msg (new_with_offset usmb (len pre))) by (by exists pre, post).
  assert (Hr2 : reader_ok (new_with_offset usmb (len pre)))
    by (apply new_with_offset_ok; pose proof (len_nonneg hdr); lia).
  destruct (read_sequence _) as [[s0 r2]|] eqn:E2; [|done].
  destruct (within_constructed _ _ _ _ _ Hw2 Hr2 Hub E2) as (Hw0 & _ & Hs0 & _ & Hu0 & _).
  destruct (read_octet_string s0) as [[eid s1]|] eqn:E3; [|done].
  destruct (read_octet_string_sound _ _ _ Hs0 Hu0 E3) as (Heid & Hs1 & Hsu1 & xA1 & _ & A1).
  destruct (read_integer s1) as [[boots s2]|] eqn:E4; [|done].
  destruct (read_integer_sound _ _ _ Hs1 Hsu1 E4) as (Hboots & Hs2 & Hsu2 & xA2 & _ & A2).
  destruct (read_integer s2) as [[time s3]|] eqn:E5; [|done].
  destruct (read_integer_sound _ _ _ Hs2 Hsu2 E5) as (Htime & Hs3 & Hsu3 & xA3 & _ & A3).
  destruct (read_octet_string s3) as [[un s4]|] eqn:E6; [|done].
  destruct (read_octet_string_sound _ _ _ Hs3 Hsu3 E6) as (Hun & Hs4 & Hsu4 & xA4 & _ & A4).
  destruct (Z.ltb_spec MSG_USER_NAME_MAX_LENGTH (len un)); [done|].
  destruct (read_octet_string s4) as [[ap s5]|] eqn:E7; [|done].
  destruct (read_octet_string_sound _ _ _ Hs4 Hsu4 E7) as (Hap & Hs5 & Hsu5 & hdr5 & Er5 & A5).
  destruct (read_octet_string s5) as [[pp s6]|] eqn:E8; [|done].
  destruct (read_octet_string_sound _ _ _ Hs5 Hsu5 E8) as (Hpp & _).
  injection H as <- <-. cbn. split_and!; [done| |by rewrite Ha|done|done].
  unfold auth_offset_ok. destruct (is_nil ap) eqn:En; [by apply is_nil_true|].
  split; [by intros ->|].
  assert (Hw4 : within msg s4) by (by rewrite A4, A3, A2, A1).
  destruct (within_slice msg s4 _ _ _ Hw4 Hs4 Er5) as (q & q' & Eq & Hq).
  exists q, q'. split; [done|]. rewrite A5, offset_advance. lia.
Qed.

Lemma decode_header_sound msg r h r' :
  within msg r -> reader_ok r -> Forall is_u8 (rest r) -> decode_header_data r = Ok (h, r') ->
  0 <= hd_msg_id h <= I32_MAX /\ 484 <= hd_max_size h <= I32_MAX /\ is_u8 (hd_security_flags h) /\
  is_i32 (hd_security_model h) /\ within msg r' /\ reader_ok r' /\ Forall is_u8 (rest r').
Proof.
  intros Hw Hr Hu H. unfold decode_header_data in H.
  destruct (read_sequence r) as [[s0 r1]|] eqn:E1; [|done].
  destruct (within_constructed _ _ _ _ _ Hw Hr Hu E1) as (Hw0 & Hw1 & Hs0 & Hr1 & Hu0 & Hu1).
  destruct (read_integer s0) as [[mid s1]|] eqn:E2; [|done].
  destruct (read_integer_sound _ _ _ Hs0 Hu0 E2) as (Hmid & Hs1 & Hsu1 & _).
  destruct (Z.ltb_spec mid 0); [done|].
  destruct (read_integer s1) as [[ms s2]|] eqn:E3; [|done].
  destruct (read_integer_sound _ _ _ Hs1 Hsu1 E3) as (Hms & Hs2 & Hsu2 & _).
  destruct (Z.ltb_spec ms 484); [done|].
  destruct (read_octet_string s2) as [[fl s3]|] eqn:E4; [|done].
  destruct (read_octet_string_sound _ _ _ Hs2 Hsu2 E4) as (Hfl & Hs3 & Hsu3 & _).
  destruct fl as [|fb [|]]; [done| |done]. apply Forall_cons in Hfl as [Hfb _].
  destruct (read_integer s3) as [[sm s4]|] eqn:E5; [|done].
  destruct (read_integer_sound _ _ _ Hs3 Hsu3 E5) as (Hsm & _).
  injection H as <- <-. cbn. unfold is_i32 in *. split_and!; try done; zrange.
Qed.

Definition scoped_data_wf (d : ScopedData) : Prop :=
  match d with
  | SPlaintext ce cn raw => Forall is_u8 ce /\ Forall is_u8 cn /\ Forall is_u8 raw /\ len raw <= ISIZE_MAX
  | SEncrypted ct => Forall is_u8 ct /\ len ct <= ISIZE_MAX
  end.

Lemma decode_scoped_sound r d :
  reader_ok r -> Forall is_u8 (rest r) -> decode_scoped_pdu_data r = Ok d -> scoped_data_wf d.
Proof.
  intros Hr Hu H. unfold decode_scoped_pdu_data in H. destruct (peek_tag r) as [tag|]; [|done].
  destruct (tag =? TAG_SEQUENCE).
  - destruct (read_sequence r) as [[s0 r1]|] eqn:E1; [|done].
    destruct (read_constructed_sound _ _ _ _ Hr Hu E1) as (hdr & Er & _ & Hs0 & _).
    rewrite Er, !Forall_app in Hu. destruct Hu as (_ & Hu0 & _).
    destruct (read_octet_string s0) as [[ce s1]|] eqn:E2; [|done].
    destruct (read_octet_string_sound _ _ _ Hs0 Hu0 E2) as (Hce & Hs1 & Hu1 & _).
    destruct (read_octet_string s1) as [[cn s2]|] eqn:E3; [|done].
    destruct (read_octet_string_sound _ _ _ Hs1 Hu1 E3) as (Hcn & Hs2 & Hu2 & _).
    injection H as <-. cbn. rewrite remaining_rest by done. split_and!; try done. by apply rest_len_ISIZE.
  - destruct (tag =? TAG_OCTET_STRING); [|done].
    destruct (read_octet_string r) as [[ct r1]|] eqn:E1; [|done].
    destruct (read_octet_string_sound _ _ _ Hr Hu E1) as (Hct & _ & _ & hdr & Er & _).
    injection H as <-. cbn. split; [done|]. pose proof (rest_len_ISIZE r Hr) as HI.
    rewrite Er, !len_app in HI. pose proof (len_nonneg hdr). pose proof (len_nonneg (rest r1)). lia.
Qed.

Definition envelope_wf (msg : bytes) (env : V3MessageEnvelope) : Prop :=
  env_raw_message env = msg /\
  0 <= env_msg_id env <= I32_MAX /\ 484 <= env_max_size env <= I32_MAX /\
  is_u8 (env_security_flags env) /\ is_i32 (env_security_model env) /\
  usm_fields_wf (env_usm env) /\ scoped_data_wf (env_scoped_data env) /\
  auth_offset_ok msg (uf_auth_params (env_usm env)) (env_auth_params_offset env).

Lemma decode_v3_envelope_sound msg env :
  Forall is_u8 msg -> len msg <= ISIZE_MAX -> decode_v3_envelope msg = Ok env -> envelope_wf msg env.
Proof.
  intros Hu Hl H. unfold decode_v3_envelope in H.
  destruct (read_sequence _) as [[s0 r1]|] eqn:E1; [|done].
  destruct (within_constructed _ _ _ _ _ (within_new msg) (reader_new_ok _ Hl) Hu E1) as (Hw0 & _ & Hs0 & _ & Hu0 & _).
  destruct (read_integer s0) as [[v s1]|] eqn:E2; [|done].
  destruct (read_integer_sound _ _ _ Hs0 Hu0 E2) as (_ & Hs1 & Hu1 & xA1 & _ & A1).
  destruct (negb (v =? _)); [done|].
  assert (Hw1 : within msg s1) by (by rewrite A1).
  destruct (decode_header_data s1) as [[h s2]|] eqn:E3; [|done].
  destruct (decode_header_sound msg _ _ _ Hw1 Hs1 Hu1 E3) as (H1 & H2 & H3 & H4 & Hw2 & Hs2 & Hu2).
  destruct (decode_usm_security_parameters s2) as [[d s3]|] eqn:E4; [|done].
  destruct (decode_usm_sound msg _ _ _ Hw2 Hs2 Hu2 E4) as (H5 & H6 & Hw3 & Hs3 & Hu3).
  destruct (decode_scoped_pdu_data s3) as [sd|] eqn:E5; [|done].
  pose proof (decode_scoped_sound _ _ Hs3 Hu3 E5) as H7.
  injection H as <-. by unfold envelope_wf.
Qed.
