(* ===== verification/Codec.v ===== *)
(** * Message codec: [src/src/codec/pdu/decode.rs], [src/src/codec/pdu/encode.rs]

    Decoding of inbound messages to [V3InboundMessage], and encoding of responses,
    traps and reports with encryption and signature.  The privacy salt is a
    process-global counter: the encoders thread it as [SaltState], and its seed,
    drawn from the operating system on first use, is the parameter [seed].  The
    main results are the round trip through encryption and signature
    ([v3_message_opens]) and the soundness of the decoder. *)

From S2P Require Import Prelude Oid Ber BerFacts Usm Types Varbind BerPdu Snmp.

(** ** Decoding *)

Definition decode_error (k : DecodeErrorKind) (m : DecodeMessage) : DecodeError :=
  {| kind := k; decode_message := m |}.

Definition decode_varbind_list_to_varbinds (raw_varbind_list : bytes) : result (list Varbind) DecodeError :=
  let? decoded_varbinds :=
    map_err (fun e => decode_error KindBer (VarBindDecodeFailed e)) (decode_varbind_list raw_varbind_list) in
  collect_results
    (fun decoded =>
       let? value :=
         map_err (fun e => decode_error KindBer (VarBindValueDecodeFailed e))
           (decode_varbind_value_to_value (decoded_value decoded)) in
       Ok {| vb_oid := name decoded; vb_value := value |})
    decoded_varbinds.

(** [u32::try_from(n).unwrap_or(d)] *)
Definition u32_or (d n : Z) : Z := default d (u32_try_from n).

Definition decoded_pdu_to_inbound (decoded : DecodedPdu) : result InboundPdu DecodeError :=
  match decoded with
  | Standard tag request_id raw_varbind_list =>
      if tag =? TAG_GET_REQUEST then
        let? varbinds := decode_varbind_list_to_varbinds raw_varbind_list in
        Ok (PduGetRequest {| get_request_id := request_id; get_varbinds := varbinds |})
      else if tag =? TAG_GET_NEXT_REQUEST then
        let? varbinds := decode_varbind_list_to_varbinds raw_varbind_list in
        Ok (PduGetNextRequest {| next_request_id := request_id; next_varbinds := varbinds |})
      else if tag =? TAG_SET_REQUEST then
        let? varbinds := decode_varbind_list_to_varbinds raw_varbind_list in
        Ok (PduSetRequest {| set_request_id := request_id; set_varbinds := varbinds |})
      else Err (decode_error UnsupportedPduType (UnexpectedOutboundPdu tag))
  | Bulk request_id nr mr raw_varbind_list =>
      let non_repeaters_u32 := u32_or 0 nr in
      let max_repetitions_u32 := u32_or 0 mr in
      let? varbinds := decode_varbind_list_to_varbinds raw_varbind_list in
      Ok (PduGetBulkRequest {| bulk_request_id := request_id; non_repeaters := non_repeaters_u32;
                               max_repetitions := max_repetitions_u32; bulk_varbinds := varbinds |})
  end.

(** [codec::decode_pdu] *)
Definition decode_pdu (b : bytes) : result InboundPdu DecodeError :=
  let? decoded := map_err (fun e => decode_error KindBer (BerDecodeFailed e)) (ber_decode_pdu b) in
  decoded_pdu_to_inbound decoded.

Definition decode_v3_message (b : bytes) : result V3InboundMessage DecodeError :=
  let? envelope :=
    map_err (fun e => if is_wrong_version e then decode_error WrongVersion (VersionMismatch e)
                      else decode_error KindBer (BerDecodeFailed e))
      (decode_v3_envelope b) in
  let fields := env_usm envelope in
  let usm_fields :=
    {| auth_engine_id := uf_engine_id fields;
       auth_engine_boots := u32_or U32_MAX (uf_engine_boots fields);
       auth_engine_time := u32_or U32_MAX (uf_engine_time fields);
       security_flags := MkMsgFlags (env_security_flags envelope);
       auth_params := result_ok (auth_params_try_from (uf_auth_params fields));
       priv_params := result_ok (privacy_salt_try_from (uf_priv_params fields)) |} in
  let? '(engine_id, context_name, scoped) :=
    match env_scoped_data envelope with
    | SPlaintext context_engine_id context_name raw_pdu =>
        let? decoded_pdu :=
          map_err (fun e => decode_error KindBer (BerDecodeFailed e)) (ber_decode_pdu raw_pdu) in
        let? pdu := decoded_pdu_to_inbound decoded_pdu in
        Ok (context_engine_id, context_name, Plaintext pdu)
    | SEncrypted ciphertext => Ok (uf_engine_id fields, [], Encrypted ciphertext)
    end in
  Ok {| msg_id := env_msg_id envelope; max_size := env_max_size envelope;
        security_model := env_security_model envelope; msg_engine_id := engine_id;
        msg_context_name := context_name; msg_user_name := uf_user_name fields;
        scoped_data := scoped; usm := usm_fields; raw_message := b;
        auth_params_offset := env_auth_params_offset envelope |}.

(** [codec::decode_scoped_pdu] *)
Definition decode_scoped_pdu (b : bytes) : result DecodedScopedPdu DecodeError :=
  let? scoped := map_err (fun e => decode_error KindBer (ScopedPduDecodeFailed e)) (ber_decode_scoped_pdu b) in
  let? decoded := map_err (fun e => decode_error KindBer (PduDecodeFailed e)) (ber_decode_pdu (dspf_raw_pdu scoped)) in
  let? pdu := decoded_pdu_to_inbound decoded in
  Ok {| dsp_context_engine_id := dspf_context_engine_id scoped;
        dsp_context_name := dspf_context_name scoped; dsp_pdu := pdu |}.

(** ** Encoding *)

Definition encode_varbinds (varbinds : list Varbind) : result bytes EncodeError :=
  let? encoded_varbinds :=
    collect_results
      (fun vb =>
         let? encoded_value := map_err VarbindValueEncodingFailed (encode_varbind_value (vb_value vb)) in
         Ok (encode_varbind (vb_oid vb) encoded_value))
      varbinds in
  Ok (encode_varbind_list encoded_varbinds).

Definition encode_response (pdu : GetResponse) : result bytes EncodeError :=
  let? raw_varbind_list := encode_varbinds (resp_varbinds pdu) in
  let? index := ok_or (i32_try_from (error_index pdu)) (ErrorIndexTooLarge (error_index pdu)) in
  map_err (PduEncodingFailed (str "GetResponse"))
    (ber_encode_pdu TAG_RESPONSE (resp_request_id pdu) (error_status_code (error_status pdu)) index raw_varbind_list).

(** [PRIVACY_SALT_INIT] and [PRIVACY_SALT_COUNTER]: [None] until the first call. *)
Definition SaltState := option Z.

(** The counter after [call_once], which seeds it with [random_u64() | 1]. *)
Definition salt_counter (seed : Z) (st : SaltState) : Z :=
  match st with Some c => c | None => Z.lor seed 1 end.

Definition next_privacy_salt (seed : Z) (st : SaltState) : bytes * SaltState :=
  let c := salt_counter seed st in
  (to_be_bytes 8 c, Some ((c + 1) mod 18446744073709551616)).

(** IV = engineBoots (4 BE) || engineTime (4 BE) || salt. *)
Definition build_iv (engine_boots engine_time : Z) (salt : bytes) : bytes :=
  to_be_bytes 4 engine_boots ++ to_be_bytes 4 engine_time ++ salt.

(** [dst.copy_from_slice(src)] panics ([None]) when the lengths differ. *)
Definition copy_from_slice (dst src : bytes) : option bytes :=
  if len dst =? len src then Some src else None.

Section Encode.
  Context `{CryptoOps}.

(** The privacy step of [encode_v3_envelope]: the octets that follow the USM
    parameters, [msgPrivacyParameters], and whether the octets are ciphertext. *)
Definition protect_scoped_pdu (seed : Z) (st : SaltState) (privacy : option (PrivProtocol * SecretKey))
    (engine_boots engine_time : Z) (scoped_pdu_bytes : bytes)
    : result (bytes * bytes * bool) EncodeError * SaltState :=
  match privacy with
  | Some (protocol, key) =>
      let '(salt, st) := next_privacy_salt seed st in
      let aes_iv := build_iv engine_boots engine_time salt in
      (let? ciphertext := map_err AesEncryptionFailed (encrypt protocol key aes_iv scoped_pdu_bytes) in
       Ok (ciphertext, salt, true), st)
  | None => (Ok (scoped_pdu_bytes, [], false), st)
  end.

(** The signature step: the MAC of the message with a zero placeholder is written
    over the placeholder. *)
Definition sign_message (auth : option (AuthProtocol * SecretKey)) (encoded_message : bytes)
    (auth_params_offset : option Z) (placeholder_len : Z) : result bytes EncodeError :=
  match auth with
  | Some (protocol, key) =>
      let mac_length := placeholder_len in
      let? offset := ok_or auth_params_offset AuthOffsetMissing in
      let? mac := map_err HmacComputationFailed (compute_mac protocol key encoded_message) in
      let? end_ := ok_or (usize_checked_add offset mac_length) AuthRangeOverflow in
      let? target := ok_or (get_range encoded_message offset end_) AuthRangeOutOfBounds in
      let written := expect_or target (copy_from_slice target mac) in
      Ok (take (Z.to_nat offset) encoded_message ++ written ++ drop (Z.to_nat end_) encoded_message)
  | None => Ok encoded_message
  end.

Definition encode_v3_envelope (seed : Z) (st : SaltState) (msg_id : MessageId)
    (engine_id user_name context_name : bytes) (engine_boots engine_time : Z)
    (auth : option (AuthProtocol * SecretKey)) (privacy : option (PrivProtocol * SecretKey))
    (raw_pdu_bytes : bytes) : result bytes EncodeError * SaltState :=
  match i32_try_from engine_boots, i32_try_from engine_time with
  | None, _ => (Err (EngineBootsTooLarge engine_boots), st)
  | Some _, None => (Err (EngineTimeTooLarge engine_time), st)
  | Some ber_boots, Some ber_time =>
      let scoped_pdu_bytes := encode_scoped_pdu engine_id context_name raw_pdu_bytes in
      match (match auth, privacy with
             | Some _, Some _ => Some 0x03
             | Some _, None => Some 0x01
             | None, None => Some 0x00
             | None, Some _ => None
             end) with
      | None => (Err PrivacyWithoutAuthentication, st)
      | Some flags_byte =>
          let auth_params :=
            match auth with Some (proto, _) => replicate (Z.to_nat (mac_len proto)) 0 | None => [] end in
          let '(protected, st) := protect_scoped_pdu seed st privacy engine_boots engine_time scoped_pdu_bytes in
          (let? '(scoped_or_ciphertext, priv_params, encrypted) := protected in
           let? '(encoded_message, auth_params_offset) :=
             map_err MessageEncodingFailed
               (encode_v3_message msg_id MSG_MAX_SIZE_UDP flags_byte 3 engine_id ber_boots ber_time
                  user_name auth_params priv_params scoped_or_ciphertext encrypted) in
           sign_message auth encoded_message auth_params_offset (len auth_params), st)
      end
  end.

Definition encode_v3_response (seed : Z) (st : SaltState) (msg_id : MessageId)
    (engine_id user_name context_name : bytes) (engine_boots engine_time : Z)
    (auth : option (AuthProtocol * SecretKey)) (privacy : option (PrivProtocol * SecretKey))
    (pdu : GetResponse) : result bytes EncodeError * SaltState :=
  match (let? raw_varbind_list := encode_varbinds (resp_varbinds pdu) in
         let? index := ok_or (i32_try_from (error_index pdu)) (ErrorIndexTooLarge (error_index pdu)) in
         map_err (PduEncodingFailed (str "GetResponse PDU"))
           (ber_encode_pdu TAG_RESPONSE (resp_request_id pdu) (error_status_code (error_status pdu)) index
              raw_varbind_list)) with
  | Err e => (Err e, st)
  | Ok raw_pdu_bytes =>
      encode_v3_envelope seed st msg_id engine_id user_name context_name engine_boots engine_time auth privacy
        raw_pdu_bytes
  end.

Definition encode_v3_trap (seed : Z) (st : SaltState) (msg_id : MessageId)
    (engine_id user_name context_name : bytes) (engine_boots engine_time : Z)
    (auth : option (AuthProtocol * SecretKey)) (privacy : option (PrivProtocol * SecretKey))
    (pdu : WireTrapPdu) : result bytes EncodeError * SaltState :=
  match (let? raw_varbind_list := encode_varbinds (trap_varbinds pdu) in
         map_err (PduEncodingFailed (str "WireTrapPdu")) (ber_encode_pdu TAG_TRAP (trap_request_id pdu) 0 0 raw_varbind_list)) with
  | Err e => (Err e, st)
  | Ok raw_pdu_bytes =>
      encode_v3_envelope seed st msg_id engine_id user_name context_name engine_boots engine_time auth privacy
        raw_pdu_bytes
  end.

(** Reports are noAuthNoPriv, so the salt state is untouched and not returned. *)
Definition encode_v3_report (msg_id : MessageId) (engine_id : bytes) (engine_boots engine_time : Z)
    (counter_oid : Oid) (counter_value : Z) : result bytes EncodeError :=
  let varbind := {| vb_oid := counter_oid; vb_value := VValue (Counter32 counter_value) |} in
  let? raw_varbind_list := encode_varbinds [varbind] in
  let? raw_pdu_bytes := map_err (PduEncodingFailed (str "Report PDU")) (ber_encode_pdu TAG_REPORT msg_id 0 0 raw_varbind_list) in
  fst (encode_v3_envelope 0 None msg_id engine_id [] [] engine_boots engine_time None None raw_pdu_bytes).

End Encode.

Definition encode_trap (pdu : WireTrapPdu) : result bytes EncodeError :=
  let? raw_varbind_list := encode_varbinds (trap_varbinds pdu) in
  let? raw_pdu_bytes := map_err (PduEncodingFailed (str "WireTrapPdu")) (ber_encode_pdu TAG_TRAP (trap_request_id pdu) 0 0 raw_varbind_list) in
  Ok (encode_v2c_message [] raw_pdu_bytes).

(** ** Varbinds and PDUs *)

Definition vbl_octets (vbs : list Varbind) : bytes := seq_tlv (concat (varbind_octets <$> vbs)).

Lemma encode_varbinds_octets vbs : encode_varbinds vbs = Ok (vbl_octets vbs).
Proof.
  unfold encode_varbinds.
  assert (Hc : collect_results (fun vb =>
      let? encoded_value := map_err VarbindValueEncodingFailed (encode_varbind_value (vb_value vb)) in
      Ok (encode_varbind (vb_oid vb) encoded_value)) vbs = Ok (varbind_octets <$> vbs)).
  { induction vbs as [|vb vbs IH]; [done|]. cbn [collect_results].
    rewrite encode_varbind_value_tlv. cbn [map_err]. rewrite IH, encode_varbind_tlv. done. }
  rewrite Hc. by rewrite encode_varbind_list_tlv.
Qed.

Lemma decode_varbinds_roundtrip vbs :
  Forall varbind_wf vbs -> len (vbl_octets vbs) <= ISIZE_MAX ->
  decode_varbind_list_to_varbinds (vbl_octets vbs) = Ok vbs.
Proof.
  intros Hwf Hl. unfold decode_varbind_list_to_varbinds.
  unfold vbl_octets, seq_tlv in *. rewrite decode_varbind_list_octets by done. cbn [map_err]. clear Hl.
  induction Hwf as [|vb vbs [Ho Hv] _ IH]; [done|]. rewrite fmap_cons. cbn [collect_results].
  cbn [decoded_varbind_of name decoded_value]. rewrite decoded_of_value by done. cbn [map_err].
  rewrite IH. by destruct vb.
Qed.

Lemma decode_varbind_list_to_varbinds_wf raw vbs :
  Forall is_u8 raw -> len raw <= ISIZE_MAX -> decode_varbind_list_to_varbinds raw = Ok vbs ->
  Forall varbind_wf vbs.
Proof.
  intros Hu Hl H. unfold decode_varbind_list_to_varbinds in H.
  destruct (decode_varbind_list raw) as [ds|] eqn:E; [|done]. cbn [map_err] in H.
  pose proof (decode_varbind_list_wf _ _ Hu Hl E) as Hds. clear E Hl Hu.
  revert vbs H. induction Hds as [|d ds [Hn Hv] _ IH]; intros vbs H; cbn [collect_results] in H.
  { injection H as <-. constructor. }
  destruct (decode_varbind_value_to_value (decoded_value d)) as [v|] eqn:Ev; [|done]. cbn [map_err] in H.
  destruct (collect_results _ ds) as [vs|]; [|done]. injection H as <-.
  constructor; [|by apply IH]. split; [done|]. exact (decode_value_wf _ _ Hv Ev).
Qed.

Definition inbound_wf (p : InboundPdu) : Prop :=
  match p with
  | PduGetRequest r => is_i32 (get_request_id r) /\ Forall varbind_wf (get_varbinds r)
  | PduGetNextRequest r => is_i32 (next_request_id r) /\ Forall varbind_wf (next_varbinds r)
  | PduGetBulkRequest r =>
      is_i32 (bulk_request_id r) /\ 0 <= non_repeaters r <= I32_MAX /\ 0 <= max_repetitions r <= I32_MAX /\
      Forall varbind_wf (bulk_varbinds r)
  | PduSetRequest r => is_i32 (set_request_id r) /\ Forall varbind_wf (set_varbinds r)
  end.

Lemma u32_or_0_range n : is_i32 n -> 0 <= u32_or 0 n <= I32_MAX.
Proof.
  intros Hn. unfold u32_or, u32_try_from, is_i32 in *.
  destruct (Z.leb_spec 0 n), (Z.leb_spec n U32_MAX); simpl; zrange.
Qed.

Lemma decoded_pdu_to_inbound_wf d p :
  decoded_pdu_wf d -> decoded_pdu_to_inbound d = Ok p -> inbound_wf p.
Proof.
  intros Hwf H. destruct d as [tag a vbl|a b c vbl]; cbn in Hwf, H.
  - destruct Hwf as (Ha & Hu & Hl).
    repeat match type of H with
    | (if ?x then _ else _) = _ => destruct x
    | (let? _ := ?e in _) = _ => let E := fresh "E" in destruct e eqn:E; [|done]; injection H as <-;
        split; [done|]; exact (decode_varbind_list_to_varbinds_wf _ _ Hu Hl E)
    end; try done.
  - destruct Hwf as (Ha & Hb & Hc & Hu & Hl).
    destruct (decode_varbind_list_to_varbinds vbl) as [vbs|] eqn:E; [|done]. injection H as <-.
    cbn. split_and!; try done; try by apply u32_or_0_range.
    exact (decode_varbind_list_to_varbinds_wf _ _ Hu Hl E).
Qed.

(** ** Soundness of the message decoder *)

(** What dispatch may rely on for any received octets. *)
Definition message_wf (b : bytes) (m : V3InboundMessage) : Prop :=
  raw_message m = b /\ 0 <= msg_id m <= I32_MAX /\ 484 <= max_size m <= I32_MAX /\
  is_u8 (flags_byte (security_flags (usm m))) /\ Forall is_u8 (msg_user_name m) /\ len (msg_user_name m) <= 32 /\
  is_u32 (auth_engine_boots (usm m)) /\ is_u32 (auth_engine_time (usm m)) /\
  (match scoped_data m with
   | Plaintext p => inbound_wf p
   | Encrypted ct => Forall is_u8 ct /\ msg_engine_id m = auth_engine_id (usm m) /\ msg_context_name m = []
   end) /\
  (match priv_params (usm m) with Some s => len (salt_bytes s) = 8 | None => True end) /\
  auth_offset_ok b (match auth_params (usm m) with Some a => auth_params_bytes a | None => [] end)
    (auth_params_offset m).

Lemma u32_or_range d n : is_u32 d -> is_u32 (u32_or d n).
Proof.
  intros Hd. unfold u32_or. destruct (u32_try_from n) as [x|] eqn:E; [|done].
  apply u32_try_from_inv in E as [-> Hx]. done.
Qed.

Lemma auth_params_try_from_ok b :
  match result_ok (auth_params_try_from b) with Some a => auth_params_bytes a | None => [] end = b.
Proof. unfold auth_params_try_from. by destruct b. Qed.

Lemma privacy_salt_try_from_ok b s :
  result_ok (privacy_salt_try_from b) = Some s -> salt_bytes s = b /\ len b = 8.
Proof.
  unfold privacy_salt_try_from. destruct (Z.eqb_spec (len b) PrivacySalt_LEN); [|done].
  intros [= <-]. done.
Qed.

Lemma decode_v3_message_wf b m :
  Forall is_u8 b -> len b <= ISIZE_MAX -> decode_v3_message b = Ok m -> message_wf b m.
Proof.
  intros Hu Hl H. unfold decode_v3_message in H.
  destruct (decode_v3_envelope b) as [env|] eqn:E; [|done]. cbn [map_err] in H.
  destruct (decode_v3_envelope_sound b env Hu Hl E) as (Hraw & Hid & Hms & Hfl & Hsm & Hus & Hsd & Hoff).
  destruct Hus as (He & Hbt & Htm & Hun & Hunl & Hap & Hpp).
  match type of H with match ?e with _ => _ end = _ => destruct e as [[[eid cn] sc]|] eqn:Es; [|done] end.
  injection H as <-. unfold message_wf. cbn.
  assert (is_u32 U32_MAX) by zrange.
  split_and!; try done; try by apply u32_or_range.
  - by destruct Hid.
  - by destruct Hid.
  - by destruct Hms.
  - by destruct Hms.
  - destruct (env_scoped_data env) as [ce cn' raw|ct].
    + destruct (ber_decode_pdu raw) as [d|] eqn:Ed; [|done]. cbn [map_err] in Es.
      destruct (decoded_pdu_to_inbound d) as [p|] eqn:Ep; [|done]. injection Es as <- <- <-.
      destruct Hsd as (_ & _ & Hr & Hrl).
      exact (decoded_pdu_to_inbound_wf _ _ (ber_decode_pdu_wf _ _ Hr Hrl Ed) Ep).
    + injection Es as <- <- <-. by destruct Hsd.
  - destruct (result_ok (privacy_salt_try_from _)) as [sl|] eqn:Esl; [|done].
    apply privacy_salt_try_from_ok in Esl as [-> ?]. done.
  - by rewrite auth_params_try_from_ok.
Qed.

(** ** Salts *)

Definition salt_state_ok (st : SaltState) : Prop := match st with Some c => is_u64 c | None => True end.

Lemma salt_counter_u64 seed st : is_u64 seed -> salt_state_ok st -> is_u64 (salt_counter seed st).
Proof.
  intros Hs Hst. destruct st as [c|]; [done|]. cbn. unfold is_u64 in *.
  assert (Z.lor seed 1 < 2 ^ 64).
  { destruct (Z.eqb_spec seed 0) as [->|]; [done|]. apply Z.log2_lt_pow2.
    - pose proof (Z.lor_nonneg seed 1). destruct (Z.eqb_spec (Z.lor seed 1) 0) as [E0|]; [|lia].
      apply Z.lor_eq_0_iff in E0. lia.
    - rewrite Z.log2_lor by lia. apply Z.max_lub_lt; [|done]. apply Z.log2_lt_pow2; lia. }
  split; [apply Z.lor_nonneg; lia|lia].
Qed.

Lemma next_privacy_salt_ok seed st salt st' :
  is_u64 seed -> salt_state_ok st -> next_privacy_salt seed st = (salt, st') ->
  len salt = 8 /\ Forall is_u8 salt /\ salt_state_ok st' /\ from_be_bytes salt = salt_counter seed st /\
  salt_counter seed st' = (salt_counter seed st + 1) mod 18446744073709551616.
Proof.
  intros Hs Hst. unfold next_privacy_salt. intros [<- <-]%pair_equal_spec.
  pose proof (salt_counter_u64 seed st Hs Hst). split_and!.
  - by rewrite len_to_be_bytes.
  - apply to_be_bytes_u8.
  - apply Z.mod_pos_bound. lia.
  - apply from_to_be_bytes_id. done.
  - done.
Qed.

(** The salts of [n] consecutive encrypted messages. *)
Fixpoint salts (n : nat) (seed : Z) (st : SaltState) : list bytes :=
  match n with
  | O => []
  | S m => let '(salt, st') := next_privacy_salt seed st in salt :: salts m seed st'
  end.

Lemma length_salts n seed st : length (salts n seed st) = n.
Proof.
  revert st. induction n as [|n IH]; intros st; cbn [salts]; [done|].
  destruct (next_privacy_salt seed st). cbn [length]. by rewrite IH.
Qed.

Lemma salts_lookup n seed st k :
  is_u64 seed -> salt_state_ok st -> (k < n)%nat ->
  exists s, salts n seed st !! k = Some s /\ len s = 8 /\
    from_be_bytes s = (salt_counter seed st + Z.of_nat k) mod 18446744073709551616.
Proof.
  intros Hs. revert st k. induction n as [|n IH]; intros st k Hst Hk; [lia|]. cbn [salts].
  destruct (next_privacy_salt seed st) as [salt st'] eqn:E.
  destruct (next_privacy_salt_ok _ _ _ _ Hs Hst E) as (Hl & _ & Hst' & Hf & Hc).
  destruct k as [|k].
  - exists salt. split_and!; [done|done|]. rewrite Hf, Z.add_0_r, Z.mod_small; [done|].
    by apply salt_counter_u64.
  - destruct (IH st' k Hst' ltac:(lia)) as (s & Hk' & Hsl & Hv). exists s. split_and!; [done|done|].
    rewrite Hv, Hc, Zplus_mod_idemp_l. f_equal. lia.
Qed.

(** ** Sending: encryption and signature *)

Lemma int_tlv_len v : is_i32 v -> len (int_tlv v) <= 14.
Proof.
  intros Hv. destruct (encode_signed_i32_spec v Hv) as (_ & _ & Hl). unfold int_tlv.
  pose proof (tlv_len TAG_INTEGER (encode_signed_i32 v) ltac:(unfold USIZE_MAX, U64_MAX; lia)). lia.
Qed.

Lemma oct_tlv_len b : len b <= USIZE_MAX -> len (oct_tlv b) <= 10 + len b.
Proof. apply tlv_len. Qed.

Lemma seq_tlv_len b : len b <= USIZE_MAX -> len (seq_tlv b) <= 10 + len b.
Proof. apply tlv_len. Qed.

(** 2^32 octets of payload: far more than any frame, far less than [isize::MAX]. *)
Definition PAYLOAD_MAX : Z := 4294967296.

Lemma v3_octets_len i m f s e b t u a p scoped :
  is_i32 i -> is_i32 m -> is_i32 s -> is_i32 b -> is_i32 t ->
  len e + len u + len a + len p + len scoped <= 16 * PAYLOAD_MAX ->
  len (v3_octets i m f s e b t u a p scoped) <= len e + len u + len a + len p + len scoped + 300.
Proof.
  intros Hi Hm Hs Hb Ht Hl. unfold v3_octets, PAYLOAD_MAX in *.
  assert (Hv : is_i32 SNMPV3_VERSION) by apply version_i32.
  pose proof (int_tlv_len _ Hi). pose proof (int_tlv_len _ Hm). pose proof (int_tlv_len _ Hs).
  pose proof (int_tlv_len _ Hb). pose proof (int_tlv_len _ Ht). pose proof (int_tlv_len _ Hv).
  assert (HU : USIZE_MAX = 18446744073709551615) by done.
  pose proof (len_nonneg e). pose proof (len_nonneg u). pose proof (len_nonneg a).
  pose proof (len_nonneg p). pose proof (len_nonneg scoped).
  pose proof (oct_tlv_len e ltac:(lia)). pose proof (oct_tlv_len u ltac:(lia)).
  pose proof (oct_tlv_len a ltac:(lia)). pose proof (oct_tlv_len p ltac:(lia)).
  assert (len (oct_tlv [f]) <= 11) by (apply (oct_tlv_len [f]); unfold len; simpl; lia).
  set (HD := int_tlv i ++ _). set (UP := oct_tlv e ++ _).
  assert (len HD <= 60) by (subst HD; rewrite !len_app; lia).
  assert (len UP <= 40 + 28 + (len e + len u + len a + len p)) by (subst UP; rewrite !len_app; lia).
  pose proof (seq_tlv_len HD ltac:(lia)). pose proof (seq_tlv_len UP ltac:(lia)).
  pose proof (oct_tlv_len (seq_tlv UP) ltac:(lia)).
  set (B := int_tlv SNMPV3_VERSION ++ _).
  assert (len B <= 14 + 70 + (20 + 68 + (len e + len u + len a + len p)) + len scoped)
    by (subst B; rewrite !len_app; lia).
  pose proof (seq_tlv_len B ltac:(lia)). lia.
Qed.

(** What the receiver of a message may check, in terms of the decoded envelope:
    the MAC of the message with its authentication parameters zeroed. *)
Definition mac_valid `{CryptoOps} (auth : option (AuthProtocol * SecretKey)) (msg : bytes) (env : V3MessageEnvelope) : Prop :=
  match auth with
  | None => uf_auth_params (env_usm env) = [] /\ env_auth_params_offset env = None
  | Some (p, k) => exists pre post,
      msg = pre ++ uf_auth_params (env_usm env) ++ post /\ env_auth_params_offset env = Some (len pre) /\
      len (uf_auth_params (env_usm env)) = mac_len p /\
      verify_mac p k (pre ++ replicate (Z.to_nat (mac_len p)) 0 ++ post) (uf_auth_params (env_usm env)) = Ok tt
  end.

(** The plaintext ScopedPDU carried by the envelope. *)
Definition opens_to `{CryptoOps} (privacy : option (PrivProtocol * SecretKey)) (env : V3MessageEnvelope)
    (ce cn raw : bytes) : Prop :=
  match privacy with
  | None => env_scoped_data env = SPlaintext ce cn raw /\ uf_priv_params (env_usm env) = []
  | Some (p, k) => exists ct,
      env_scoped_data env = SEncrypted ct /\ len (uf_priv_params (env_usm env)) = 8 /\
      decrypt p k (build_iv (uf_engine_boots (env_usm env)) (uf_engine_time (env_usm env))
                     (uf_priv_params (env_usm env))) ct = Ok (encode_scoped_pdu ce cn raw)
  end.

Lemma sign_message_ok `{CryptoOps, !CryptoLaws} p k P Z0 S :
  key_size k = auth_key_len p -> len Z0 = mac_len p -> len (P ++ Z0 ++ S) <= ISIZE_MAX ->
  exists mac, compute_mac p k (P ++ Z0 ++ S) = Ok mac /\ len mac = mac_len p /\ Forall is_u8 mac /\
    sign_message (Some (p, k)) (P ++ Z0 ++ S) (Some (len P)) (mac_len p) = Ok (P ++ mac ++ S).
Proof.
  intros Hk Hz Hl. destruct (compute_mac_total p k (P ++ Z0 ++ S) Hk) as (mac & Em & Hu).
  pose proof (compute_mac_len _ _ _ _ Em) as Hml. exists mac. split_and!; [done..|].
  unfold sign_message. cbn [ok_or]. rewrite Em. cbn [map_err].
  rewrite !len_app in Hl. pose proof (len_nonneg P). pose proof (len_nonneg S).
  unfold usize_checked_add. unfold ISIZE_MAX in Hl. btrue (len P + mac_len p <=? USIZE_MAX).
  cbn [ok_or]. rewrite <-Hz, get_range_app. cbn [ok_or]. unfold copy_from_slice.
  rewrite Hz, <-Hml, Z.eqb_refl. cbn [expect_or]. rewrite take_len_app. do 3 f_equal.
  rewrite Hml, <-Hz, <-len_app, app_assoc. apply drop_len_app.
Qed.

(** The receiver's view of any message the agent builds. *)
Record opened `{CryptoOps} (msg_id : Z) (engine_id user_name context_name : bytes) (boots time : Z)
    (auth : option (AuthProtocol * SecretKey)) (privacy : option (PrivProtocol * SecretKey))
    (raw_pdu msg : bytes) (env : V3MessageEnvelope) : Prop := {
  opened_decodes : decode_v3_envelope msg = Ok env;
  opened_id : env_msg_id env = msg_id;
  opened_model : env_security_model env = SecurityModel_USM;
  opened_flags : env_security_flags env =
    (match auth with Some _ => 1 | None => 0 end) + (match privacy with Some _ => 2 | None => 0 end);
  opened_engine : uf_engine_id (env_usm env) = engine_id;
  opened_boots : uf_engine_boots (env_usm env) = boots;
  opened_time : uf_engine_time (env_usm env) = time;
  opened_user : uf_user_name (env_usm env) = user_name;
  opened_mac : mac_valid auth msg env;
  opened_scoped : opens_to privacy env engine_id context_name raw_pdu;
}.

Section Envelope.
  Context `{CryptoOps, !CryptoLaws}.
  Context (seed : Z) (st : SaltState) (msg_id : MessageId) (engine_id user_name context_name : bytes)
    (boots time : Z) (auth : option (AuthProtocol * SecretKey)) (privacy : option (PrivProtocol * SecretKey))
    (raw_pdu : bytes).
  Hypothesis Hseed : is_u64 seed.
  Hypothesis Hst : salt_state_ok st.
  Hypothesis Hid : 0 <= msg_id <= I32_MAX.
  Hypothesis Hboots : 0 <= boots <= I32_MAX.
  Hypothesis Htime : 0 <= time <= I32_MAX.
  Hypothesis Huser : len user_name <= 32.
  Hypothesis Hsize : len engine_id + len context_name + len raw_pdu <= PAYLOAD_MAX.
  Hypothesis Hauth : match auth with Some (p, k) => key_size k = auth_key_len p | None => privacy = None end.
  Hypothesis Hpriv : match privacy with Some (p, k) => key_size k = priv_key_len p | None => True end.
  Hypothesis Hu8 : Forall is_u8 (encode_scoped_pdu engine_id context_name raw_pdu).

Let scoped := encode_scoped_pdu engine_id context_name raw_pdu.

Lemma scoped_pdu_len : len scoped <= PAYLOAD_MAX + 40.
Proof using Hsize.
  subst scoped. rewrite encode_scoped_pdu_octets. unfold PAYLOAD_MAX in *.
  pose proof (len_nonneg engine_id). pose proof (len_nonneg context_name). pose proof (len_nonneg raw_pdu).
  assert (HU : USIZE_MAX = 18446744073709551615) by done.
  pose proof (oct_tlv_len engine_id ltac:(lia)). pose proof (oct_tlv_len context_name ltac:(lia)).
  assert (Hb : len (oct_tlv engine_id ++ oct_tlv context_name ++ raw_pdu) <= 4294967296 + 20)
    by (rewrite !len_app; lia).
  pose proof (seq_tlv_len (oct_tlv engine_id ++ oct_tlv context_name ++ raw_pdu) ltac:(lia)). lia.
Qed.

(** The privacy step succeeds and leaves octets the decoder reads as [d]. *)
Lemma protect_scoped_pdu_ok :
  exists body pp encrypted st' d,
    protect_scoped_pdu seed st privacy boots time scoped = (Ok (body, pp, encrypted), st') /\
    scoped_octets encrypted body = scoped_data_octets d /\ salt_state_ok st' /\
    len pp <= 8 /\ len (scoped_octets encrypted body) <= PAYLOAD_MAX + 60 /\
    match privacy with
    | None => d = SPlaintext engine_id context_name raw_pdu /\ pp = []
    | Some (p, k) => exists ct, d = SEncrypted ct /\ len pp = 8 /\ decrypt p k (build_iv boots time pp) ct = Ok scoped
    end.
Proof using Type*.
  unfold protect_scoped_pdu. destruct privacy as [[p k]|].
  - destruct (next_privacy_salt seed st) as [salt st'] eqn:E.
    destruct (next_privacy_salt_ok _ _ _ _ Hseed Hst E) as (Hsl & Hsu & Hst' & _).
    assert (Hiv : len (build_iv boots time salt) = 16)
      by (unfold build_iv; rewrite !len_app, !len_to_be_bytes; lia).
    destruct (encrypt_decrypt p k (build_iv boots time salt) scoped Hpriv Hiv Hu8) as (ct & Ee & Ed & Hcl & Hcu).
    rewrite Ee. cbn [map_err]. exists ct, salt, true, st', (SEncrypted ct).
    split_and!; [done|done|done|lia| |]; [|by exists ct].
    cbn. pose proof scoped_pdu_len. unfold PAYLOAD_MAX in *. pose proof (oct_tlv_len ct ltac:(unfold USIZE_MAX, U64_MAX; lia)). lia.
  - exists scoped, [], false, st, (SPlaintext engine_id context_name raw_pdu).
    split_and!; [done| |done|rewrite len_nil; lia| |done|done].
    + cbn. apply encode_scoped_pdu_octets.
    + cbn [scoped_octets]. pose proof scoped_pdu_len. lia.
Qed.

(** A message with authentication parameters [a] decodes to the fields it was
    built from. *)
Lemma built_message_decodes flags a body pp :
  len a <= 48 -> len pp <= 8 -> len (scoped_data_octets body) <= PAYLOAD_MAX + 60 ->
  let P := v3_prefix msg_id MSG_MAX_SIZE_UDP flags 3 engine_id boots time user_name (len a) pp
             (scoped_data_octets body) in
  let M := v3_octets msg_id MSG_MAX_SIZE_UDP flags 3 engine_id boots time user_name a pp (scoped_data_octets body) in
  len M <= ISIZE_MAX /\
  find_auth_params_offset M (len a) = Ok (if is_nil a then None else Some (len P)) /\
  decode_v3_envelope M = Ok
    {| env_msg_id := msg_id; env_max_size := MSG_MAX_SIZE_UDP; env_security_flags := flags;
       env_security_model := 3; env_usm := MkUsmFields engine_id boots time user_name a pp;
       env_scoped_data := body; env_raw_message := M;
       env_auth_params_offset := if is_nil a then None else Some (len P) |}.
Proof using Hid Hboots Htime Huser Hsize.
  intros Ha Hpp Hb P M. unfold I32_MAX in *.
  assert (is_i32 msg_id) by zrange. assert (is_i32 boots) by zrange. assert (is_i32 time) by zrange.
  assert (is_i32 MSG_MAX_SIZE_UDP) by (unfold MSG_MAX_SIZE_UDP; zrange). assert (is_i32 3) by zrange.
  pose proof (len_nonneg context_name). pose proof (len_nonneg raw_pdu). unfold PAYLOAD_MAX in *.
  assert (HM : len M <= ISIZE_MAX).
  { pose proof (v3_octets_len msg_id MSG_MAX_SIZE_UDP flags 3 engine_id boots time user_name a pp
      (scoped_data_octets body)) as Hl. unfold PAYLOAD_MAX in Hl. fold M in Hl.
    unfold ISIZE_MAX. specialize (Hl ltac:(done) ltac:(done) ltac:(done) ltac:(done) ltac:(done) ltac:(lia)). lia. }
  split_and!; [done|by apply find_auth_params_offset_octets|].
  apply decode_v3_envelope_octets; try done. lia.
Qed.

Lemma encode_v3_envelope_opens :
  exists msg st' env,
    encode_v3_envelope seed st msg_id engine_id user_name context_name boots time auth privacy raw_pdu
      = (Ok msg, st') /\ salt_state_ok st' /\
    opened msg_id engine_id user_name context_name boots time auth privacy raw_pdu msg env.
Proof using Type*.
  destruct protect_scoped_pdu_ok as (body & pp & enc & st' & d & Ep & Ebody & Hst' & Hpp & Hbl & Hd).
  unfold encode_v3_envelope. pose proof Hboots as Hb'. pose proof Htime as Ht'. unfold I32_MAX in Hb', Ht'.
  rewrite !i32_try_from_Some by zrange. fold scoped. rewrite Ep. cbv zeta.
  set (flags := (match auth with Some _ => 1 | None => 0 end) + (match privacy with Some _ => 2 | None => 0 end)).
  assert (Hfl : match auth, privacy with
     | Some _, Some _ => Some 0x03 | Some _, None => Some 0x01 | None, None => Some 0x00
     | None, Some _ => None end = Some flags).
  { subst flags. destruct auth as [[]|], privacy as [[]|]; done. }
  rewrite Hfl. rewrite encode_v3_message_octets, Ebody. cbv zeta. rewrite Ebody in Hbl.
  assert (Hopen : forall a msg off, 
    mac_valid auth msg (MkV3MessageEnvelope msg_id MSG_MAX_SIZE_UDP flags 3
      (MkUsmFields engine_id boots time user_name a pp) d msg off) ->
    decode_v3_envelope msg = Ok (MkV3MessageEnvelope msg_id MSG_MAX_SIZE_UDP flags 3
      (MkUsmFields engine_id boots time user_name a pp) d msg off) ->
    opened msg_id engine_id user_name context_name boots time auth privacy raw_pdu msg
      (MkV3MessageEnvelope msg_id MSG_MAX_SIZE_UDP flags 3
      (MkUsmFields engine_id boots time user_name a pp) d msg off)).
  { intros a msg off Hm Hdec. split; done. }
  destruct auth as [[p k]|].
  - set (a0 := replicate (Z.to_nat (mac_len p)) 0).
    assert (Ha0 : len a0 = mac_len p) by (unfold a0, len; rewrite length_replicate; by destruct p).
    assert (Hmax : mac_len p <= 48) by (destruct p; simpl; lia).
    destruct (built_message_decodes flags a0 d pp ltac:(lia) Hpp Hbl) as (HMl & -> & _).
    replace (is_nil a0) with false by (by destruct p). cbn [map_err]. rewrite Ha0.
    rewrite v3_octets_split, Ha0 in HMl |- *.
    destruct (sign_message_ok p k _ a0 _ Hauth Ha0 HMl) as (mac & Em & Hml & Hmu & ->).
    assert (Hme : mac <> []) by (intros ->; rewrite len_nil in Hml; by destruct p).
    destruct (built_message_decodes flags mac d pp ltac:(lia) Hpp Hbl) as (_ & _ & Hdec).
    rewrite v3_octets_split, Hml in Hdec. replace (is_nil mac) with false in Hdec by (by destruct mac).
    eexists _, st', _. split; [done|]. split; [done|]. apply Hopen; [|exact Hdec].
    eexists _, _. cbn [env_usm uf_auth_params env_auth_params_offset]. split_and!; [reflexivity|reflexivity|done|]. by apply verify_mac_ok.
  - destruct (built_message_decodes flags [] d pp ltac:(done) Hpp Hbl) as (_ & -> & Hdec).
    eexists _, st', _. split; [done|]. split; [done|]. apply Hopen; [done|exact Hdec].
Qed.
End Envelope.

(** ** Octets of encoded PDUs *)

Lemma tlv_u8 tag v : is_u8 tag -> Forall is_u8 v -> len v <= ISIZE_MAX -> Forall is_u8 (tlv tag v).
Proof.
  intros Ht Hv Hl. constructor; [done|]. apply Forall_app. split; [|done].
  apply length_octets_u8. pose proof (len_nonneg v). unfold ISIZE_MAX in Hl. zrange.
Qed.

Lemma int_tlv_u8 v : is_i32 v -> Forall is_u8 (int_tlv v).
Proof.
  intros Hv. destruct (encode_signed_i32_spec v Hv) as (Hu & _ & Hl).
  apply tlv_u8; [unfold TAG_INTEGER; zrange|done|unfold ISIZE_MAX; lia].
Qed.

Lemma oct_tlv_u8 b : Forall is_u8 b -> len b <= ISIZE_MAX -> Forall is_u8 (oct_tlv b).
Proof. apply tlv_u8. unfold TAG_OCTET_STRING. zrange. Qed.

Lemma seq_tlv_u8 b : Forall is_u8 b -> len b <= ISIZE_MAX -> Forall is_u8 (seq_tlv b).
Proof. apply tlv_u8. unfold TAG_SEQUENCE. zrange. Qed.

Lemma value_tag_u8 v : is_u8 (value_tag v).
Proof. destruct v as [[]| | | |]; vm_compute; split; congruence. Qed.

Lemma value_content_u8 v : varbind_value_wf v -> Forall is_u8 (value_content v).
Proof.
  destruct v as [[]| | | |]; cbn [varbind_value_wf value_wf value_content];
    unfold encode_unsigned_u32, encode_unsigned_u64; intros Hwf; try done.
  - by apply encode_signed_i32_spec.
  - by apply encode_oid_u8.
  - by destruct Hwf.
  - by apply encode_unsigned_bytes_spec; [apply to_be_bytes_u8|].
  - by apply encode_unsigned_bytes_spec; [apply to_be_bytes_u8|].
  - by apply encode_unsigned_bytes_spec; [apply to_be_bytes_u8|].
  - by apply encode_unsigned_bytes_spec; [apply to_be_bytes_u8|].
Qed.

Lemma varbind_octets_u8 vb : varbind_wf vb -> len (varbind_octets vb) <= ISIZE_MAX -> Forall is_u8 (varbind_octets vb).
Proof.
  intros [Ho Hv] Hl. unfold varbind_octets in *. apply len_tlv_content in Hl. apply tlv_u8; [unfold TAG_SEQUENCE; zrange| |done].
  rewrite len_app in Hl.
  pose proof (len_nonneg (tlv TAG_OID (encode_oid (vb_oid vb)))).
  pose proof (len_nonneg (tlv (value_tag (vb_value vb)) (value_content (vb_value vb)))).
  apply Forall_app. split; (apply tlv_u8; [|by (apply encode_oid_u8 || apply value_content_u8)|]).
  - unfold TAG_OID. zrange.
  - apply (len_tlv_content TAG_OID). lia.
  - apply value_tag_u8.
  - apply (len_tlv_content (value_tag (vb_value vb))). lia.
Qed.

Lemma vbl_octets_u8 vbs : Forall varbind_wf vbs -> len (vbl_octets vbs) <= ISIZE_MAX -> Forall is_u8 (vbl_octets vbs).
Proof.
  intros Hwf Hl. unfold vbl_octets in *. apply len_tlv_content in Hl. apply seq_tlv_u8; [|done].
  revert Hl. induction Hwf as [|vb vbs Hvb _ IH]; intros Hl; [constructor|].
  rewrite fmap_cons in *. cbn [concat] in *. rewrite len_app in Hl.
  pose proof (len_nonneg (varbind_octets vb)). pose proof (len_nonneg (concat (varbind_octets <$> vbs))).
  apply Forall_app. split; [apply varbind_octets_u8; [done|lia]|apply IH; lia].
Qed.

(** Responses, traps and reports share this PDU layout. *)
Definition std_pdu_octets (tag a b c : Z) (vbs : list Varbind) : bytes := pdu_octets tag a b c (vbl_octets vbs).

Lemma std_pdu_octets_parts tag a b c vbs :
  len (std_pdu_octets tag a b c vbs) <= ISIZE_MAX -> len (vbl_octets vbs) <= ISIZE_MAX.
Proof.
  unfold std_pdu_octets, pdu_octets. intros Hl%len_tlv_content. rewrite !len_app in Hl.
  pose proof (len_nonneg (int_tlv a)). pose proof (len_nonneg (int_tlv b)). pose proof (len_nonneg (int_tlv c)). lia.
Qed.

Lemma std_pdu_octets_u8 tag a b c vbs :
  is_u8 tag -> is_i32 a -> is_i32 b -> is_i32 c -> Forall varbind_wf vbs ->
  len (std_pdu_octets tag a b c vbs) <= ISIZE_MAX -> Forall is_u8 (std_pdu_octets tag a b c vbs).
Proof.
  intros Ht Ha Hb Hc Hwf Hl. pose proof (std_pdu_octets_parts _ _ _ _ _ Hl) as Hv.
  unfold std_pdu_octets, pdu_octets in *. apply tlv_u8; [done| |by apply len_tlv_content in Hl].
  rewrite !Forall_app. split_and!; try by apply int_tlv_u8. by apply vbl_octets_u8.
Qed.

(** A PDU with a standard tag decodes to the request-id and varbinds it was built from. *)
Lemma std_pdu_decodes tag a b c vbs :
  In tag STANDARD_TAGS -> is_i32 a -> is_i32 b -> is_i32 c -> Forall varbind_wf vbs ->
  len (std_pdu_octets tag a b c vbs) <= ISIZE_MAX ->
  ber_decode_pdu (std_pdu_octets tag a b c vbs) = Ok (Standard tag a (vbl_octets vbs)) /\
  decode_varbind_list_to_varbinds (vbl_octets vbs) = Ok vbs.
Proof.
  intros Ht Ha Hb Hc Hwf Hl. pose proof (std_pdu_octets_parts _ _ _ _ _ Hl) as Hv.
  split; [|by apply decode_varbinds_roundtrip].
  unfold std_pdu_octets, vbl_octets, seq_tlv in *. rewrite ber_decode_pdu_octets by done.
  repeat (destruct Ht as [<-|Ht]; [done|]). done.
Qed.

Lemma encode_scoped_pdu_u8 e c raw :
  Forall is_u8 e -> Forall is_u8 c -> Forall is_u8 raw -> len e + len c + len raw <= PAYLOAD_MAX ->
  Forall is_u8 (encode_scoped_pdu e c raw).
Proof.
  intros He Hc Hr Hl. rewrite encode_scoped_pdu_octets. unfold PAYLOAD_MAX in Hl.
  pose proof (len_nonneg e). pose proof (len_nonneg c). pose proof (len_nonneg raw).
  assert (HU : USIZE_MAX = 18446744073709551615) by done.
  pose proof (oct_tlv_len e ltac:(lia)). pose proof (oct_tlv_len c ltac:(lia)).
  apply seq_tlv_u8; [|rewrite !len_app; unfold ISIZE_MAX; lia].
  rewrite !Forall_app. split_and!; try done; apply oct_tlv_u8; try done; unfold ISIZE_MAX; lia.
Qed.

(** [ber::snmp::decode_scoped_pdu] inverts [encode_scoped_pdu]. *)
Lemma decode_scoped_pdu_octets e c raw :
  len e + len c + len raw <= PAYLOAD_MAX ->
  ber_decode_scoped_pdu (encode_scoped_pdu e c raw) = Ok (MkDecodedScopedPduFields e c raw).
Proof.
  intros Hl. pose proof (scoped_pdu_len e c raw Hl) as HL. unfold PAYLOAD_MAX in HL.
  rewrite encode_scoped_pdu_octets in *. unfold ber_decode_scoped_pdu.
  assert (Hr : reader_ok (reader_new (seq_tlv (oct_tlv e ++ oct_tlv c ++ raw))))
    by (apply reader_new_ok; unfold ISIZE_MAX; lia).
  assert (E : rest (reader_new (seq_tlv (oct_tlv e ++ oct_tlv c ++ raw))) = tlv TAG_SEQUENCE (oct_tlv e ++ oct_tlv c ++ raw) ++ [])
    by (by rewrite app_nil_r).
  destruct (read_constructed_enter _ _ _ _ Hr E) as (sub & r' & Er & Hs & Es & _).
  unfold read_sequence. rewrite Er.
  read_next (read_octet_string_reads e) Hs Es. read_next (read_octet_string_reads c) Hs Es.
  by rewrite remaining_rest, Es.
Qed.

Lemma ber_encode_std tag a b c vbs :
  In tag STANDARD_TAGS -> ber_encode_pdu tag a b c (vbl_octets vbs) = Ok (std_pdu_octets tag a b c vbs).
Proof.
  intros Ht. rewrite ber_encode_pdu_octets.
  replace (existsb (Z.eqb tag) VALID_STANDARD_PDU_TAGS) with true; [done|].
  symmetry. apply existsb_exists. exists tag. split; [done|apply Z.eqb_refl].
Qed.

Lemma error_status_code_i32 s : is_i32 (error_status_code s).
Proof. destruct s; cbn; zrange. Qed.

(** The credentials a message is protected with are usable. *)
Definition credentials_ok (auth : option (AuthProtocol * SecretKey)) (privacy : option (PrivProtocol * SecretKey)) : Prop :=
  match auth with Some (p, k) => key_size k = auth_key_len p | None => privacy = None end /\
  match privacy with Some (p, k) => key_size k = priv_key_len p | None => True end.

(** Shared argument of the three message encoders. *)
Lemma std_pdu_opens `{CryptoOps, !CryptoLaws} seed st mid engine_id user cname boots time auth privacy tag a b c vbs :
  is_u64 seed -> salt_state_ok st -> 0 <= mid <= I32_MAX -> 0 <= boots <= I32_MAX -> 0 <= time <= I32_MAX ->
  len user <= 32 -> Forall is_u8 engine_id -> Forall is_u8 cname ->
  In tag STANDARD_TAGS -> is_i32 a -> is_i32 b -> is_i32 c -> Forall varbind_wf vbs ->
  len engine_id + len cname + len (std_pdu_octets tag a b c vbs) <= PAYLOAD_MAX ->
  credentials_ok auth privacy ->
  (exists msg st' env,
    encode_v3_envelope seed st mid engine_id user cname boots time auth privacy (std_pdu_octets tag a b c vbs) = (Ok msg, st') /\
    salt_state_ok st' /\
    opened mid engine_id user cname boots time auth privacy (std_pdu_octets tag a b c vbs) msg env) /\
  ber_decode_scoped_pdu (encode_scoped_pdu engine_id cname (std_pdu_octets tag a b c vbs))
    = Ok (MkDecodedScopedPduFields engine_id cname (std_pdu_octets tag a b c vbs)) /\
  ber_decode_pdu (std_pdu_octets tag a b c vbs) = Ok (Standard tag a (vbl_octets vbs)) /\
  decode_varbind_list_to_varbinds (vbl_octets vbs) = Ok vbs.
Proof.
  intros Hseed Hst Hid Hboots Htime Huser He Hcn Ht Ha Hb Hc Hwf Hsize [Hau Hpr].
  pose proof (len_nonneg engine_id). pose proof (len_nonneg cname).
  assert (Hl : len (std_pdu_octets tag a b c vbs) <= ISIZE_MAX) by (unfold PAYLOAD_MAX, ISIZE_MAX in *; lia).
  assert (Htag : is_u8 tag) by (repeat (destruct Ht as [<-|Ht]; [vm_compute; split; congruence|]); done).
  split; [|split; [by apply decode_scoped_pdu_octets|by apply std_pdu_decodes]].
  apply encode_v3_envelope_opens; try done.
  apply encode_scoped_pdu_u8; try done. by apply std_pdu_octets_u8.
Qed.

(** The receiver's view of a response. *)
Lemma encode_v3_response_opens `{CryptoOps, !CryptoLaws} (seed : Z) (st : SaltState) (mid : MessageId)
    (engine_id user cname : bytes) (boots time : Z) (auth : option (AuthProtocol * SecretKey))
    (privacy : option (PrivProtocol * SecretKey)) (pdu : GetResponse) :
  is_u64 seed -> salt_state_ok st -> 0 <= mid <= I32_MAX -> 0 <= boots <= I32_MAX -> 0 <= time <= I32_MAX ->
  len user <= 32 -> Forall is_u8 engine_id -> Forall is_u8 cname ->
  is_i32 (resp_request_id pdu) -> 0 <= error_index pdu <= I32_MAX -> Forall varbind_wf (resp_varbinds pdu) ->
  let raw := std_pdu_octets TAG_RESPONSE (resp_request_id pdu) (error_status_code (error_status pdu))
               (error_index pdu) (resp_varbinds pdu) in
  len engine_id + len cname + len raw <= PAYLOAD_MAX -> credentials_ok auth privacy ->
  (exists msg st' env,
    encode_v3_response seed st mid engine_id user cname boots time auth privacy pdu = (Ok msg, st') /\
    salt_state_ok st' /\ opened mid engine_id user cname boots time auth privacy raw msg env) /\
  ber_decode_scoped_pdu (encode_scoped_pdu engine_id cname raw) = Ok (MkDecodedScopedPduFields engine_id cname raw) /\
  ber_decode_pdu raw = Ok (Standard TAG_RESPONSE (resp_request_id pdu) (vbl_octets (resp_varbinds pdu))) /\
  decode_varbind_list_to_varbinds (vbl_octets (resp_varbinds pdu)) = Ok (resp_varbinds pdu).
Proof.
  intros Hseed Hst Hid Hb Ht Hu He Hc Hr Hi Hwf raw Hs Hcred. unfold I32_MAX in Hi.
  unfold encode_v3_response. rewrite encode_varbinds_octets, i32_try_from_Some by zrange. cbn [ok_or].
  assert (In TAG_RESPONSE STANDARD_TAGS) by (cbn; tauto).
  rewrite ber_encode_std by done. cbn [map_err].
  apply std_pdu_opens; try done; [apply error_status_code_i32|zrange].
Qed.

(** ** Properties *)

(** Claim C10: a response survives the wire.  For every response whose varbinds are
    well formed and whose credentials have the right key sizes, [encode_v3_response]
    succeeds, and the receiver's decoding of the message yields the identifiers and
    engine fields it was built from, a MAC that verifies against the message with
    its authentication parameters zeroed, and (after decryption with the IV rebuilt
    from the decoded fields) the request-id and varbinds of the response. *)
Theorem v3_response_roundtrip `{CryptoOps, !CryptoLaws} (seed : Z) (st : SaltState) (mid : MessageId)
    (engine_id user cname : bytes) (boots time : Z) (auth : option (AuthProtocol * SecretKey))
    (privacy : option (PrivProtocol * SecretKey)) (pdu : GetResponse) :
  is_u64 seed -> salt_state_ok st -> 0 <= mid <= I32_MAX -> 0 <= boots <= I32_MAX -> 0 <= time <= I32_MAX ->
  len user <= 32 -> Forall is_u8 engine_id -> Forall is_u8 cname ->
  is_i32 (resp_request_id pdu) -> 0 <= error_index pdu <= I32_MAX -> Forall varbind_wf (resp_varbinds pdu) ->
  let raw := std_pdu_octets TAG_RESPONSE (resp_request_id pdu) (error_status_code (error_status pdu))
               (error_index pdu) (resp_varbinds pdu) in
  len engine_id + len cname + len raw <= PAYLOAD_MAX -> credentials_ok auth privacy ->
  (exists msg st' env,
    encode_v3_response seed st mid engine_id user cname boots time auth privacy pdu = (Ok msg, st') /\
    salt_state_ok st' /\ opened mid engine_id user cname boots time auth privacy raw msg env) /\
  ber_decode_scoped_pdu (encode_scoped_pdu engine_id cname raw) = Ok (MkDecodedScopedPduFields engine_id cname raw) /\
  ber_decode_pdu raw = Ok (Standard TAG_RESPONSE (resp_request_id pdu) (vbl_octets (resp_varbinds pdu))) /\
  decode_varbind_list_to_varbinds (vbl_octets (resp_varbinds pdu)) = Ok (resp_varbinds pdu).
Proof. apply encode_v3_response_opens. Qed.

Lemma v3_response_roundtrip_witness :
  let pdu := MkGetResponse 7 NoError 0 [MkVarbind (MkOid [1; 3; 6]) (VValue (OctetString [104; 105]))] in
  exists msg st', @encode_v3_response ToyCrypto.ops 5 None 1 [1; 2; 3; 4; 5] [97] [] 1 2
    (Some (HmacSha256, zeroed 32)) (Some (Aes128, zeroed 16)) pdu = (Ok msg, st').
Proof.
  destruct (@v3_response_roundtrip ToyCrypto.ops ToyCrypto.laws 5 None 1 [1; 2; 3; 4; 5] [97] [] 1 2
    (Some (HmacSha256, zeroed 32)) (Some (Aes128, zeroed 16))
    (MkGetResponse 7 NoError 0 [MkVarbind (MkOid [1; 3; 6]) (VValue (OctetString [104; 105]))]))
    as [(msg & st' & env & E & _) _].
  - zrange.
  - exact I.
  - zrange.
  - zrange.
  - zrange.
  - vm_compute; discriminate.
  - repeat constructor; vm_compute; congruence.
  - constructor.
  - vm_compute; split; congruence.
  - vm_compute; split; congruence.
  - repeat constructor; vm_compute; congruence.
  - vm_compute; discriminate.
  - split; reflexivity.
  - exists msg, st'. exact E.
Defined.

(** An encrypted message never reuses a salt: the salts of up to 2^64
    consecutive encryptions of a process, from any seed, are eight octets each and
    pairwise distinct. *)
Theorem salts_unique (n : nat) (seed : Z) (st : SaltState) (j k : nat) (a b : bytes) :
  is_u64 seed -> salt_state_ok st -> Z.of_nat n <= 18446744073709551616 ->
  salts n seed st !! j = Some a -> salts n seed st !! k = Some b ->
  len a = 8 /\ (a = b -> j = k).
Proof.
  intros Hs Hst Hn Ha Hb.
  pose proof (lookup_lt_Some _ _ _ Ha) as Hj. pose proof (lookup_lt_Some _ _ _ Hb) as Hk.
  rewrite length_salts in Hj, Hk.
  destruct (salts_lookup n seed st j Hs Hst Hj) as (a' & Ea & Hl & Hva).
  destruct (salts_lookup n seed st k Hs Hst Hk) as (b' & Eb & _ & Hvb).
  simplify_eq. split; [done|]. intros ->. rewrite Hva in Hvb.
  pose proof (salt_counter_u64 seed st Hs Hst). unfold is_u64 in *.
  clear -Hvb Hn Hj Hk. revert Hvb. generalize (salt_counter seed st). intros c Hvb.
  Z.div_mod_to_equations. nia.
Qed.

Lemma salts_unique_witness :
  salts 2 18446744073709551615 None = [[255; 255; 255; 255; 255; 255; 255; 255]; [0; 0; 0; 0; 0; 0; 0; 0]] /\
  len [0; 0; 0; 0; 0; 0; 0; 0] = 8.
Proof.
  split; [vm_compute; reflexivity|].
  apply (salts_unique 2 18446744073709551615 None 1 0 _ [255; 255; 255; 255; 255; 255; 255; 255]);
    [zrange|exact I|lia|vm_compute; reflexivity|vm_compute; reflexivity].
Defined.

(** Claim C25: whatever octets arrive, an accepted message is well formed: its
    identifier and sizes are in range, its varbinds are well formed, and when
    authentication parameters are present the recorded offset is exactly where they
    lie in the received octets (so zeroing that range before the HMAC cannot touch
    anything else); no offset is recorded when they are absent. *)
Theorem decode_v3_message_sound (b : bytes) (m : V3InboundMessage) :
  Forall is_u8 b -> len b <= ISIZE_MAX -> decode_v3_message b = Ok m -> message_wf b m.
Proof. apply decode_v3_message_wf. Qed.

(** An unauthenticated GET of 1.3.6 as a manager would send it. *)
Definition sample_get : bytes :=
  v3_octets 1 65507 4 3 [1; 2; 3; 4; 5] 0 0 [97] [9; 9] []
    (seq_tlv (oct_tlv [1; 2; 3; 4; 5] ++ oct_tlv [] ++
       std_pdu_octets TAG_GET_REQUEST 9 0 0 [MkVarbind (MkOid [1; 3; 6]) Unspecified])).

Lemma decode_v3_message_sound_witness :
  exists m, decode_v3_message sample_get = Ok m /\ message_wf sample_get m /\ auth_params_offset m = Some 43.
Proof.
  eexists. split; [vm_compute; reflexivity|]. split; [|vm_compute; reflexivity].
  apply decode_v3_message_sound.
  - refine (bool_decide_unpack _ _). vm_compute. exact I.
  - vm_compute. discriminate.
  - vm_compute. reflexivity.
Defined.
