(* ===== verification/Mib.v ===== *)
(** * The MIB store: [src/src/mib.rs]

    [Store] wraps a [BTreeMap<Oid, Value>]: here the map's entries in key order.
    [store_set], [store_get] and [store_next] are the three operations.  The class
    [MibView] is what the request handlers rely on; the store is its instance. *)

From S2P Require Import Prelude Oid Ber Usm Types.

Record Store := MkStore { entries : list (Oid * Value) }.

(** [Store::new] and [Default]. *)
Definition store_new : Store := {| entries := [] |}.

(** [BTreeMap::insert]: replaces the value of an equal key. *)
Fixpoint btree_insert (m : list (Oid * Value)) (oid : Oid) (value : Value) : list (Oid * Value) :=
  match m with
  | [] => [(oid, value)]
  | (k, v) :: m' =>
      match compare oid k with
      | Lt => (oid, value) :: m
      | Eq => (k, value) :: m'
      | Gt => (k, v) :: btree_insert m' oid value
      end
  end.

(** [BTreeMap::get] *)
Fixpoint btree_get (m : list (Oid * Value)) (oid : Oid) : option Value :=
  match m with
  | [] => None
  | (k, v) :: m' =>
      match compare oid k with
      | Lt => None
      | Eq => Some v
      | Gt => btree_get m' oid
      end
  end.

(** [range((Excluded(oid), Unbounded)).next()] *)
Fixpoint btree_next (m : list (Oid * Value)) (oid : Oid) : option (Oid * Value) :=
  match m with
  | [] => None
  | (k, v) :: m' => match compare oid k with Lt => Some (k, v) | _ => btree_next m' oid end
  end.

Definition store_set (s : Store) (oid : Oid) (value : Value) : Store :=
  {| entries := btree_insert (entries s) oid value |}.
Definition store_get (s : Store) (oid : Oid) : option Value := btree_get (entries s) oid.
Definition store_next (s : Store) (oid : Oid) : option (Oid * Value) := btree_next (entries s) oid.

(** ** The invariant of the map *)

Inductive sorted_from : Oid -> list (Oid * Value) -> Prop :=
| sorted_from_nil lo : sorted_from lo []
| sorted_from_cons lo k v m : oid_lt lo k -> sorted_from k m -> sorted_from lo ((k, v) :: m).

Definition sorted (m : list (Oid * Value)) : Prop :=
  match m with [] => True | (k, _) :: m' => sorted_from k m' end.

Definition store_ok (s : Store) : Prop := sorted (entries s).

Lemma sorted_from_sorted lo m : sorted_from lo m -> sorted m.
Proof. by destruct 1. Qed.

Lemma sorted_from_lt lo m k v : sorted_from lo m -> In (k, v) m -> oid_lt lo k.
Proof.
  intros H. revert k v. induction H as [|lo k0 v0 m Hk Hm IH]; intros k v Hin; [done|].
  destruct Hin as [E|Hin]; [by simplify_eq|]. transitivity k0; [done|by eapply IH].
Qed.

Lemma sorted_tail k v m : sorted ((k, v) :: m) -> sorted m /\ sorted_from k m.
Proof. intros H. split; [by eapply sorted_from_sorted|done]. Qed.

Lemma compare_refl o : compare o o = Eq.
Proof. by apply compare_eq. Qed.

Lemma btree_insert_sorted_from lo m oid v :
  oid_lt lo oid -> sorted_from lo m -> sorted_from lo (btree_insert m oid v).
Proof.
  intros Hlt H. revert oid Hlt. induction H as [lo|lo k v0 m Hk Hm IH]; intros oid Hlt; cbn.
  { by repeat constructor. }
  destruct (oid_compare_spec oid k) as [->|Hc|Hc].
  - by constructor.
  - constructor; [done|]. by constructor.
  - constructor; [done|]. by apply IH.
Qed.

Lemma btree_insert_sorted m oid v : sorted m -> sorted (btree_insert m oid v).
Proof.
  destruct m as [|[k v0] m]; cbn; [by constructor|]. intros H.
  destruct (oid_compare_spec oid k) as [->|Hc|Hc]; cbn.
  - done.
  - by constructor.
  - by apply btree_insert_sorted_from.
Qed.

Lemma btree_get_In m oid v : sorted m -> btree_get m oid = Some v <-> In (oid, v) m.
Proof.
  induction m as [|[k w] m IH]; intros Hs; [done|]. destruct (sorted_tail _ _ _ Hs) as [Ht Hf]. cbn.
  destruct (oid_compare_spec oid k) as [->|Hc|Hc].
  - split; [intros [= ->]; auto|]. intros [E|Hin]; [by simplify_eq|].
    exfalso. by apply (irreflexivity oid_lt k), (sorted_from_lt _ _ _ _ Hf Hin).
  - split; [done|]. intros [E|Hin]; [simplify_eq; by apply (irreflexivity oid_lt) in Hc|].
    exfalso. apply (irreflexivity oid_lt k). transitivity oid; [|done]. by eapply sorted_from_lt.
  - rewrite IH by done. split; [auto|]. intros [E|Hin]; [|done]. simplify_eq.
    by apply (irreflexivity oid_lt) in Hc.
Qed.

Lemma btree_get_insert m oid v oid' :
  sorted m -> btree_get (btree_insert m oid v) oid' = if decide (oid' = oid) then Some v else btree_get m oid'.
Proof.
  induction m as [|[k w] m IH]; intros Hs; cbn.
  { case_decide as E; [by rewrite E, compare_refl|].
    destruct (oid_compare_spec oid' oid); done. }
  destruct (sorted_tail _ _ _ Hs) as [Ht Hf].
  destruct (oid_compare_spec oid k) as [->|Hc|Hc]; cbn.
  - case_decide as E; [by rewrite E, compare_refl|]. destruct (oid_compare_spec oid' k); done.
  - case_decide as E; [by rewrite E, compare_refl|].
    destruct (oid_compare_spec oid' oid) as [->|Hl|Hl]; [done| |done].
    destruct (oid_compare_spec oid' k) as [->|Hl'|Hl']; [|done|].
    + exfalso. apply (irreflexivity oid_lt oid). by transitivity k.
    + exfalso. apply (irreflexivity oid_lt oid). transitivity k; [done|]. by transitivity oid'.
  - rewrite IH by done. case_decide as E; [|done]. subst oid'.
    destruct (oid_compare_spec oid k) as [->|Hl|Hl]; [|exfalso|done].
    + exfalso. by apply (irreflexivity oid_lt) in Hc.
    + apply (irreflexivity oid_lt oid). by transitivity k.
Qed.

(** [oid_le a b] *)
Definition oid_le (a b : Oid) : Prop := a = b \/ oid_lt a b.

Lemma btree_next_spec m oid :
  sorted m ->
  match btree_next m oid with
  | Some (k, v) => In (k, v) m /\ oid_lt oid k /\ forall k' v', In (k', v') m -> oid_lt oid k' -> oid_le k k'
  | None => forall k' v', In (k', v') m -> ~ oid_lt oid k'
  end.
Proof.
  induction m as [|[k w] m IH]; intros Hs; cbn; [auto|]. destruct (sorted_tail _ _ _ Hs) as [Ht Hf].
  specialize (IH Ht).
  assert (Hskip : ~ oid_lt oid k -> match btree_next m oid with
    | Some (k1, v) => ((k, w) = (k1, v) \/ In (k1, v) m) /\ oid_lt oid k1 /\
        forall k' v', (k, w) = (k', v') \/ In (k', v') m -> oid_lt oid k' -> oid_le k1 k'
    | None => forall k' v', (k, w) = (k', v') \/ In (k', v') m -> ~ oid_lt oid k' end).
  { intros Hn. destruct (btree_next m oid) as [[k1 v1]|].
    - destruct IH as (Hin & Hlt & Hmin). split_and!; [auto|done|].
      intros k' v' [E|Hk'] Hl'; [by simplify_eq|by eapply Hmin].
    - intros k' v' [E|Hk']; [by simplify_eq|by eapply IH]. }
  destruct (oid_compare_spec oid k) as [->|Hc|Hc].
  - apply Hskip. apply (irreflexivity oid_lt).
  - split_and!; [auto|done|]. intros k' v' [E|Hk'] _; [left; by simplify_eq|].
    right. by eapply sorted_from_lt.
  - apply Hskip. intros Hl. apply (irreflexivity oid_lt oid). by transitivity k.
Qed.

(** ** The interface the handlers use *)

Class MibView (S : Type) := {
  view_get : S -> Oid -> option Value;
  view_next : S -> Oid -> option (Oid * Value);
  view_ok : S -> Prop;
  (** [next] is the least entry above the given OID. *)
  view_next_Some s oid k v : view_ok s -> view_next s oid = Some (k, v) ->
    view_get s k = Some v /\ oid_lt oid k /\
    forall k' v', view_get s k' = Some v' -> oid_lt oid k' -> oid_le k k';
  view_next_None s oid : view_ok s -> view_next s oid = None ->
    forall k v, view_get s k = Some v -> ~ oid_lt oid k;
}.

Lemma store_next_Some s oid k v :
  store_ok s -> store_next s oid = Some (k, v) ->
  store_get s k = Some v /\ oid_lt oid k /\
  forall k' v', store_get s k' = Some v' -> oid_lt oid k' -> oid_le k k'.
Proof.
  intros Hs E. unfold store_next, store_get, store_ok in *.
  pose proof (btree_next_spec _ oid Hs) as H. rewrite E in H. destruct H as (Hin & Hlt & Hmin).
  split_and!; [by apply btree_get_In|done|]. intros k' v' Hk'. apply btree_get_In in Hk'; [|done]. by eapply Hmin.
Qed.

Lemma store_next_None s oid :
  store_ok s -> store_next s oid = None -> forall k v, store_get s k = Some v -> ~ oid_lt oid k.
Proof.
  intros Hs E k v Hk. unfold store_next, store_get, store_ok in *.
  pose proof (btree_next_spec _ oid Hs) as H. rewrite E in H. apply btree_get_In in Hk; [|done]. by eapply H.
Qed.

#[export] Instance store_view : MibView Store := {|
  view_get := store_get;
  view_next := store_next;
  view_ok := store_ok;
  view_next_Some := store_next_Some;
  view_next_None := store_next_None;
|}.

(** All values (and their OIDs) come from Rust values of those types. *)
Definition store_wf (s : Store) : Prop :=
  store_ok s /\ Forall (fun '(k, v) => oid_wf k /\ value_wf v) (entries s).

Lemma btree_insert_In m oid v k w :
  In (k, w) (btree_insert m oid v) -> (k, w) = (oid, v) \/ In (k, w) m \/ (k = oid /\ w = v).
Proof.
  induction m as [|[k0 v0] m IH]; cbn; [intros [E|[]]; auto|].
  destruct (oid_compare_spec oid k0) as [->|Hc|Hc]; cbn.
  - intros [E|Hin]; [simplify_eq; auto|auto].
  - intros [E|Hin]; [auto|auto].
  - intros [E|Hin]; [auto|]. destruct (IH Hin) as [?|[?|?]]; auto.
Qed.

Lemma store_set_wf s oid v : store_wf s -> oid_wf oid -> value_wf v -> store_wf (store_set s oid v).
Proof.
  intros [Hok Hwf] Ho Hv. split; [by apply btree_insert_sorted|].
  rewrite Forall_forall in Hwf |- *. intros [k w] Hin%list_elem_of_In. apply btree_insert_In in Hin.
  destruct Hin as [E|[Hin|[-> ->]]]; [by simplify_eq| |done]. by apply (Hwf (k, w)), list_elem_of_In.
Qed.

Lemma store_new_wf : store_wf store_new.
Proof. split; constructor. Qed.

(** ** Properties *)

(** The store is a finite map: every operation keeps the key order, a
    [get] after a [set] sees exactly that update, and a new store is empty. *)
Theorem store_map_laws (s : Store) (oid oid' : Oid) (v : Value) :
  store_ok s ->
  store_ok store_new /\ store_get store_new oid = None /\ store_ok (store_set s oid v) /\
  store_get (store_set s oid v) oid' = if decide (oid' = oid) then Some v else store_get s oid'.
Proof.
  intros Hs. split_and!; [done|done|by apply btree_insert_sorted|by apply btree_get_insert].
Qed.

Lemma store_map_laws_witness :
  let s := store_set store_new (MkOid [1; 3]) (Integer32 1) in
  store_get (store_set s (MkOid [1; 3]) (Integer32 2)) (MkOid [1; 3]) = Some (Integer32 2).
Proof.
  apply (store_map_laws (store_set store_new (MkOid [1; 3]) (Integer32 1)) (MkOid [1; 3]) (MkOid [1; 3]) (Integer32 2)).
  vm_compute. constructor.
Defined.

(** Claim C31: [next] returns the entry with the least OID strictly above the
    argument in lexicographic order, and nothing exactly when no entry is above. *)
Theorem store_next_least (s : Store) (oid : Oid) :
  store_ok s ->
  match store_next s oid with
  | Some (k, v) =>
      store_get s k = Some v /\ oid_lt oid k /\
      forall k' v', store_get s k' = Some v' -> oid_lt oid k' -> oid_le k k'
  | None => forall k v, store_get s k = Some v -> ~ oid_lt oid k
  end.
Proof.
  intros Hs. destruct (store_next s oid) as [[k v]|] eqn:E.
  - by apply (store_next_Some s oid k v).
  - by apply (store_next_None s oid).
Qed.

Lemma store_next_least_witness :
  let s := store_set store_new (MkOid [1; 3; 6]) (Integer32 1) in
  store_next s (MkOid [1; 3]) = Some (MkOid [1; 3; 6], Integer32 1) /\
  store_get s (MkOid [1; 3; 6]) = Some (Integer32 1).
Proof.
  split; [reflexivity|].
  exact (proj1 (store_next_least (store_set store_new (MkOid [1; 3; 6]) (Integer32 1)) (MkOid [1; 3])
    ltac:(vm_compute; constructor))).
Defined.

(** A manager's GETNEXT walk of at most [n] steps from [oid]. *)
Fixpoint walk (n : nat) (s : Store) (oid : Oid) : list (Oid * Value) :=
  match n with
  | O => []
  | S n' => match store_next s oid with Some (k, v) => (k, v) :: walk n' s k | None => [] end
  end.

Definition above (oid : Oid) (e : Oid * Value) : bool := match compare oid (fst e) with Lt => true | _ => false end.

Lemma above_true oid e : above oid e = true <-> oid_lt oid (fst e).
Proof. unfold above, oid_lt. destruct (compare oid (fst e)); naive_solver. Qed.

Lemma filter_above_all lo m : sorted_from lo m -> List.filter (above lo) m = m.
Proof.
  intros H. induction H as [|lo k v m Hk Hm IH]; [done|]. cbn [List.filter].
  replace (above lo (k, v)) with true by (symmetry; by apply above_true). f_equal.
  rewrite <-IH at 2. apply filter_ext_in. intros [k' v'] Hin.
  assert (oid_lt k k') by (by eapply sorted_from_lt). apply eq_true_iff_eq. rewrite !above_true. cbn.
  split; [done|]. intros _. by transitivity k.
Qed.

Lemma sorted_split oid m :
  sorted m -> exists pre suf, m = pre ++ suf /\ Forall (fun e => above oid e = false) pre /\
    sorted_from oid suf /\ List.filter (above oid) m = suf.
Proof.
  induction m as [|[k v] m IH]; intros Hs; [exists [], []; by repeat constructor|].
  destruct (sorted_tail _ _ _ Hs) as [Ht Hf]. cbn [List.filter]. destruct (above oid (k, v)) eqn:E.
  - exists [], ((k, v) :: m). apply above_true in E. cbn in E.
    assert (Hall : sorted_from oid ((k, v) :: m)) by (by constructor). split_and!; [done|constructor|done|].
    f_equal. rewrite <-(filter_above_all k m Hf) at 2. apply filter_ext_in. intros [k' v'] Hin.
    pose proof (sorted_from_lt _ _ _ _ Hf Hin). apply eq_true_iff_eq. rewrite !above_true. cbn.
    split; [done|]. intros _. by transitivity k.
  - destruct (IH Ht) as (pre & suf & -> & Hpre & Hsuf & Hfil).
    exists ((k, v) :: pre), suf. split_and!; [done|by constructor|done|done].
Qed.

Lemma btree_next_skip pre m oid : Forall (fun e => above oid e = false) pre -> btree_next (pre ++ m) oid = btree_next m oid.
Proof.
  induction 1 as [|[k v] pre He _ IH]; [done|]. cbn. unfold above in He. cbn in He.
  by destruct (compare oid k).
Qed.

(** One step of a walk: the entries up to [oid] are behind, the rest ahead. *)
Lemma store_next_suffix pre suf oid :
  Forall (fun e => above oid e = false) pre -> sorted_from oid suf ->
  match suf with
  | [] => store_next (MkStore (pre ++ suf)) oid = None
  | (k, v) :: suf' => store_next (MkStore (pre ++ suf)) oid = Some (k, v) /\
      Forall (fun e => above k e = false) (pre ++ [(k, v)]) /\ sorted_from k suf'
  end.
Proof.
  intros Hpre Hs. unfold store_next. cbn [entries]. rewrite btree_next_skip by done.
  destruct Hs as [|lo k v m Hlt Hm]; [done|]. cbn [btree_next]. unfold oid_lt in Hlt. rewrite Hlt. split_and!; [done| |done].
  apply Forall_app. split; [|constructor; [unfold above; cbn; by rewrite compare_refl|constructor]].
  eapply Forall_impl; [exact Hpre|]. intros e He. cbn in *. apply not_true_is_false. intros Ha%above_true.
  apply not_true_iff_false in He. apply He, above_true. by transitivity k.
Qed.

Lemma walk_suffix suf n pre oid :
  Forall (fun e => above oid e = false) pre -> sorted_from oid suf -> (length suf <= n)%nat ->
  walk n (MkStore (pre ++ suf)) oid = suf.
Proof.
  revert n pre oid. induction suf as [|[k v] suf IH]; intros n pre oid Hpre Hs Hn; pose proof (store_next_suffix _ _ _ Hpre Hs) as Hx.
  - destruct n; [done|]. cbn [walk]. by rewrite Hx.
  - destruct Hx as (Hx & Hpre' & Hs'). destruct n as [|n]; [cbn in Hn; lia|]. cbn [walk]. rewrite Hx. f_equal.
    rewrite cons_middle, app_assoc. apply IH; [done|done|cbn in Hn; lia].
Qed.

(** A GETNEXT walk is complete and terminates: from any OID it visits
    exactly the entries above that OID, each once, in ascending order, and ends
    after at most as many steps as the store has entries. *)
Theorem walk_complete (s : Store) (oid : Oid) (n : nat) :
  store_ok s -> (length (entries s) <= n)%nat ->
  walk n s oid = List.filter (above oid) (entries s) /\ sorted_from oid (walk n s oid).
Proof.
  intros Hs Hn. destruct (sorted_split oid _ Hs) as (pre & suf & E & Hpre & Hsuf & ->).
  destruct s as [m]. cbn in *. subst m.
  rewrite walk_suffix; [done|done|done|]. rewrite length_app in Hn. lia.
Qed.

Lemma walk_complete_witness :
  let s := store_set (store_set store_new (MkOid [1; 3; 6]) (Integer32 1)) (MkOid [1; 3; 7]) (Integer32 2) in
  walk 2 s (MkOid [1; 3]) = List.filter (above (MkOid [1; 3])) (entries s).
Proof.
  refine (proj1 (walk_complete (store_set (store_set store_new (MkOid [1; 3; 6]) (Integer32 1)) (MkOid [1; 3; 7]) (Integer32 2))
    (MkOid [1; 3]) 2 _ _)); [repeat constructor|vm_compute; lia].
Defined.
