(* ===== verification/Request.v ===== *)
(** * Request handlers: [src/src/transport/request.rs]

    GET, GETNEXT, GETBULK and SET handlers, the wire-size estimate that bounds
    GETBULK responses, and the construction of trap PDUs.  The handlers are defined
    over any [MibView]; the store of [mib.rs] is the instance used by dispatch. *)

From S2P Require Import Prelude Oid Ber BerFacts Usm Types Varbind BerPdu Snmp Codec Mib.

Definition SYS_UP_TIME_OID : Oid := MkOid [1; 3; 6; 1; 2; 1; 1; 3; 0].
Definition SNMP_TRAP_OID_OID : Oid := MkOid [1; 3; 6; 1; 6; 3; 1; 1; 4; 1; 0].

Record TrapPdu := MkTrapPdu {
  tp_request_id : RequestId; trap_oid : Oid; tp_varbinds : list Varbind }.

(** ** Wire-size estimate *)

Definition V3_ENVELOPE_OVERHEAD : Z := 512.

(** [usize::BITS - leading_zeros], rounded up to octets by [div_ceil(8)]. *)
Definition length_of_length (content_length : Z) : Z :=
  if content_length <? 128 then 1
  else
    let significant_bytes := (64 - leading_zeros64 content_length + 7) / 8 in
    1 + (if significant_bytes <=? 255 then significant_bytes else 255).

Definition estimated_varbind_wire_size (varbind : Varbind) : Z :=
  let oid_content_upper_bound := len (as_slice (vb_oid varbind)) * 5 in
  let oid_tlv_size := 1 + length_of_length oid_content_upper_bound + oid_content_upper_bound in
  let value_content_upper_bound :=
    match vb_value varbind with
    | VValue (Integer32 _) | VValue (IpAddress _) => 4
    | VValue (Counter32 _) | VValue (Gauge32 _) | VValue (TimeTicks _) => 5
    | VValue (Counter64 _) => 9
    | VValue (OctetString octets) | VValue (Opaque octets) => len octets
    | VValue (ObjectIdentifier oid) => len (as_slice oid) * 5
    | NoSuchObject | NoSuchInstance | EndOfMibView | Unspecified => 0
    end in
  let value_tlv_size := 1 + length_of_length value_content_upper_bound + value_content_upper_bound in
  let inner_size := oid_tlv_size + value_tlv_size in
  1 + length_of_length inner_size + inner_size.

Record RepeatingRow := MkRepeatingRow {
  row_varbinds : list Varbind; row_estimated_size : Z; all_end_of_mib : bool }.

Section Handlers.
  Context {S : Type} `{MibView S}.

Definition handle_get (req : GetRequest) (store : S) : GetResponse :=
  let varbinds :=
    (fun vb =>
       let value := match view_get store (vb_oid vb) with Some v => VValue v | None => NoSuchObject end in
       {| vb_oid := vb_oid vb; vb_value := value |}) <$> get_varbinds req in
  {| resp_request_id := get_request_id req; error_status := NoError; error_index := 0;
     resp_varbinds := varbinds |}.

Definition resolve_get_next_varbind (store : S) (oid : Oid) : Varbind :=
  match view_next store oid with
  | Some (next_oid, next_value) => {| vb_oid := next_oid; vb_value := VValue next_value |}
  | None => {| vb_oid := oid; vb_value := EndOfMibView |}
  end.

Definition handle_get_next (req : GetNextRequest) (store : S) : GetResponse :=
  let varbinds := (fun vb => resolve_get_next_varbind store (vb_oid vb)) <$> next_varbinds req in
  {| resp_request_id := next_request_id req; error_status := NoError; error_index := 0;
     resp_varbinds := varbinds |}.

(** The [for current_oid in current_oids] loop; returns the row built so far and
    the updated column OIDs. *)
Definition build_repeating_row (store : S) (current_oids : list Oid) : RepeatingRow * list Oid :=
  fold_left
    (fun '(row, oids) current_oid =>
       let resolved := resolve_get_next_varbind store current_oid in
       let '(all_end, new_oid) :=
         match vb_value resolved with
         | VValue _ => (false, vb_oid resolved)
         | _ => (all_end_of_mib row, current_oid)
         end in
       ({| row_varbinds := row_varbinds row ++ [resolved];
           row_estimated_size := row_estimated_size row + estimated_varbind_wire_size resolved;
           all_end_of_mib := all_end |}, oids ++ [new_oid]))
    current_oids
    ({| row_varbinds := []; row_estimated_size := 0; all_end_of_mib := true |}, []).

(** The [for _ in 0..max_repetitions] loop. *)
Fixpoint bulk_rows (n : nat) (store : S) (current_oids : list Oid) (estimated_response_size varbind_budget : Z)
    (response_varbinds : list Varbind) : list Varbind :=
  match n with
  | O => response_varbinds
  | Datatypes.S n' =>
      let '(row, current_oids) := build_repeating_row store current_oids in
      if varbind_budget <? estimated_response_size + row_estimated_size row then response_varbinds
      else
        let estimated_response_size := estimated_response_size + row_estimated_size row in
        let response_varbinds := response_varbinds ++ row_varbinds row in
        if all_end_of_mib row then response_varbinds
        else bulk_rows n' store current_oids estimated_response_size varbind_budget response_varbinds
  end.

Definition handle_get_bulk (req : GetBulkRequest) (store : S) (max_repetitions_cap max_response_size : Z)
    : GetResponse :=
  let varbind_count := len (bulk_varbinds req) in
  let nr := Z.min (non_repeaters req) varbind_count in
  let mr := Z.min (max_repetitions req) max_repetitions_cap in
  let varbind_budget := saturating_sub max_response_size V3_ENVELOPE_OVERHEAD in
  let non_repeating_varbinds := take (Z.to_nat nr) (bulk_varbinds req) in
  let repeating_varbinds := drop (Z.to_nat nr) (bulk_varbinds req) in
  let '(response_varbinds, estimated_response_size) :=
    fold_left
      (fun '(out, est) vb =>
         let resolved := resolve_get_next_varbind store (vb_oid vb) in
         (out ++ [resolved], est + estimated_varbind_wire_size resolved))
      non_repeating_varbinds ([], 0) in
  let response_varbinds :=
    if negb (is_nil repeating_varbinds) && (0 <? mr)
    then bulk_rows (Z.to_nat mr) store (vb_oid <$> repeating_varbinds) estimated_response_size varbind_budget
           response_varbinds
    else response_varbinds in
  {| resp_request_id := bulk_request_id req; error_status := NoError; error_index := 0;
     resp_varbinds := response_varbinds |}.

End Handlers.

Definition handle_set (req : SetRequest) : GetResponse :=
  {| resp_request_id := set_request_id req; error_status := NotWritable; error_index := 1;
     resp_varbinds := set_varbinds req |}.

(** [elapsed_hundredths]; [elapsed_ms] is [start_time.elapsed().as_millis()]. *)
Definition elapsed_hundredths (elapsed_ms : Z) : Z := Z.min (elapsed_ms / 10) U32_MAX.

Definition build_wire_trap (api_pdu : TrapPdu) (elapsed_ms : Z) : WireTrapPdu :=
  let sys_up_time := elapsed_hundredths elapsed_ms in
  let varbinds :=
    [{| vb_oid := SYS_UP_TIME_OID; vb_value := VValue (TimeTicks sys_up_time) |};
     {| vb_oid := SNMP_TRAP_OID_OID; vb_value := VValue (ObjectIdentifier (trap_oid api_pdu)) |}] in
  {| trap_request_id := tp_request_id api_pdu; trap_varbinds := varbinds ++ tp_varbinds api_pdu |}.

(** ** The estimate is an upper bound *)

Lemma length_of_length_log n :
  128 <= n <= USIZE_MAX -> length_of_length n = 2 + Z.log2 n / 8.
Proof.
  intros Hn. unfold length_of_length, leading_zeros64. bfalse (n <? 128). bfalse (n =? 0). cbv zeta.
  pose proof (Z.log2_nonneg n).
  assert (Z.log2 n < 64) by (apply Z.log2_lt_pow2; [lia|]; unfold USIZE_MAX, U64_MAX in Hn; lia).
  replace ((64 - (63 - Z.log2 n) + 7) / 8) with (1 + Z.log2 n / 8) by (Z.div_mod_to_equations; lia).
  assert (Z.log2 n / 8 <= 7) by (Z.div_mod_to_equations; lia).
  btrue (1 + Z.log2 n / 8 <=? 255). lia.
Qed.

(** [length_of_length] is the number of length octets the encoder writes. *)
Lemma length_of_length_octets n : 0 <= n <= USIZE_MAX -> length_of_length n = len (length_octets n).
Proof.
  intros Hn. destruct (Z.ltb_spec n 128).
  - rewrite length_octets_short by lia. unfold length_of_length. by btrue (n <? 128).
  - rewrite length_of_length_log by lia.
    destruct (length_octets_long n ltac:(lia)) as (k & Hk & -> & Hlo & Hhi).
    rewrite len_cons, len_to_be_bytes.
    assert (8 * (Z.of_nat k - 1) <= Z.log2 n < 8 * Z.of_nat k).
    { change 256 with (2 ^ 8) in Hlo, Hhi. rewrite <-Z.pow_mul_r in Hlo, Hhi by lia.
      split; [apply Z.log2_le_pow2; lia|apply Z.log2_lt_pow2; lia]. }
    Z.div_mod_to_equations. lia.
Qed.

Lemma length_of_length_mono a b : 0 <= a <= b -> b <= USIZE_MAX -> length_of_length a <= length_of_length b.
Proof.
  intros Hab Hb. destruct (Z.ltb_spec a 128) as [Ha|Ha].
  - unfold length_of_length at 1. btrue (a <? 128). destruct (Z.ltb_spec b 128) as [Hb'|Hb'].
    + unfold length_of_length. by btrue (b <? 128).
    + rewrite length_of_length_log by lia. pose proof (Z.log2_nonneg b). Z.div_mod_to_equations. lia.
  - rewrite !length_of_length_log by lia. pose proof (Z.log2_le_mono a b ltac:(lia)).
    assert (Z.log2 a / 8 <= Z.log2 b / 8) by (apply Z.div_le_mono; lia). lia.
Qed.

Lemma tlv_len_bound tag v n :
  len v <= n -> n <= USIZE_MAX -> len (tlv tag v) <= 1 + length_of_length n + n.
Proof.
  intros Hv Hn. unfold tlv. rewrite len_cons, len_app. pose proof (len_nonneg v).
  rewrite <-length_of_length_octets by lia. pose proof (length_of_length_mono (len v) n ltac:(lia) Hn). lia.
Qed.

(** Largest size for which the estimate itself cannot overflow a [usize]. *)
Definition VALUE_MAX : Z := 4611686018427387904.

Lemma length_of_length_bound n : 0 <= n <= USIZE_MAX -> 1 <= length_of_length n <= 9.
Proof. intros Hn. rewrite length_of_length_octets by done. by apply length_octets_len. Qed.

Definition value_bound (v : VarbindValue) : Z :=
  match v with
  | VValue (Integer32 _) | VValue (IpAddress _) => 4
  | VValue (Counter32 _) | VValue (Gauge32 _) | VValue (TimeTicks _) => 5
  | VValue (Counter64 _) => 9
  | VValue (OctetString octets) | VValue (Opaque octets) => len octets
  | VValue (ObjectIdentifier oid) => len (as_slice oid) * 5
  | NoSuchObject | NoSuchInstance | EndOfMibView | Unspecified => 0
  end.

Lemma value_content_bound v : varbind_value_wf v -> len (value_content v) <= value_bound v.
Proof.
  destruct v as [[]| | | |]; cbn [varbind_value_wf value_wf value_content value_bound]; intros Hwf; try done.
  - by apply encode_signed_i32_spec.
  - pose proof (encode_oid_len oid Hwf). lia.
  - by destruct Hwf as [-> _].
  - unfold encode_unsigned_u32. by apply (encode_unsigned_bytes_spec (to_be_bytes 4 n)); [apply to_be_bytes_u8|].
  - unfold encode_unsigned_u64. by apply (encode_unsigned_bytes_spec (to_be_bytes 8 n)); [apply to_be_bytes_u8|].
  - unfold encode_unsigned_u32. by apply (encode_unsigned_bytes_spec (to_be_bytes 4 n)); [apply to_be_bytes_u8|].
  - unfold encode_unsigned_u32. by apply (encode_unsigned_bytes_spec (to_be_bytes 4 n)); [apply to_be_bytes_u8|].
Qed.

Lemma oid_wf_len o : oid_wf o -> 2 <= len (as_slice o) <= 128.
Proof.
  intros (a & b & l & _ & -> & _ & _ & _ & _ & Hl)%oid_wf_decompose. rewrite !len_cons.
  pose proof (len_nonneg l). lia.
Qed.

Lemma estimate_upper_bound vb :
  varbind_wf vb -> value_bound (vb_value vb) <= VALUE_MAX ->
  len (varbind_octets vb) <= estimated_varbind_wire_size vb.
Proof.
  intros [Ho Hv] Hb. unfold varbind_octets, estimated_varbind_wire_size. cbv zeta.
  fold (value_bound (vb_value vb)). unfold VALUE_MAX in Hb.
  assert (HU : USIZE_MAX = 18446744073709551615) by done.
  pose proof (oid_wf_len _ Ho) as Hol. pose proof (encode_oid_len _ Ho) as Hoe.
  pose proof (value_content_bound _ Hv) as Hvc. pose proof (len_nonneg (value_content (vb_value vb))).
  pose proof (tlv_len_bound TAG_OID (encode_oid (vb_oid vb)) (len (as_slice (vb_oid vb)) * 5) ltac:(lia) ltac:(lia)).
  pose proof (tlv_len_bound (value_tag (vb_value vb)) (value_content (vb_value vb)) _ Hvc ltac:(lia)).
  pose proof (length_of_length_bound (len (as_slice (vb_oid vb)) * 5) ltac:(lia)).
  pose proof (length_of_length_bound (value_bound (vb_value vb)) ltac:(lia)).
  apply tlv_len_bound; [rewrite len_app; lia|lia].
Qed.

(** ** GETBULK against its row-by-row specification *)

Fixpoint estimate_sum (vbs : list Varbind) : Z :=
  match vbs with [] => 0 | vb :: vbs' => estimated_varbind_wire_size vb + estimate_sum vbs' end.

Lemma estimate_sum_app a b : estimate_sum (a ++ b) = estimate_sum a + estimate_sum b.
Proof. induction a as [|vb a IH]; cbn [app estimate_sum]; [done|]. rewrite IH. lia. Qed.

Definition is_end (vb : Varbind) : bool := match vb_value vb with VValue _ => false | _ => true end.

Section Bulk.
  Context {S : Type} `{MibView S} (store : S).

(** Where a column is after one more repetition. *)
Definition column_step (oid : Oid) : Oid :=
  match view_next store oid with Some (k, _) => k | None => oid end.

(** Repetition [r] of the columns: the [r+1]-st successor of each start OID. *)
Definition ideal_row (cols : list Oid) (r : nat) : list Varbind :=
  (fun oid => resolve_get_next_varbind store (Nat.iter r column_step oid)) <$> cols.

Lemma build_repeating_row_spec cols :
  build_repeating_row store cols =
    (MkRepeatingRow (ideal_row cols 0) (estimate_sum (ideal_row cols 0)) (forallb is_end (ideal_row cols 0)),
     column_step <$> cols).
Proof.
  unfold build_repeating_row. change (ideal_row cols 0) with (resolve_get_next_varbind store <$> cols).
  match goal with |- fold_left ?f cols _ = _ => set (F := f) end.
  assert (Hgen : forall out est al oids, fold_left F cols (MkRepeatingRow out est al, oids) =
    (MkRepeatingRow (out ++ (resolve_get_next_varbind store <$> cols))
       (est + estimate_sum (resolve_get_next_varbind store <$> cols))
       (al && forallb is_end (resolve_get_next_varbind store <$> cols)), oids ++ (column_step <$> cols))).
  { assert (HF : forall out est al oids c, F (MkRepeatingRow out est al, oids) c =
      (MkRepeatingRow (out ++ [resolve_get_next_varbind store c])
         (est + estimated_varbind_wire_size (resolve_get_next_varbind store c))
         (al && is_end (resolve_get_next_varbind store c)), oids ++ [column_step c])).
    { intros out est al oids c. unfold F, resolve_get_next_varbind, column_step, is_end.
      destruct (view_next store c) as [[k v]|]; cbn [vb_value vb_oid row_varbinds row_estimated_size all_end_of_mib].
      - by rewrite andb_false_r.
      - by rewrite andb_true_r. }
    clearbody F. induction cols as [|c cols IH]; intros out est al oids.
    - cbn. by rewrite !app_nil_r, Z.add_0_r, andb_true_r.
    - rewrite !fmap_cons. cbn [fold_left forallb estimate_sum].
      rewrite HF, IH, <-!app_assoc, Z.add_assoc, andb_assoc. done. }
  rewrite Hgen. done.
Qed.

Lemma ideal_row_shift cols r : ideal_row (column_step <$> cols) r = ideal_row cols (Datatypes.S r).
Proof.
  unfold ideal_row. rewrite <-list_fmap_compose. apply list_fmap_ext. intros i oid _. unfold compose.
  by rewrite Nat.iter_succ_r.
Qed.

(** The first [m] repetitions. *)
Definition ideal_rows (cols : list Oid) (m : nat) : list Varbind := concat (ideal_row cols <$> seq 0 m).

Lemma ideal_rows_shift cols m :
  ideal_rows cols (Datatypes.S m) = ideal_row cols 0 ++ ideal_rows (column_step <$> cols) m.
Proof.
  unfold ideal_rows. cbn [seq]. rewrite fmap_cons. cbn [concat]. f_equal. f_equal.
  rewrite <-seq_shift. change (map Datatypes.S (seq 0 m)) with (Datatypes.S <$> seq 0 m).
  rewrite <-list_fmap_compose. apply list_fmap_ext. intros i r _. unfold compose. by rewrite ideal_row_shift.
Qed.

Lemma bulk_rows_spec n cols est budget out :
  exists m, (m <= n)%nat /\
    bulk_rows n store cols est budget out = out ++ ideal_rows cols m /\
    ((0 < m)%nat -> est + estimate_sum (ideal_rows cols m) <= budget) /\
    (forall r, (Datatypes.S r < m)%nat -> forallb is_end (ideal_row cols r) = false) /\
    (m = n \/ (0 < m)%nat /\ forallb is_end (ideal_row cols (m - 1)) = true \/
     budget < est + estimate_sum (ideal_rows cols (Datatypes.S m))).
Proof.
  revert cols est out. induction n as [|n IH]; intros cols est out.
  { exists 0%nat. cbn. rewrite app_nil_r. split_and!; [lia|done|lia|lia|auto]. }
  cbn [bulk_rows]. rewrite build_repeating_row_spec. cbn [row_varbinds row_estimated_size all_end_of_mib].
  assert (H1 : ideal_rows cols 1 = ideal_row cols 0) by (unfold ideal_rows; cbn; apply app_nil_r).
  destruct (Z.ltb_spec budget (est + estimate_sum (ideal_row cols 0))).
  { exists 0%nat. unfold ideal_rows at 1. cbn [seq concat fmap list_fmap]. rewrite app_nil_r.
    split_and!; [lia|done|lia|lia|]. right. right. by rewrite H1. }
  destruct (forallb is_end (ideal_row cols 0)) eqn:Ee.
  { exists 1%nat. rewrite H1. split_and!; [lia|done|lia|lia|]. right. left. split; [lia|done]. }
  destruct (IH (column_step <$> cols) (est + estimate_sum (ideal_row cols 0)) (out ++ ideal_row cols 0))
    as (m & Hm & -> & Hb & He & Hstop).
  exists (Datatypes.S m). rewrite !ideal_rows_shift, <-app_assoc, !estimate_sum_app.
  split_and!; [lia|done| | |].
  - intros _. destruct m; [cbn; lia|]. specialize (Hb ltac:(lia)). lia.
  - intros [|r] Hr; [done|]. rewrite <-ideal_row_shift. apply He. lia.
  - destruct Hstop as [->|[[Hm0 Hend]|Hbud]]; [auto| |].
    + right. left. split; [lia|]. destruct m as [|m]; [lia|].
      replace (Datatypes.S (Datatypes.S m) - 1)%nat with (Datatypes.S m) by lia.
      rewrite <-ideal_row_shift. by replace (Datatypes.S m - 1)%nat with m in Hend by lia.
    + right. right. rewrite ideal_rows_shift, estimate_sum_app in Hbud. lia.
Qed.

End Bulk.

Lemma handle_get_bulk_split {S} `{MibView S} (req : GetBulkRequest) (store : S) cap max_size :
  0 <= non_repeaters req -> 0 <= max_repetitions req -> 0 <= cap ->
  let nr := Z.to_nat (Z.min (non_repeaters req) (len (bulk_varbinds req))) in
  let fixed := resolve_get_next_varbind store <$> (vb_oid <$> take nr (bulk_varbinds req)) in
  let cols := vb_oid <$> drop nr (bulk_varbinds req) in
  let budget := saturating_sub max_size V3_ENVELOPE_OVERHEAD in
  exists m, (Z.of_nat m <= Z.min (max_repetitions req) cap) /\
    handle_get_bulk req store cap max_size =
      MkGetResponse (bulk_request_id req) NoError 0 (fixed ++ ideal_rows store cols m) /\
    ((0 < m)%nat -> estimate_sum (fixed ++ ideal_rows store cols m) <= budget) /\
    (forall r, (Datatypes.S r < m)%nat -> forallb is_end (ideal_row store cols r) = false) /\
    (cols = [] /\ m = 0%nat \/ Z.of_nat m = Z.min (max_repetitions req) cap \/
     (0 < m)%nat /\ forallb is_end (ideal_row store cols (m - 1)) = true \/
     budget < estimate_sum (fixed ++ ideal_rows store cols (Datatypes.S m))).
Proof.
  intros Hn Hm Hc nr fixed cols budget. unfold handle_get_bulk. fold nr budget.
  assert (Hfold : forall l out est, fold_left (fun '(out, est) vb =>
      (out ++ [resolve_get_next_varbind store (vb_oid vb)],
       est + estimated_varbind_wire_size (resolve_get_next_varbind store (vb_oid vb)))) l (out, est) =
      (out ++ (resolve_get_next_varbind store <$> (vb_oid <$> l)),
       est + estimate_sum (resolve_get_next_varbind store <$> (vb_oid <$> l)))).
  { induction l as [|vb l IH]; intros out est; [cbn; by rewrite app_nil_r, Z.add_0_r|].
    rewrite !fmap_cons. cbn [fold_left estimate_sum]. rewrite IH, <-app_assoc, Z.add_assoc. done. }
  cbv zeta. rewrite Hfold. fold fixed. rewrite app_nil_l, Z.add_0_l. fold cols.
  destruct (is_nil (drop nr (bulk_varbinds req))) eqn:Enil; cbn [negb andb].
  { apply is_nil_true in Enil. assert (Ec : cols = []) by (unfold cols; by rewrite Enil).
    exists 0%nat. split_and!; [cbn; lia| |lia|lia|auto]. cbn. by rewrite app_nil_r. }
  destruct (Z.ltb_spec 0 (Z.min (max_repetitions req) cap)) as [Hpos|Hpos].
  - destruct (bulk_rows_spec store (Z.to_nat (Z.min (max_repetitions req) cap)) cols (estimate_sum fixed) budget fixed)
      as (m & Hle & -> & Hb & He & Hstop).
    exists m. rewrite !estimate_sum_app. split_and!; [lia|done|done|done|].
    destruct Hstop as [->|[?|?]]; [right; left; lia|auto|auto].
  - exists 0%nat. split_and!; [cbn; lia| |lia|lia|right; left; cbn; lia]. cbn. by rewrite app_nil_r.
Qed.

(** ** Size of an encoded response *)

Lemma tlv_len_64k tag v : len v < 65536 -> len (tlv tag v) <= 4 + len v.
Proof.
  intros Hv. pose proof (len_nonneg v).
  pose proof (tlv_len_bound tag v (len v) ltac:(lia) ltac:(unfold USIZE_MAX, U64_MAX; lia)) as Hb.
  pose proof (length_of_length_mono (len v) 65535 ltac:(lia) ltac:(unfold USIZE_MAX, U64_MAX; lia)) as Hm.
  change (length_of_length 65535) with 3 in Hm. lia.
Qed.

Lemma int_tlv_len_6 v : is_i32 v -> len (int_tlv v) <= 6.
Proof.
  intros Hv. destruct (encode_signed_i32_spec v Hv) as (_ & _ & Hl). unfold int_tlv.
  pose proof (tlv_len_bound TAG_INTEGER (encode_signed_i32 v) 4 ltac:(lia) ltac:(unfold USIZE_MAX, U64_MAX; lia)) as Hb.
  change (length_of_length 4) with 1 in Hb. lia.
Qed.

(** The real overhead of the envelope, within the 512 octets the code reserves. *)
Definition ENVELOPE_BOUND : Z := 267.

Lemma envelope_overhead i m f s e b t u a p tag x y z body encrypted scoped :
  is_i32 i -> is_i32 m -> is_i32 s -> is_i32 b -> is_i32 t -> is_i32 x -> is_i32 y -> is_i32 z ->
  len e <= 32 -> len u <= 32 -> len a <= 48 -> len p <= 8 -> len body <= 65535 - 512 ->
  len scoped = len (encode_scoped_pdu e [] (pdu_octets tag x y z (seq_tlv body))) ->
  len (v3_octets i m f s e b t u a p (scoped_octets encrypted scoped)) <= len body + ENVELOPE_BOUND.
Proof.
  intros Hi Hm Hs Hb Ht Hx Hy Hz He Hu Ha Hp Hbody Hsc.
  pose proof (int_tlv_len_6 _ Hi). pose proof (int_tlv_len_6 _ Hm). pose proof (int_tlv_len_6 _ Hs).
  pose proof (int_tlv_len_6 _ Hb). pose proof (int_tlv_len_6 _ Ht). pose proof (int_tlv_len_6 _ Hx).
  pose proof (int_tlv_len_6 _ Hy). pose proof (int_tlv_len_6 _ Hz). pose proof (int_tlv_len_6 _ version_i32).
  rewrite encode_scoped_pdu_octets in Hsc. unfold pdu_octets, v3_octets, oct_tlv, seq_tlv, ENVELOPE_BOUND in *.
  pose proof (tlv_len_64k TAG_SEQUENCE body ltac:(lia)).
  set (P1 := int_tlv x ++ _) in *. assert (len P1 <= len body + 22) by (subst P1; rewrite !len_app; lia).
  pose proof (tlv_len_64k tag P1 ltac:(lia)).
  pose proof (tlv_len_64k TAG_OCTET_STRING e ltac:(lia)). pose proof (tlv_len_64k TAG_OCTET_STRING u ltac:(lia)).
  pose proof (tlv_len_64k TAG_OCTET_STRING a ltac:(lia)). pose proof (tlv_len_64k TAG_OCTET_STRING p ltac:(lia)).
  assert (len (tlv TAG_OCTET_STRING []) <= 4) by (apply (tlv_len_64k TAG_OCTET_STRING []); done).
  assert (len (tlv TAG_OCTET_STRING [f]) <= 5) by (apply (tlv_len_64k TAG_OCTET_STRING [f]); done).
  set (P2 := tlv TAG_OCTET_STRING e ++ tlv TAG_OCTET_STRING [] ++ _) in *.
  assert (len P2 <= len body + 66) by (subst P2; rewrite !len_app; lia).
  pose proof (tlv_len_64k TAG_SEQUENCE P2 ltac:(lia)).
  assert (len (scoped_octets encrypted scoped) <= len body + 74).
  { destruct encrypted; cbn [scoped_octets]; [|lia]. unfold oct_tlv.
    pose proof (tlv_len_64k TAG_OCTET_STRING scoped ltac:(lia)). lia. }
  set (P3 := int_tlv i ++ _) in *. assert (len P3 <= 23) by (subst P3; rewrite !len_app; lia).
  set (P4 := tlv TAG_OCTET_STRING e ++ int_tlv b ++ _) in *.
  assert (len P4 <= 148) by (subst P4; rewrite !len_app; lia).
  pose proof (tlv_len_64k TAG_SEQUENCE P3 ltac:(lia)). pose proof (tlv_len_64k TAG_SEQUENCE P4 ltac:(lia)).
  pose proof (tlv_len_64k TAG_OCTET_STRING (tlv TAG_SEQUENCE P4) ltac:(lia)).
  set (P5 := int_tlv SNMPV3_VERSION ++ _) in *.
  assert (len P5 <= len body + 74 + 156 + 27 + 6) by (subst P5; rewrite !len_app; lia).
  pose proof (tlv_len_64k TAG_SEQUENCE P5 ltac:(lia)). lia.
Qed.

Lemma sign_message_len `{CryptoOps} auth M off n msg : sign_message auth M off n = Ok msg -> len msg = len M.
Proof.
  unfold sign_message. destruct auth as [[p k]|]; [|by intros [= ->]].
  destruct off as [o|]; [|done]. cbn [ok_or]. destruct (compute_mac p k M) as [mac|]; [|done]. cbn [map_err].
  destruct (usize_checked_add o n) as [e|] eqn:Ee; [|done]. cbn [ok_or].
  destruct (get_range M o e) as [target|] eqn:Et; [|done]. cbn [ok_or]. intros [= <-].
  destruct (get_range_Some _ _ _ _ Et) as (pre & post & EM & Hp & Ht & Hoe & _).
  assert (Hw : len (expect_or target (copy_from_slice target mac)) = len target).
  { unfold copy_from_slice. destruct (Z.eqb_spec (len target) (len mac)); cbn; lia. }
  rewrite !len_app, Hw. unfold len in *. rewrite length_take, length_drop. rewrite EM, !length_app in *. lia.
Qed.

Lemma encrypt_len `{CryptoOps, !CryptoLaws} p k iv pt ct :
  len iv = 16 -> encrypt p k iv pt = Ok ct -> len ct = len pt.
Proof.
  unfold encrypt. intros Hiv Hc. destruct (Z.eqb_spec (key_size k) (priv_key_len p)) as [Hk|]; [|done].
  cbn [negb] in Hc. destruct p; unfold key_size in Hk; cbn in Hk.
  - destruct (cfb_encrypt_total _ _ _ aes128_laws (as_bytes k) iv pt Hk Hiv) as (c & E & Hl & _).
    rewrite E in Hc. by injection Hc as <-.
  - destruct (cfb_encrypt_total _ _ _ aes256_laws (as_bytes k) iv pt Hk Hiv) as (c & E & Hl & _).
    rewrite E in Hc. by injection Hc as <-.
Qed.

Lemma encode_v3_envelope_len `{CryptoOps, !CryptoLaws} seed st mid e u boots time auth privacy tag x y z body msg st' :
  encode_v3_envelope seed st mid e u [] boots time auth privacy (pdu_octets tag x y z (seq_tlv body)) = (Ok msg, st') ->
  is_i32 mid -> is_i32 x -> is_i32 y -> is_i32 z -> 0 <= boots -> 0 <= time ->
  len e <= 32 -> len u <= 32 -> len body <= 65535 - 512 ->
  len msg <= len body + ENVELOPE_BOUND.
Proof.
  intros HE Hid Hx Hy Hz Hb0 Ht0 He Hu Hbody. unfold encode_v3_envelope in HE.
  destruct (i32_try_from boots) as [bb|] eqn:Eb; [|done]. destruct (i32_try_from time) as [bt|] eqn:Et; [|done].
  apply i32_try_from_inv in Eb as [-> Hbi]. apply i32_try_from_inv in Et as [-> Hti].
  match type of HE with match ?fl with _ => _ end = _ => destruct fl as [flags|]; [|done] end.
  set (a := match auth with Some (proto, _) => _ | None => _ end) in *. cbv zeta in HE.
  set (sp := encode_scoped_pdu e [] _) in *.
  destruct (protect_scoped_pdu seed st privacy boots time sp) as [[[[scoped pp] enc]|] st1] eqn:Ep; [|done].
  assert (Hsp : len scoped = len sp /\ len pp <= 8).
  { unfold protect_scoped_pdu in Ep. destruct privacy as [[pr k]|].
    - unfold next_privacy_salt in Ep. set (salt := to_be_bytes 8 _) in *.
      assert (Hsl : len salt = 8) by apply len_to_be_bytes.
      destruct (encrypt pr k (build_iv boots time salt) sp) as [ct|] eqn:Ec; [|done]. cbn [map_err] in Ep.
      apply pair_equal_spec in Ep as [Ep _]. injection Ep as <- <- <-. split; [|lia].
      eapply encrypt_len; [|done]. unfold build_iv. rewrite !len_app, !len_to_be_bytes. lia.
    - apply pair_equal_spec in Ep as [Ep _]. injection Ep as <- <- <-. split; [done|rewrite len_nil; lia]. }
  destruct Hsp as [Hsp Hpp].
  rewrite encode_v3_message_octets in HE. cbv zeta in HE.
  destruct (find_auth_params_offset _ _) as [off|]; [|done]. cbn [map_err] in HE.
  apply pair_equal_spec in HE as [HE _]. apply sign_message_len in HE. rewrite HE.
  eapply envelope_overhead with (x := x) (y := y) (z := z); try done; try zrange.
  subst a. destruct auth as [[[] ?]|]; cbn; unfold len; rewrite ?length_replicate; cbn; lia.
Qed.

Lemma value_bound_nonneg v : 0 <= value_bound v.
Proof. destruct v as [[]| | | |]; cbn; try lia; try apply len_nonneg. pose proof (len_nonneg (as_slice oid)). lia. Qed.

Lemma length_of_length_nonneg n : 0 <= length_of_length n.
Proof.
  unfold length_of_length. destruct (Z.ltb_spec n 128); [lia|]. cbv zeta. unfold leading_zeros64.
  pose proof (Z.log2_nonneg n). set (sb := (64 - (if n =? 0 then 64 else 63 - Z.log2 n) + 7) / 8).
  assert (0 <= sb) by (apply Z.div_pos; [case_match; lia|lia]). destruct (sb <=? 255); lia.
Qed.

Lemma estimate_ge_value vb : 0 <= value_bound (vb_value vb) <= estimated_varbind_wire_size vb.
Proof.
  unfold estimated_varbind_wire_size. cbv zeta. fold (value_bound (vb_value vb)).
  pose proof (value_bound_nonneg (vb_value vb)). pose proof (len_nonneg (as_slice (vb_oid vb))).
  pose proof (length_of_length_nonneg (len (as_slice (vb_oid vb)) * 5)).
  pose proof (length_of_length_nonneg (value_bound (vb_value vb))).
  match goal with |- _ /\ _ <= 1 + length_of_length ?n + _ => pose proof (length_of_length_nonneg n) end. lia.
Qed.

Lemma estimate_sum_nonneg vbs : 0 <= estimate_sum vbs.
Proof. induction vbs as [|vb vbs IH]; cbn [estimate_sum]; [lia|]. pose proof (estimate_ge_value vb). lia. Qed.

Lemma varbinds_octets_bound vbs :
  Forall varbind_wf vbs -> estimate_sum vbs <= VALUE_MAX ->
  len (concat (varbind_octets <$> vbs)) <= estimate_sum vbs.
Proof.
  induction 1 as [|vb vbs Hvb _ IH]; intros Hs; [done|]. rewrite fmap_cons. cbn [concat estimate_sum] in *.
  rewrite len_app. pose proof (estimate_ge_value vb). pose proof (estimate_sum_nonneg vbs).
  pose proof (estimate_upper_bound vb Hvb ltac:(lia)). lia.
Qed.

Lemma store_get_wf s k v : store_wf s -> store_get s k = Some v -> oid_wf k /\ value_wf v.
Proof.
  intros [Hok Hwf] Hg. apply btree_get_In in Hg; [|done]. rewrite Forall_forall in Hwf.
  apply (Hwf (k, v)). by apply list_elem_of_In.
Qed.

Lemma resolve_wf (s : Store) oid : store_wf s -> oid_wf oid -> varbind_wf (resolve_get_next_varbind s oid).
Proof.
  intros Hs Ho. unfold resolve_get_next_varbind. cbn [view_next store_view].
  destruct (store_next s oid) as [[k v]|] eqn:E; [|done].
  destruct (store_next_Some s oid k v (proj1 Hs) E) as (Hg & _). by apply (store_get_wf s).
Qed.

Lemma column_iter_wf (s : Store) oid r : store_wf s -> oid_wf oid -> oid_wf (Nat.iter r (column_step s) oid).
Proof.
  intros Hs Ho. induction r as [|r IH]; cbn; [done|]. unfold column_step at 1. cbn [view_next store_view].
  destruct (store_next s _) as [[k v]|] eqn:E; [|done].
  destruct (store_next_Some s _ k v (proj1 Hs) E) as (Hg & _). by destruct (store_get_wf s k v Hs Hg).
Qed.

Lemma ideal_rows_wf (s : Store) cols m : store_wf s -> Forall oid_wf cols -> Forall varbind_wf (ideal_rows s cols m).
Proof.
  intros Hs Hc. unfold ideal_rows. apply Forall_concat, Forall_fmap, Forall_true. intros r.
  unfold ideal_row, compose. apply Forall_fmap. eapply Forall_impl; [exact Hc|]. intros oid Ho.
  apply resolve_wf; [done|by apply column_iter_wf].
Qed.

Lemma std_pdu_octets_len tag a b c vbs :
  is_i32 a -> is_i32 b -> is_i32 c -> len (concat (varbind_octets <$> vbs)) + 100 <= USIZE_MAX ->
  len (std_pdu_octets tag a b c vbs) <= len (concat (varbind_octets <$> vbs)) + 70.
Proof.
  intros Ha Hb Hc Hv. unfold std_pdu_octets, pdu_octets, vbl_octets.
  set (body := concat (varbind_octets <$> vbs)) in *.
  pose proof (int_tlv_len a Ha). pose proof (int_tlv_len b Hb). pose proof (int_tlv_len c Hc).
  pose proof (seq_tlv_len body ltac:(lia)).
  pose proof (tlv_len tag (int_tlv a ++ int_tlv b ++ int_tlv c ++ seq_tlv body)
    ltac:(rewrite !len_app; lia)) as Ht. rewrite !len_app in Ht. lia.
Qed.

(** ** Properties *)

(** Claim C30: a GETBULK response fits the requester's message size: for any
    well-formed store and request whose non-repeaters fit the budget, the response is
    encoded to an SNMPv3 message (signed and encrypted as configured) no longer than
    [max_response_size]. *)
Theorem bulk_response_fits `{CryptoOps, !CryptoLaws} (seed : Z) (st : SaltState) (mid : MessageId) (e u : bytes)
    (boots time : Z) (auth : option (AuthProtocol * SecretKey)) (privacy : option (PrivProtocol * SecretKey))
    (req : GetBulkRequest) (store : Store) (cap max_size : Z) :
  is_u64 seed -> salt_state_ok st -> Forall is_u8 e -> credentials_ok auth privacy ->
  store_wf store -> Forall varbind_wf (bulk_varbinds req) -> is_i32 (bulk_request_id req) ->
  0 <= non_repeaters req -> 0 <= max_repetitions req -> 0 <= cap ->
  0 <= mid <= I32_MAX -> 0 <= boots <= I32_MAX -> 0 <= time <= I32_MAX -> len e <= 32 -> len u <= 32 -> 484 <= max_size <= 65535 ->
  estimate_sum ((fun vb => resolve_get_next_varbind store (vb_oid vb)) <$>
     take (Z.to_nat (Z.min (non_repeaters req) (len (bulk_varbinds req)))) (bulk_varbinds req))
    <= saturating_sub max_size V3_ENVELOPE_OVERHEAD ->
  exists msg st', encode_v3_response seed st mid e u [] boots time auth privacy (handle_get_bulk req store cap max_size) = (Ok msg, st') /\
    len msg <= max_size.
Proof.
  intros Hseed Hst Heu Hcred Hs Hwf Hid Hn Hm Hc Hmid Hb Ht He Hu Hmax Hfix.
  destruct (handle_get_bulk_split req store cap max_size Hn Hm Hc) as (m & _ & Er & Hbud & _).
  rewrite Er. set (nr := Z.to_nat _) in *.
  assert (Ef : (fun vb => resolve_get_next_varbind store (vb_oid vb)) <$> take nr (bulk_varbinds req)
    = resolve_get_next_varbind store <$> (vb_oid <$> take nr (bulk_varbinds req))) by (by rewrite <-list_fmap_compose).
  rewrite Ef in Hfix. set (fixed := resolve_get_next_varbind store <$> _) in *.
  set (vbs := fixed ++ ideal_rows store _ m) in *.
  assert (Hsum : estimate_sum vbs <= saturating_sub max_size V3_ENVELOPE_OVERHEAD).
  { destruct m; [subst vbs; unfold ideal_rows; cbn; by rewrite app_nil_r|apply Hbud; lia]. }
  assert (Hoids : Forall oid_wf (vb_oid <$> bulk_varbinds req)).
  { apply Forall_fmap. eapply Forall_impl; [exact Hwf|]. by intros vb [Ho _]. }
  assert (Hvbs : Forall varbind_wf vbs).
  { subst vbs. apply Forall_app. split.
    - apply Forall_fmap. rewrite fmap_take. eapply Forall_impl; [by apply Forall_take|]. intros. by apply resolve_wf.
    - apply ideal_rows_wf; [done|]. rewrite fmap_drop. by apply Forall_drop. }
  unfold saturating_sub, V3_ENVELOPE_OVERHEAD, VALUE_MAX in *.
  pose proof (varbinds_octets_bound vbs Hvbs ltac:(unfold VALUE_MAX; lia)) as Hlen.
  destruct (encode_v3_response_opens seed st mid e u [] boots time auth privacy (MkGetResponse (bulk_request_id req) NoError 0 vbs))
    as [(msg & st' & env & HE & _) _]; try done; try (unfold I32_MAX; cbn; lia).
  { cbn [resp_request_id error_status error_index resp_varbinds]. rewrite len_nil. unfold PAYLOAD_MAX.
    pose proof (std_pdu_octets_len TAG_RESPONSE (bulk_request_id req) (error_status_code NoError) 0 vbs Hid
      ltac:(apply error_status_code_i32) ltac:(zrange) ltac:(unfold USIZE_MAX, U64_MAX; lia)). lia. }
  exists msg, st'. split; [exact HE|].
  unfold encode_v3_response in HE. cbn [resp_varbinds error_index resp_request_id error_status] in HE.
  rewrite encode_varbinds_octets, i32_try_from_Some in HE by zrange. cbn [ok_or] in HE.
  rewrite ber_encode_std in HE by (cbn; tauto). cbn [map_err] in HE.
  apply encode_v3_envelope_len in HE; try done; try zrange; try apply error_status_code_i32; try lia.
  unfold ENVELOPE_BOUND in HE. lia.
Qed.

Definition small_store : Store := store_set store_new (MkOid [1; 3; 6]) (OctetString [104; 105]).

Lemma small_store_wf : store_wf small_store.
Proof.
  apply store_set_wf; [apply store_new_wf| |cbn; repeat constructor; zrange].
  split; [cbn; repeat constructor; zrange|reflexivity].
Qed.

Lemma bulk_response_fits_witness :
  exists msg st', @encode_v3_response ToyCrypto.ops 5 None 1 [1; 2; 3; 4; 5] [97] [] 1 2 None None
    (handle_get_bulk (MkGetBulkRequest 7 0 10 [MkVarbind (MkOid [1; 3]) Unspecified]) small_store 100 484)
    = (Ok msg, st') /\ len msg <= 484.
Proof.
  refine (@bulk_response_fits ToyCrypto.ops ToyCrypto.laws 5 None 1 [1; 2; 3; 4; 5] [97] 1 2 None None
    (MkGetBulkRequest 7 0 10 [MkVarbind (MkOid [1; 3]) Unspecified]) small_store 100 484
    _ _ _ _ _ _ _ _ _ _ _ _ _ _ _ _ _).
  - zrange.
  - exact I.
  - repeat constructor; zrange.
  - split; [reflexivity|exact I].
  - split; [vm_compute; constructor|]. repeat constructor; vm_compute; congruence.
  - repeat constructor; vm_compute; congruence.
  - cbn. zrange.
  - cbn. lia.
  - cbn. lia.
  - lia.
  - zrange.
  - zrange.
  - zrange.
  - vm_compute. discriminate.
  - vm_compute. discriminate.
  - lia.
  - vm_compute. discriminate.
Defined.

(** Claim C29: GETBULK returns the non-repeaters' successors followed by complete
    repetitions only: the response is the successors of the first
    [min(non_repeaters, n)] OIDs, then the first [m] rows of the walk, where row
    [r] holds the [r+1]-st successor of every remaining OID; [m] is at most
    [min(max_repetitions, cap)], the rows returned stay within the size budget, no
    row but the last is entirely end-of-MIB, and the walk stops short only because
    a whole row was end-of-MIB or the next row would exceed the budget. *)
Theorem get_bulk_rows {S} `{MibView S} (req : GetBulkRequest) (store : S) (cap max_size : Z) :
  0 <= non_repeaters req -> 0 <= max_repetitions req -> 0 <= cap ->
  let nr := Z.to_nat (Z.min (non_repeaters req) (len (bulk_varbinds req))) in
  let fixed := resolve_get_next_varbind store <$> (vb_oid <$> take nr (bulk_varbinds req)) in
  let cols := vb_oid <$> drop nr (bulk_varbinds req) in
  let budget := saturating_sub max_size V3_ENVELOPE_OVERHEAD in
  exists m, (Z.of_nat m <= Z.min (max_repetitions req) cap) /\
    handle_get_bulk req store cap max_size =
      MkGetResponse (bulk_request_id req) NoError 0 (fixed ++ ideal_rows store cols m) /\
    ((0 < m)%nat -> estimate_sum (fixed ++ ideal_rows store cols m) <= budget) /\
    (forall r, (Datatypes.S r < m)%nat -> forallb is_end (ideal_row store cols r) = false) /\
    (cols = [] /\ m = 0%nat \/ Z.of_nat m = Z.min (max_repetitions req) cap \/
     (0 < m)%nat /\ forallb is_end (ideal_row store cols (m - 1)) = true \/
     budget < estimate_sum (fixed ++ ideal_rows store cols (Datatypes.S m))).
Proof. apply handle_get_bulk_split. Qed.

Lemma get_bulk_rows_witness :
  exists m, handle_get_bulk (MkGetBulkRequest 7 0 10 [MkVarbind (MkOid [1; 3]) Unspecified]) small_store 100 1472 =
    MkGetResponse 7 NoError 0 ([] ++ ideal_rows small_store [MkOid [1; 3]] m).
Proof.
  destruct (get_bulk_rows (MkGetBulkRequest 7 0 10 [MkVarbind (MkOid [1; 3]) Unspecified]) small_store 100 1472
    ltac:(cbn; lia) ltac:(cbn; lia) ltac:(lia)) as (m & _ & E & _).
  exists m. exact E.
Defined.

(** GET answers every varbind in place: the response echoes the
    request-id, reports no error, and its [i]-th varbind has the requested OID with
    the stored value, or noSuchObject when the store has none. *)
Theorem handle_get_pointwise {S} `{MibView S} (req : GetRequest) (store : S) (i : nat) (vb : Varbind) :
  get_varbinds req !! i = Some vb ->
  resp_varbinds (handle_get req store) !! i =
    Some (MkVarbind (vb_oid vb) (match view_get store (vb_oid vb) with Some v => VValue v | None => NoSuchObject end)) /\
  length (resp_varbinds (handle_get req store)) = length (get_varbinds req) /\
  resp_request_id (handle_get req store) = get_request_id req /\
  error_status (handle_get req store) = NoError /\ error_index (handle_get req store) = 0.
Proof.
  intros Hi. unfold handle_get. cbn [resp_varbinds resp_request_id error_status error_index].
  rewrite list_lookup_fmap, Hi, length_fmap. done.
Qed.

Lemma handle_get_pointwise_witness :
  resp_varbinds (handle_get (MkGetRequest 3 [MkVarbind (MkOid [1; 3; 6]) Unspecified]) small_store) !! 0%nat
    = Some (MkVarbind (MkOid [1; 3; 6]) (VValue (OctetString [104; 105]))).
Proof.
  exact (proj1 (handle_get_pointwise (MkGetRequest 3 [MkVarbind (MkOid [1; 3; 6]) Unspecified]) small_store 0 _ eq_refl)).
Defined.

(** GETNEXT moves every varbind to the least OID above it, with the
    stored value; when nothing is above, the requested OID comes back with
    endOfMibView. *)
Theorem handle_get_next_pointwise {S} `{MibView S} (req : GetNextRequest) (store : S) (i : nat) (vb : Varbind) :
  view_ok store -> next_varbinds req !! i = Some vb ->
  exists out, resp_varbinds (handle_get_next req store) !! i = Some out /\
    match vb_value out with
    | VValue v => view_get store (vb_oid out) = Some v /\ oid_lt (vb_oid vb) (vb_oid out) /\
        forall k v', view_get store k = Some v' -> oid_lt (vb_oid vb) k -> oid_le (vb_oid out) k
    | x => x = EndOfMibView /\ vb_oid out = vb_oid vb /\
        forall k v', view_get store k = Some v' -> ~ oid_lt (vb_oid vb) k
    end.
Proof.
  intros Hok Hi. unfold handle_get_next. cbn [resp_varbinds]. rewrite list_lookup_fmap, Hi. eexists. split; [done|].
  unfold resolve_get_next_varbind. destruct (view_next store (vb_oid vb)) as [[k v]|] eqn:E; cbn.
  - by apply view_next_Some.
  - split_and!; [done|done|]. by apply view_next_None.
Qed.

Lemma handle_get_next_pointwise_witness :
  exists out, resp_varbinds (handle_get_next (MkGetNextRequest 3 [MkVarbind (MkOid [1; 3]) Unspecified]) small_store) !! 0%nat
    = Some out.
Proof.
  destruct (@handle_get_next_pointwise Store store_view (MkGetNextRequest 3 [MkVarbind (MkOid [1; 3]) Unspecified]) small_store 0 _
    ltac:(vm_compute; constructor) eq_refl) as (out & E & _).
  exists out. exact E.
Defined.

(** The size estimate never undercounts: the encoding of any well-formed
    varbind (with a value of up to [VALUE_MAX] octets, far beyond any frame) is no
    longer than [estimated_varbind_wire_size]. *)
Theorem estimate_never_undercounts (vb : Varbind) :
  varbind_wf vb -> value_bound (vb_value vb) <= VALUE_MAX ->
  exists value, encode_varbind_value (vb_value vb) = Ok value /\
    len (encode_varbind (vb_oid vb) value) <= estimated_varbind_wire_size vb.
Proof.
  intros Hwf Hb. rewrite encode_varbind_value_tlv. eexists. split; [done|].
  rewrite encode_varbind_tlv. by apply estimate_upper_bound.
Qed.

Lemma estimate_never_undercounts_witness :
  exists value, encode_varbind_value (VValue (Counter64 18446744073709551615)) = Ok value /\
    len (encode_varbind (MkOid [2; 4294967295; 4294967295]) value) <= 30.
Proof.
  exact (estimate_never_undercounts (MkVarbind (MkOid [2; 4294967295; 4294967295]) (VValue (Counter64 18446744073709551615)))
    ltac:(repeat constructor; vm_compute; congruence) ltac:(vm_compute; discriminate)).
Defined.

Definition large_store : Store := store_set store_new (MkOid [1; 3; 6]) (OctetString (replicate 600 0)).

(** The size bound does not cover the non-repeaters: with a requester
    limit of 484 octets, one non-repeater naming a 600-octet value produces a
    response longer than the limit. *)
Theorem bulk_non_repeaters_unbounded :
  exists msg st', @encode_v3_response ToyCrypto.ops 5 None 1 [1; 2; 3; 4; 5] [97] [] 1 2 None None
    (handle_get_bulk (MkGetBulkRequest 7 1 0 [MkVarbind (MkOid [1; 3]) Unspecified]) large_store 100 484)
    = (Ok msg, st') /\ 484 < len msg.
Proof. eexists _, _. split; [vm_compute; reflexivity|]. vm_compute. reflexivity. Qed.
