(* ===== verification/Dispatch.v ===== *)
(** * Request dispatch: [src/src/transport/dispatch.rs] and its submodules

    The validation pipeline every inbound frame goes through: envelope, user name,
    security level, privacy flag, authentication, timeliness, context name,
    decryption, and finally the handlers and the response encoder.  A step is a
    function of the dispatch context returning a result or a [Reject], with the
    context's counters threaded through ([Dispatch] below is that state-and-error
    monad); the privacy-salt state is threaded by the last step. *)

From S2P Require Import Prelude Oid Ber BerFacts Usm Types Varbind BerPdu Snmp Codec Mib Request.

Definition MAX_BULK_REPETITIONS : Z := 100.
Definition MAX_FRAME_SIZE : Z := 0xFFFF.

(** ** dispatch_context.rs *)

Record DispatchInputs := MkDispatchInputs {
  engine_id : bytes;
  engine_boots : EngineBoots;
  engine_time : EngineTime;
  unknown_engine_ids_counter : UsmStatsCounter;
  unknown_user_names_counter : UsmStatsCounter;
  unsupported_sec_levels_counter : UsmStatsCounter;
  wrong_digests_counter : UsmStatsCounter;
  not_in_time_windows_counter : UsmStatsCounter;
  decryption_errors_counter : UsmStatsCounter;
  unknown_security_models_counter : UsmStatsCounter;
  usm_user : option UsmUser;
  minimum_security_level : SecurityLevel;
}.

Definition should_reject_security_level (i : DispatchInputs) (msg_level : result SecurityLevel InvalidMsgFlags) : bool :=
  match msg_level with
  | Err _ => true
  | Ok level =>
      level_ltb level (minimum_security_level i)
      || (match usm_user i with Some user => level_ltb (user_security_level user) level | None => false end)
      || (match usm_user i with None => level_ltb NoAuthNoPriv level | Some _ => false end)
  end.

Record DispatchContext := MkDispatchContext { inputs : DispatchInputs }.

Inductive NoUserSecurityLevelError := MkNoUserSecurityLevelError.

Definition context_new_unchecked (i : DispatchInputs) : DispatchContext := {| inputs := i |}.

Definition context_new (i : DispatchInputs) : result DispatchContext NoUserSecurityLevelError :=
  if security_level_requires_user (usm_user i) (minimum_security_level i)
  then Err MkNoUserSecurityLevelError
  else Ok (context_new_unchecked i).

(** ** The monad of the pipeline *)

Inductive Reject :=
| Report (encoded_report : bytes)
| Discard.

(** [From<Reject> for Option<Vec<u8>>] *)
Definition reject_into_option (r : Reject) : option bytes :=
  match r with Report b => Some b | Discard => None end.

Definition Dispatch (A : Type) : Type := DispatchContext -> result A Reject * DispatchContext.

Definition dret {A} (a : A) : Dispatch A := fun ctx => (Ok a, ctx).
Definition dfail {A} (r : Reject) : Dispatch A := fun ctx => (Err r, ctx).
Definition dbind {A B} (m : Dispatch A) (k : A -> Dispatch B) : Dispatch B :=
  fun ctx => match m ctx with
             | (Ok a, ctx') => k a ctx'
             | (Err r, ctx') => (Err r, ctx')
             end.

Notation "'let!' x ':=' m 'in' k" := (dbind m (fun x => k))
  (at level 10, x name, m at level 200, k at level 200) : rust_scope.
Notation "'do!' m 'in' k" := (dbind m (fun _ => k))
  (at level 10, m at level 200, k at level 200) : rust_scope.

(** ** report.rs *)

(** The [LazyLock] statics: each constant parses ([counter_oid_parses]), so the
    [expect] never fires. *)
Definition parse_const (s : bytes) : Oid :=
  match from_str s with Ok o => o | Err _ => MkOid [] end.

Definition UNKNOWN_ENGINE_IDS_OID : Oid := parse_const USM_STATS_UNKNOWN_ENGINE_IDS.
Definition UNKNOWN_USER_NAMES_OID : Oid := parse_const USM_STATS_UNKNOWN_USER_NAMES.
Definition UNSUPPORTED_SEC_LEVELS_OID : Oid := parse_const USM_STATS_UNSUPPORTED_SEC_LEVELS.
Definition WRONG_DIGESTS_OID : Oid := parse_const USM_STATS_WRONG_DIGESTS.
Definition NOT_IN_TIME_WINDOWS_OID : Oid := parse_const USM_STATS_NOT_IN_TIME_WINDOWS.
Definition DECRYPTION_ERRORS_OID : Oid := parse_const USM_STATS_DECRYPTION_ERRORS.
Definition SNMP_UNKNOWN_SECURITY_MODELS_OID : bytes := str "1.3.6.1.6.3.11.2.1.1.0".
Definition UNKNOWN_SECURITY_MODELS_OID : Oid := parse_const SNMP_UNKNOWN_SECURITY_MODELS_OID.

(** The closures [|inputs| &mut inputs.<field>]. *)
Inductive Counter :=
| UnknownEngineIds | UnknownUserNames | UnsupportedSecLevels | WrongDigests | NotInTimeWindows
| DecryptionErrors | UnknownSecurityModels.

#[export] Instance Counter_eq_dec : EqDecision Counter.
Proof. solve_decision. Defined.

Definition select_counter (c : Counter) (i : DispatchInputs) : UsmStatsCounter :=
  match c with
  | UnknownEngineIds => unknown_engine_ids_counter i
  | UnknownUserNames => unknown_user_names_counter i
  | UnsupportedSecLevels => unsupported_sec_levels_counter i
  | WrongDigests => wrong_digests_counter i
  | NotInTimeWindows => not_in_time_windows_counter i
  | DecryptionErrors => decryption_errors_counter i
  | UnknownSecurityModels => unknown_security_models_counter i
  end.

(** Writing through the selected [&mut]: every other field is untouched. *)
Definition update_counter (c : Counter) (f : UsmStatsCounter -> UsmStatsCounter) (i : DispatchInputs) : DispatchInputs :=
  let on c' v := if decide (c' = c) then f v else v in
  {| engine_id := engine_id i; engine_boots := engine_boots i; engine_time := engine_time i;
     unknown_engine_ids_counter := on UnknownEngineIds (unknown_engine_ids_counter i);
     unknown_user_names_counter := on UnknownUserNames (unknown_user_names_counter i);
     unsupported_sec_levels_counter := on UnsupportedSecLevels (unsupported_sec_levels_counter i);
     wrong_digests_counter := on WrongDigests (wrong_digests_counter i);
     not_in_time_windows_counter := on NotInTimeWindows (not_in_time_windows_counter i);
     decryption_errors_counter := on DecryptionErrors (decryption_errors_counter i);
     unknown_security_models_counter := on UnknownSecurityModels (unknown_security_models_counter i);
     usm_user := usm_user i; minimum_security_level := minimum_security_level i |}.

Section Pipeline.
  Context `{CryptoOps}.

Definition emit_report_response {A} (c : Counter) (counter_oid : Oid) (mid : MessageId) (flags : MsgFlags) : Dispatch A :=
  fun ctx =>
    let i := update_counter c counter_saturating_increment (inputs ctx) in
    let counter_value := select_counter c i in
    let ctx := {| inputs := i |} in
    if negb (is_reportable flags) then (Err Discard, ctx)
    else
      (Err (match encode_v3_report mid (engine_id i) (engine_boots i) (engine_time i) counter_oid counter_value with
            | Ok report => Report report
            | Err _ => Discard
            end), ctx).

(** ** Checks *)

Definition check_message_envelope (m : V3InboundMessage) : Dispatch unit :=
  fun ctx =>
    if negb (is_usm (security_model m)) then
      emit_report_response UnknownSecurityModels UNKNOWN_SECURITY_MODELS_OID (msg_id m) (security_flags (usm m)) ctx
    else if is_nil (auth_engine_id (usm m)) then
      emit_report_response UnknownEngineIds UNKNOWN_ENGINE_IDS_OID (msg_id m) (security_flags (usm m)) ctx
    else if negb (bytes_eqb (msg_engine_id m) (engine_id (inputs ctx))) then
      emit_report_response UnknownEngineIds UNKNOWN_ENGINE_IDS_OID (msg_id m) (security_flags (usm m)) ctx
    else dret tt ctx.

Definition check_user_name (m : V3InboundMessage) : Dispatch unit :=
  fun ctx =>
    let name_matches :=
      match usm_user (inputs ctx) with
      | None => true
      | Some user => bytes_eqb (msg_user_name m) (user_name_bytes (user_name user))
      end in
    if negb name_matches then
      emit_report_response UnknownUserNames UNKNOWN_USER_NAMES_OID (msg_id m) (security_flags (usm m)) ctx
    else dret tt ctx.

Definition check_security_level (m : V3InboundMessage) : Dispatch unit :=
  fun ctx =>
    let msg_level := flags_security_level (security_flags (usm m)) in
    if should_reject_security_level (inputs ctx) msg_level then
      emit_report_response UnsupportedSecLevels UNSUPPORTED_SEC_LEVELS_OID (msg_id m) (security_flags (usm m)) ctx
    else dret tt ctx.

Definition payload_is_encrypted (m : V3InboundMessage) : bool :=
  match scoped_data m with Encrypted _ => true | Plaintext _ => false end.

Definition check_priv_flag_agreement (m : V3InboundMessage) : Dispatch unit :=
  if Bool.eqb (is_priv (security_flags (usm m))) (payload_is_encrypted m) then dret tt else dfail Discard.

Definition zero_auth_params_in_message (raw : bytes) (offset n : Z) : bytes :=
  match usize_checked_add offset n with
  | None => raw
  | Some end_ =>
      match get_range raw offset end_ with
      | None => raw
      | Some target =>
          take (Z.to_nat offset) raw ++ replicate (length target) 0 ++ drop (Z.to_nat end_) raw
      end
  end.

Record HmacInput := MkHmacInput { hi_raw_message : bytes; hi_auth_params : bytes; hi_auth_params_offset : option Z }.

Definition verify_hmac (p : AuthProtocol) (k : SecretKey) (h : HmacInput) : bool :=
  match hi_auth_params_offset h with
  | None => false
  | Some offset =>
      let zeroed := zero_auth_params_in_message (hi_raw_message h) offset (len (hi_auth_params h)) in
      is_ok (verify_mac p k zeroed (hi_auth_params h))
  end.

Definition verify_authentication (m : V3InboundMessage) : Dispatch unit :=
  fun ctx =>
    match usm_user (inputs ctx) with
    | None => dret tt ctx
    | Some user =>
        match auth_protocol user, auth_key user with
        | Some p, Some k =>
            let auth_params_bytes := match auth_params (usm m) with Some a => auth_params_bytes a | None => [] end in
            let hmac_valid :=
              verify_hmac p k {| hi_raw_message := raw_message m; hi_auth_params := auth_params_bytes;
                                 hi_auth_params_offset := auth_params_offset m |} in
            if negb hmac_valid then
              emit_report_response WrongDigests WRONG_DIGESTS_OID (msg_id m) (security_flags (usm m)) ctx
            else dret tt ctx
        | _, _ => dret tt ctx
        end
    end.

Definition check_time_window (m : V3InboundMessage) : Dispatch unit :=
  fun ctx =>
    match usm_user (inputs ctx) with
    | None => dret tt ctx
    | Some user =>
        match auth_protocol user with
        | None => dret tt ctx
        | Some _ =>
            let in_time_window :=
              is_in_time_window (auth_engine_boots (usm m)) (auth_engine_time (usm m))
                (engine_boots (inputs ctx)) (engine_time (inputs ctx)) in
            if negb in_time_window then
              emit_report_response NotInTimeWindows NOT_IN_TIME_WINDOWS_OID (msg_id m) (security_flags (usm m)) ctx
            else dret tt ctx
        end
    end.

Definition check_context_name (m : V3InboundMessage) : Dispatch unit :=
  if is_nil (msg_context_name m) then dret tt else dfail Discard.

(** ** Decryption *)

Record DecryptionParams := MkDecryptionParams {
  dp_msg_id : MessageId; dp_security_flags : MsgFlags; dp_priv_params : option PrivacySalt;
  dp_auth_engine_boots : EngineBoots; dp_auth_engine_time : EngineTime }.

(** [user.priv_protocol().zip(user.priv_key())] and the same for authentication. *)
Definition priv_pair (u : option UsmUser) : option (PrivProtocol * SecretKey) :=
  user ← u; p ← priv_protocol user; k ← priv_key user; Some (p, k).
Definition auth_pair (u : option UsmUser) : option (AuthProtocol * SecretKey) :=
  user ← u; p ← auth_protocol user; k ← auth_key user; Some (p, k).

Definition decrypt_scoped_pdu (d : DecryptionParams) (ciphertext : bytes) : Dispatch (InboundPdu * bytes) :=
  fun ctx =>
    let decryption_error : Dispatch (InboundPdu * bytes) :=
      emit_report_response DecryptionErrors DECRYPTION_ERRORS_OID (dp_msg_id d) (dp_security_flags d) in
    match priv_pair (usm_user (inputs ctx)) with
    | None => (Err Discard, ctx)
    | Some (protocol, key) =>
        match dp_priv_params d with
        | None => decryption_error ctx
        | Some salt =>
            let aes_iv := build_iv (dp_auth_engine_boots d) (dp_auth_engine_time d) (salt_bytes salt) in
            match decrypt protocol key aes_iv ciphertext with
            | Err _ => decryption_error ctx
            | Ok scoped_pdu_bytes =>
                match decode_scoped_pdu scoped_pdu_bytes with
                | Err _ => decryption_error ctx
                | Ok decoded =>
                    if negb (bytes_eqb (dsp_context_engine_id decoded) (engine_id (inputs ctx))) then
                      emit_report_response UnknownEngineIds UNKNOWN_ENGINE_IDS_OID (dp_msg_id d)
                        (dp_security_flags d) ctx
                    else if negb (is_nil (dsp_context_name decoded)) then (Err Discard, ctx)
                    else (Ok (dsp_pdu decoded, dsp_context_name decoded), ctx)
                end
            end
        end
    end.

(** ** Handlers and response *)

Record ResponseEnvelope := MkResponseEnvelope {
  re_msg_id : MessageId; re_max_size : Z; re_user_name : bytes; re_context_name : bytes }.

(** The handler chosen by the PDU type. *)
Definition handle_pdu (envelope : ResponseEnvelope) (mib : Store) (inbound_pdu : InboundPdu) : GetResponse :=
  match inbound_pdu with
  | PduGetRequest req => handle_get req mib
  | PduGetNextRequest req => handle_get_next req mib
  | PduGetBulkRequest req =>
      let effective_max_size := Z.min (if 0 <=? re_max_size envelope then re_max_size envelope else 0) MAX_FRAME_SIZE in
      handle_get_bulk req mib MAX_BULK_REPETITIONS effective_max_size
  | PduSetRequest req => handle_set req
  end.

Definition dispatch_pdu_and_encode_response (seed : Z) (salt : SaltState) (ctx : DispatchContext)
    (envelope : ResponseEnvelope) (mib : Store) (inbound_pdu : InboundPdu) : option bytes * SaltState :=
  let response := handle_pdu envelope mib inbound_pdu in
  let response_auth := auth_pair (usm_user (inputs ctx)) in
  let response_priv := priv_pair (usm_user (inputs ctx)) in
  let '(r, salt) :=
    encode_v3_response seed salt (re_msg_id envelope) (engine_id (inputs ctx)) (re_user_name envelope)
      (re_context_name envelope) (engine_boots (inputs ctx)) (engine_time (inputs ctx))
      response_auth response_priv response in
  (result_ok r, salt).

(** The checks of [run_validation_pipeline] up to decryption: the PDU to serve and
    its context name. *)
Definition validate (m : V3InboundMessage) : Dispatch (InboundPdu * bytes) :=
  do! check_message_envelope m in
  do! check_user_name m in
  do! check_security_level m in
  do! check_priv_flag_agreement m in
  do! verify_authentication m in
  do! check_time_window m in
  do! check_context_name m in
  match scoped_data m with
  | Plaintext pdu => dret (pdu, msg_context_name m)
  | Encrypted ciphertext =>
      decrypt_scoped_pdu
        {| dp_msg_id := msg_id m; dp_security_flags := security_flags (usm m);
           dp_priv_params := priv_params (usm m); dp_auth_engine_boots := auth_engine_boots (usm m);
           dp_auth_engine_time := auth_engine_time (usm m) |} ciphertext
  end.

Definition run_validation_pipeline (seed : Z) (salt : SaltState) (frame : bytes) (mib : Store) (ctx : DispatchContext)
    : result bytes Reject * DispatchContext * SaltState :=
  match decode_v3_message frame with
  | Err _ => (Err Discard, ctx, salt)
  | Ok m =>
      match validate m ctx with
      | (Err r, ctx) => (Err r, ctx, salt)
      | (Ok (inbound_pdu, response_context_name), ctx) =>
          let '(r, salt) :=
            dispatch_pdu_and_encode_response seed salt ctx
              {| re_msg_id := msg_id m; re_max_size := max_size m; re_user_name := msg_user_name m;
                 re_context_name := response_context_name |} mib inbound_pdu in
          (ok_or r Discard, ctx, salt)
      end
  end.

Definition process_snmpv3_request (seed : Z) (salt : SaltState) (frame : bytes) (ctx : DispatchContext) (mib : Store)
    : option bytes * DispatchContext * SaltState :=
  let '(r, ctx, salt) := run_validation_pipeline seed salt frame mib ctx in
  (match r with Ok response => Some response | Err reject => reject_into_option reject end, ctx, salt).

End Pipeline.

(** ** Inversion of the pipeline *)

(** Everything but the counters. *)
Definition same_config (i j : DispatchInputs) : Prop :=
  engine_id i = engine_id j /\ engine_boots i = engine_boots j /\ engine_time i = engine_time j /\
  usm_user i = usm_user j /\ minimum_security_level i = minimum_security_level j.

#[export] Instance same_config_equiv : Equivalence same_config.
Proof. split; unfold same_config; [by intros i|intros i j H; intuition congruence|intros i j k H1 H2; intuition congruence]. Qed.

(** A step that counted a message in [c]: that counter moves by one, saturating at
    [u32::MAX], and nothing else changes. *)
Definition counted (c : Counter) (ctx ctx' : DispatchContext) : Prop :=
  select_counter c (inputs ctx') = Z.min (select_counter c (inputs ctx) + 1) U32_MAX /\
  (forall c', c' <> c -> select_counter c' (inputs ctx') = select_counter c' (inputs ctx)) /\
  same_config (inputs ctx) (inputs ctx').

Lemma update_counter_counted c ctx :
  counted c ctx (MkDispatchContext (update_counter c counter_saturating_increment (inputs ctx))).
Proof. split_and!; [by destruct c| |done]. intros c' Hne. by destruct c, c'. Qed.

Section Inversion.
  Context `{CryptoOps}.

(** The counter object a Report about [c] carries. *)
Definition counter_oid (c : Counter) : Oid :=
  match c with
  | UnknownEngineIds => UNKNOWN_ENGINE_IDS_OID
  | UnknownUserNames => UNKNOWN_USER_NAMES_OID
  | UnsupportedSecLevels => UNSUPPORTED_SEC_LEVELS_OID
  | WrongDigests => WRONG_DIGESTS_OID
  | NotInTimeWindows => NOT_IN_TIME_WINDOWS_OID
  | DecryptionErrors => DECRYPTION_ERRORS_OID
  | UnknownSecurityModels => UNKNOWN_SECURITY_MODELS_OID
  end.

(** What is sent back for a message counted in [c]. *)
Definition report_for (c : Counter) (m : V3InboundMessage) (ctx : DispatchContext) : Reject :=
  if negb (is_reportable (security_flags (usm m))) then Discard
  else match encode_v3_report (msg_id m) (engine_id (inputs ctx)) (engine_boots (inputs ctx)) (engine_time (inputs ctx))
               (counter_oid c) (counter_saturating_increment (select_counter c (inputs ctx))) with
       | Ok b => Report b
       | Err _ => Discard
       end.

Definition rejects (c : Counter) (m : V3InboundMessage) (ctx : DispatchContext) (r : Reject) (ctx' : DispatchContext) : Prop :=
  counted c ctx ctx' /\ r = report_for c m ctx.

Lemma emit_report_rejects {A} c m ctx :
  exists r ctx', emit_report_response (A := A) c (counter_oid c) (msg_id m) (security_flags (usm m)) ctx = (Err r, ctx') /\
    rejects c m ctx r ctx'.
Proof.
  exists (report_for c m ctx), (MkDispatchContext (update_counter c counter_saturating_increment (inputs ctx))).
  split; [|split; [apply update_counter_counted|done]]. unfold emit_report_response, report_for.
  destruct (is_reportable (security_flags (usm m))); cbn [negb]; [|done].
  replace (select_counter c (update_counter c counter_saturating_increment (inputs ctx)))
    with (counter_saturating_increment (select_counter c (inputs ctx))) by (by destruct c).
  done.
Qed.

(** What each check establishes when it passes. *)
Definition envelope_ok (i : DispatchInputs) (m : V3InboundMessage) : Prop :=
  security_model m = SecurityModel_USM /\ auth_engine_id (usm m) <> [] /\ msg_engine_id m = engine_id i.

Definition user_ok (i : DispatchInputs) (m : V3InboundMessage) : Prop :=
  match usm_user i with None => True | Some u => msg_user_name m = user_name_bytes (user_name u) end.

Definition level_ok (i : DispatchInputs) (m : V3InboundMessage) : Prop :=
  exists level, flags_security_level (security_flags (usm m)) = Ok level /\
    level_rank (minimum_security_level i) <= level_rank level /\
    level_rank level <= match usm_user i with Some u => level_rank (user_security_level u) | None => 0 end.

Definition priv_flag_ok (m : V3InboundMessage) : Prop :=
  is_priv (security_flags (usm m)) = payload_is_encrypted m.

Definition hmac_input (m : V3InboundMessage) : HmacInput :=
  {| hi_raw_message := raw_message m;
     hi_auth_params := match auth_params (usm m) with Some a => auth_params_bytes a | None => [] end;
     hi_auth_params_offset := auth_params_offset m |}.

Definition mac_ok (i : DispatchInputs) (m : V3InboundMessage) : Prop :=
  match auth_pair (usm_user i) with None => True | Some (p, k) => verify_hmac p k (hmac_input m) = true end.

Definition time_ok (i : DispatchInputs) (m : V3InboundMessage) : Prop :=
  match auth_pair (usm_user i) with
  | None => True
  | Some _ => auth_engine_boots (usm m) = engine_boots i /\ Z.abs (auth_engine_time (usm m) - engine_time i) <= 150
  end.

Lemma auth_pair_Some u : auth_pair (Some u) = (c ← auth_credentials u; Some (ac_protocol c, ac_key c)).
Proof. unfold auth_pair, auth_protocol, auth_key. cbn. by destruct (auth_credentials u). Qed.

Lemma priv_pair_Some u : priv_pair (Some u) = (c ← priv_credentials u; Some (pc_protocol c, pc_key c)).
Proof. unfold priv_pair, priv_protocol, priv_key. cbn. by destruct (priv_credentials u). Qed.

(** Every check either passes, leaving the context as it was, or rejects and
    counts the message; passing is equivalent to its condition. *)
Lemma check_message_envelope_spec m ctx :
  envelope_ok (inputs ctx) m /\ check_message_envelope m ctx = (Ok tt, ctx) \/
  ~ envelope_ok (inputs ctx) m /\ exists r ctx', check_message_envelope m ctx = (Err r, ctx') /\
    rejects (if decide (security_model m = SecurityModel_USM) then UnknownEngineIds else UnknownSecurityModels) m ctx r ctx'.
Proof.
  unfold check_message_envelope, envelope_ok, is_usm.
  destruct (Z.eqb_spec (security_model m) SecurityModel_USM) as [E|E]; cbn [negb].
  2: { right. rewrite decide_False by done. split; [tauto|]. apply (emit_report_rejects UnknownSecurityModels). }
  rewrite decide_True by done. destruct (auth_engine_id (usm m)) as [|x l]; cbn [is_nil].
  { right. split; [tauto|]. apply (emit_report_rejects UnknownEngineIds). }
  unfold bytes_eqb. case_bool_decide; cbn [negb]; [by left|].
  right. split; [tauto|]. apply (emit_report_rejects UnknownEngineIds).
Qed.

Lemma simple_check_spec (P : Prop) (b : bool) c m ctx :
  (b = true <-> ~ P) -> (P \/ ~ P) ->
  P /\ (if b then emit_report_response c (counter_oid c) (msg_id m) (security_flags (usm m)) ctx else dret tt ctx) = (Ok tt, ctx) \/
  ~ P /\ exists r ctx',
    (if b then emit_report_response c (counter_oid c) (msg_id m) (security_flags (usm m)) ctx else dret tt ctx) = (Err r, ctx') /\
    rejects c m ctx r ctx'.
Proof.
  intros Hb HP. destruct b.
  - right. split; [by apply Hb|]. apply emit_report_rejects.
  - left. split; [|done]. destruct HP as [|HP]; [done|]. by apply Hb in HP.
Qed.

Lemma check_user_name_spec m ctx :
  user_ok (inputs ctx) m /\ check_user_name m ctx = (Ok tt, ctx) \/
  ~ user_ok (inputs ctx) m /\ exists r ctx', check_user_name m ctx = (Err r, ctx') /\
    rejects UnknownUserNames m ctx r ctx'.
Proof.
  unfold check_user_name, user_ok. apply (simple_check_spec _ _ UnknownUserNames).
  - destruct (usm_user (inputs ctx)) as [u|]; cbn; [|naive_solver]. unfold bytes_eqb. case_bool_decide; naive_solver.
  - destruct (usm_user (inputs ctx)) as [u|]; [|auto]. destruct (decide (msg_user_name m = user_name_bytes (user_name u))); auto.
Qed.

Lemma should_reject_spec i fl :
  should_reject_security_level i (flags_security_level fl) = false <->
  exists level, flags_security_level fl = Ok level /\
    level_rank (minimum_security_level i) <= level_rank level /\
    level_rank level <= match usm_user i with Some u => level_rank (user_security_level u) | None => 0 end.
Proof.
  unfold should_reject_security_level. destruct (flags_security_level fl) as [level|e]; [|naive_solver].
  unfold level_ltb. split.
  - intros [[H1 H2]%orb_false_iff H3]%orb_false_iff. exists level. split; [done|]. apply Z.ltb_ge in H1.
    destruct (usm_user i); [apply Z.ltb_ge in H2|apply Z.ltb_ge in H3; cbn in H3]; lia.
  - intros (l & [= <-] & H1 & H2). apply orb_false_iff. split; [apply orb_false_iff; split|].
    + by apply Z.ltb_ge.
    + destruct (usm_user i); [by apply Z.ltb_ge|done].
    + destruct (usm_user i); [done|]. by apply Z.ltb_ge.
Qed.

Lemma check_security_level_spec m ctx :
  level_ok (inputs ctx) m /\ check_security_level m ctx = (Ok tt, ctx) \/
  ~ level_ok (inputs ctx) m /\ exists r ctx', check_security_level m ctx = (Err r, ctx') /\
    rejects UnsupportedSecLevels m ctx r ctx'.
Proof.
  unfold check_security_level, level_ok. rewrite <-should_reject_spec. apply (simple_check_spec _ _ UnsupportedSecLevels);
    destruct (should_reject_security_level _ _); naive_solver.
Qed.

Lemma verify_authentication_spec m ctx :
  mac_ok (inputs ctx) m /\ verify_authentication m ctx = (Ok tt, ctx) \/
  ~ mac_ok (inputs ctx) m /\ exists r ctx', verify_authentication m ctx = (Err r, ctx') /\
    rejects WrongDigests m ctx r ctx'.
Proof.
  unfold verify_authentication, mac_ok. destruct (usm_user (inputs ctx)) as [u|]; [|by left].
  rewrite auth_pair_Some. unfold auth_protocol, auth_key. destruct (auth_credentials u) as [[p k]|]; [|by left].
  cbn. fold (hmac_input m). apply (simple_check_spec _ _ WrongDigests); destruct (verify_hmac p k (hmac_input m)); naive_solver.
Qed.

Lemma check_time_window_spec m ctx :
  time_ok (inputs ctx) m /\ check_time_window m ctx = (Ok tt, ctx) \/
  ~ time_ok (inputs ctx) m /\ exists r ctx', check_time_window m ctx = (Err r, ctx') /\
    rejects NotInTimeWindows m ctx r ctx'.
Proof.
  unfold check_time_window, time_ok. destruct (usm_user (inputs ctx)) as [u|]; [|by left].
  rewrite auth_pair_Some. unfold auth_protocol. destruct (auth_credentials u) as [[p k]|]; [|by left].
  cbn. unfold is_in_time_window. apply (simple_check_spec _ _ NotInTimeWindows).
  - destruct (Z.eqb_spec (auth_engine_boots (usm m)) (engine_boots (inputs ctx))); cbn; [|naive_solver].
    destruct (Z.leb_spec (Z.abs (auth_engine_time (usm m) - engine_time (inputs ctx))) 150); cbn; naive_solver lia.
  - destruct (decide (auth_engine_boots (usm m) = engine_boots (inputs ctx))); [|naive_solver].
    destruct (decide (Z.abs (auth_engine_time (usm m) - engine_time (inputs ctx)) <= 150)); naive_solver.
Qed.

End Inversion.

Section Validate.
  Context `{CryptoOps}.

(** The conditions a served message satisfies, in the order of the checks. *)
Record passes (i : DispatchInputs) (m : V3InboundMessage) : Prop := {
  passes_envelope : envelope_ok i m;
  passes_user : user_ok i m;
  passes_level : level_ok i m;
  passes_priv_flag : priv_flag_ok m;
  passes_mac : mac_ok i m;
  passes_time : time_ok i m;
  passes_context : msg_context_name m = [];
}.

(** The PDU the message carries, in clear or after decryption. *)
Definition scoped_opens (i : DispatchInputs) (m : V3InboundMessage) (pdu : InboundPdu) : Prop :=
  match scoped_data m with
  | Plaintext p => pdu = p
  | Encrypted ct => exists p k salt plain d,
      priv_pair (usm_user i) = Some (p, k) /\ priv_params (usm m) = Some salt /\
      decrypt p k (build_iv (auth_engine_boots (usm m)) (auth_engine_time (usm m)) (salt_bytes salt)) ct = Ok plain /\
      decode_scoped_pdu plain = Ok d /\ dsp_context_engine_id d = engine_id i /\ dsp_context_name d = [] /\
      pdu = dsp_pdu d
  end.

(** The scoped PDU recovered from the ciphertext of [m]. *)
Definition decrypts_to (i : DispatchInputs) (m : V3InboundMessage) (ct : bytes) (d : DecodedScopedPdu) : Prop :=
  exists p k salt plain, priv_pair (usm_user i) = Some (p, k) /\ priv_params (usm m) = Some salt /\
    decrypt p k (build_iv (auth_engine_boots (usm m)) (auth_engine_time (usm m)) (salt_bytes salt)) ct = Ok plain /\
    decode_scoped_pdu plain = Ok d.

(** Why an encrypted payload is refused, and the counter it is counted in, if any. *)
Inductive scoped_refusal (i : DispatchInputs) (m : V3InboundMessage) (ct : bytes) : option Counter -> Prop :=
| refused_no_privacy_key : priv_pair (usm_user i) = None -> scoped_refusal i m ct None
| refused_undecipherable : priv_pair (usm_user i) <> None -> (forall d, ~ decrypts_to i m ct d) ->
    scoped_refusal i m ct (Some DecryptionErrors)
| refused_foreign_context_engine d : decrypts_to i m ct d -> dsp_context_engine_id d <> engine_id i ->
    scoped_refusal i m ct (Some UnknownEngineIds)
| refused_foreign_context d : decrypts_to i m ct d -> dsp_context_engine_id d = engine_id i -> dsp_context_name d <> [] ->
    scoped_refusal i m ct None.

(** The first check a message fails, in the order of the pipeline, and the
    counter it is counted in, if any. *)
Inductive refusal (i : DispatchInputs) (m : V3InboundMessage) : option Counter -> Prop :=
| refused_model : security_model m <> SecurityModel_USM -> refusal i m (Some UnknownSecurityModels)
| refused_engine : security_model m = SecurityModel_USM -> ~ envelope_ok i m -> refusal i m (Some UnknownEngineIds)
| refused_user : envelope_ok i m -> ~ user_ok i m -> refusal i m (Some UnknownUserNames)
| refused_level : envelope_ok i m -> user_ok i m -> ~ level_ok i m -> refusal i m (Some UnsupportedSecLevels)
| refused_priv_flag : envelope_ok i m -> user_ok i m -> level_ok i m -> ~ priv_flag_ok m -> refusal i m None
| refused_mac : envelope_ok i m -> user_ok i m -> level_ok i m -> priv_flag_ok m -> ~ mac_ok i m ->
    refusal i m (Some WrongDigests)
| refused_time : envelope_ok i m -> user_ok i m -> level_ok i m -> priv_flag_ok m -> mac_ok i m -> ~ time_ok i m ->
    refusal i m (Some NotInTimeWindows)
| refused_context : envelope_ok i m -> user_ok i m -> level_ok i m -> priv_flag_ok m -> mac_ok i m -> time_ok i m ->
    msg_context_name m <> [] -> refusal i m None
| refused_scoped ct oc : passes i m -> scoped_data m = Encrypted ct -> scoped_refusal i m ct oc -> refusal i m oc.

Definition decryption_params (m : V3InboundMessage) : DecryptionParams :=
  {| dp_msg_id := msg_id m; dp_security_flags := security_flags (usm m);
     dp_priv_params := priv_params (usm m); dp_auth_engine_boots := auth_engine_boots (usm m);
     dp_auth_engine_time := auth_engine_time (usm m) |}.

(** What a refusal with cause [oc] does: nothing, or counting and reporting. *)
Definition refuses (oc : option Counter) (m : V3InboundMessage) (ctx : DispatchContext) (r : Reject) (ctx' : DispatchContext) : Prop :=
  match oc with None => r = Discard /\ ctx' = ctx | Some c => rejects c m ctx r ctx' end.

(** Decryption serves the PDU, or refuses the message with its cause. *)
Lemma decrypt_scoped_pdu_spec m ct ctx :
  scoped_data m = Encrypted ct ->
  (exists pdu, decrypt_scoped_pdu (decryption_params m) ct ctx = (Ok (pdu, []), ctx) /\ scoped_opens (inputs ctx) m pdu) \/
  exists oc r ctx', scoped_refusal (inputs ctx) m ct oc /\
    decrypt_scoped_pdu (decryption_params m) ct ctx = (Err r, ctx') /\ refuses oc m ctx r ctx'.
Proof.
  intros Hm. unfold decrypt_scoped_pdu, scoped_opens. rewrite Hm. cbn [dp_priv_params decryption_params
    dp_auth_engine_boots dp_auth_engine_time dp_msg_id dp_security_flags].
  assert (Hrep : forall c, scoped_refusal (inputs ctx) m ct (Some c) -> exists oc r ctx', scoped_refusal (inputs ctx) m ct oc /\
    emit_report_response (A := InboundPdu * bytes) c (counter_oid c) (msg_id m) (security_flags (usm m)) ctx = (Err r, ctx') /\
    refuses oc m ctx r ctx').
  { intros c Hc. destruct (emit_report_rejects (A := InboundPdu * bytes) c m ctx) as (r & ctx' & E & Hr). by exists (Some c), r, ctx'. }
  assert (Hfail : (forall d, ~ decrypts_to (inputs ctx) m ct d) -> priv_pair (usm_user (inputs ctx)) <> None ->
    scoped_refusal (inputs ctx) m ct (Some DecryptionErrors)) by (intros; by apply refused_undecipherable).
  destruct (priv_pair (usm_user (inputs ctx))) as [[p k]|] eqn:Ep.
  2: { right. exists None, Discard, ctx. split; [by apply refused_no_privacy_key|done]. }
  unfold decrypts_to in Hfail. rewrite Ep in Hfail.
  destruct (priv_params (usm m)) as [salt|] eqn:Es; [|right; apply (Hrep DecryptionErrors), Hfail; [|done]; intros d (p' & k' & s' & x & ? & ? & ? & ?); congruence].
  destruct (decrypt p k _ ct) as [plain|] eqn:Ed; [|right; apply (Hrep DecryptionErrors), Hfail; [|done]; intros d (p' & k' & s' & x & ? & ? & ? & ?); congruence].
  destruct (decode_scoped_pdu plain) as [d|] eqn:Edec; [|right; apply (Hrep DecryptionErrors), Hfail; [|done]; intros d (p' & k' & s' & x & ? & ? & ? & ?); congruence].
  assert (Hd : decrypts_to (inputs ctx) m ct d) by (by exists p, k, salt, plain).
  unfold bytes_eqb. case_bool_decide as Hce; cbn [negb].
  2: { right. apply (Hrep UnknownEngineIds). by apply (refused_foreign_context_engine _ _ _ d). }
  destruct (dsp_context_name d) as [|x l] eqn:Ec; cbn [is_nil negb].
  - left. exists (dsp_pdu d). split; [done|]. by exists p, k, salt, plain, d.
  - right. exists None, Discard, ctx. split; [|done]. apply (refused_foreign_context _ _ _ d); congruence.
Qed.

(** How [validate] can end. *)
Inductive outcome (i : DispatchInputs) (m : V3InboundMessage) (ctx : DispatchContext)
    : result (InboundPdu * bytes) Reject * DispatchContext -> Prop :=
| outcome_served pdu : passes i m -> scoped_opens i m pdu -> outcome i m ctx (Ok (pdu, []), ctx)
| outcome_refused oc r ctx' : refusal i m oc -> refuses oc m ctx r ctx' -> outcome i m ctx (Err r, ctx').

Lemma validate_outcome m ctx : outcome (inputs ctx) m ctx (validate m ctx).
Proof.
  unfold validate.
  destruct (check_message_envelope_spec m ctx) as [[H1 E1]|[H1 (r & ctx' & E1 & Hk)]]; unfold dbind; rewrite E1.
  2: { eapply (outcome_refused _ _ _ (Some _)); [|exact Hk]. case_decide; by constructor. }
  destruct (check_user_name_spec m ctx) as [[H2 E2]|[H2 (r & ctx' & E2 & Hk)]]; rewrite E2.
  2: { eapply (outcome_refused _ _ _ (Some _)); [by constructor|exact Hk]. }
  destruct (check_security_level_spec m ctx) as [[H3 E3]|[H3 (r & ctx' & E3 & Hk)]]; rewrite E3.
  2: { eapply (outcome_refused _ _ _ (Some _)); [by constructor|exact Hk]. }
  unfold check_priv_flag_agreement.
  destruct (Bool.eqb (is_priv _) _) eqn:E4; unfold dret, dfail.
  2: { apply (outcome_refused _ _ _ None); [|done]. apply refused_priv_flag; [done..|].
       unfold priv_flag_ok. intros Hp. by rewrite Hp, eqb_reflx in E4. }
  apply eqb_prop in E4.
  destruct (verify_authentication_spec m ctx) as [[H5 E5]|[H5 (r & ctx' & E5 & Hk)]]; rewrite E5.
  2: { eapply (outcome_refused _ _ _ (Some _)); [by apply refused_mac|exact Hk]. }
  destruct (check_time_window_spec m ctx) as [[H6 E6]|[H6 (r & ctx' & E6 & Hk)]]; rewrite E6.
  2: { eapply (outcome_refused _ _ _ (Some _)); [by apply refused_time|exact Hk]. }
  unfold check_context_name. destruct (msg_context_name m) as [|x l] eqn:E7; cbn [is_nil]; cbv beta iota delta [dret dfail].
  2: { apply (outcome_refused _ _ _ None); [|done]. apply refused_context; try done. congruence. }
  assert (Hpass : passes (inputs ctx) m) by done.
  destruct (scoped_data m) as [pdu|ct] eqn:E8.
  - apply outcome_served; [done|]. unfold scoped_opens. by rewrite E8.
  - destruct (decrypt_scoped_pdu_spec m ct ctx E8) as [(pdu & E9 & Ho)|(oc & r & ctx' & Hr & E9 & Hk)];
      unfold decryption_params in E9; rewrite E9; [by apply outcome_served|].
    apply (outcome_refused _ _ _ oc); [by eapply refused_scoped|done].
Qed.

Lemma decrypts_to_functional i m ct d d' : decrypts_to i m ct d -> decrypts_to i m ct d' -> d = d'.
Proof. intros (p & k & s & x & ? & ? & ? & ?) (p' & k' & s' & x' & ? & ? & ? & ?). simplify_eq. congruence. Qed.

Lemma decrypts_to_key i m ct d : decrypts_to i m ct d -> priv_pair (usm_user i) <> None.
Proof. intros (p & k & s & x & E & _). by rewrite E. Qed.

(** A message has at most one cause of refusal, and a served message has none. *)
Lemma scoped_refusal_functional i m ct oc oc' : scoped_refusal i m ct oc -> scoped_refusal i m ct oc' -> oc = oc'.
Proof.
  intros [Hk|Hk Hd|d Hd Hx|d Hd Hx Hy] [Hk'|Hk' Hd'|d' Hd' Hx'|d' Hd' Hx' Hy']; try done;
    try (by exfalso; eapply decrypts_to_key); try (by exfalso; eapply Hd; eauto); try (by exfalso; eapply Hd'; eauto);
    by pose proof (decrypts_to_functional _ _ _ _ _ Hd Hd'); subst.
Qed.

Lemma refusal_functional i m oc oc' : refusal i m oc -> refusal i m oc' -> oc = oc'.
Proof.
  assert (Hpass : passes i m -> forall oc, refusal i m oc -> exists ct, scoped_data m = Encrypted ct /\ scoped_refusal i m ct oc).
  { intros [H1 H2 H3 H4 H5 H6 H7] x Hx. destruct Hx; eauto; exfalso; try tauto. by destruct H1. }
  intros H1 H2. destruct H1 as [| | | | | | | |ct oc Hp Hc Hs].
  9: { apply (Hpass Hp) in H2 as (ct' & Hc' & Hs'). rewrite Hc in Hc'. injection Hc' as <-.
       exact (scoped_refusal_functional _ _ _ _ _ Hs Hs'). }
  all: destruct H2 as [| | | | | | | |? ? []]; unfold envelope_ok in *; try done; exfalso; tauto.
Qed.

Lemma refusal_not_served i m oc pdu : refusal i m oc -> ~ (passes i m /\ scoped_opens i m pdu).
Proof.
  intros Hr [[H1 H2 H3 H4 H5 H6 H7] Hs]. destruct Hr as [Hm| | | | | | | |ct oc Hp Hc Hr]; try done.
  - by destruct H1.
  - unfold scoped_opens in Hs. rewrite Hc in Hs. destruct Hs as (p & k & salt & plain & d & E1 & E2 & E3 & E4 & E5 & E6 & _).
    assert (Hd : decrypts_to i m ct d) by (by exists p, k, salt, plain).
    destruct Hr as [|? Hn|d' Hd' Hx|d' Hd' Hx Hy]; [congruence|by eapply Hn| |];
      pose proof (decrypts_to_functional _ _ _ _ _ Hd Hd'); by subst.
Qed.

End Validate.

(** ** Authentication covers exactly the received octets *)

Lemma zero_auth_params_slice pre a post :
  len (pre ++ a ++ post) <= ISIZE_MAX ->
  zero_auth_params_in_message (pre ++ a ++ post) (len pre) (len a) = pre ++ replicate (length a) 0 ++ post.
Proof.
  intros Hl. unfold zero_auth_params_in_message, usize_checked_add.
  pose proof (len_nonneg post). rewrite !len_app in Hl. unfold ISIZE_MAX in Hl.
  btrue (len pre + len a <=? USIZE_MAX). rewrite get_range_app, take_len_app. do 2 f_equal.
  rewrite <-len_app, app_assoc. apply drop_len_app.
Qed.

(** The frame [m] was decoded from carries a valid MAC under [k]: the octets of its
    [msgAuthenticationParameters], at their place in the frame, are the MAC of the
    frame with these octets zeroed. *)
Definition frame_authentic `{CryptoOps} (p : AuthProtocol) (k : SecretKey) (frame : bytes) (m : V3InboundMessage) : Prop :=
  exists pre mac post, frame = pre ++ mac ++ post /\ len mac = mac_len p /\
    auth_params (usm m) = Some (MkAuthenticationParams mac) /\ auth_params_offset m = Some (len pre) /\
    compute_mac p k (pre ++ replicate (length mac) 0 ++ post) = Ok mac.

Lemma verify_hmac_authentic `{CryptoOps, !CryptoLaws} p k frame m :
  message_wf frame m -> len frame <= ISIZE_MAX -> verify_hmac p k (hmac_input m) = true -> frame_authentic p k frame m.
Proof.
  intros (Hraw & _ & _ & _ & _ & _ & _ & _ & _ & _ & Hoff) Hl Hv. unfold verify_hmac, hmac_input in Hv. cbn in Hv.
  destruct (auth_params_offset m) as [off|] eqn:Eo; [|done]. cbn in Hoff.
  destruct (auth_params (usm m)) as [[a]|] eqn:Ea; [cbn in Hoff, Hv|by destruct Hoff].
  destruct Hoff as (Hne & pre & post & E & <-). rewrite Hraw, E in Hv. rewrite E in Hl.
  rewrite zero_auth_params_slice in Hv by done.
  destruct (verify_mac p k _ a) as [[]|] eqn:Ev; [|done]. apply verify_mac_ok in Ev.
  exists pre, a, post. split_and!; [done|by eapply compute_mac_len|done..].
Qed.

Lemma run_Ok_inv `{CryptoOps} seed salt frame mib ctx resp ctx' salt' :
  run_validation_pipeline seed salt frame mib ctx = (Ok resp, ctx', salt') ->
  exists m pdu, decode_v3_message frame = Ok m /\ passes (inputs ctx) m /\ scoped_opens (inputs ctx) m pdu /\ ctx' = ctx /\
    dispatch_pdu_and_encode_response seed salt ctx
      {| re_msg_id := msg_id m; re_max_size := max_size m; re_user_name := msg_user_name m; re_context_name := [] |}
      mib pdu = (Some resp, salt').
Proof.
  unfold run_validation_pipeline. intros HE. destruct (decode_v3_message frame) as [m|]; [|done].
  pose proof (validate_outcome m ctx) as Ho.
  destruct (validate m ctx) as [[[pdu cn]|r] ctx1]; [|done].
  inversion Ho as [pdu' Hp Hs|]; subst.
  destruct (dispatch_pdu_and_encode_response _ _ _ _ _ _) as [[b|] st1] eqn:Ed; [|done].
  injection HE as <- <- <-. by exists m, pdu.
Qed.

(** ** Properties *)

(** Claim C1: nothing is served without authentication.  Whatever frame arrives, if
    the pipeline produces a response then the frame decodes to a USM message for
    this engine whose user name is the configured user's; its security level is
    between the configured minimum and what the user supports (noAuthNoPriv when no
    user is configured); its privacy flag agrees with its payload; the counters are
    untouched; and, whenever the configured user has authentication credentials,
    the frame carries a valid MAC under the user's key over all its other octets
    (the tag is the octets of its authentication parameters, at their place) and
    lies in the time window. *)
Theorem served_is_authentic `{CryptoOps, !CryptoLaws} (seed : Z) (salt : SaltState) (frame : bytes) (mib : Store)
    (ctx ctx' : DispatchContext) (resp : bytes) (salt' : SaltState) :
  Forall is_u8 frame -> len frame <= ISIZE_MAX ->
  run_validation_pipeline seed salt frame mib ctx = (Ok resp, ctx', salt') ->
  exists m, decode_v3_message frame = Ok m /\ ctx' = ctx /\
    envelope_ok (inputs ctx) m /\ user_ok (inputs ctx) m /\ level_ok (inputs ctx) m /\ priv_flag_ok m /\
    forall user p k, usm_user (inputs ctx) = Some user -> auth_protocol user = Some p -> auth_key user = Some k ->
      frame_authentic p k frame m /\
      auth_engine_boots (usm m) = engine_boots (inputs ctx) /\
      Z.abs (auth_engine_time (usm m) - engine_time (inputs ctx)) <= 150.
Proof.
  intros Hu Hl (m & pdu & Hd & Hp & _ & -> & _)%run_Ok_inv. exists m.
  destruct Hp as [H1 H2 H3 H4 H5 H6 _]. split_and!; [done..|].
  intros user p k Eu Ep Ek. unfold mac_ok, time_ok in *. rewrite Eu, auth_pair_Some in *.
  unfold auth_protocol, auth_key in *. destruct (auth_credentials user) as [c|]; [|done].
  injection Ep as <-. injection Ek as <-. cbn in H5, H6. split; [|done].
  eapply verify_hmac_authentic; [by apply decode_v3_message_wf|done|done].
Qed.

(** Claim C12: a frame leaves the whole context as it was, or changes exactly one
    statistics counter, by one (saturating), and nothing else; then it was rejected,
    and the counter is that of the first check its message fails.  A message counted as outside the time window has a
    valid MAC, and one counted as a decryption error passed every check before
    decryption, so neither counter can be driven by unauthenticated traffic. *)
Theorem counters_change_at_most_one `{CryptoOps} (seed : Z) (salt : SaltState) (frame : bytes) (mib : Store)
    (ctx ctx' : DispatchContext) (r : result bytes Reject) (salt' : SaltState) :
  run_validation_pipeline seed salt frame mib ctx = (r, ctx', salt') ->
  ctx' = ctx \/
  exists m c, decode_v3_message frame = Ok m /\ counted c ctx ctx' /\ is_ok r = false /\ refusal (inputs ctx) m (Some c) /\
    (c = NotInTimeWindows -> mac_ok (inputs ctx) m) /\ (c = DecryptionErrors -> passes (inputs ctx) m).
Proof.
  unfold run_validation_pipeline. intros HE. destruct (decode_v3_message frame) as [m|].
  2: { injection HE as <- <- <-. by left. }
  pose proof (validate_outcome m ctx) as Ho. destruct (validate m ctx) as [[[pdu cn]|rj] ctx1].
  - inversion Ho; subst. destruct (dispatch_pdu_and_encode_response _ _ _ _ _ _) as [b st1].
    injection HE as <- <- <-. by left.
  - injection HE as <- <- <-. inversion Ho as [|oc r' ctx2 Hr Hk]; subst. destruct oc as [c|]; [|by destruct Hk; left].
    right. exists m, c. destruct Hk as [Hk _]. split_and!; [done..| |].
    + intros ->. by inversion Hr as [| | | | | | | |? ? ? ? Hs]; [|inversion Hs].
    + intros ->. by inversion Hr.
Qed.

Definition toy_user : UsmUser :=
  {| user_name := MkUserName [97]; auth_credentials := Some (MkAuthCredentials HmacSha256 (zeroed 32));
     priv_credentials := Some (MkPrivCredentials Aes128 (zeroed 16)) |}.

Definition toy_inputs (u : option UsmUser) (level : SecurityLevel) : DispatchInputs :=
  {| engine_id := [1; 2; 3; 4; 5]; engine_boots := 1; engine_time := 100;
     unknown_engine_ids_counter := 0; unknown_user_names_counter := 0; unsupported_sec_levels_counter := 0;
     wrong_digests_counter := 0; not_in_time_windows_counter := 0; decryption_errors_counter := 0;
     unknown_security_models_counter := 0; usm_user := u; minimum_security_level := level |}.

Lemma counters_change_at_most_one_witness :
  exists r ctx' salt', @run_validation_pipeline ToyCrypto.ops 5 None sample_get small_store
      (MkDispatchContext (toy_inputs (Some toy_user) NoAuthNoPriv)) = (r, ctx', salt') /\
    (ctx' = MkDispatchContext (toy_inputs (Some toy_user) NoAuthNoPriv) \/
     exists c, counted c (MkDispatchContext (toy_inputs (Some toy_user) NoAuthNoPriv)) ctx').
Proof.
  destruct (@run_validation_pipeline ToyCrypto.ops 5 None sample_get small_store
    (MkDispatchContext (toy_inputs (Some toy_user) NoAuthNoPriv))) as [[r ctx'] salt'] eqn:E.
  exists r, ctx', salt'. split; [reflexivity|].
  destruct (@counters_change_at_most_one ToyCrypto.ops _ _ _ _ _ _ _ _ E) as [Hsame|(m & c & _ & Hc & _)].
  - left. exact Hsame.
  - right. exists c. exact Hc.
Defined.

(** An authenticated GET of 1.3.6 from the toy user, signed as a manager would. *)
Definition signed_get (auth_only : UsmUser) : bytes :=
  let scoped := seq_tlv (oct_tlv [1; 2; 3; 4; 5] ++ oct_tlv [] ++
       std_pdu_octets TAG_GET_REQUEST 9 0 0 [MkVarbind (MkOid [1; 3; 6]) Unspecified]) in
  let unsigned := v3_octets 1 65507 5 3 [1; 2; 3; 4; 5] 1 100 [97] (replicate 24 0) [] scoped in
  let off := len (v3_prefix 1 65507 5 3 [1; 2; 3; 4; 5] 1 100 [97] 24 [] scoped) in
  match @sign_message ToyCrypto.ops (auth_pair (Some auth_only)) unsigned (Some off) 24 with Ok m => m | Err _ => [] end.

Definition toy_auth_user : UsmUser :=
  {| user_name := MkUserName [97]; auth_credentials := Some (MkAuthCredentials HmacSha256 (zeroed 32));
     priv_credentials := None |}.

Lemma served_is_authentic_witness :
  let frame := signed_get toy_auth_user in
  let ctx := MkDispatchContext (toy_inputs (Some toy_auth_user) AuthNoPriv) in
  exists resp salt', @run_validation_pipeline ToyCrypto.ops 5 None frame small_store ctx = (Ok resp, ctx, salt') /\
    exists m, @frame_authentic ToyCrypto.ops HmacSha256 (zeroed 32) frame m.
Proof.
  eexists _, _. split; [vm_compute; reflexivity|].
  destruct (@served_is_authentic ToyCrypto.ops ToyCrypto.laws 5 None (signed_get toy_auth_user) small_store
    (MkDispatchContext (toy_inputs (Some toy_auth_user) AuthNoPriv)) _ _ _
    ltac:(refine (bool_decide_unpack _ _); vm_compute; exact I) ltac:(vm_compute; discriminate)
    ltac:(vm_compute; reflexivity)) as (m & _ & _ & _ & _ & _ & _ & Hauth).
  exists m. exact (proj1 (Hauth toy_auth_user HmacSha256 (zeroed 32) eq_refl eq_refl eq_refl)).
Defined.

(** ** What the handlers return can be encoded *)

Lemma handle_pdu_wf env (mib : Store) pdu :
  store_wf mib -> inbound_wf pdu ->
  is_i32 (resp_request_id (handle_pdu env mib pdu)) /\ 0 <= error_index (handle_pdu env mib pdu) <= 1 /\
  Forall varbind_wf (resp_varbinds (handle_pdu env mib pdu)).
Proof.
  intros Hs Hp. destruct pdu as [r|r|r|r]; cbn [handle_pdu inbound_wf] in *.
  - destruct Hp as [Hi Hv]. unfold handle_get. cbn [resp_request_id error_index resp_varbinds].
    split_and!; [done|lia|lia|]. apply Forall_fmap. eapply Forall_impl; [exact Hv|]. intros vb [Ho _].
    split; [done|]. cbn. destruct (store_get mib (vb_oid vb)) as [v|] eqn:E; [|done].
    by destruct (store_get_wf _ _ _ Hs E).
  - destruct Hp as [Hi Hv]. unfold handle_get_next. cbn [resp_request_id error_index resp_varbinds].
    split_and!; [done|lia|lia|]. apply Forall_fmap. eapply Forall_impl; [exact Hv|]. intros vb [Ho _].
    by apply resolve_wf.
  - destruct Hp as (Hi & Hn & Hm & Hv).
    destruct (handle_get_bulk_split r mib MAX_BULK_REPETITIONS
      (Z.min (if 0 <=? re_max_size env then re_max_size env else 0) MAX_FRAME_SIZE)
      ltac:(lia) ltac:(lia) ltac:(unfold MAX_BULK_REPETITIONS; lia)) as (k & _ & -> & _).
    cbn [resp_request_id error_index resp_varbinds]. split_and!; [done|lia|lia|].
    assert (Hoids : Forall oid_wf (vb_oid <$> bulk_varbinds r)).
    { apply Forall_fmap. eapply Forall_impl; [exact Hv|]. by intros vb [Ho _]. }
    apply Forall_app. split.
    + apply Forall_fmap. rewrite fmap_take. eapply Forall_impl; [by apply Forall_take|]. intros. by apply resolve_wf.
    + apply ideal_rows_wf; [done|]. rewrite fmap_drop. by apply Forall_drop.
  - destruct Hp as [Hi Hv]. cbn. split_and!; [done|lia|lia|done].
Qed.

Lemma decode_scoped_pdu_wf b d :
  Forall is_u8 b -> len b <= ISIZE_MAX -> decode_scoped_pdu b = Ok d -> inbound_wf (dsp_pdu d).
Proof.
  intros Hu Hl HE. unfold decode_scoped_pdu, ber_decode_scoped_pdu in HE.
  destruct (read_sequence _) as [[s0 r1]|] eqn:E1; [|done].
  destruct (read_constructed_sound _ _ _ _ (reader_new_ok _ Hl) Hu E1) as (hdr & Er & _ & Hs0 & _).
  rewrite rest_reader_new in Er. rewrite Er, !Forall_app in Hu. destruct Hu as (_ & Hu0 & _).
  destruct (read_octet_string s0) as [[ce s1]|] eqn:E2; [|done].
  destruct (read_octet_string_sound _ _ _ Hs0 Hu0 E2) as (_ & Hs1 & Hu1 & _).
  destruct (read_octet_string s1) as [[cn s2]|] eqn:E3; [|done].
  destruct (read_octet_string_sound _ _ _ Hs1 Hu1 E3) as (_ & Hs2 & Hu2 & _).
  cbn [map_err dspf_raw_pdu] in HE. rewrite remaining_rest in HE by done.
  destruct (ber_decode_pdu (rest s2)) as [dp|] eqn:E4; [|done]. cbn [map_err] in HE.
  destruct (decoded_pdu_to_inbound dp) as [p|] eqn:E5; [|done]. injection HE as <-. cbn.
  exact (decoded_pdu_to_inbound_wf _ _ (ber_decode_pdu_wf _ _ Hu2 (rest_len_ISIZE _ Hs2) E4) E5).
Qed.

Lemma decrypt_u8 `{CryptoOps, !CryptoLaws} p k iv ct pt :
  len iv = 16 -> decrypt p k iv ct = Ok pt -> len pt = len ct /\ Forall is_u8 pt.
Proof.
  unfold decrypt. intros Hiv Hd. destruct (Z.eqb_spec (key_size k) (priv_key_len p)) as [Hk|]; [|done].
  cbn [negb] in Hd. destruct p; unfold key_size in Hk; cbn in Hk.
  - destruct (cfb_decrypt_total _ _ _ aes128_laws (as_bytes k) iv ct Hk Hiv) as (c & E & Hl & Hc).
    rewrite E in Hd. by injection Hd as <-.
  - destruct (cfb_decrypt_total _ _ _ aes256_laws (as_bytes k) iv ct Hk Hiv) as (c & E & Hl & Hc).
    rewrite E in Hd. by injection Hd as <-.
Qed.

Lemma decode_v3_message_ct_len b m ct :
  Forall is_u8 b -> len b <= ISIZE_MAX -> decode_v3_message b = Ok m -> scoped_data m = Encrypted ct -> len ct <= ISIZE_MAX.
Proof.
  intros Hu Hl HE Hs. unfold decode_v3_message in HE.
  destruct (decode_v3_envelope b) as [env|] eqn:E; [|done]. cbn [map_err] in HE.
  destruct (decode_v3_envelope_sound b env Hu Hl E) as (_ & _ & _ & _ & _ & _ & Hsd & _).
  destruct (env_scoped_data env) as [ce cn raw|ct'].
  - destruct (ber_decode_pdu raw) as [d|]; [|done]. cbn [map_err] in HE.
    destruct (decoded_pdu_to_inbound d); [|done]. injection HE as <-. done.
  - injection HE as <-. cbn in Hs. injection Hs as <-. by destruct Hsd.
Qed.

Lemma scoped_opens_wf `{CryptoOps, !CryptoLaws} frame m i pdu :
  Forall is_u8 frame -> len frame <= ISIZE_MAX -> decode_v3_message frame = Ok m ->
  scoped_opens i m pdu -> inbound_wf pdu.
Proof.
  intros Hu Hl Hd Ho. pose proof (decode_v3_message_wf _ _ Hu Hl Hd) as (_ & _ & _ & _ & _ & _ & _ & _ & Hsc & Hpp & _).
  unfold scoped_opens in Ho. destruct (scoped_data m) as [p|ct] eqn:Es; [by subst|].
  destruct Ho as (p & k & salt & plain & d & _ & Esalt & Edec & Esp & _ & _ & ->). rewrite Esalt in Hpp.
  assert (Hiv : len (build_iv (auth_engine_boots (usm m)) (auth_engine_time (usm m)) (salt_bytes salt)) = 16)
    by (unfold build_iv; rewrite !len_app, !len_to_be_bytes; lia).
  destruct (decrypt_u8 p k _ ct plain Hiv Edec) as [Hlp Hup].
  pose proof (decode_v3_message_ct_len _ _ _ Hu Hl Hd Es).
  eapply decode_scoped_pdu_wf; [exact Hup|lia|exact Esp].
Qed.

(** What the agent's configuration guarantees of a dispatch context. *)
Record context_wf (ctx : DispatchContext) : Prop := {
  cw_engine_u8 : Forall is_u8 (engine_id (inputs ctx));
  cw_engine_len : len (engine_id (inputs ctx)) <= 32;
  cw_boots : 0 <= engine_boots (inputs ctx) <= I32_MAX;
  cw_time : 0 <= engine_time (inputs ctx) <= I32_MAX;
  cw_user : match usm_user (inputs ctx) with Some u => user_wf u | None => True end;
}.

Lemma user_pairs_ok u : user_wf u -> credentials_ok (auth_pair (Some u)) (priv_pair (Some u)).
Proof.
  intros [H1 H2]. unfold credentials_ok. rewrite auth_pair_Some, priv_pair_Some.
  destruct (auth_credentials u) as [[]|]; cbn in *.
  - split; [done|]. destruct (priv_credentials u) as [[]|]; done.
  - rewrite H1. done.
Qed.

Lemma user_credentials_ok ctx : context_wf ctx ->
  credentials_ok (auth_pair (usm_user (inputs ctx))) (priv_pair (usm_user (inputs ctx))).
Proof. intros [_ _ _ _ Hu]. destruct (usm_user (inputs ctx)); [by apply user_pairs_ok|done]. Qed.

(** The frame passes every check and carries [pdu]. *)
Lemma validate_served `{CryptoOps} m ctx pdu :
  passes (inputs ctx) m -> scoped_opens (inputs ctx) m pdu -> validate m ctx = (Ok (pdu, []), ctx).
Proof.
  intros Hp Ho. destruct (validate_outcome m ctx) as [pdu' _ Ho'|oc r ctx' Hr _]; [|by destruct (refusal_not_served _ _ _ pdu Hr)].
  do 3 f_equal. unfold scoped_opens in *. destruct (scoped_data m); [congruence|].
  destruct Ho as (? & ? & ? & ? & ? & E1 & E2 & E3 & E4 & _ & _ & ->).
  destruct Ho' as (? & ? & ? & ? & ? & F1 & F2 & F3 & F4 & _ & _ & ->).
  rewrite E1 in F1. injection F1 as <- <-. rewrite E2 in F2. injection F2 as <-.
  rewrite E3 in F3. injection F3 as <-. rewrite E4 in F4. by injection F4 as <-.
Qed.

Definition response_envelope (m : V3InboundMessage) : ResponseEnvelope :=
  {| re_msg_id := msg_id m; re_max_size := max_size m; re_user_name := msg_user_name m; re_context_name := [] |}.

(** The octets of the response PDU the handlers produce for [pdu]. *)
Definition response_octets (m : V3InboundMessage) (mib : Store) (pdu : InboundPdu) : bytes :=
  let r := handle_pdu (response_envelope m) mib pdu in
  std_pdu_octets TAG_RESPONSE (resp_request_id r) (error_status_code (error_status r)) (error_index r) (resp_varbinds r).

(** The pipeline on a message that passes every check. *)
Lemma pipeline_answers `{CryptoOps, !CryptoLaws} (seed : Z) (salt : SaltState) (frame : bytes)
    (mib : Store) (ctx : DispatchContext) (m : V3InboundMessage) (pdu : InboundPdu) :
  is_u64 seed -> salt_state_ok salt -> Forall is_u8 frame -> len frame <= ISIZE_MAX -> context_wf ctx -> store_wf mib ->
  decode_v3_message frame = Ok m -> passes (inputs ctx) m -> scoped_opens (inputs ctx) m pdu ->
  len (response_octets m mib pdu) + 32 <= PAYLOAD_MAX ->
  exists resp salt' env,
    run_validation_pipeline seed salt frame mib ctx = (Ok resp, ctx, salt') /\ salt_state_ok salt' /\
    opened (msg_id m) (engine_id (inputs ctx)) (msg_user_name m) [] (engine_boots (inputs ctx)) (engine_time (inputs ctx))
      (auth_pair (usm_user (inputs ctx))) (priv_pair (usm_user (inputs ctx))) (response_octets m mib pdu) resp env.
Proof.
  intros Hseed Hst Hu Hl Hctx Hmib Hd Hp Ho Hsize.
  destruct (decode_v3_message_wf _ _ Hu Hl Hd) as (_ & Hid & _ & _ & _ & Hun & _).
  destruct (handle_pdu_wf (response_envelope m) mib pdu Hmib (scoped_opens_wf _ _ _ _ Hu Hl Hd Ho)) as (Hri & Hei & Hvb).
  pose proof (user_credentials_ok ctx Hctx) as Hcred. destruct Hctx as [He Hel Hb Ht _].
  destruct (encode_v3_response_opens seed salt (msg_id m) (engine_id (inputs ctx)) (msg_user_name m) []
    (engine_boots (inputs ctx)) (engine_time (inputs ctx)) (auth_pair (usm_user (inputs ctx)))
    (priv_pair (usm_user (inputs ctx))) (handle_pdu (response_envelope m) mib pdu)) as [(msg & st' & env & E & Hst' & Hop) _];
    try done.
  - unfold I32_MAX. lia.
  - rewrite len_nil. unfold response_octets in Hsize. lia.
  - exists msg, st', env. split; [|done]. unfold run_validation_pipeline, dispatch_pdu_and_encode_response.
    rewrite Hd, (validate_served m ctx pdu Hp Ho).
    cbn [re_msg_id re_user_name re_context_name]. fold (response_envelope m). by rewrite E.
Qed.

(** An authentic request is answered.  A frame that decodes, passes every
    check and opens to a PDU is never dropped or reported: the pipeline returns a
    response, leaves the counters as they are, and a receiver that holds the user's
    keys decodes the response to the request's message identifier, this engine's
    identity and clock, a MAC that verifies, and exactly the response PDU the
    handler computed from the MIB. *)
Theorem authentic_request_is_answered `{CryptoOps, !CryptoLaws} (seed : Z) (salt : SaltState) (frame : bytes)
    (mib : Store) (ctx : DispatchContext) (m : V3InboundMessage) (pdu : InboundPdu) :
  is_u64 seed -> salt_state_ok salt -> Forall is_u8 frame -> len frame <= ISIZE_MAX -> context_wf ctx -> store_wf mib ->
  decode_v3_message frame = Ok m -> passes (inputs ctx) m -> scoped_opens (inputs ctx) m pdu ->
  len (response_octets m mib pdu) + 32 <= PAYLOAD_MAX ->
  exists resp salt' env,
    run_validation_pipeline seed salt frame mib ctx = (Ok resp, ctx, salt') /\ salt_state_ok salt' /\
    opened (msg_id m) (engine_id (inputs ctx)) (msg_user_name m) [] (engine_boots (inputs ctx)) (engine_time (inputs ctx))
      (auth_pair (usm_user (inputs ctx))) (priv_pair (usm_user (inputs ctx))) (response_octets m mib pdu) resp env.
Proof. apply pipeline_answers. Qed.

Lemma authentic_request_is_answered_witness :
  let ctx := MkDispatchContext (toy_inputs (Some toy_auth_user) AuthNoPriv) in
  exists resp salt', @run_validation_pipeline ToyCrypto.ops 5 None (signed_get toy_auth_user) small_store ctx = (Ok resp, ctx, salt').
Proof.
  destruct (decode_v3_message (signed_get toy_auth_user)) as [m|] eqn:Ed; [|vm_compute in Ed; discriminate].
  vm_compute in Ed. injection Ed as <-.
  edestruct (@authentic_request_is_answered ToyCrypto.ops ToyCrypto.laws 5 None (signed_get toy_auth_user) small_store
    (MkDispatchContext (toy_inputs (Some toy_auth_user) AuthNoPriv)))
    as (resp & salt' & env & E & _); [..|exists resp, salt'; exact E].
  - zrange.
  - exact I.
  - refine (bool_decide_unpack _ _). vm_compute. exact I.
  - vm_compute. discriminate.
  - split; [refine (bool_decide_unpack _ _); vm_compute; exact I|vm_compute; split_and?; (exact I || congruence)..].
  - exact small_store_wf.
  - vm_compute. reflexivity.
  - split; try (vm_compute; split_and?; congruence).
    exists AuthNoPriv. vm_compute. split_and!; congruence.
  - reflexivity.
  - vm_compute. discriminate.
Defined.

(** ** Reports *)

Definition counter_oid_text (c : Counter) : bytes :=
  match c with
  | UnknownEngineIds => USM_STATS_UNKNOWN_ENGINE_IDS
  | UnknownUserNames => USM_STATS_UNKNOWN_USER_NAMES
  | UnsupportedSecLevels => USM_STATS_UNSUPPORTED_SEC_LEVELS
  | WrongDigests => USM_STATS_WRONG_DIGESTS
  | NotInTimeWindows => USM_STATS_NOT_IN_TIME_WINDOWS
  | DecryptionErrors => USM_STATS_DECRYPTION_ERRORS
  | UnknownSecurityModels => SNMP_UNKNOWN_SECURITY_MODELS_OID
  end.

Lemma counter_oid_parses c : from_str (counter_oid_text c) = Ok (counter_oid c).
Proof. destruct c; vm_compute; reflexivity. Qed.

Lemma counter_oid_wf c : oid_wf (counter_oid c) /\ len (as_slice (counter_oid c)) = 11.
Proof.
  destruct c; (split; [split; [|vm_compute; reflexivity]|vm_compute; reflexivity]);
    (refine (bool_decide_unpack _ _); vm_compute; exact I).
Qed.

(** The counter object and value a Report about [c] carries. *)
Definition report_varbind (c : Counter) (i : DispatchInputs) : Varbind :=
  MkVarbind (counter_oid c) (VValue (Counter32 (select_counter c i))).

Lemma select_counter_updated c ctx ctx' : counted c ctx ctx' ->
  select_counter c (inputs ctx') = counter_saturating_increment (select_counter c (inputs ctx)).
Proof. by intros []. Qed.

Lemma report_octets_small c i mid : is_i32 mid -> is_u32 (select_counter c i) ->
  varbind_wf (report_varbind c i) /\ len (std_pdu_octets TAG_REPORT mid 0 0 [report_varbind c i]) <= 200.
Proof.
  intros Hmid Hc. destruct (counter_oid_wf c) as [Ho Hl].
  assert (Hwf : varbind_wf (report_varbind c i)) by (split; [exact Ho|exact Hc]). split; [done|].
  pose proof (estimate_upper_bound (report_varbind c i) Hwf ltac:(vm_compute; discriminate)) as He.
  assert (Ee : estimated_varbind_wire_size (report_varbind c i) = 66)
    by (unfold estimated_varbind_wire_size; cbn [report_varbind vb_oid vb_value]; rewrite Hl; reflexivity).
  rewrite Ee in He.
  pose proof (std_pdu_octets_len TAG_REPORT mid 0 0 [report_varbind c i] Hmid ltac:(zrange) ltac:(zrange)) as Ht.
  cbn [fmap list_fmap concat] in Ht. rewrite app_nil_r in Ht. unfold USIZE_MAX, U64_MAX in Ht. lia.
Qed.

(** A reportable message is always answered with a Report that opens to the updated counter. *)
Lemma report_for_opens `{CryptoOps, !CryptoLaws} c m ctx ctx' :
  context_wf ctx -> (forall c, is_u32 (select_counter c (inputs ctx))) -> 0 <= msg_id m <= I32_MAX -> counted c ctx ctx' ->
  is_reportable (security_flags (usm m)) = true ->
  exists b env, report_for c m ctx = Report b /\
    opened (msg_id m) (engine_id (inputs ctx)) [] [] (engine_boots (inputs ctx)) (engine_time (inputs ctx)) None None
      (std_pdu_octets TAG_REPORT (msg_id m) 0 0 [report_varbind c (inputs ctx')]) b env.
Proof.
  intros [He Hel Hb Ht _] Hc Hid Hk Hr. pose proof (select_counter_updated _ _ _ Hk) as Es.
  assert (Hi32 : is_i32 (msg_id m)) by (unfold I32_MAX in Hid; zrange).
  destruct (report_octets_small c (inputs ctx') (msg_id m) Hi32) as [Hwf Hlen].
  { rewrite Es. specialize (Hc c). unfold counter_saturating_increment, is_u32, U32_MAX in *. lia. }
  unfold report_for. rewrite Hr. cbn [negb]. rewrite <-Es. unfold encode_v3_report. fold (report_varbind c (inputs ctx')).
  rewrite encode_varbinds_octets. cbn [map_err]. rewrite ber_encode_std by (cbn; tauto). cbn [map_err].
  destruct (std_pdu_opens 0 None (msg_id m) (engine_id (inputs ctx)) [] [] (engine_boots (inputs ctx))
    (engine_time (inputs ctx)) None None TAG_REPORT (msg_id m) 0 0 [report_varbind c (inputs ctx')])
    as [(msg & st' & env & E & _ & Hop) _]; try done; try zrange; try (cbn; tauto).
  - by constructor.
  - rewrite len_nil. unfold PAYLOAD_MAX. lia.
  - rewrite E. by exists msg, env.
Qed.

(** Claim C11: a decoded message either passes every check and opens to a PDU, or is
    refused for exactly one cause: the first check it fails, in the order of the
    pipeline.  A message refused for a privacy flag or a context that does not fit, or
    for want of a privacy key, is dropped with nothing counted.  Any other cause
    moves its counter by one (saturating) and nothing else, and the sender gets a
    Report if and only if it set the reportable flag; the Report decodes to the
    request's message identifier, this engine's identity, boots and time, and the
    one variable that names the counter with its value after the increment.  Reports
    are neither encrypted nor signed, and no privacy salt is consumed. *)
Theorem refusal_reports_counter `{CryptoOps, !CryptoLaws} (seed : Z) (salt : SaltState) (frame : bytes)
    (mib : Store) (ctx : DispatchContext) (m : V3InboundMessage) :
  Forall is_u8 frame -> len frame <= ISIZE_MAX -> context_wf ctx -> (forall c, is_u32 (select_counter c (inputs ctx))) ->
  decode_v3_message frame = Ok m ->
  (exists pdu, passes (inputs ctx) m /\ scoped_opens (inputs ctx) m pdu /\ forall oc, ~ refusal (inputs ctx) m oc) \/
  exists oc r ctx', unique (refusal (inputs ctx) m) oc /\
    run_validation_pipeline seed salt frame mib ctx = (Err r, ctx', salt) /\
    match oc with
    | None => r = Discard /\ ctx' = ctx
    | Some c => counted c ctx ctx' /\
        if is_reportable (security_flags (usm m)) then
          exists b env, r = Report b /\
            opened (msg_id m) (engine_id (inputs ctx)) [] [] (engine_boots (inputs ctx)) (engine_time (inputs ctx)) None None
              (std_pdu_octets TAG_REPORT (msg_id m) 0 0 [report_varbind c (inputs ctx')]) b env
        else r = Discard
    end.
Proof.
  intros Hu Hl Hctx Hc Hd. destruct (decode_v3_message_wf _ _ Hu Hl Hd) as (_ & Hid & _).
  unfold run_validation_pipeline. rewrite Hd. pose proof (validate_outcome m ctx) as Ho.
  destruct (validate m ctx) as [[[pdu cn]|r] ctx']; inversion Ho as [pdu' Hp Hs|oc r' ctx2 Hr Hk]; subst.
  - left. exists pdu. split_and!; [done..|]. intros oc Hr. by eapply refusal_not_served.
  - right. exists oc, r, ctx'. split_and!; [split; [done|]; intros oc' Hr'; by eapply refusal_functional|done|].
    destruct oc as [c|]; [|done]. destruct Hk as [Hk ->]. split; [done|].
    destruct (is_reportable (security_flags (usm m))) eqn:Er; [by apply report_for_opens|].
    unfold report_for. by rewrite Er.
Qed.

Lemma toy_context_wf level : context_wf (MkDispatchContext (toy_inputs (Some toy_user) level)).
Proof. split; [refine (bool_decide_unpack _ _); vm_compute; exact I|vm_compute; split_and?; (exact I || congruence)..]. Qed.

Lemma refusal_reports_counter_witness :
  let ctx := MkDispatchContext (toy_inputs (Some toy_user) NoAuthNoPriv) in
  exists m oc r ctx', decode_v3_message sample_get = Ok m /\ @refusal ToyCrypto.ops (inputs ctx) m oc /\
    @run_validation_pipeline ToyCrypto.ops 5 None sample_get small_store ctx = (Err r, ctx', None).
Proof.
  eexists. edestruct (@refusal_reports_counter ToyCrypto.ops ToyCrypto.laws 5 None sample_get small_store
    (MkDispatchContext (toy_inputs (Some toy_user) NoAuthNoPriv))) as [(pdu & [_ _ _ _ Hmac _ _] & _)|(oc & r & ctx' & [Hr _] & E & _)].
  - refine (bool_decide_unpack _ _). vm_compute. exact I.
  - vm_compute. discriminate.
  - apply toy_context_wf.
  - intros c. destruct c; vm_compute; split; congruence.
  - vm_compute. reflexivity.
  - vm_compute in Hmac. discriminate.
  - exists oc, r, ctx'. split; [vm_compute; reflexivity|]. split; [exact Hr|exact E].
Defined.

(** A configured user with authentication keys needs a valid MAC at every
    security level, also for a message whose flags say noAuthNoPriv: the pipeline
    never skips authentication because of the message's own flags. *)
Theorem no_auth_flag_does_not_skip_mac :
  exists m, decode_v3_message sample_get = Ok m /\
    flags_security_level (security_flags (usm m)) = Ok NoAuthNoPriv /\
    exists ctx' b, @run_validation_pipeline ToyCrypto.ops 5 None sample_get small_store
      (MkDispatchContext (toy_inputs (Some toy_auth_user) NoAuthNoPriv)) = (Err (Report b), ctx', None) /\
      wrong_digests_counter (inputs ctx') = 1.
Proof.
  eexists. split; [vm_compute; reflexivity|]. split; [reflexivity|].
  eexists _, _. split; [vm_compute; reflexivity|reflexivity].
Qed.
