(* ===== verification/Boots.v ===== *)
(** * Persistent engine boots: [src/src/usm/boots.rs]

    [initialise_engine_boots] over the [EngineBootsStore] trait (a class with a
    law of its own, [BootsStoreLaws]), and the file-backed store.  The file store is
    modelled over a file system ([std::fs]: a finite collection of files by path)
    in which every I/O call may fail; [save] records every state the disk goes
    through, so a crash is the choice of one of them. *)

From S2P Require Import Prelude Usm Types.

Definition MAX_ENGINE_BOOTS : Z := CEILING.
Definition MAX_ENGINE_ID_LEN : Z := 32.

Record StoredBootsState := MkStoredBootsState { sb_engine_id : bytes; sb_boots : Z }.

(** The trait; both methods take [&mut self]. *)
Class EngineBootsStore (S : Type) := {
  load : S -> result (option StoredBootsState) IoError * S;
  save : S -> bytes -> Z -> result unit IoError * S;
}.

Inductive InitBootsError :=
| BootsAtCeiling
| StoreError (e : IoError).

(** [initialise_engine_boots]; [?] converts an I/O error with [From]. *)
Definition initialise_engine_boots {S} `{EngineBootsStore S} (store : S) (engine_id : bytes)
    : result Z InitBootsError * S :=
  match load store with
  | (Err e, store) => (Err (StoreError e), store)
  | (Ok stored, store) =>
      let save_boots new_boots :=
        match save store engine_id new_boots with
        | (Err e, store) => (Err (StoreError e), store)
        | (Ok _, store) => (Ok new_boots, store)
        end in
      match stored with
      | None => save_boots 1
      | Some state =>
          if bytes_eqb (sb_engine_id state) engine_id then
            if MAX_ENGINE_BOOTS <=? sb_boots state then (Err BootsAtCeiling, store)
            else save_boots (sb_boots state + 1)
          else save_boots 1
      end
  end.

(** ** The file store *)

(** A path that names a file, as [Path::with_extension] and [Path::parent] see it. *)
Record PathBuf := MkPathBuf { parent : bytes; stem : bytes; extension : option bytes }.

#[export] Instance PathBuf_eq_dec : EqDecision PathBuf.
Proof. solve_decision. Defined.

Definition with_extension (p : PathBuf) (e : bytes) : PathBuf :=
  {| parent := parent p; stem := stem p; extension := if is_nil e then None else Some e |}.

(** The file system: the content of each existing file. *)
Definition Files := PathBuf -> option bytes.
Definition write_file (fs : Files) (p : PathBuf) (content : bytes) : Files :=
  fun q => if decide (q = p) then Some content else fs q.
Definition rename (fs : Files) (from to : PathBuf) : Files :=
  fun q => if decide (q = to) then fs from else if decide (q = from) then None else fs q.

(** The I/O calls of the store and which of them fail.  [partial] is how many octets
    have reached the file when a write is interrupted. *)
Inductive IoOp := OpRead | OpCreate | OpWrite | OpSyncAll | OpRename | OpOpenParent | OpSyncData.

Record Faults := MkFaults { fails : IoOp -> option IoError; partial : nat }.
Definition no_faults : Faults := {| fails := fun _ => None; partial := 0 |}.

Record FileEngineBootsStore := MkFileEngineBootsStore { path : PathBuf; files : Files; faults : Faults }.

Definition file_store_new (p : PathBuf) (fs : Files) (f : Faults) : FileEngineBootsStore :=
  {| path := p; files := fs; faults := f |}.

Definition set_files (s : FileEngineBootsStore) (fs : Files) : FileEngineBootsStore :=
  {| path := path s; files := fs; faults := faults s |}.

(** The texts of a damaged file. *)
Definition UNEXPECTED_LENGTH : bytes := str "engine-boots file has unexpected length".
Definition IMPLAUSIBLE_LENGTH : bytes := str "engine-boots file contains implausible engine ID length".

(** The parsing half of [load]. *)
Definition parse_boots_file (file_data : bytes) : result StoredBootsState IoError :=
  if len file_data <? 4 then Err (io_error_new InvalidData UNEXPECTED_LENGTH)
  else
    let engine_id_len := from_be_bytes (take 4 file_data) in
    let rest := drop 4 file_data in
    if MAX_ENGINE_ID_LEN <? engine_id_len then Err (io_error_new InvalidData IMPLAUSIBLE_LENGTH)
    else if negb (len rest =? engine_id_len + 4) then Err (io_error_new InvalidData UNEXPECTED_LENGTH)
    else Ok {| sb_engine_id := take (Z.to_nat engine_id_len) rest;
               sb_boots := from_be_bytes (drop (Z.to_nat engine_id_len) rest) |}.

(** The operating system's text. *)
Definition NO_SUCH_FILE : bytes := str "No such file or directory (os error 2)".

Definition file_load (s : FileEngineBootsStore) : result (option StoredBootsState) IoError * FileEngineBootsStore :=
  (match (match fails (faults s) OpRead with
          | Some e => Err e
          | None => ok_or (files s (path s)) (io_error_new NotFound NO_SUCH_FILE)
          end) with
   | Err e => match io_kind e with NotFound => Ok None | _ => Err e end
   | Ok file_data => let? state := parse_boots_file file_data in Ok (Some state)
   end, s).

(** What [save] writes: the engine ID's length, the engine ID, the boots. *)
Definition boots_file (engine_id : bytes) (boots : Z) : bytes :=
  to_be_bytes 4 (len engine_id) ++ engine_id ++ to_be_bytes 4 boots.

(** [save], returning with its result the states the disk goes through (the last one
    is the state it leaves).  The writer is buffered, so the octets reach the file
    when the buffer is flushed; the error of [u32::try_from] drops the writer. *)
Definition file_save_states (s : FileEngineBootsStore) (engine_id : bytes) (boots : Z) : result unit IoError * list Files :=
  let tmp_path := with_extension (path s) (str "tmp") in
  let fs0 := files s in
  match fails (faults s) OpCreate with
  | Some e => (Err e, [fs0])
  | None =>
      let fs1 := write_file fs0 tmp_path [] in
      match u32_try_from (len engine_id) with
      | None => (Err (io_error_new InvalidInput (str "engine ID too long")), [fs0; fs1])
      | Some _ =>
          let data := boots_file engine_id boots in
          let fsp := write_file fs1 tmp_path (take (partial (faults s)) data) in
          match fails (faults s) OpWrite with
          | Some e => (Err e, [fs0; fs1; fsp])
          | None =>
              let fs2 := write_file fs1 tmp_path data in
              match fails (faults s) OpSyncAll with
              | Some e => (Err e, [fs0; fs1; fsp; fs2])
              | None =>
                  match fails (faults s) OpRename with
                  | Some e => (Err e, [fs0; fs1; fsp; fs2])
                  | None =>
                      let fs3 := rename fs2 tmp_path (path s) in
                      match fails (faults s) OpOpenParent with
                      | Some e => (Err e, [fs0; fs1; fsp; fs2; fs3])
                      | None =>
                          match fails (faults s) OpSyncData with
                          | Some e => (Err e, [fs0; fs1; fsp; fs2; fs3])
                          | None => (Ok tt, [fs0; fs1; fsp; fs2; fs3])
                          end
                      end
                  end
              end
          end
      end
  end.

Definition file_save (s : FileEngineBootsStore) (engine_id : bytes) (boots : Z) : result unit IoError * FileEngineBootsStore :=
  let '(r, states) := file_save_states s engine_id boots in
  (r, set_files s (default (files s) (last states))).

#[export] Instance file_engine_boots_store : EngineBootsStore FileEngineBootsStore :=
  {| load := file_load; save := file_save |}.

(** ** What a store promises *)

(** A store that works: loading never fails and changes nothing, and a save of a
    plausible state succeeds, is what the next load returns, and keeps the store
    working. *)
Class BootsStoreLaws (S : Type) `{EngineBootsStore S} := {
  store_works : S -> Prop;
  load_works : forall s, store_works s -> exists st, load s = (Ok st, s);
  save_works : forall s engine_id boots,
    store_works s -> Forall is_u8 engine_id -> len engine_id <= MAX_ENGINE_ID_LEN -> 0 <= boots <= MAX_ENGINE_BOOTS ->
    exists s', save s engine_id boots = (Ok tt, s') /\ store_works s' /\
      load s' = (Ok (Some (MkStoredBootsState engine_id boots)), s');
}.

(** The results of [n] consecutive starts. *)
Fixpoint restarts {S} `{EngineBootsStore S} (n : nat) (store : S) (engine_id : bytes) : list (result Z InitBootsError) :=
  match n with
  | O => []
  | Datatypes.S n' =>
      let '(r, store) := initialise_engine_boots store engine_id in r :: restarts n' store engine_id
  end.

(** ** Counting starts, against the interface *)

Section Restarts.
  Context {S} `{BootsStoreLaws S}.

(** The boots value stored for this engine, zero when there is none. *)
Definition stored_boots (st : option StoredBootsState) (engine_id : bytes) : Z :=
  match st with
  | Some state => if bytes_eqb (sb_engine_id state) engine_id then sb_boots state else 0
  | None => 0
  end.

(** One start: the next value, stored, or the ceiling error with the store as it was. *)
Lemma initialise_step s st engine_id :
  store_works s -> Forall is_u8 engine_id -> len engine_id <= MAX_ENGINE_ID_LEN ->
  load s = (Ok st, s) -> 0 <= stored_boots st engine_id ->
  if stored_boots st engine_id <? MAX_ENGINE_BOOTS then
    exists s', initialise_engine_boots s engine_id = (Ok (stored_boots st engine_id + 1), s') /\ store_works s' /\
      load s' = (Ok (Some (MkStoredBootsState engine_id (stored_boots st engine_id + 1))), s')
  else initialise_engine_boots s engine_id = (Err BootsAtCeiling, s).
Proof.
  intros Hw Hu Hl Hload Hb. unfold initialise_engine_boots. rewrite Hload. unfold stored_boots in *.
  assert (HM : MAX_ENGINE_BOOTS = 2147483647) by done.
  assert (Hsave : forall b, 0 <= b <= MAX_ENGINE_BOOTS -> exists s',
    match save s engine_id b with (Err e, s') => (Err (StoreError e), s') | (Ok _, s') => (Ok b, s') end = (Ok b, s') /\
    store_works s' /\ load s' = (Ok (Some (MkStoredBootsState engine_id b)), s')).
  { intros b Hbb. destruct (save_works s engine_id b Hw Hu Hl Hbb) as (s' & E & Hw' & El).
    exists s'. by rewrite E. }
  destruct st as [[i b]|]; cbn [sb_engine_id sb_boots] in *.
  - destruct (bytes_eqb i engine_id); [|apply Hsave; lia].
    destruct (Z.ltb_spec b MAX_ENGINE_BOOTS).
    + bfalse (MAX_ENGINE_BOOTS <=? b). apply Hsave. lia.
    + by btrue (MAX_ENGINE_BOOTS <=? b).
  - apply Hsave. lia.
Qed.

Lemma restarts_lookup engine_id n : forall s st (k : nat),
  store_works s -> Forall is_u8 engine_id -> len engine_id <= MAX_ENGINE_ID_LEN ->
  load s = (Ok st, s) -> 0 <= stored_boots st engine_id -> (k < n)%nat ->
  restarts n s engine_id !! k =
    Some (if stored_boots st engine_id + Z.of_nat k <? MAX_ENGINE_BOOTS
          then Ok (stored_boots st engine_id + Z.of_nat k + 1) else Err BootsAtCeiling).
Proof.
  induction n as [|n IH]; intros s st k Hw Hu Hl Hload Hb Hk; [lia|]. cbn [restarts].
  pose proof (initialise_step s st engine_id Hw Hu Hl Hload Hb) as Hstep.
  destruct (Z.ltb_spec (stored_boots st engine_id) MAX_ENGINE_BOOTS) as [Hlt|Hge].
  - destruct Hstep as (s' & -> & Hw' & Hload').
    assert (Hnext : stored_boots (Some (MkStoredBootsState engine_id (stored_boots st engine_id + 1))) engine_id
                    = stored_boots st engine_id + 1)
      by (unfold stored_boots at 1, bytes_eqb; cbn; by rewrite bool_decide_true).
    destruct k as [|k]; cbn [lookup list_lookup].
    + rewrite Z.add_0_r. by btrue (stored_boots st engine_id <? MAX_ENGINE_BOOTS).
    + etrans; [apply (IH s' _ k Hw' Hu Hl Hload'); rewrite ?Hnext; lia|]. rewrite Hnext.
      replace (stored_boots st engine_id + 1 + Z.of_nat k) with (stored_boots st engine_id + Z.of_nat (Datatypes.S k)) by lia.
      done.
  - rewrite Hstep. destruct k as [|k]; cbn [lookup list_lookup].
    + by bfalse (stored_boots st engine_id + Z.of_nat 0 <? MAX_ENGINE_BOOTS).
    + etrans; [apply (IH s st k Hw Hu Hl Hload Hb); lia|].
      bfalse (stored_boots st engine_id + Z.of_nat k <? MAX_ENGINE_BOOTS).
      by bfalse (stored_boots st engine_id + Z.of_nat (Datatypes.S k) <? MAX_ENGINE_BOOTS).
Qed.

(** Claim C27: engine boots count the starts and never go back.  Over any store that
    works, the k-th of any number of consecutive starts of the same engine gets the
    stored value plus k plus one (so the first start of a new engine, or of a changed
    engine ID, gets 1 and no two starts share a value), until the ceiling, after
    which every start fails with [BootsAtCeiling]. *)
Theorem boots_strictly_increase (s : S) (st : option StoredBootsState) (engine_id : bytes) (n k : nat) :
  store_works s -> Forall is_u8 engine_id -> len engine_id <= MAX_ENGINE_ID_LEN ->
  load s = (Ok st, s) -> 0 <= stored_boots st engine_id -> (k < n)%nat ->
  restarts n s engine_id !! k =
    Some (if stored_boots st engine_id + Z.of_nat k <? MAX_ENGINE_BOOTS
          then Ok (stored_boots st engine_id + Z.of_nat k + 1) else Err BootsAtCeiling).
Proof. apply restarts_lookup. Qed.

End Restarts.

(** ** The file store keeps the promise *)

Lemma take_to_be_bytes_4 v l : take 4 (to_be_bytes 4 v ++ l) = to_be_bytes 4 v.
Proof. apply take_app_length'. rewrite <-(Nat2Z.id (length _)). fold (len (to_be_bytes 4 v)). by rewrite len_to_be_bytes. Qed.

Lemma drop_to_be_bytes_4 v l : drop 4 (to_be_bytes 4 v ++ l) = l.
Proof. apply drop_app_length'. rewrite <-(Nat2Z.id (length _)). fold (len (to_be_bytes 4 v)). by rewrite len_to_be_bytes. Qed.

(** What [save] writes is what [load] parses. *)
Lemma parse_boots_file_roundtrip engine_id boots :
  len engine_id <= MAX_ENGINE_ID_LEN -> is_u32 boots ->
  parse_boots_file (boots_file engine_id boots) = Ok (MkStoredBootsState engine_id boots).
Proof.
  intros Hl Hb. unfold parse_boots_file, boots_file. pose proof (len_nonneg engine_id). unfold MAX_ENGINE_ID_LEN in *.
  rewrite take_to_be_bytes_4, drop_to_be_bytes_4, !len_app, !len_to_be_bytes.
  rewrite !from_to_be_bytes_id by (change (256 ^ Z.of_nat 4) with 4294967296; zrange).
  bfalse (Z.of_nat 4 + (len engine_id + Z.of_nat 4) <? 4). bfalse (32 <? len engine_id).
  change (Z.of_nat 4) with 4. rewrite Z.eqb_refl. cbn [negb]. rewrite take_len_app, drop_len_app.
  do 2 f_equal. apply from_to_be_bytes_id. change (256 ^ Z.of_nat 4) with 4294967296. done.
Qed.

(** The file is absent or holds a state [load] can parse, and no call fails. *)
Definition file_store_works (s : FileEngineBootsStore) : Prop :=
  (forall op, fails (faults s) op = None) /\
  match files s (path s) with None => True | Some d => exists st, parse_boots_file d = Ok st end.

Lemma file_load_works s : file_store_works s -> exists st, file_load s = (Ok st, s).
Proof.
  intros [Hf Hd]. unfold file_load. rewrite Hf. destruct (files s (path s)) as [d|]; cbn; [|by eexists].
  destruct Hd as [st ->]. by eexists.
Qed.

Lemma file_save_works s engine_id boots :
  file_store_works s -> Forall is_u8 engine_id -> len engine_id <= MAX_ENGINE_ID_LEN -> 0 <= boots <= MAX_ENGINE_BOOTS ->
  exists s', file_save s engine_id boots = (Ok tt, s') /\ file_store_works s' /\
    file_load s' = (Ok (Some (MkStoredBootsState engine_id boots)), s').
Proof.
  intros [Hf _] Hu Hl Hb. pose proof (len_nonneg engine_id).
  assert (HM : MAX_ENGINE_BOOTS = 2147483647) by done. assert (HI : MAX_ENGINE_ID_LEN = 32) by done.
  assert (Hp : parse_boots_file (boots_file engine_id boots) = Ok (MkStoredBootsState engine_id boots))
    by (apply parse_boots_file_roundtrip; [done|zrange]).
  unfold file_save, file_save_states. rewrite !Hf, u32_try_from_Some by zrange. cbn [last default].
  eexists. split; [reflexivity|].
  set (fs3 := rename _ _ _). assert (Hfs3 : fs3 (path s) = Some (boots_file engine_id boots)).
  { unfold fs3, rename. rewrite decide_True by done. unfold write_file. by rewrite decide_True. }
  unfold file_store_works, file_load, set_files. cbn [files path faults id]. rewrite Hf, Hfs3. cbn [ok_or]. rewrite Hp.
  split; [|done]. split; [exact Hf|]. by eexists.
Qed.

#[export] Instance file_store_laws : BootsStoreLaws FileEngineBootsStore := {|
  store_works := file_store_works;
  load_works := file_load_works;
  save_works := file_save_works;
|}.

Definition toy_path : PathBuf := MkPathBuf (str "/var") (str "boots") (Some (str "bin")).
Definition toy_file_store (p : PathBuf) (content : option bytes) : FileEngineBootsStore :=
  file_store_new p (fun q => if decide (q = p) then content else None) no_faults.

Lemma boots_strictly_increase_witness :
  restarts 2 (toy_file_store toy_path (Some (boots_file [1; 2; 3; 4; 5] 2147483646))) [1; 2; 3; 4; 5] =
    [Ok 2147483647; Err BootsAtCeiling] /\
  restarts 2 (toy_file_store toy_path None) [1; 2; 3; 4; 5] !! 1%nat = Some (Ok 2).
Proof.
  split; [vm_compute; reflexivity|].
  apply (boots_strictly_increase (toy_file_store toy_path None) None [1; 2; 3; 4; 5] 2 1);
    [split; [reflexivity|exact I]|refine (bool_decide_unpack _ _); vm_compute; exact I|vm_compute; discriminate
    |reflexivity|vm_compute; discriminate|lia].
Defined.

(** ** Crashes *)

Lemma tmp_path_differs p : extension p <> Some (str "tmp") -> with_extension p (str "tmp") <> p.
Proof. intros Hx E. apply Hx. rewrite <-E. reflexivity. Qed.

(** Claim C28: saving is atomic.  Provided the configured file does not itself carry
    the extension "tmp", in every state the disk goes through during a save (which
    calls fail and where a write is cut are arbitrary), the boots file holds either
    exactly its previous content or exactly the new state; a save that reports
    success leaves the new state; and no file other than the boots file and its
    temporary sibling is ever touched. *)
Theorem save_is_atomic (s : FileEngineBootsStore) (engine_id : bytes) (boots : Z) (r : result unit IoError)
    (states : list Files) (fs : Files) :
  extension (path s) <> Some (str "tmp") ->
  file_save_states s engine_id boots = (r, states) -> In fs states ->
  (fs (path s) = files s (path s) \/ fs (path s) = Some (boots_file engine_id boots)) /\
  (r = Ok tt -> files (snd (file_save s engine_id boots)) (path s) = Some (boots_file engine_id boots)) /\
  (forall q, q <> path s -> q <> with_extension (path s) (str "tmp") -> fs q = files s q).
Proof.
  intros Hx%tmp_path_differs HE Hin. set (t := with_extension (path s) (str "tmp")) in *.
  assert (Hw : forall fs d, write_file fs t d (path s) = fs (path s))
    by (intros; unfold write_file; rewrite decide_False; [done|congruence]).
  assert (Hwq : forall fs d q, q <> t -> write_file fs t d q = fs q) by (intros; unfold write_file; by rewrite decide_False).
  assert (Hr : forall fs d, rename (write_file fs t d) t (path s) (path s) = Some d)
    by (intros; unfold rename, write_file; rewrite !decide_True; done).
  assert (Hrq : forall fs q, q <> path s -> q <> t -> rename fs t (path s) q = fs q)
    by (intros; unfold rename; by rewrite !decide_False).
  unfold file_save. rewrite HE. unfold file_save_states in HE. fold t in HE.
  repeat case_match; injection HE as <- <-; cbn [In] in Hin; cbn [snd set_files files last default];
    (split; [|split; [try done; intros _; apply Hr|intros q Hq1 Hq2]]);
    repeat (destruct Hin as [<-|Hin]; [rewrite ?Hr, ?Hrq, ?Hwq, ?Hw; auto|]); done.
Qed.

Definition DISK_FULL : IoError := io_error_new OtherKind (str "No space left on device (os error 28)").

(** The same store with writes that stop after [n] octets. *)
Definition cut_writes (n : nat) (s : FileEngineBootsStore) : FileEngineBootsStore :=
  {| path := path s; files := files s;
     faults := {| fails := fun op => match op with OpWrite => Some DISK_FULL | _ => None end; partial := n |} |}.

Lemma save_is_atomic_witness :
  let s := cut_writes 3 (toy_file_store toy_path (Some (boots_file [1; 2; 3; 4; 5] 7))) in
  exists fs, last (snd (file_save_states s [1; 2; 3; 4; 5] 8)) = Some fs /\
    (fs toy_path = Some (boots_file [1; 2; 3; 4; 5] 7) \/ fs toy_path = Some (boots_file [1; 2; 3; 4; 5] 8)).
Proof.
  eexists. split; [reflexivity|].
  edestruct (save_is_atomic (cut_writes 3 (toy_file_store toy_path (Some (boots_file [1; 2; 3; 4; 5] 7)))) [1; 2; 3; 4; 5] 8)
    as [[Hold|Hnew] _]; [..|left; exact Hold|right; exact Hnew].
  - vm_compute. discriminate.
  - reflexivity.
  - cbn. right. right. left. reflexivity.
Defined.

(** The temporary file of a store whose own extension is "tmp" is the
    boots file itself, so an interrupted save destroys the stored state: here the
    next start fails with a store error instead of continuing the count. *)
Theorem save_not_atomic_for_tmp_extension :
  let p := MkPathBuf (str "/var") (str "boots") (Some (str "tmp")) in
  let s := cut_writes 3 (toy_file_store p (Some (boots_file [1; 2; 3; 4; 5] 7))) in
  fst (file_load s) = Ok (Some (MkStoredBootsState [1; 2; 3; 4; 5] 7)) /\
  let '(r, s') := file_save s [1; 2; 3; 4; 5] 8 in
  r = Err DISK_FULL /\ fst (initialise_engine_boots s' [1; 2; 3; 4; 5]) = Err (StoreError (io_error_new InvalidData UNEXPECTED_LENGTH)).
Proof. vm_compute. split; [reflexivity|]. split; reflexivity. Qed.
