(* ===== verification/Trap.v ===== *)
(** * Trap sending: [src/src/transport/trap.rs]

    [TrapSender::send_trap] encodes a trap once and sends the datagram to every
    destination.  The process-global message-identifier counter and privacy salt are
    threaded explicitly; the two readings of the clock are arguments; the UDP socket
    is what [send_to] answers for each destination, and the datagrams handed to it
    are returned with the results. *)

From S2P Require Import Prelude Oid Ber BerFacts Usm Types Varbind BerPdu Snmp Codec Mib Request Dispatch Boots.

Definition TRAP_MTU_BYTES : Z := 1500.

(** The initial value of [TRAP_MSG_ID_COUNTER]. *)
Definition TRAP_MSG_ID_COUNTER_INIT : Z := 1.

Record TrapResult := MkTrapResult { destination : SocketAddr; outcome : result unit IoError }.

Record TrapSender := MkTrapSender {
  ts_engine_id : EngineId; ts_engine_boots : EngineBoots; ts_usm_user : option UsmUser }.

(** [TrapSender::new], with the answer of binding the socket.  The start time is not kept:
    the operations below take the time elapsed since. *)
Definition trap_sender_new (bind : result unit IoError) (engine_id : EngineId) (engine_boots : EngineBoots) (usm_user : option UsmUser)
    : result TrapSender IoError :=
  let? _ := bind in Ok {| ts_engine_id := engine_id; ts_engine_boots := engine_boots; ts_usm_user := usm_user |}.

(** [u32::try_from(elapsed.as_secs()).unwrap_or(u32::MAX)] *)
Definition engine_time_secs (elapsed_ms : Z) : Z := Z.min (elapsed_ms / 1000) U32_MAX.

(** The text of the error for a message of [n] octets. *)
Definition exceeds_mtu (n : Z) : IoMessage :=
  Text (str "encoded trap PDU (" ++ show_u64 n ++ str " bytes) exceeds MTU (" ++ show_u64 TRAP_MTU_BYTES ++ str " bytes)").

Definition encode_error_for_all (destinations : list SocketAddr) (message : IoMessage) : list TrapResult :=
  (fun dest => {| destination := dest; outcome := Err (MkIoError InvalidData message) |}) <$> destinations.

Section Sender.
  Context `{CryptoOps}.

(** What a process keeps between traps: the identifier counter and the salt. *)
Definition encode_trap_pdu (seed : Z) (counter : Z) (salt : SaltState) (sender : TrapSender) (elapsed_ms : Z)
    (wire_pdu : WireTrapPdu) : result bytes EncodeError * Z * SaltState :=
  match ts_usm_user sender with
  | None => (encode_trap wire_pdu, counter, salt)
  | Some user =>
      let '(mid, counter) := next_sequential counter in
      let '(r, salt) :=
        encode_v3_trap seed salt mid (engine_id_bytes (ts_engine_id sender)) (user_name_bytes (user_name user)) []
          (ts_engine_boots sender) (engine_time_secs elapsed_ms)
          (auth_pair (Some user)) (priv_pair (Some user)) wire_pdu in
      (r, counter, salt)
  end.

Definition send_trap (seed : Z) (counter : Z) (salt : SaltState) (send_to : bytes -> SocketAddr -> result unit IoError)
    (sender : TrapSender) (elapsed_ms elapsed_ms' : Z) (pdu : TrapPdu) (destinations : list SocketAddr)
    : list TrapResult * list (SocketAddr * bytes) * Z * SaltState :=
  let wire_pdu := build_wire_trap pdu elapsed_ms in
  match encode_trap_pdu seed counter salt sender elapsed_ms' wire_pdu with
  | (Err e, counter, salt) => (encode_error_for_all destinations (TrapEncodingFailed e), [], counter, salt)
  | (Ok encoded_pdu, counter, salt) =>
      if TRAP_MTU_BYTES <? len encoded_pdu then (encode_error_for_all destinations (exceeds_mtu (len encoded_pdu)), [], counter, salt)
      else
        ((fun dest => {| destination := dest; outcome := send_to encoded_pdu dest |}) <$> destinations,
         (fun dest => (dest, encoded_pdu)) <$> destinations, counter, salt)
  end.

End Sender.

(** ** Encoding *)

(** The varbinds a trap carries on the wire. *)
Definition trap_octets (pdu : TrapPdu) (elapsed_ms : Z) : bytes :=
  std_pdu_octets TAG_TRAP (tp_request_id pdu) 0 0
    (MkVarbind SYS_UP_TIME_OID (VValue (TimeTicks (elapsed_hundredths elapsed_ms))) ::
     MkVarbind SNMP_TRAP_OID_OID (VValue (ObjectIdentifier (trap_oid pdu))) :: tp_varbinds pdu).

Definition trap_pdu_wf (pdu : TrapPdu) : Prop :=
  is_i32 (tp_request_id pdu) /\ oid_wf (trap_oid pdu) /\ Forall varbind_wf (tp_varbinds pdu).

Record sender_wf (s : TrapSender) : Prop := {
  sw_engine : Forall is_u8 (engine_id_bytes (ts_engine_id s)) /\ len (engine_id_bytes (ts_engine_id s)) <= 32;
  sw_boots : 0 <= ts_engine_boots s <= I32_MAX;
  sw_user : match ts_usm_user s with Some u => user_wf u /\ len (user_name_bytes (user_name u)) <= 32 | None => True end;
}.

Lemma const_oids_wf : oid_wf SYS_UP_TIME_OID /\ oid_wf SNMP_TRAP_OID_OID.
Proof. split; (split; [refine (bool_decide_unpack _ _); vm_compute; exact I|reflexivity]). Qed.

Lemma wire_trap_wf pdu elapsed_ms : trap_pdu_wf pdu -> 0 <= elapsed_ms ->
  Forall varbind_wf (trap_varbinds (build_wire_trap pdu elapsed_ms)).
Proof.
  intros (_ & Ho & Hv) He. destruct const_oids_wf as [H1 H2]. unfold build_wire_trap. cbn [trap_varbinds app].
  constructor; [|constructor; [|done]].
  - split; [done|]. cbn. unfold elapsed_hundredths, is_u32, U32_MAX.
    pose proof (Z.div_pos elapsed_ms 10 He ltac:(lia)). lia.
  - by split.
Qed.

Section Properties.
  Context `{CryptoOps, !CryptoLaws}.

Lemma encode_trap_pdu_opens seed counter salt sender user pdu ms ms' :
  is_u64 seed -> salt_state_ok salt -> is_i32 counter -> sender_wf sender -> ts_usm_user sender = Some user ->
  trap_pdu_wf pdu -> 0 <= ms -> 0 <= ms' -> ms' / 1000 <= I32_MAX -> len (trap_octets pdu ms) + 32 <= PAYLOAD_MAX ->
  exists msg salt' env,
    encode_trap_pdu seed counter salt sender ms' (build_wire_trap pdu ms) = (Ok msg, snd (next_sequential counter), salt') /\
    salt_state_ok salt' /\
    opened (fst (next_sequential counter)) (engine_id_bytes (ts_engine_id sender)) (user_name_bytes (user_name user)) []
      (ts_engine_boots sender) (engine_time_secs ms') (auth_pair (Some user)) (priv_pair (Some user))
      (trap_octets pdu ms) msg env.
Proof.
  intros Hseed Hst Hc [[He Hel] Hb Hu] Eu Hp Hms Hms' Ht Hsize. rewrite Eu in Hu. destruct Hu as [Huw Hun].
  pose proof (wire_trap_wf pdu ms Hp Hms) as Hvb. unfold encode_trap_pdu. rewrite Eu.
  destruct (next_sequential_value counter Hc) as [Emid _].
  assert (Hmid : 0 <= fst (next_sequential counter) <= I32_MAX).
  { rewrite Emid. unfold is_i32, I32_MAX in *. destruct (Z.ltb_spec counter 0); lia. }
  destruct (next_sequential counter) as [mid c']. cbn [fst snd] in *.
  unfold encode_v3_trap. rewrite encode_varbinds_octets. cbn [map_err].
  assert (Htag : In TAG_TRAP STANDARD_TAGS) by (cbn; tauto). rewrite ber_encode_std by done. cbn [map_err].
  pose proof (Z.div_pos ms' 1000 Hms' ltac:(lia)).
  assert (Htime : 0 <= engine_time_secs ms' <= I32_MAX) by (unfold engine_time_secs, U32_MAX, I32_MAX in *; lia).
  destruct (std_pdu_opens seed salt mid (engine_id_bytes (ts_engine_id sender)) (user_name_bytes (user_name user)) []
    (ts_engine_boots sender) (engine_time_secs ms') (auth_pair (Some user)) (priv_pair (Some user)) TAG_TRAP
    (trap_request_id (build_wire_trap pdu ms)) 0 0 (trap_varbinds (build_wire_trap pdu ms)))
    as [(msg & st' & env & E & Hst' & Hop) _]; try done; try zrange.
  - by destruct Hp.
  - rewrite len_nil. unfold trap_octets in Hsize. unfold build_wire_trap. cbn [trap_request_id trap_varbinds app]. lia.
  - by apply user_pairs_ok.
  - exists msg, st', env. by rewrite E.
Qed.

(** One encoded message goes to every destination, or to none when it is too long. *)
Lemma send_trap_delivers seed counter salt send_to sender ms ms' pdu destinations msg counter' salt' :
  encode_trap_pdu seed counter salt sender ms' (build_wire_trap pdu ms) = (Ok msg, counter', salt') ->
  exists results sent,
    send_trap seed counter salt send_to sender ms ms' pdu destinations = (results, sent, counter', salt') /\
    destination <$> results = destinations /\
    if TRAP_MTU_BYTES <? len msg
    then sent = [] /\ Forall (fun r => outcome r = Err (MkIoError InvalidData (exceeds_mtu (len msg)))) results
    else sent = ((fun d => (d, msg)) <$> destinations) /\ outcome <$> results = (send_to msg <$> destinations).
Proof.
  intros E. unfold send_trap. rewrite E. destruct (TRAP_MTU_BYTES <? len msg).
  - eexists _, _. split; [reflexivity|]. unfold encode_error_for_all. split_and!; try done.
    + rewrite <-list_fmap_compose. by apply list_fmap_id.
    + by apply Forall_fmap, Forall_true.
  - eexists _, _. split; [reflexivity|]. split_and!; try done.
    + rewrite <-list_fmap_compose. by apply list_fmap_id.
    + by rewrite <-list_fmap_compose.
Qed.

(** Claim C32: a trap of a configured user is authentic and complete.  For a
    well-formed trap, [send_trap] returns one result per destination, in order; one
    message is built, carrying the next fresh message identifier, which a receiver
    that holds the user's keys opens to this engine's identity and clock and to the
    trap PDU whose first two varbinds are sysUpTime.0 and snmpTrapOID.0 followed by
    the caller's; that message goes unchanged to every destination, or, when it does
    not fit 1500 octets, nothing is sent and every result is the error that says so. *)
Theorem trap_is_delivered (seed counter : Z) (salt : SaltState) (send_to : bytes -> SocketAddr -> result unit IoError)
    (sender : TrapSender) (user : UsmUser) (pdu : TrapPdu) (ms ms' : Z) (destinations : list SocketAddr) :
  is_u64 seed -> salt_state_ok salt -> is_i32 counter -> sender_wf sender -> ts_usm_user sender = Some user ->
  trap_pdu_wf pdu -> 0 <= ms -> 0 <= ms' -> ms' / 1000 <= I32_MAX -> len (trap_octets pdu ms) + 32 <= PAYLOAD_MAX ->
  exists results sent salt' msg env,
    send_trap seed counter salt send_to sender ms ms' pdu destinations
      = (results, sent, snd (next_sequential counter), salt') /\
    destination <$> results = destinations /\
    opened (fst (next_sequential counter)) (engine_id_bytes (ts_engine_id sender)) (user_name_bytes (user_name user)) []
      (ts_engine_boots sender) (engine_time_secs ms') (auth_pair (Some user)) (priv_pair (Some user))
      (trap_octets pdu ms) msg env /\
    if TRAP_MTU_BYTES <? len msg
    then sent = [] /\ Forall (fun r => outcome r = Err (MkIoError InvalidData (exceeds_mtu (len msg)))) results
    else sent = ((fun d => (d, msg)) <$> destinations) /\ outcome <$> results = (send_to msg <$> destinations).
Proof.
  intros Hseed Hst Hc Hs Eu Hp Hms Hms' Ht Hsize.
  destruct (encode_trap_pdu_opens seed counter salt sender user pdu ms ms') as (msg & salt' & env & E & _ & Hop); try done.
  destruct (send_trap_delivers seed counter salt send_to sender ms ms' pdu destinations msg _ _ E) as (results & sent & Es & Hd & Hm).
  by exists results, sent, salt', msg, env.
Qed.

(** A sender without a user sends an SNMPv2c message with an empty community: the same
    trap PDU, unsigned, and no message identifier or salt is consumed. *)
Theorem trap_without_user_is_v2c (seed counter : Z) (salt : SaltState) (send_to : bytes -> SocketAddr -> result unit IoError)
    (sender : TrapSender) (pdu : TrapPdu) (ms ms' : Z) (destinations : list SocketAddr) :
  ts_usm_user sender = None ->
  let msg := seq_tlv (int_tlv SNMPV2C_VERSION ++ oct_tlv [] ++ trap_octets pdu ms) in
  exists results sent,
    send_trap seed counter salt send_to sender ms ms' pdu destinations = (results, sent, counter, salt) /\
    destination <$> results = destinations /\
    if TRAP_MTU_BYTES <? len msg
    then sent = [] /\ Forall (fun r => outcome r = Err (MkIoError InvalidData (exceeds_mtu (len msg)))) results
    else sent = ((fun d => (d, msg)) <$> destinations) /\ outcome <$> results = (send_to msg <$> destinations).
Proof.
  intros Eu msg. apply send_trap_delivers. unfold encode_trap_pdu. rewrite Eu. unfold encode_trap.
  rewrite encode_varbinds_octets. assert (Htag : In TAG_TRAP STANDARD_TAGS) by (cbn; tauto).
  rewrite ber_encode_std by done. cbn [map_err]. by rewrite encode_v2c_message_octets.
Qed.

End Properties.

Lemma trap_is_delivered_witness :
  let sender := MkTrapSender (MkEngineId [1; 2; 3; 4; 5]) 1 (Some toy_user) in
  let pdu := MkTrapPdu 1 (MkOid [1; 3; 6; 1]) [] in
  exists results msg, fst (fst (fst (@send_trap ToyCrypto.ops 5 1 None (fun _ _ => Ok tt) sender 100 100 pdu [([127; 0; 0; 1], 162)])))
    = results /\ destination <$> results = [([127; 0; 0; 1], 162)] /\ decode_v3_envelope msg <> Err (ber_error TrailingInPdu).
Proof.
  edestruct (@trap_is_delivered ToyCrypto.ops ToyCrypto.laws 5 1 None (fun _ _ => Ok tt)
    (MkTrapSender (MkEngineId [1; 2; 3; 4; 5]) 1 (Some toy_user)) toy_user (MkTrapPdu 1 (MkOid [1; 3; 6; 1]) []) 100 100
    [([127; 0; 0; 1], 162)]) as (results & sent & salt' & msg & env & E & Hd & Hop & _);
    [..|exists results, msg; rewrite E; split; [reflexivity|split; [exact Hd|]]; rewrite (opened_decodes _ _ _ _ _ _ _ _ _ _ _ Hop); discriminate].
  - zrange.
  - exact I.
  - zrange.
  - split; [split; [refine (bool_decide_unpack _ _)|]; vm_compute; (exact I || discriminate)|vm_compute; split; congruence|].
    vm_compute. split_and!; (exact I || congruence).
  - reflexivity.
  - split_and!; [vm_compute; split; congruence| |constructor].
    split; [refine (bool_decide_unpack _ _); vm_compute; exact I|reflexivity].
  - lia.
  - lia.
  - vm_compute. discriminate.
  - vm_compute. discriminate.
Defined.
