(* ===== verification/Framing.v ===== *)
(** * Stream framing: the frame parser of [src/src/transport/event_loop.rs]

    [parse_ber_length], [total_frame_size] and [next_complete_frame], and the loop
    that takes complete frames off a connection's read buffer. *)

From S2P Require Import Prelude Oid Ber BerFacts Usm Types Varbind BerPdu Snmp Codec Mib Request Dispatch.

Inductive BerLengthError := MkBerLengthError.

(** [content_length << 8 | byte] over the length octets; a shift drops the bits that
    leave the word. *)
Fixpoint shift_in (length_bytes : bytes) (content_length : Z) : Z :=
  match length_bytes with
  | [] => content_length
  | byte :: rest => shift_in rest (Z.lor (Z.shiftl content_length 8 mod 18446744073709551616) byte)
  end.

Definition parse_ber_length (buf : bytes) : result (option (Z * Z)) BerLengthError :=
  match buf with
  | [] => Ok None
  | first_byte :: rest =>
      if Z.land first_byte 0x80 =? 0 then Ok (Some (first_byte, 1))
      else
        let num_octets := Z.land first_byte 0x7F in
        if (num_octets =? 0) || (4 <? num_octets) then Err MkBerLengthError
        else
          match get_range rest 0 num_octets with
          | None => Ok None
          | Some length_bytes => Ok (Some (shift_in length_bytes 0, 1 + num_octets))
          end
  end.

Definition total_frame_size (length_field_bytes content_length : Z) : option Z :=
  usize_checked_add 1 length_field_bytes ≫= (fun partial => usize_checked_add partial content_length).

Inductive CloseReason := NonSequenceTag | InvalidBerLength | FrameSizeOverflow | OversizedFrame.

Inductive FrameOutcome :=
| Complete (ber_frame : bytes)
| Incomplete
| Close (reason : CloseReason).

(** Returns the outcome and what is left in the buffer. *)
Definition next_complete_frame (read_buf : bytes) : FrameOutcome * bytes :=
  match read_buf with
  | [] => (Incomplete, read_buf)
  | tag_byte :: after_tag =>
      if negb (tag_byte =? 0x30) then (Close NonSequenceTag, read_buf)
      else
        match parse_ber_length after_tag with
        | Ok None => (Incomplete, read_buf)
        | Err _ => (Close InvalidBerLength, read_buf)
        | Ok (Some (content_length, length_field_bytes)) =>
            match total_frame_size length_field_bytes content_length with
            | None => (Close FrameSizeOverflow, read_buf)
            | Some total_frame_bytes =>
                if MAX_FRAME_SIZE <? total_frame_bytes then (Close OversizedFrame, read_buf)
                else
                  match get_range read_buf 0 total_frame_bytes with
                  | None => (Incomplete, read_buf)
                  | Some frame_bytes => (Complete frame_bytes, drop (Z.to_nat total_frame_bytes) read_buf)
                  end
            end
        end
  end.

(** All complete frames at the front of the buffer, and how the extraction stops:
    [None] when more data is needed, [Some reason] when the stream is broken.  Every
    frame is at least two octets, so [length read_buf] iterations are enough. *)
Fixpoint take_frames (fuel : nat) (read_buf : bytes) : list bytes * bytes * option CloseReason :=
  match fuel with
  | O => ([], read_buf, None)
  | S f =>
      match next_complete_frame read_buf with
      | (Incomplete, buf) => ([], buf, None)
      | (Close r, buf) => ([], buf, Some r)
      | (Complete frame, buf) => let '(fs, rest, e) := take_frames f buf in (frame :: fs, rest, e)
      end
  end.

Definition all_frames (buf : bytes) : list bytes * bytes * option CloseReason := take_frames (S (length buf)) buf.

(** What a connection sees when its octets arrive in chunks, the frames being taken
    off after each chunk; nothing is read once the stream is broken. *)
Fixpoint feed (buf : bytes) (chunks : list bytes) : list bytes * bytes * option CloseReason :=
  match chunks with
  | [] => ([], buf, None)
  | c :: cs =>
      match all_frames (buf ++ c) with
      | (fs, rest, Some r) => (fs, rest, Some r)
      | (fs, rest, None) => let '(fs', rest', e) := feed rest cs in (fs ++ fs', rest', e)
      end
  end.

(** ** The length field *)

Lemma lor_shifted a b : 0 <= b < 256 -> Z.lor (a * 256) b = a * 256 + b.
Proof.
  intros Hb. symmetry. apply Z.add_nocarry_lor, Z.bits_inj'. intros n Hn.
  rewrite Z.land_spec, Z.bits_0. change 256 with (2 ^ 8) in *. destruct (Z.lt_ge_cases n 8).
  - by rewrite Z.mul_pow2_bits_low.
  - apply andb_false_iff. right. eapply Z.bounded_iff_bits_nonneg; [| |apply Hb|]; lia.
Qed.

Lemma shift_in_value bs acc :
  Forall is_u8 bs -> 0 <= acc -> acc * 256 ^ len bs + from_be_bytes bs <= USIZE_MAX ->
  shift_in bs acc = acc * 256 ^ len bs + from_be_bytes bs.
Proof.
  intros Hu. revert acc. induction Hu as [|b bs Hb Hu IH]; intros acc Ha Hmax; cbn [shift_in].
  { rewrite len_nil. change (from_be_bytes []) with 0. lia. }
  rewrite len_cons in *. rewrite from_be_bytes_cons in *. pose proof (len_nonneg bs).
  rewrite Z.pow_add_r in * by lia. change (256 ^ 1) with 256 in *. unfold is_u8 in Hb.
  pose proof (from_be_bytes_bound bs Hu). pose proof (Z.pow_pos_nonneg 256 (len bs) ltac:(lia) ltac:(lia)).
  assert (Hacc : acc * 256 + b <= USIZE_MAX) by nia. unfold USIZE_MAX, U64_MAX in Hacc.
  rewrite Z.shiftl_mul_pow2 by lia. change (2 ^ 8) with 256. rewrite Z.mod_small, lor_shifted by lia.
  rewrite IH by nia. lia.
Qed.

Lemma get_range_prefix (l x : bytes) n bs : get_range l 0 n = Some bs -> get_range (l ++ x) 0 n = Some bs /\ take (Z.to_nat n) l = bs /\ len bs = n.
Proof.
  unfold get_range. destruct ((0 <=? 0) && _ && _) eqn:E; [|done]. intros [= <-].
  rewrite !andb_true_iff, !Z.leb_le in E. destruct E as [[_ H1] H2]. rewrite len_app. pose proof (len_nonneg x).
  btrue ((0 <=? 0) && (0 <=? n) && (n <=? len l + len x)). rewrite !Z.sub_0_r. change (Z.to_nat 0) with 0%nat. rewrite !drop_0.
  unfold len in *. rewrite take_app_le by lia. split_and!; [done|done|]. rewrite length_take. lia.
Qed.

Lemma parse_ber_length_mono buf x :
  match parse_ber_length buf with
  | Ok None => True
  | r => parse_ber_length (buf ++ x) = r
  end.
Proof.
  destruct buf as [|b rest]; [done|]. cbn [parse_ber_length app].
  destruct (Z.land b 0x80 =? 0); [done|]. destruct ((_ =? 0) || _); [done|].
  destruct (get_range rest 0 (Z.land b 0x7F)) as [bs|] eqn:E; [|done].
  by destruct (get_range_prefix rest x _ _ E) as [-> _].
Qed.

(** More octets never change a decision the parser has taken. *)
Lemma next_complete_frame_mono buf x :
  match next_complete_frame buf with
  | (Complete f, rest) => next_complete_frame (buf ++ x) = (Complete f, rest ++ x)
  | (Close r, rest) => next_complete_frame (buf ++ x) = (Close r, buf ++ x) /\ rest = buf
  | (Incomplete, rest) => rest = buf
  end.
Proof.
  destruct buf as [|t after]; [done|]. unfold next_complete_frame. cbn [app].
  destruct (negb (t =? 0x30)); [done|]. pose proof (parse_ber_length_mono after x) as Hp.
  destruct (parse_ber_length after) as [[[n k]|]|e]; [|done|by rewrite Hp].
  rewrite Hp. destruct (total_frame_size k n) as [tot|]; [|done].
  destruct (MAX_FRAME_SIZE <? tot); [done|].
  destruct (get_range (t :: after) 0 tot) as [f|] eqn:E; [|done].
  destruct (get_range_prefix (t :: after) x _ _ E) as (Hg & Ht & Hl). cbn [app] in Hg. rewrite Hg. f_equal.
  change (t :: after ++ x) with ((t :: after) ++ x). rewrite drop_app_le; [done|].
  apply (f_equal length) in Ht. rewrite length_take in Ht. unfold len in Hl. lia.
Qed.

(** ** What is taken off the buffer *)

(** A length field of at most four length octets, in short or long form. *)
Definition length_field (hdr : bytes) (n : Z) : Prop :=
  hdr = [n] /\ 0 <= n < 128 \/
  exists bs, hdr = (128 + len bs) :: bs /\ n = from_be_bytes bs /\ Forall is_u8 bs /\ 1 <= len bs <= 4.

Lemma length_field_bounds hdr n : length_field hdr n -> 1 <= len hdr <= 5 /\ 0 <= n <= 4294967295.
Proof.
  intros [[-> Hn]|(bs & -> & -> & Hu & Hl)]; [rewrite len_cons, len_nil; lia|].
  rewrite len_cons. pose proof (from_be_bytes_bound bs Hu) as Hb.
  pose proof (Z.pow_le_mono_r 256 (len bs) 4 ltac:(lia) ltac:(lia)) as Hp. change (256 ^ 4) with 4294967296 in Hp. lia.
Qed.

Lemma parse_length_field hdr n post :
  length_field hdr n -> parse_ber_length (hdr ++ post) = Ok (Some (n, len hdr)).
Proof.
  intros Hf. pose proof (length_field_bounds _ _ Hf) as Hb.
  destruct Hf as [[-> Hn]|(bs & -> & -> & Hu & Hl)]; cbn [app parse_ber_length].
  - rewrite land_0x80_u8 by zrange. by btrue (n <? 128).
  - rewrite land_0x80_u8 by zrange. bfalse (128 + len bs <? 128). rewrite land_0x7F.
    replace ((128 + len bs) mod 128) with (len bs) by (apply (Z.mod_unique _ 128 1); lia).
    bfalse ((len bs =? 0) || (4 <? len bs)).
    assert (Hg : get_range bs 0 (len bs) = Some bs).
    { unfold get_range. btrue ((0 <=? 0) && (0 <=? len bs) && (len bs <=? len bs)).
      rewrite Z.sub_0_r. change (Z.to_nat 0) with 0%nat. rewrite drop_0. unfold len. rewrite Nat2Z.id. by rewrite firstn_all. }
    destruct (get_range_prefix bs post _ _ Hg) as [-> _]. rewrite len_cons.
    by rewrite shift_in_value by (try done; unfold USIZE_MAX, U64_MAX; lia).
Qed.

Lemma parse_ber_length_inv buf n k :
  Forall is_u8 buf -> parse_ber_length buf = Ok (Some (n, k)) ->
  exists hdr post, buf = hdr ++ post /\ len hdr = k /\ length_field hdr n.
Proof.
  intros Hu HE. destruct buf as [|b rest]; [done|]. cbn [parse_ber_length] in HE.
  apply Forall_cons in Hu as [Hb Hu]. rewrite land_0x80_u8 in HE by done.
  destruct (Z.ltb_spec b 128) as [Hlt|Hge].
  { injection HE as <- <-. exists [b], rest. split_and!; [done|done|]. left. unfold is_u8 in Hb. split; [done|lia]. }
  destruct ((Z.land b 0x7F =? 0) || (4 <? Z.land b 0x7F)) eqn:E; [done|].
  apply orb_false_iff in E as [E1%Z.eqb_neq E2%Z.ltb_ge].
  assert (Eb : Z.land b 0x7F = b - 128)
    by (rewrite land_0x7F; unfold is_u8 in Hb; symmetry; apply (Z.mod_unique b 128 1); lia).
  destruct (get_range rest 0 (Z.land b 0x7F)) as [bs|] eqn:Eg; [|done].
  destruct (get_range_prefix rest [] _ _ Eg) as (_ & Ht & Hl). injection HE as <- <-.
  assert (Hbs : Forall is_u8 bs) by (rewrite <-Ht; by apply Forall_take).
  exists (b :: bs), (drop (Z.to_nat (Z.land b 0x7F)) rest).
  split; [rewrite <-Ht; cbn [app]; by rewrite take_drop|]. rewrite len_cons. split; [lia|].
  assert (Hf : length_field (b :: bs) (from_be_bytes bs)).
  { right. exists bs. unfold is_u8 in Hb. split_and!; [f_equal; lia|done|done|lia|lia]. }
  pose proof (length_field_bounds _ _ Hf).
  by rewrite shift_in_value by (try done; unfold USIZE_MAX, U64_MAX; lia).
Qed.

Lemma total_frame_size_ok hdr n : length_field hdr n -> total_frame_size (len hdr) n = Some (1 + len hdr + n).
Proof.
  intros Hf%length_field_bounds. unfold total_frame_size, usize_checked_add.
  assert (HU : USIZE_MAX = 18446744073709551615) by done.
  btrue (1 + len hdr <=? USIZE_MAX). cbn [mbind option_bind]. by btrue (1 + len hdr + n <=? USIZE_MAX).
Qed.

(** A frame is a SEQUENCE header and exactly the content it announces. *)
Definition is_frame (f : bytes) : Prop :=
  exists hdr content, f = 0x30 :: hdr ++ content /\ length_field hdr (len content) /\ len f <= MAX_FRAME_SIZE.

Lemma is_frame_len f : is_frame f -> 2 <= len f.
Proof.
  intros (hdr & content & -> & Hf%length_field_bounds & _). rewrite len_cons, len_app. pose proof (len_nonneg content). lia.
Qed.

Lemma next_complete_frame_sound buf f rest :
  Forall is_u8 buf -> next_complete_frame buf = (Complete f, rest) -> buf = f ++ rest /\ is_frame f.
Proof.
  intros Hu HE. destruct buf as [|t after]; [done|]. unfold next_complete_frame in HE.
  destruct (Z.eqb_spec t 0x30) as [->|]; [|done]. cbn [negb] in HE. apply Forall_cons in Hu as [_ Hu].
  destruct (parse_ber_length after) as [[[n k]|]|] eqn:Ep; [|done..].
  destruct (parse_ber_length_inv _ _ _ Hu Ep) as (hdr & post & -> & <- & Hf).
  rewrite (total_frame_size_ok _ _ Hf) in HE. destruct (Z.ltb_spec MAX_FRAME_SIZE (1 + len hdr + n)); [done|].
  destruct (get_range _ _ _) as [g|] eqn:Eg; [|done].
  destruct (get_range_prefix _ [] _ _ Eg) as (_ & Ht & Hl). injection HE as <- <-.
  split; [rewrite <-Ht; by rewrite take_drop|].
  pose proof (length_field_bounds _ _ Hf) as Hb.
  assert (Eg' : g = 0x30 :: hdr ++ take (Z.to_nat n) post).
  { rewrite <-Ht. change (0x30 :: hdr ++ post) with ((0x30 :: hdr) ++ post). rewrite take_app_ge by (cbn; unfold len; lia).
    change (0x30 :: hdr ++ take (Z.to_nat n) post) with ((0x30 :: hdr) ++ take (Z.to_nat n) post). do 2 f_equal.
    cbn [length]. unfold len. lia. }
  exists hdr, (take (Z.to_nat n) post). split; [done|]. split; [|lia].
  replace (len (take (Z.to_nat n) post)) with n; [done|].
  rewrite Eg', len_cons, len_app in Hl. lia.
Qed.

Lemma next_complete_frame_frame f rest : is_frame f -> next_complete_frame (f ++ rest) = (Complete f, rest).
Proof.
  intros (hdr & content & -> & Hf & Hmax). rewrite len_cons, len_app in Hmax.
  assert (E : (0x30 :: hdr ++ content) ++ rest = 0x30 :: (hdr ++ (content ++ rest))) by (cbn [app]; by rewrite app_assoc).
  unfold next_complete_frame. rewrite E, Z.eqb_refl, (parse_length_field _ _ _ Hf), (total_frame_size_ok _ _ Hf).
  cbn [negb]. bfalse (MAX_FRAME_SIZE <? 1 + len hdr + len content). rewrite <-E.
  replace (1 + len hdr + len content) with (len (0x30 :: hdr ++ content)) by (rewrite len_cons, len_app; lia).
  replace (get_range _ _ _) with (Some (0x30 :: hdr ++ content)).
  - by rewrite drop_len_app.
  - symmetry. apply (get_range_app [] (0x30 :: hdr ++ content) rest).
Qed.

(** ** Taking all frames *)

Lemma take_frames_fuel n m buf :
  Forall is_u8 buf -> (length buf < n)%nat -> (length buf < m)%nat -> take_frames n buf = take_frames m buf.
Proof.
  revert m buf. induction n as [|n IH]; intros [|m] buf Hu Hn Hm; try lia. cbn [take_frames].
  destruct (next_complete_frame buf) as [[f| |r] rest] eqn:E; [|done..].
  destruct (next_complete_frame_sound _ _ _ Hu E) as [-> Hf%is_frame_len].
  apply Forall_app in Hu as [_ Hu]. rewrite length_app in *. unfold len in Hf.
  by rewrite (IH m rest) by (done || lia).
Qed.

Lemma all_frames_complete buf f rest :
  Forall is_u8 buf -> next_complete_frame buf = (Complete f, rest) ->
  all_frames buf = let '(fs, r, e) := all_frames rest in (f :: fs, r, e).
Proof.
  intros Hu E. unfold all_frames at 1. cbn [take_frames]. rewrite E.
  destruct (next_complete_frame_sound _ _ _ Hu E) as [-> Hf%is_frame_len].
  apply Forall_app in Hu as [_ Hu]. unfold all_frames.
  by rewrite (take_frames_fuel (length (f ++ rest)) (S (length rest)) rest Hu)
    by (rewrite ?length_app; unfold len in Hf; lia).
Qed.

Lemma all_frames_stop buf o rest :
  next_complete_frame buf = (o, rest) -> (forall f, o <> Complete f) ->
  all_frames buf = ([], rest, match o with Close r => Some r | _ => None end).
Proof. intros E Hc. unfold all_frames. cbn [take_frames]. rewrite E. destruct o; [by edestruct Hc|done|done]. Qed.

(** Taking the frames of a longer stream. *)
Lemma all_frames_app n : forall a b, (length a <= n)%nat -> Forall is_u8 (a ++ b) ->
  match all_frames a with
  | (fs, rest, Some r) => all_frames (a ++ b) = (fs, rest ++ b, Some r)
  | (fs, rest, None) =>
      Forall is_u8 rest /\ all_frames rest = ([], rest, None) /\
      all_frames (a ++ b) = let '(fs', rest', e) := all_frames (rest ++ b) in (fs ++ fs', rest', e)
  end.
Proof.
  induction n as [|n IH]; intros a b Hn Hu; pose proof Hu as Hua; apply Forall_app in Hua as [Ha _];
    destruct (next_complete_frame a) as [o rest] eqn:E; pose proof (next_complete_frame_mono a b) as Hm; rewrite E in Hm.
  - destruct a; [|cbn in Hn; lia]. injection E as <- <-. change (all_frames []) with (@nil bytes, @nil Z, @None CloseReason).
    split_and!; [done|done|]. cbn [app]. by destruct (all_frames b) as [[fs r] e].
  - destruct o as [f| |r].
    + rewrite (all_frames_complete _ _ _ Ha E), (all_frames_complete _ _ _ Hu Hm).
      destruct (next_complete_frame_sound _ _ _ Ha E) as [-> Hf%is_frame_len].
      rewrite length_app in Hn. unfold len in Hf. rewrite <-app_assoc in Hu. apply Forall_app in Hu as [_ Hu].
      specialize (IH rest b ltac:(lia) Hu). destruct (all_frames rest) as [[fs r] [c|]].
      * by rewrite IH.
      * destruct IH as (Hr & Hs & ->). split_and!; [done|done|]. by destruct (all_frames (r ++ b)) as [[fs' r'] e].
    + subst rest. rewrite (all_frames_stop _ _ _ E) by done. split_and!; [done|by rewrite (all_frames_stop _ _ _ E)|].
      by destruct (all_frames (a ++ b)) as [[fs r] e].
    + destruct Hm as [Hm ->]. by rewrite (all_frames_stop _ _ _ E), (all_frames_stop _ _ _ Hm).
Qed.

Lemma feed_frames chunks : forall buf, Forall is_u8 (buf ++ concat chunks) -> all_frames buf = ([], buf, None) ->
  match feed buf chunks with
  | (fs, rest, Some r) => exists unread, suffix unread (concat chunks) /\ all_frames (buf ++ concat chunks) = (fs, rest ++ unread, Some r)
  | (fs, rest, None) => all_frames (buf ++ concat chunks) = (fs, rest, None)
  end.
Proof.
  induction chunks as [|c cs IH]; intros buf Hu Hb; cbn [feed concat]; [by rewrite app_nil_r|].
  cbn [concat] in Hu. rewrite app_assoc in Hu |- *.
  pose proof (all_frames_app _ (buf ++ c) (concat cs) (Nat.le_refl _) Hu) as Happ.
  destruct (all_frames (buf ++ c)) as [[fs rest] [r|]]; [exists (concat cs); split; [by exists c|done]|]. destruct Happ as (Hr & Hs & ->).
  apply Forall_app in Hu as [_ Hcs]. specialize (IH rest ltac:(by apply Forall_app) Hs).
  destruct (feed rest cs) as [[fs' rest'] [r|]].
  - destruct IH as (unread & [k Hk] & ->). exists unread. split; [|done]. exists (c ++ k). by rewrite Hk, app_assoc.
  - by rewrite IH.
Qed.

(** ** Frames and the encoder *)

Lemma length_octets_field n : 0 <= n <= 65535 -> length_field (length_octets n) n.
Proof.
  intros Hn. destruct (Z.ltb_spec n 128).
  - rewrite length_octets_short by lia. left. split; [done|lia].
  - destruct (length_octets_long n) as (k & Hk & -> & Hb); [unfold USIZE_MAX, U64_MAX; lia|].
    right. exists (to_be_bytes k n). rewrite len_to_be_bytes, from_to_be_bytes_id by lia.
    split_and!; [done|done|apply to_be_bytes_u8|lia|].
    apply Z.nlt_ge. intros Hk4. pose proof (Z.pow_le_mono_r 256 4 (Z.of_nat k - 1) ltac:(lia) ltac:(lia)). lia.
Qed.

Lemma seq_tlv_frame content : len (seq_tlv content) <= MAX_FRAME_SIZE -> is_frame (seq_tlv content).
Proof.
  intros Hl. exists (length_octets (len content)), content. split; [done|]. split; [|done].
  apply length_octets_field. pose proof (len_tlv_content _ _ _ Hl). pose proof (len_nonneg content).
  unfold MAX_FRAME_SIZE in *. lia.
Qed.

Lemma all_frames_concat fs rest :
  Forall is_frame fs -> Forall is_u8 (concat fs ++ rest) ->
  all_frames (concat fs ++ rest) = let '(fs', r, e) := all_frames rest in (fs ++ fs', r, e).
Proof.
  induction 1 as [|f fs Hf _ IH]; cbn [concat app]; intros Hu; [by destruct (all_frames rest) as [[? ?] ?]|].
  rewrite <-app_assoc in *. pose proof (next_complete_frame_frame f (concat fs ++ rest) Hf) as E.
  rewrite (all_frames_complete _ _ _ Hu E). apply Forall_app in Hu as [_ Hu]. rewrite (IH Hu).
  by destruct (all_frames rest) as [[? ?] ?].
Qed.

(** A frame is exactly one SEQUENCE for the BER reader. *)
Lemma frame_reads_as_sequence f :
  is_frame f -> Forall is_u8 f ->
  exists sub r, read_sequence (reader_new f) = Ok (sub, r) /\ rest r = [].
Proof.
  intros (hdr & content & -> & Hf & Hmax) Hu. pose proof (length_field_bounds _ _ Hf) as Hb.
  pose proof (len_nonneg content). set (f := 0x30 :: hdr ++ content) in *.
  assert (Hr : reader_ok (reader_new f)) by (apply reader_new_ok; unfold MAX_FRAME_SIZE, ISIZE_MAX in *; lia).
  assert (Er : rest (reader_new f) = 0x30 :: hdr ++ content) by apply rest_reader_new.
  unfold read_sequence, read_constructed, read_tlv. rewrite (read_tag_rest _ _ _ Hr Er).
  destruct (rest_advance_1 _ _ _ Hr Er) as [Hr1 E1].
  assert (Hlen : read_length (advance (reader_new f) 1) = Ok (len content, advance (advance (reader_new f) 1) (len hdr))).
  { unfold read_length. destruct Hf as [[-> Hn]|(bs & -> & Hn & Hbs & Hl)]; cbn [app] in E1.
    - rewrite (get_rest _ _ _ Hr1 E1). cbn [ok_or]. rewrite land_0x80_u8 by zrange. by btrue (len content <? 128).
    - rewrite (get_rest _ _ _ Hr1 E1). cbn [ok_or]. rewrite land_0x80_u8 by zrange. bfalse (128 + len bs <? 128).
      unfold read_long_form_length. bfalse (128 + len bs =? 0xFF). rewrite land_0x7F.
      replace ((128 + len bs) mod 128) with (len bs) by (apply (Z.mod_unique _ 128 1); lia). cbv zeta.
      bfalse (len bs =? 0). bfalse (8 <? len bs). destruct (rest_advance_1 _ _ _ Hr1 E1) as [Hr2 E2].
      rewrite (get_range_rest _ _ _ Hr2 E2). cbn [ok_or].
      rewrite accumulate_length_no_overflow by (try done; lia). rewrite len_cons, !advance_advance, <-Hn.
      f_equal. }
  rewrite Hlen. pose proof (rest_advance _ _ _ Hr1 E1) as E2. pose proof (reader_ok_advance _ _ _ Hr1 E1) as Hr2.
  rewrite <-(app_nil_r content) in E2.
  set (r2 := advance (advance (reader_new f) 1) (len hdr)) in *.
  unfold usize_checked_add. assert (Hp : position r2 = 1 + len hdr) by done.
  btrue (position r2 + len content <=? USIZE_MAX). cbn [mbind option_bind]. rewrite (get_range_rest _ _ _ Hr2 E2).
  cbn [ok_or]. rewrite Z.eqb_refl. cbn [negb]. eexists _, _. split; [done|]. by rewrite (rest_advance _ _ _ Hr2 E2).
Qed.

(** ** Properties *)

(** Claim C23: framing does not depend on how the stream is cut into reads.  Feeding
    any chunks one after another, taking the complete frames off after each, yields
    exactly the frames and the verdict of taking the frames of the whole stream at once.
    If the stream is not broken, the same octets are still waiting; if it is, the octets
    left in the buffer differ only by what had not been read when the break was found:
    the whole stream leaves those octets followed by an unread end of the chunks. *)
Theorem framing_independent_of_chunks (chunks : list bytes) :
  Forall is_u8 (concat chunks) ->
  match feed [] chunks with
  | (fs, rest, Some r) => exists unread, suffix unread (concat chunks) /\ all_frames (concat chunks) = (fs, rest ++ unread, Some r)
  | (fs, rest, None) => all_frames (concat chunks) = (fs, rest, None)
  end.
Proof. intros Hu. exact (feed_frames chunks [] Hu eq_refl). Qed.

Lemma framing_independent_of_chunks_witness :
  feed [] [[0x30; 3; 1]; [2; 3; 0x30]; []; [0x81; 1; 7; 0x31]; [0x32]] = ([[0x30; 3; 1; 2; 3]; [0x30; 0x81; 1; 7]], [0x31], Some NonSequenceTag) /\
  exists unread, suffix unread [0x30; 3; 1; 2; 3; 0x30; 0x81; 1; 7; 0x31; 0x32] /\
    all_frames [0x30; 3; 1; 2; 3; 0x30; 0x81; 1; 7; 0x31; 0x32]
    = ([[0x30; 3; 1; 2; 3]; [0x30; 0x81; 1; 7]], [0x31] ++ unread, Some NonSequenceTag).
Proof.
  split; [vm_compute; reflexivity|].
  apply (framing_independent_of_chunks [[0x30; 3; 1]; [2; 3; 0x30]; []; [0x81; 1; 7; 0x31]; [0x32]]).
  refine (bool_decide_unpack _ _). vm_compute. exact I.
Defined.

(** Claim C24: messages back to back on a stream are recovered one by one: a stream of
    encoded messages of at most 65535 octets each, followed by the beginning of the
    next one, is cut exactly into those messages; and whatever octets arrive, every
    frame handed to the dispatcher is at most 65535 octets and is, for the BER
    reader, one SEQUENCE with nothing behind it. *)
Theorem framing_recovers_messages (contents : list bytes) (partial stream f more : bytes) :
  Forall is_u8 (concat (seq_tlv <$> contents) ++ partial) ->
  Forall (fun c => len (seq_tlv c) <= MAX_FRAME_SIZE) contents ->
  next_complete_frame partial = (Incomplete, partial) ->
  Forall is_u8 stream -> next_complete_frame stream = (Complete f, more) ->
  all_frames (concat (seq_tlv <$> contents) ++ partial) = (seq_tlv <$> contents, partial, None) /\
  stream = f ++ more /\ len f <= MAX_FRAME_SIZE /\
  exists sub r, read_sequence (reader_new f) = Ok (sub, r) /\ rest r = [].
Proof.
  intros Hu Hc Hp Hus Hn. split.
  - rewrite all_frames_concat; [|apply Forall_fmap; eapply Forall_impl; [exact Hc|intros; by apply seq_tlv_frame]|done].
    rewrite (all_frames_stop _ _ _ Hp) by done. by rewrite app_nil_r.
  - destruct (next_complete_frame_sound _ _ _ Hus Hn) as [-> Hf]. apply Forall_app in Hus as [Hus _].
    split; [done|]. split; [|by apply frame_reads_as_sequence]. by destruct Hf as (? & ? & ? & ? & ?).
Qed.

Lemma framing_recovers_messages_witness :
  all_frames ([0x30; 2; 5; 0] ++ [0x30; 0] ++ [0x30; 0x82; 1]) = ([[0x30; 2; 5; 0]; [0x30; 0]], [0x30; 0x82; 1], None).
Proof.
  refine (proj1 (framing_recovers_messages [[5; 0]; []] [0x30; 0x82; 1] [0x30; 0; 7] [0x30; 0] [7] _ _ _ _ _));
    [refine (bool_decide_unpack _ _); vm_compute; exact I|refine (bool_decide_unpack _ _); vm_compute; exact I|reflexivity
    |refine (bool_decide_unpack _ _); vm_compute; exact I|vm_compute; reflexivity].
Defined.
