(* ===== verification/EventLoop.v ===== *)
(** * The event loop: [src/src/transport/event_loop.rs]

    The single-threaded loop that owns the connections, the MIB and the USM counters.
    mio, the sockets and the clock are the environment: a readiness event carries the
    results of the calls its handler makes (accepts, reads, writes, clock readings,
    the commands waiting in the channel), so a run of the loop is a function of the
    sequence of event batches; an exhausted list of results stands for [WouldBlock]
    (or an empty channel).  [privacy_salt] is the process-wide salt counter of
    the encoder, kept here because the loop is where responses are encoded. *)

From stdpp Require Import gmap.
From S2P Require Import Prelude Oid Ber BerFacts Usm Types Varbind BerPdu Snmp Codec Mib Request Dispatch Framing.

Definition LISTENER_TOKEN : Z := 0.
Definition WAKER_TOKEN : Z := 1.
Definition FIRST_CONN_TOKEN : Z := 2.

Definition DEFAULT_MAX_CONNECTIONS : Z := 64.
Definition NORMAL_IDLE_TIMEOUT : Z := 5 * 60 * 1000.
Definition PRESSURE_IDLE_TIMEOUT : Z := 30 * 1000.
Definition PRESSURE_HEADROOM : Z := 5.

Inductive EventLoopError :=
| Bind (addr : SocketAddr) (source : IoError)
| Waker (e : IoError)
| Registration (e : IoError)
| SecurityLevelRequiresUser.

Inductive Command :=
| SetValue (oid : Oid) (value : Value)
| Shutdown.

(** Durations and instants are in milliseconds. *)
Record ConnectionTimeoutConfig := MkConnectionTimeoutConfig {
  normal_timeout : Z; pressure_timeout : Z; pressure_headroom : Z }.

Definition ConnectionTimeoutConfig_default : ConnectionTimeoutConfig :=
  {| normal_timeout := NORMAL_IDLE_TIMEOUT; pressure_timeout := PRESSURE_IDLE_TIMEOUT;
     pressure_headroom := PRESSURE_HEADROOM |}.

Record ConnectionState := MkConnectionState { read_buf : bytes; last_activity : Z }.

Record EventLoop := MkEventLoop {
  next_token : Z;
  connections : gmap Z ConnectionState;
  max_connections : Z;
  timeout_config : ConnectionTimeoutConfig;
  store : Store;
  el_engine_id : EngineId;
  el_engine_boots : EngineBoots;
  engine_start : Z;
  el_unknown_engine_ids : UsmStatsCounter;
  el_unknown_user_names : UsmStatsCounter;
  el_unsupported_sec_levels : UsmStatsCounter;
  el_wrong_digests : UsmStatsCounter;
  el_not_in_time_windows : UsmStatsCounter;
  el_decryption_errors : UsmStatsCounter;
  el_unknown_security_models : UsmStatsCounter;
  el_usm_user : option UsmUser;
  el_minimum_security_level : SecurityLevel;
  privacy_salt : SaltState;
}.

(** Field updates. *)
Definition set_connections (el : EventLoop) (c : gmap Z ConnectionState) : EventLoop :=
  {| next_token := next_token el; connections := c; max_connections := max_connections el;
     timeout_config := timeout_config el; store := store el; el_engine_id := el_engine_id el;
     el_engine_boots := el_engine_boots el; engine_start := engine_start el;
     el_unknown_engine_ids := el_unknown_engine_ids el; el_unknown_user_names := el_unknown_user_names el;
     el_unsupported_sec_levels := el_unsupported_sec_levels el; el_wrong_digests := el_wrong_digests el;
     el_not_in_time_windows := el_not_in_time_windows el; el_decryption_errors := el_decryption_errors el;
     el_unknown_security_models := el_unknown_security_models el; el_usm_user := el_usm_user el;
     el_minimum_security_level := el_minimum_security_level el; privacy_salt := privacy_salt el |}.

Definition set_next_token (el : EventLoop) (t : Z) : EventLoop :=
  {| next_token := t; connections := connections el; max_connections := max_connections el;
     timeout_config := timeout_config el; store := store el; el_engine_id := el_engine_id el;
     el_engine_boots := el_engine_boots el; engine_start := engine_start el;
     el_unknown_engine_ids := el_unknown_engine_ids el; el_unknown_user_names := el_unknown_user_names el;
     el_unsupported_sec_levels := el_unsupported_sec_levels el; el_wrong_digests := el_wrong_digests el;
     el_not_in_time_windows := el_not_in_time_windows el; el_decryption_errors := el_decryption_errors el;
     el_unknown_security_models := el_unknown_security_models el; el_usm_user := el_usm_user el;
     el_minimum_security_level := el_minimum_security_level el; privacy_salt := privacy_salt el |}.

Definition set_store (el : EventLoop) (s : Store) : EventLoop :=
  {| next_token := next_token el; connections := connections el; max_connections := max_connections el;
     timeout_config := timeout_config el; store := s; el_engine_id := el_engine_id el;
     el_engine_boots := el_engine_boots el; engine_start := engine_start el;
     el_unknown_engine_ids := el_unknown_engine_ids el; el_unknown_user_names := el_unknown_user_names el;
     el_unsupported_sec_levels := el_unsupported_sec_levels el; el_wrong_digests := el_wrong_digests el;
     el_not_in_time_windows := el_not_in_time_windows el; el_decryption_errors := el_decryption_errors el;
     el_unknown_security_models := el_unknown_security_models el; el_usm_user := el_usm_user el;
     el_minimum_security_level := el_minimum_security_level el; privacy_salt := privacy_salt el |}.

(** The [DispatchInputs] built for a frame, and the loop after the dispatcher has
    written through its [&mut] counters. *)
Definition dispatch_inputs (el : EventLoop) (boots : EngineBoots) (time : EngineTime) : DispatchInputs :=
  {| engine_id := engine_id_bytes (el_engine_id el); engine_boots := boots; engine_time := time;
     unknown_engine_ids_counter := el_unknown_engine_ids el; unknown_user_names_counter := el_unknown_user_names el;
     unsupported_sec_levels_counter := el_unsupported_sec_levels el; wrong_digests_counter := el_wrong_digests el;
     not_in_time_windows_counter := el_not_in_time_windows el; decryption_errors_counter := el_decryption_errors el;
     unknown_security_models_counter := el_unknown_security_models el; usm_user := el_usm_user el;
     minimum_security_level := el_minimum_security_level el |}.

Definition write_back (el : EventLoop) (i : DispatchInputs) (salt : SaltState) : EventLoop :=
  {| next_token := next_token el; connections := connections el; max_connections := max_connections el;
     timeout_config := timeout_config el; store := store el; el_engine_id := el_engine_id el;
     el_engine_boots := el_engine_boots el; engine_start := engine_start el;
     el_unknown_engine_ids := unknown_engine_ids_counter i; el_unknown_user_names := unknown_user_names_counter i;
     el_unsupported_sec_levels := unsupported_sec_levels_counter i; el_wrong_digests := wrong_digests_counter i;
     el_not_in_time_windows := not_in_time_windows_counter i; el_decryption_errors := decryption_errors_counter i;
     el_unknown_security_models := unknown_security_models_counter i; el_usm_user := el_usm_user el;
     el_minimum_security_level := el_minimum_security_level el; privacy_salt := salt |}.

(** ** What the environment answers *)

Inductive AcceptResult :=
| AcceptOk (registered : bool) (now : Z)
| AcceptWouldBlock
| AcceptError.

Inductive ReadResult :=
| ReadOk (received : bytes) (now : Z) (* [Ok(bytes_read)]; empty is [Ok(0)] *)
| ReadWouldBlock
| ReadError.

Record Event := MkEvent {
  ev_token : Z;
  ev_now : Z; (* [Instant::now()] in [engine_time_seconds] *)
  ev_accepts : list AcceptResult;
  ev_commands : list Command; ev_disconnected : bool;
  ev_reads : list ReadResult;
  ev_writes : list bool; (* does the k-th [write_all] succeed *)
}.

(** ** Construction *)

(** What the operating system answers. *)
Record SetupOutcome := MkSetupOutcome {
  poll_new : result unit IoError; bind : result unit IoError; listener_addr : result SocketAddr IoError;
  register : result unit IoError; waker_new : result unit IoError }.

Definition setup_granted (addr : SocketAddr) : SetupOutcome := MkSetupOutcome (Ok tt) (Ok tt) (Ok addr) (Ok tt) (Ok tt).

(** [EventLoop::new], with the address the listener is bound to. *)
Definition event_loop_new (env : SetupOutcome) (addr : SocketAddr) (now : Z) (salt : SaltState) (eid : EngineId) (boots : EngineBoots)
    (user : option UsmUser) (minimum : SecurityLevel) (max : Z) (config : ConnectionTimeoutConfig)
    : result (EventLoop * SocketAddr) EventLoopError :=
  if security_level_requires_user user minimum then Err SecurityLevelRequiresUser
  else
    let? _ := map_err Registration (poll_new env) in
    let? _ := map_err (Bind addr) (bind env) in
    let? bound_addr := map_err (Bind addr) (listener_addr env) in
    let? _ := map_err Registration (register env) in
    let? _ := map_err Waker (waker_new env) in
    Ok ({| next_token := FIRST_CONN_TOKEN; connections := ∅; max_connections := max; timeout_config := config;
             store := store_new; el_engine_id := eid; el_engine_boots := boots; engine_start := now;
             el_unknown_engine_ids := 0; el_unknown_user_names := 0; el_unsupported_sec_levels := 0;
             el_wrong_digests := 0; el_not_in_time_windows := 0; el_decryption_errors := 0;
             el_unknown_security_models := 0; el_usm_user := user; el_minimum_security_level := minimum;
             privacy_salt := salt |}, bound_addr).

Definition engine_time_seconds (el : EventLoop) (now : Z) : EngineTime :=
  Z.min (Z.max 0 (now - engine_start el) / 1000) U32_MAX.

(** ** Accepting *)

(** [len()] of the connection table. *)
Definition connection_count (el : EventLoop) : Z := Z.of_nat (size (connections el)).

(** The [loop] of [next_connection_token]; the fuel is enough whenever the table has
    fewer entries ([next_connection_token_fresh]). *)
Fixpoint next_connection_token_loop (fuel : nat) (el : EventLoop) : option (Z * EventLoop) :=
  match fuel with
  | O => None
  | S f =>
      let candidate := next_token el in
      let next := (next_token el + 1) mod 18446744073709551616 in
      let el := set_next_token el (if next <? FIRST_CONN_TOKEN then FIRST_CONN_TOKEN else next) in
      if (FIRST_CONN_TOKEN <=? candidate) && bool_decide (connections el !! candidate = None)
      then Some (candidate, el)
      else next_connection_token_loop f el
  end.

Definition next_connection_token (el : EventLoop) : option (Z * EventLoop) :=
  next_connection_token_loop (S (S (size (connections el)))) el.

Definition register_and_insert_connection (el : EventLoop) (registered : bool) (now : Z) : EventLoop :=
  match next_connection_token el with
  | None => el
  | Some (token, el) =>
      if negb registered then el
      else set_connections el (<[token := {| read_buf := []; last_activity := now |}]> (connections el))
  end.

Fixpoint accept_connections (el : EventLoop) (accepts : list AcceptResult) : EventLoop :=
  if max_connections el <=? connection_count el then el
  else
    match accepts with
    | [] | AcceptWouldBlock :: _ | AcceptError :: _ => el
    | AcceptOk registered now :: rest => accept_connections (register_and_insert_connection el registered now) rest
    end.

(** ** Commands *)

(** Returns whether to shut down, and the loop. *)
Fixpoint drain_commands (el : EventLoop) (rx : list Command) (disconnected : bool) : bool * EventLoop :=
  match rx with
  | [] => (disconnected, el)
  | SetValue oid value :: rest => drain_commands (set_store el (store_set (store el) oid value)) rest disconnected
  | Shutdown :: _ => (true, el)
  end.

(** ** Connection events *)

Fixpoint drain_reads (conn : ConnectionState) (reads : list ReadResult) : bool * ConnectionState :=
  match reads with
  | [] | ReadWouldBlock :: _ => (false, conn)
  | ReadError :: _ => (true, conn)
  | ReadOk received now :: rest =>
      if is_nil received then (true, conn)
      else drain_reads {| read_buf := read_buf conn ++ received; last_activity := now |} rest
  end.

Definition drain_connection_read_buffer (el : EventLoop) (token : Z) (reads : list ReadResult) : bool * EventLoop :=
  match connections el !! token with
  | None => (false, el)
  | Some conn =>
      let '(closed, conn) := drain_reads conn reads in
      (closed, set_connections el (<[token := conn]> (connections el)))
  end.

Definition set_read_buf (el : EventLoop) (token : Z) (conn : ConnectionState) (buf : bytes) : EventLoop :=
  set_connections el (<[token := {| read_buf := buf; last_activity := last_activity conn |}]> (connections el)).

Definition close_and_deregister_connection (el : EventLoop) (token : Z) : EventLoop :=
  set_connections el (delete token (connections el)).

Section Loop.
  Context `{CryptoOps} (seed : Z).

Definition dispatch_snmpv3_frame (salt : SaltState) (ber_frame : bytes) (ctx : DispatchContext) (mib : Store)
    : option bytes * DispatchContext * SaltState :=
  process_snmpv3_request seed salt ber_frame ctx mib.

(** The [loop] of [dispatch_buffered_frames]: whether to close, and the responses
    written.  Each iteration that continues takes a frame off the buffer, so
    [S (length read_buf)] iterations are enough. *)
Fixpoint dispatch_loop (fuel : nat) (el : EventLoop) (token : Z) (boots : EngineBoots) (time : EngineTime)
    (writes : list bool) : bool * list bytes * EventLoop :=
  match fuel with
  | O => (false, [], el)
  | S f =>
      match connections el !! token with
      | None => (false, [], el)
      | Some conn =>
          match next_complete_frame (read_buf conn) with
          | (Incomplete, buf) => (false, [], set_read_buf el token conn buf)
          | (Close _, buf) => (true, [], set_read_buf el token conn buf)
          | (Complete ber_frame, buf) =>
              let el := set_read_buf el token conn buf in
              let '(resp, ctx, salt) :=
                dispatch_snmpv3_frame (privacy_salt el) ber_frame
                  (context_new_unchecked (dispatch_inputs el boots time)) (store el) in
              let el := write_back el (inputs ctx) salt in
              match resp with
              | None => dispatch_loop f el token boots time writes
              | Some encoded_response =>
                  match connections el !! token with
                  | None => (false, [], el)
                  | Some _ =>
                      if default true (head writes) then
                        let '(closed, out, el) := dispatch_loop f el token boots time (tail writes) in
                        (closed, encoded_response :: out, el)
                      else (true, [], el)
                  end
              end
          end
      end
  end.

Definition dispatch_buffered_frames (el : EventLoop) (token : Z) (boots : EngineBoots) (time : EngineTime)
    (writes : list bool) : bool * list bytes * EventLoop :=
  let buffered := match connections el !! token with Some conn => length (read_buf conn) | None => O end in
  dispatch_loop (S buffered) el token boots time writes.

Definition handle_connection_event (el : EventLoop) (token now : Z) (reads : list ReadResult) (writes : list bool)
    : list bytes * EventLoop :=
  let boots := el_engine_boots el in
  let time := engine_time_seconds el now in
  let '(closed_during_drain, el) := drain_connection_read_buffer el token reads in
  let '(closed_during_dispatch, out, el) := dispatch_buffered_frames el token boots time writes in
  (out, if closed_during_drain || closed_during_dispatch then close_and_deregister_connection el token else el).

(** One event of a batch: whether to shut down, the responses written, the loop. *)
Definition handle_event (el : EventLoop) (ev : Event) : bool * list (Z * bytes) * EventLoop :=
  if ev_token ev =? LISTENER_TOKEN then (false, [], accept_connections el (ev_accepts ev))
  else if ev_token ev =? WAKER_TOKEN then
    let '(stop, el) := drain_commands el (ev_commands ev) (ev_disconnected ev) in (stop, [], el)
  else
    let '(out, el) := handle_connection_event el (ev_token ev) (ev_now ev) (ev_reads ev) (ev_writes ev) in
    (false, pair (ev_token ev) <$> out, el).

End Loop.

(** ** The idle sweep *)

Definition idle_timeout (el : EventLoop) : Z :=
  let under_pressure :=
    max_connections el <=? (connection_count el + pressure_headroom (timeout_config el)) mod 18446744073709551616 in
  if under_pressure then pressure_timeout (timeout_config el) else normal_timeout (timeout_config el).

Definition is_stale (el : EventLoop) (now : Z) (conn : ConnectionState) : bool :=
  idle_timeout el <=? Z.max 0 (now - last_activity conn).

Definition sweep_idle_connections (el : EventLoop) (now : Z) : EventLoop :=
  let stale_tokens := (map_to_list (filter (fun '(_, conn) => is_stale el now conn = true) (connections el))).*1 in
  set_connections el (foldr delete (connections el) stale_tokens).

(** ** The loop *)

Section Run.
  Context `{CryptoOps} (seed : Z).

(** The events of one batch, until one asks to shut down. *)
Fixpoint handle_events (el : EventLoop) (events : list Event) : bool * list (Z * bytes) * EventLoop :=
  match events with
  | [] => (false, [], el)
  | ev :: rest =>
      let '(stop, out, el) := handle_event seed el ev in
      if stop then (true, out, el)
      else let '(stop, out', el) := handle_events el rest in (stop, out ++ out', el)
  end.

(** What [poll] returns: the events and the clock at the sweep that follows, or an error. *)
Inductive PollResult := PollOk (events : list Event) (now : Z) | PollError.

(** [run] over the results of successive polls: [None] while the loop is still
    running when they are exhausted. *)
Fixpoint run (el : EventLoop) (polls : list PollResult) : option (result unit unit) * list (Z * bytes) * EventLoop :=
  match polls with
  | [] => (None, [], el)
  | PollError :: _ => (Some (Err tt), [], el)
  | PollOk events now :: rest =>
      let '(stop, out, el) := handle_events el events in
      if stop then (Some (Ok tt), out, el)
      else let '(r, out', el) := run (sweep_idle_connections el now) rest in (r, out ++ out', el)
  end.

End Run.
