(* ===== verification/LoopFacts.v ===== *)
(** * Properties of the event loop

    Token allocation terminates and is fresh; the loop's invariant (bounded tables
    and buffers, reserved tokens, valid store and counters) is preserved by every
    event, in any order; connections do not influence each other; the frames of a
    connection are served in order; commands are applied in order; the sweep removes
    exactly the stale connections. *)

From stdpp Require Import gmap.
From S2P Require Import Prelude Oid Ber BerFacts Usm Types Varbind BerPdu Snmp Codec Mib Request Dispatch Framing EventLoop.

(** ** Tokens *)

(** The number of usable tokens. *)
Definition TOKENS : Z := 18446744073709551614.

Definition token_ok (t : Z) : Prop := FIRST_CONN_TOKEN <= t <= USIZE_MAX.

(** The [k]-th candidate after [t], wrapping from [usize::MAX] to the first token. *)
Definition nth_token (t : Z) (k : nat) : Z := 2 + (t - 2 + Z.of_nat k) mod TOKENS.

Lemma nth_token_ok t k : token_ok (nth_token t k).
Proof.
  unfold token_ok, nth_token, FIRST_CONN_TOKEN, USIZE_MAX, U64_MAX.
  pose proof (Z.mod_pos_bound (t - 2 + Z.of_nat k) TOKENS ltac:(done)). unfold TOKENS in *. lia.
Qed.

Lemma nth_token_0 t : token_ok t -> nth_token t 0 = t.
Proof. unfold token_ok, nth_token, FIRST_CONN_TOKEN, USIZE_MAX, U64_MAX, TOKENS. intros. rewrite Z.mod_small; lia. Qed.

Lemma nth_token_inj t j k :
  Z.of_nat j < TOKENS -> Z.of_nat k < TOKENS -> nth_token t j = nth_token t k -> j = k.
Proof.
  unfold nth_token, TOKENS. intros Hj Hk E. assert (E' : (t - 2 + Z.of_nat j) mod 18446744073709551614 = (t - 2 + Z.of_nat k) mod 18446744073709551614) by lia.
  clear E. Z.div_mod_to_equations. nia.
Qed.

Definition advance_token (t : Z) : Z :=
  let next := (t + 1) mod 18446744073709551616 in if next <? FIRST_CONN_TOKEN then FIRST_CONN_TOKEN else next.

Lemma advance_token_nth t k : token_ok t -> nth_token (advance_token t) k = nth_token t (S k) /\ token_ok (advance_token t).
Proof.
  unfold token_ok, advance_token, nth_token, FIRST_CONN_TOKEN, USIZE_MAX, U64_MAX, TOKENS. intros Ht.
  destruct (decide (t = 18446744073709551615)) as [->|].
  - change ((18446744073709551615 + 1) mod 18446744073709551616) with 0. cbn [Z.ltb Z.compare]. split; [|lia].
    replace (18446744073709551615 - 2 + Z.of_nat (S k)) with (2 - 2 + Z.of_nat k + 1 * 18446744073709551614) by lia.
    by rewrite Z.mod_add.
  - rewrite (Z.mod_small (t + 1)) by lia. bfalse (t + 1 <? 2). split; [|lia]. do 2 f_equal. lia.
Qed.

(** The loop finds the first free candidate. *)
Lemma token_loop_spec n : forall el, token_ok (next_token el) ->
  (exists k, (k < n)%nat /\ connections el !! nth_token (next_token el) k = None /\
     exists t', token_ok t' /\
       next_connection_token_loop n el = Some (nth_token (next_token el) k, set_next_token el t')) \/
  (forall k, (k < n)%nat -> connections el !! nth_token (next_token el) k <> None).
Proof.
  induction n as [|n IH]; intros el Ht; [right; intros; lia|]. cbn [next_connection_token_loop].
  fold (advance_token (next_token el)). destruct (advance_token_nth (next_token el) 0 Ht) as [_ Ha].
  pose proof (proj1 Ht). btrue (FIRST_CONN_TOKEN <=? next_token el). cbn [andb connections set_next_token].
  case_bool_decide as Hc.
  - left. exists 0%nat. rewrite nth_token_0 by done. split_and!; [lia|done|]. by exists (advance_token (next_token el)).
  - destruct (IH (set_next_token el (advance_token (next_token el))) Ha) as [(k & Hk & Hn & t' & Ht' & E)|Hall];
      cbn [next_token set_next_token connections] in *.
    + left. exists (S k). rewrite (proj1 (advance_token_nth _ k Ht)) in *. split_and!; [lia|done|]. by exists t'.
    + right. intros [|k] Hk; [by rewrite nth_token_0|]. rewrite <-(proj1 (advance_token_nth _ k Ht)). apply Hall. lia.
Qed.

Lemma tokens_pigeonhole (m : gmap Z ConnectionState) t n :
  Z.of_nat n <= TOKENS -> (forall k, (k < n)%nat -> m !! nth_token t k <> None) -> (n <= size m)%nat.
Proof.
  intros Hn Hall. set (l := nth_token t <$> seq 0 n).
  assert (Hnd : NoDup l).
  { apply NoDup_fmap_2_strong; [|apply NoDup_seq]. intros j k Hj%elem_of_seq Hk%elem_of_seq E.
    eapply nth_token_inj; [| |exact E]; lia. }
  assert (Hsub : list_to_set l ⊆ dom m).
  { intros x [k [-> Hk%elem_of_seq]]%elem_of_list_to_set%list_elem_of_fmap. apply elem_of_dom.
    destruct (m !! nth_token t k) eqn:E; [by eexists|]. exfalso. apply (Hall k); [lia|done]. }
  apply subseteq_size in Hsub. rewrite size_list_to_set, size_dom in Hsub by done.
  unfold l in Hsub. by rewrite length_fmap, length_seq in Hsub.
Qed.

Lemma next_connection_token_spec el :
  token_ok (next_token el) -> connection_count el + 2 <= TOKENS ->
  exists token t', next_connection_token el = Some (token, set_next_token el t') /\
    token_ok token /\ connections el !! token = None /\ token_ok t'.
Proof.
  intros Ht Hc. unfold connection_count in Hc.
  destruct (token_loop_spec (S (S (size (connections el)))) el Ht) as [(k & _ & Hn & t' & Ht' & E)|Hall].
  - exists (nth_token (next_token el) k), t'. split_and!; [done|apply nth_token_ok|done|done].
  - apply tokens_pigeonhole in Hall; lia.
Qed.

(** ** What serving a frame changes *)

Definition counters_ok (i : DispatchInputs) : Prop := forall c, is_u32 (select_counter c i).

Lemma counted_effect c ctx ctx' :
  counted c ctx ctx' -> same_config (inputs ctx) (inputs ctx') /\ (counters_ok (inputs ctx) -> counters_ok (inputs ctx')).
Proof.
  intros (Hs & Ho & Hcfg). split; [done|]. intros Hc c'. specialize (Hc c').
  destruct (decide (c' = c)) as [->|Hne]; [rewrite Hs|by rewrite Ho]. unfold is_u32, U32_MAX in *. lia.
Qed.

Section Effects.
  Context `{CryptoOps}.

Lemma encode_v3_envelope_salt seed st mid e u cn b t auth privacy raw r st' :
  salt_state_ok st -> encode_v3_envelope seed st mid e u cn b t auth privacy raw = (r, st') -> salt_state_ok st'.
Proof.
  intros Hst. unfold encode_v3_envelope, protect_scoped_pdu, next_privacy_salt.
  destruct (i32_try_from b), (i32_try_from t), auth as [[]|], privacy as [[]|]; intros E;
    apply (f_equal snd) in E; cbn [snd] in E; subst st'; try done; cbn; apply Z.mod_pos_bound; lia.
Qed.

Lemma process_effect seed salt frame ctx mib resp ctx' salt' :
  salt_state_ok salt -> process_snmpv3_request seed salt frame ctx mib = (resp, ctx', salt') ->
  same_config (inputs ctx) (inputs ctx') /\ (counters_ok (inputs ctx) -> counters_ok (inputs ctx')) /\ salt_state_ok salt'.
Proof.
  intros Hst HE. unfold process_snmpv3_request, run_validation_pipeline in HE.
  destruct (decode_v3_message frame) as [m|]; [|by injection HE as <- <- <-].
  pose proof (validate_outcome m ctx) as Ho. destruct (validate m ctx) as [[[pdu cn]|r] ctx1].
  - inversion Ho; subst. unfold dispatch_pdu_and_encode_response in HE.
    destruct (encode_v3_response _ _ _ _ _ _ _ _ _ _ _) as [b st1] eqn:Eb. injection HE as _ <- <-. split_and!; try done.
    unfold encode_v3_response in Eb. destruct (encode_varbinds _) as [vbs|]; [|by injection Eb as _ <-].
    destruct (i32_try_from _) as [ix|]; [|by injection Eb as _ <-]. cbn [ok_or] in Eb.
    destruct (map_err _ _) as [raw|]; [|by injection Eb as _ <-]. by eapply encode_v3_envelope_salt.
  - injection HE as _ <- <-. inversion Ho as [|oc r' ctx2 _ Hk]; subst.
    destruct oc as [c|]; [destruct Hk as [Hk _]|by destruct Hk as [_ ->]]. by destruct (counted_effect _ _ _ Hk).
Qed.

End Effects.

(** ** Rearranging updates *)

Lemma dispatch_inputs_write_back el i salt boots time :
  same_config (dispatch_inputs el boots time) i -> dispatch_inputs (write_back el i salt) boots time = i.
Proof. intros (H1 & H2 & H3 & H4 & H5). destruct i. cbn in *. unfold dispatch_inputs, write_back. cbn. congruence. Qed.

Lemma dispatch_inputs_clock el el' b t b' t' :
  dispatch_inputs el' b t = dispatch_inputs el b t -> dispatch_inputs el' b' t' = dispatch_inputs el b' t'.
Proof. intros E. unfold dispatch_inputs in *. injection E. intros. congruence. Qed.

(** ** Serving the frames of a buffer *)

Section Serve.
  Context `{CryptoOps} (seed : Z).

(** The responses to a sequence of frames, with the counters and the salt threaded. *)
Fixpoint serve (frames : list bytes) (i : DispatchInputs) (salt : SaltState) (mib : Store)
    : list bytes * DispatchInputs * SaltState :=
  match frames with
  | [] => ([], i, salt)
  | f :: fs =>
      let '(resp, ctx, salt) := process_snmpv3_request seed salt f (context_new_unchecked i) mib in
      let '(out, i, salt) := serve fs (inputs ctx) salt mib in
      (match resp with Some r => r :: out | None => out end, i, salt)
  end.

(** [dispatch_buffered_frames] serves exactly the complete frames of the buffer, in
    order, when every write succeeds. *)
Lemma dispatch_loop_serves n : forall el token conn boots time writes,
  connections el !! token = Some conn -> Forall is_u8 (read_buf conn) -> (length (read_buf conn) < n)%nat ->
  salt_state_ok (privacy_salt el) -> Forall (eq true) writes ->
  dispatch_loop seed n el token boots time writes =
    let '(fs, rest, e) := all_frames (read_buf conn) in
    let '(out, i, salt) := serve fs (dispatch_inputs el boots time) (privacy_salt el) (store el) in
    (match e with Some _ => true | None => false end, out, write_back (set_read_buf el token conn rest) i salt).
Proof.
  induction n as [|n IH]; intros el token conn boots time writes Hc Hu Hn Hst Hw; [lia|].
  cbn [dispatch_loop]. rewrite Hc. destruct (next_complete_frame (read_buf conn)) as [[f| |r] rest] eqn:E.
  2, 3: rewrite (all_frames_stop _ _ _ E) by done; cbn [serve]; by destruct el.
  rewrite (all_frames_complete _ _ _ Hu E).
  destruct (next_complete_frame_sound _ _ _ Hu E) as [Eb Hf%is_frame_len].
  rewrite Eb in Hu, Hn. apply Forall_app in Hu as [_ Hu]. rewrite length_app in Hn. unfold len in Hf.
  unfold dispatch_snmpv3_frame. cbn [privacy_salt set_read_buf set_connections store].
  change (dispatch_inputs (set_read_buf el token conn rest) boots time) with (dispatch_inputs el boots time).
  destruct (process_snmpv3_request seed (privacy_salt el) f (context_new_unchecked (dispatch_inputs el boots time)) (store el))
    as [[resp ctx] salt] eqn:Ep.
  destruct (process_effect _ _ _ _ _ _ _ _ Hst Ep) as (Hcfg & _ & Hsalt).
  set (el1 := write_back (set_read_buf el token conn rest) (inputs ctx) salt).
  assert (Hc1 : connections el1 !! token = Some (MkConnectionState rest (last_activity conn)))
    by (cbn; by rewrite lookup_insert_eq).
  assert (Hstep : forall ws, Forall (eq true) ws -> dispatch_loop seed n el1 token boots time ws =
    let '(fs, rest', e) := all_frames rest in
    let '(out, i, salt') := serve fs (inputs ctx) salt (store el) in
    (match e with Some _ => true | None => false end, out, write_back (set_read_buf el token conn rest') i salt')).
  { intros ws Hws. rewrite (IH el1 token _ boots time ws Hc1) by (cbn; done || lia).
    replace (dispatch_inputs el1 boots time) with (inputs ctx) by (symmetry; by apply dispatch_inputs_write_back).
    cbn [read_buf privacy_salt el1 write_back store set_read_buf set_connections].
    destruct (all_frames rest) as [[fs r'] e]. destruct (serve fs (inputs ctx) salt (store el)) as [[out i] salt'].
    f_equal. unfold set_read_buf. cbn. unfold write_back, set_connections. cbn. by rewrite insert_insert_eq. }
  destruct (all_frames rest) as [[fs r'] e] eqn:Ef. cbn [serve]. rewrite Ep.
  destruct (serve fs (inputs ctx) salt (store el)) as [[out i] salt'] eqn:Es.
  destruct resp as [b|]; [|by apply Hstep].
  rewrite Hc1. destruct writes as [|w ws]; cbn [head default tail].
  - by rewrite (Hstep [] ltac:(constructor)).
  - inversion Hw as [|? ? <- Hws]; subst. cbn. by rewrite (Hstep ws Hws).
Qed.

End Serve.

(** ** The invariant *)

(** A connection between two events: its octets are octets, and no complete frame
    and no broken header is waiting in its buffer. *)
Definition conn_ok (c : ConnectionState) : Prop :=
  Forall is_u8 (read_buf c) /\ all_frames (read_buf c) = ([], read_buf c, None).

Record loop_ok (el : EventLoop) : Prop := {
  lo_count : connection_count el <= max_connections el <= ISIZE_MAX;
  lo_conns : map_Forall (fun t c => token_ok t /\ conn_ok c) (connections el);
  lo_next : token_ok (next_token el);
  lo_store : store_wf (store el);
  lo_counters : counters_ok (dispatch_inputs el 0 0);
  lo_salt : salt_state_ok (privacy_salt el);
  lo_level : el_usm_user el = None -> el_minimum_security_level el = NoAuthNoPriv;
}.

(** An incomplete frame is shorter than the largest frame. *)
Lemma incomplete_is_short buf rest :
  Forall is_u8 buf -> next_complete_frame buf = (Incomplete, rest) -> len buf < MAX_FRAME_SIZE.
Proof.
  intros Hu HE. assert (HM : MAX_FRAME_SIZE = 65535) by done. destruct buf as [|t after]; [rewrite len_nil; lia|].
  unfold next_complete_frame in HE.
  destruct (negb (t =? 0x30)); [done|]. apply Forall_cons in Hu as [_ Hu].
  destruct (parse_ber_length after) as [[[n k]|]|] eqn:Ep; [| |done].
  - destruct (parse_ber_length_inv _ _ _ Hu Ep) as (hdr & post & -> & <- & Hf).
    rewrite (total_frame_size_ok _ _ Hf) in HE. destruct (Z.ltb_spec MAX_FRAME_SIZE (1 + len hdr + n)); [done|].
    destruct (get_range _ _ _) as [g|] eqn:Eg; [done|]. unfold get_range in Eg.
    apply length_field_bounds in Hf. destruct (_ && _ && _) eqn:Ea in Eg; [done|].
    rewrite !andb_false_iff, !Z.leb_gt in Ea. lia.
  - destruct after as [|b l]; [rewrite len_cons, len_nil; lia|]. cbn [parse_ber_length] in Ep.
    destruct (_ =? 0); [done|]. destruct ((_ =? 0) || _) eqn:Eo; [done|].
    apply orb_false_iff in Eo as [_ Eo%Z.ltb_ge].
    destruct (get_range l 0 _) eqn:Eg; [done|]. unfold get_range in Eg. destruct (_ && _ && _) eqn:Ea in Eg; [done|].
    pose proof (Z.mod_pos_bound b 128 ltac:(lia)). rewrite <-land_0x7F in *.
    rewrite !andb_false_iff, !Z.leb_gt in Ea. rewrite !len_cons. lia.
Qed.

Lemma settled_incomplete buf : all_frames buf = ([], buf, None) -> next_complete_frame buf = (Incomplete, buf).
Proof.
  unfold all_frames. cbn [take_frames]. destruct (next_complete_frame buf) as [[f| |r] rest] eqn:E; [|intros; congruence|done].
  destruct (take_frames _ _) as [[? ?] ?]. done.
Qed.

Lemma conn_ok_short c : conn_ok c -> len (read_buf c) < MAX_FRAME_SIZE.
Proof. intros [Hu Hs%settled_incomplete]. by eapply incomplete_is_short. Qed.

Section Invariant.
  Context `{CryptoOps} (seed : Z).

(** Whatever the writes do, dispatching replaces this connection's buffer and the
    counters and salt, and nothing else; if the connection stays, it is settled. *)
Lemma dispatch_loop_post n : forall el token conn boots time writes closed out el',
  connections el !! token = Some conn -> Forall is_u8 (read_buf conn) -> (length (read_buf conn) < n)%nat ->
  salt_state_ok (privacy_salt el) -> counters_ok (dispatch_inputs el 0 0) ->
  dispatch_loop seed n el token boots time writes = (closed, out, el') ->
  exists buf i salt, el' = write_back (set_read_buf el token conn buf) i salt /\ counters_ok i /\ salt_state_ok salt /\
    (closed = false -> conn_ok (MkConnectionState buf (last_activity conn))).
Proof.
  induction n as [|n IH]; intros el token conn boots time writes closed out el' Hc Hu Hn Hst Hco HE; [lia|].
  cbn [dispatch_loop] in HE. rewrite Hc in HE.
  destruct (next_complete_frame (read_buf conn)) as [[f| |r] rest] eqn:E.
  2, 3: injection HE as <- <- <-; exists rest, (dispatch_inputs el 0 0), (privacy_salt el); split_and!; [by destruct el|done|done|].
  2: { intros _. pose proof (next_complete_frame_mono (read_buf conn) []) as Hm. rewrite E in Hm. subst rest.
       split; [done|]. cbn [read_buf]. by rewrite (all_frames_stop _ _ _ E). }
  2: done.
  destruct (next_complete_frame_sound _ _ _ Hu E) as [Eb Hf%is_frame_len].
  rewrite Eb in Hu, Hn. apply Forall_app in Hu as [_ Hu]. rewrite length_app in Hn. unfold len in Hf.
  unfold dispatch_snmpv3_frame in HE. cbn [privacy_salt set_read_buf set_connections store] in HE.
  destruct (process_snmpv3_request _ _ _ _ _) as [[resp ctx] salt] eqn:Ep in HE.
  destruct (process_effect _ _ _ _ _ _ _ _ Hst Ep) as (Hcfg & Hk & Hsalt).
  assert (Hk' : counters_ok (inputs ctx)) by (apply Hk; intros c; specialize (Hco c); by destruct c).
  set (el1 := write_back (set_read_buf el token conn rest) (inputs ctx) salt) in *.
  assert (Hc1 : connections el1 !! token = Some (MkConnectionState rest (last_activity conn)))
    by (cbn; by rewrite lookup_insert_eq).
  assert (Hstep : forall ws cl o el2, dispatch_loop seed n el1 token boots time ws = (cl, o, el2) ->
    exists buf i salt', el2 = write_back (set_read_buf el token conn buf) i salt' /\ counters_ok i /\ salt_state_ok salt' /\
      (cl = false -> conn_ok (MkConnectionState buf (last_activity conn)))).
  { intros ws cl o el2 E2. assert (Hco1 : counters_ok (dispatch_inputs el1 0 0)) by (intros c; specialize (Hk' c); by destruct c).
    destruct (IH el1 token _ boots time ws cl o el2 Hc1 Hu ltac:(cbn; lia) Hsalt Hco1 E2) as (buf & i & s' & -> & Hi & Hs' & Hcl).
    exists buf, i, s'. split; [|done]. unfold set_read_buf. cbn. unfold write_back, set_connections. cbn.
    by rewrite insert_insert_eq. }
  destruct resp as [b|]; [|by apply (Hstep writes _ out)]. rewrite Hc1 in HE. destruct (default true (head writes)).
  - destruct (dispatch_loop _ _ _ _ _ _ _) as [[cl o] el2] eqn:E2. injection HE as <- <- <-. by apply (Hstep (tail writes) _ o).
  - injection HE as <- <- <-. exists rest, (inputs ctx), salt. split_and!; done.
Qed.

Lemma drain_reads_u8 reads : forall conn closed conn',
  Forall (fun r => match r with ReadOk b _ => Forall is_u8 b | _ => True end) reads ->
  Forall is_u8 (read_buf conn) -> drain_reads conn reads = (closed, conn') -> Forall is_u8 (read_buf conn').
Proof.
  induction reads as [|[b now| |] reads IH]; intros conn closed conn' Hr Hu HE; cbn in HE; try by injection HE as <- <-.
  apply Forall_cons in Hr as [Hb Hr]. destruct (is_nil b); [by injection HE as <- <-|].
  eapply IH; [done| |exact HE]. by apply Forall_app.
Qed.

(** An event on one connection leaves every other connection alone, and the table is
    what it was except for that connection. *)
Lemma handle_connection_event_post el token now reads writes out el' :
  loop_ok el -> Forall (fun r => match r with ReadOk b _ => Forall is_u8 b | _ => True end) reads ->
  handle_connection_event seed el token now reads writes = (out, el') ->
  loop_ok el' /\ (forall t, t <> token -> connections el' !! t = connections el !! t) /\
  (connections el !! token = None -> connections el' !! token = None) /\ store el' = store el.
Proof.
  intros [Hcnt Hconns Hnext Hstore Hco Hsalt Hlevel] Hr HE.
  unfold handle_connection_event, drain_connection_read_buffer in HE.
  destruct (connections el !! token) as [conn|] eqn:Ec.
  2: { unfold dispatch_buffered_frames in HE. cbn [dispatch_loop] in HE. rewrite Ec in HE. cbn [orb] in HE.
       injection HE as <- <-. split_and!; done. }
  destruct (drain_reads conn reads) as [cd conn1] eqn:Ed.
  destruct (Hconns token conn Ec) as [Htok [Hbuf _]].
  pose proof (drain_reads_u8 _ _ _ _ Hr Hbuf Ed) as Hbuf1.
  set (el1 := set_connections el (<[token:=conn1]> (connections el))) in *.
  assert (Ec1 : connections el1 !! token = Some conn1) by (cbn; by rewrite lookup_insert_eq).
  unfold dispatch_buffered_frames in HE. rewrite Ec1 in HE.
  destruct (dispatch_loop _ _ _ _ _ _ _) as [[cl o] el2] eqn:E2.
  destruct (dispatch_loop_post _ _ _ _ _ _ _ _ _ _ Ec1 Hbuf1 (Nat.lt_succ_diag_r _) Hsalt Hco E2)
    as (buf & i & s' & -> & Hi & Hs' & Hcl).
  injection HE as <- <-.
  set (c2 := MkConnectionState buf (last_activity conn1)) in *.
  set (el2 := write_back (set_read_buf el1 token conn1 buf) i s') in *.
  assert (Em : connections el2 = <[token:=c2]> (connections el)) by (cbn; by rewrite insert_insert_eq).
  destruct (cd || cl) eqn:Eo.
  - assert (Em' : connections (close_and_deregister_connection el2 token) = delete token (connections el))
      by (cbn [close_and_deregister_connection connections set_connections]; by rewrite Em, delete_insert_eq).
    split_and!; [split; try done| | |done]; unfold connection_count; rewrite ?Em'.
    + cbn [max_connections close_and_deregister_connection set_connections el2 write_back set_read_buf el1].
      unfold connection_count in Hcnt. pose proof (map_size_delete token (connections el)) as Hd. rewrite Ec in Hd. lia.
    + by apply map_Forall_delete.
    + intros t Ht. by rewrite lookup_delete_ne.
    + intros. by rewrite lookup_delete_eq.
  - apply orb_false_iff in Eo as [-> ->]. split_and!; [split; try done| | |done]; unfold connection_count; rewrite ?Em.
    + rewrite map_size_insert_Some by (by eexists). exact Hcnt.
    + apply map_Forall_insert_2; [|done]. split; [done|]. by apply Hcl.
    + intros t Ht. by rewrite lookup_insert_ne.
    + done.
Qed.

Lemma register_ok_preserved el registered now :
  loop_ok el -> connection_count el < max_connections el -> loop_ok (register_and_insert_connection el registered now) /\
  max_connections (register_and_insert_connection el registered now) = max_connections el /\
  (forall t c, connections el !! t = Some c -> connections (register_and_insert_connection el registered now) !! t = Some c).
Proof.
  intros [Hcnt Hconns Hnext Hstore Hco Hsalt Hlevel] Hlt. unfold register_and_insert_connection.
  destruct (next_connection_token_spec el Hnext) as (token & t' & -> & Htok & Hfree & Ht');
    [unfold TOKENS, ISIZE_MAX in *; lia|].
  destruct registered; cbn [negb]; (split; [split|split; [done|]]); try done; cbn [connections set_connections set_next_token].
  - unfold connection_count in *. cbn. rewrite map_size_insert_None by done. lia.
  - apply map_Forall_insert_2; [|done]. split; [done|]. by split; [constructor|].
  - intros t c Ht. rewrite lookup_insert_ne; [done|]. intros ->. congruence.
Qed.

Lemma accept_connections_ok accepts : forall el, loop_ok el ->
  loop_ok (accept_connections el accepts) /\
  (forall t c, connections el !! t = Some c -> connections (accept_connections el accepts) !! t = Some c).
Proof.
  induction accepts as [|a accepts IH]; intros el Hok; cbn [accept_connections];
    (destruct (Z.leb_spec (max_connections el) (connection_count el)); [done|]); [done|].
  destruct a as [registered now| |]; [|done..].
  destruct (register_ok_preserved el registered now Hok) as (Hok1 & _ & Hkeep); [lia|].
  destruct (IH _ Hok1) as [Hok2 Hkeep2]. split; [done|]. intros. by apply Hkeep2, Hkeep.
Qed.

Definition command_wf (c : Command) : Prop :=
  match c with SetValue oid v => oid_wf oid /\ value_wf v | Shutdown => True end.

Lemma drain_commands_ok rx disc : forall el stop el',
  loop_ok el -> Forall command_wf rx -> drain_commands el rx disc = (stop, el') ->
  loop_ok el' /\ connections el' = connections el.
Proof.
  induction rx as [|[oid v|] rx IH]; intros el stop el' Hok Hwf HE; cbn in HE; try by injection HE as <- <-.
  apply Forall_cons in Hwf as [[Ho Hv] Hwf]. eapply IH in HE; [exact HE| |done].
  destruct Hok. split; try done. by apply store_set_wf.
Qed.

(** What the environment can answer. *)
Definition event_wf (ev : Event) : Prop :=
  Forall (fun r => match r with ReadOk b _ => Forall is_u8 b | _ => True end) (ev_reads ev) /\
  Forall command_wf (ev_commands ev).

Lemma handle_event_ok el ev stop out el' :
  loop_ok el -> event_wf ev -> handle_event seed el ev = (stop, out, el') -> loop_ok el'.
Proof.
  intros Hok [Hr Hc] HE. unfold handle_event in HE.
  destruct (ev_token ev =? LISTENER_TOKEN); [injection HE as <- <- <-; by apply accept_connections_ok|].
  destruct (ev_token ev =? WAKER_TOKEN).
  - destruct (drain_commands _ _ _) as [s1 el1] eqn:E. injection HE as <- <- <-. by eapply drain_commands_ok.
  - destruct (handle_connection_event _ _ _ _ _ _) as [o el1] eqn:E. injection HE as <- <- <-.
    by eapply handle_connection_event_post.
Qed.

Lemma foldr_delete_lookup (ts : list Z) (m : gmap Z ConnectionState) t :
  foldr delete m ts !! t = if decide (t ∈ ts) then None else m !! t.
Proof.
  induction ts as [|t0 ts IH]; cbn [foldr]; [by rewrite decide_False by set_solver|].
  destruct (decide (t = t0)) as [->|Hne]; [rewrite lookup_delete_eq, decide_True by set_solver; done|].
  rewrite lookup_delete_ne, IH by done. destruct (decide (t ∈ ts)).
  - by rewrite decide_True by set_solver.
  - by rewrite decide_False by set_solver.
Qed.

Lemma sweep_lookup el now t :
  connections (sweep_idle_connections el now) !! t =
    match connections el !! t with
    | Some c => if is_stale el now c then None else Some c
    | None => None
    end.
Proof.
  unfold sweep_idle_connections. cbn [connections set_connections]. rewrite foldr_delete_lookup.
  destruct (decide _) as [Hin|Hin].
  - apply list_elem_of_fmap in Hin as ([t0 c] & -> & Hin). cbn [fst].
    apply elem_of_map_to_list, map_lookup_filter_Some in Hin as [-> Hs]. by rewrite Hs.
  - destruct (connections el !! t) as [c|] eqn:E; [|done]. destruct (is_stale el now c) eqn:Es; [|done].
    exfalso. apply Hin. apply list_elem_of_fmap. exists (t, c). split; [done|].
    by apply elem_of_map_to_list, map_lookup_filter_Some.
Qed.

Lemma sweep_ok el now : loop_ok el -> loop_ok (sweep_idle_connections el now).
Proof.
  intros [Hcnt Hconns Hnext Hstore Hco Hsalt Hlevel].
  assert (Hsub : connections (sweep_idle_connections el now) ⊆ connections el).
  { apply map_subseteq_spec. intros t c. rewrite sweep_lookup. destruct (connections el !! t); [|done]. by case_match. }
  split; try done.
  - unfold connection_count in *. apply subseteq_dom, subseteq_size in Hsub. rewrite !size_dom in Hsub.
    cbn [max_connections sweep_idle_connections set_connections]. lia.
  - intros t c Hc. apply Hconns. by eapply lookup_weaken.
Qed.

Lemma handle_events_ok events : forall el stop out el',
  loop_ok el -> Forall event_wf events -> handle_events seed el events = (stop, out, el') -> loop_ok el'.
Proof.
  induction events as [|ev events IH]; intros el stop out el' Hok Hwf HE; cbn in HE; [by injection HE as <- <- <-|].
  apply Forall_cons in Hwf as [He Hwf]. destruct (handle_event seed el ev) as [[s1 o1] el1] eqn:E.
  pose proof (handle_event_ok _ _ _ _ _ Hok He E). destruct s1; [by injection HE as <- <- <-|].
  destruct (handle_events seed el1 events) as [[s2 o2] el2] eqn:E2. injection HE as <- <- <-. by eapply IH.
Qed.

Definition poll_wf (p : PollResult) : Prop := match p with PollOk events _ => Forall event_wf events | PollError => True end.

Lemma run_ok polls : forall el r out el',
  loop_ok el -> Forall poll_wf polls -> run seed el polls = (r, out, el') -> loop_ok el'.
Proof.
  induction polls as [|[events now|] polls IH]; intros el r out el' Hok Hwf HE; cbn in HE; try by injection HE as <- <- <-.
  apply Forall_cons in Hwf as [He Hwf]. destruct (handle_events seed el events) as [[s1 o1] el1] eqn:E.
  pose proof (handle_events_ok _ _ _ _ _ Hok He E) as Hok1. destruct s1; [by injection HE as <- <- <-|].
  destruct (run seed _ polls) as [[r2 o2] el2] eqn:E2. injection HE as <- <- <-. eapply IH; [|done|exact E2]. by apply sweep_ok.
Qed.

(** What a constructed loop takes from its arguments. *)
Lemma event_loop_new_fields env addr now salt eid boots user minimum max config el bound :
  event_loop_new env addr now salt eid boots user minimum max config = Ok (el, bound) ->
  security_level_requires_user user minimum = false /\ listener_addr env = Ok bound /\
  el_engine_id el = eid /\ el_engine_boots el = boots /\ el_usm_user el = user /\ el_minimum_security_level el = minimum /\
  store el = store_new.
Proof.
  unfold event_loop_new. destruct (security_level_requires_user user minimum); [done|]. intros HE.
  destruct (poll_new env), (bind env), (listener_addr env), (register env), (waker_new env); try done.
  by injection HE as <- <-.
Qed.

Lemma event_loop_new_ok env addr now salt eid boots user minimum max config el bound :
  salt_state_ok salt -> 0 <= max <= ISIZE_MAX ->
  event_loop_new env addr now salt eid boots user minimum max config = Ok (el, bound) -> loop_ok el.
Proof.
  intros Hs Hm. unfold event_loop_new. destruct (security_level_requires_user user minimum) eqn:El; [done|].
  intros HE. repeat (case_match; [|done]). injection HE as <- _.
  split; cbn; try done.
  - intros []; cbn; zrange.
  - intros ->. cbn in El. by destruct minimum.
Qed.

End Invariant.

(** ** Properties *)

(** Claim C13: the loop's invariant holds in every reachable state.  From a loop that
    [EventLoop::new] returned, after any number of polls with any events (accepts,
    reads of any octets cut anywhere, failing writes, commands, sweeps) in any order:
    the connection table never exceeds its limit; no connection ever uses the
    listener's or the waker's token; between events no connection buffers as much as
    one maximal frame (65535 octets), so a peer cannot make the loop hoard memory
    across events; the store is a valid MIB; the counters are [u32]; and a loop
    without a user serves noAuthNoPriv only. *)
Theorem event_loop_invariant `{CryptoOps} (seed : Z) (env : SetupOutcome) (addr bound : SocketAddr) (now : Z) (salt : SaltState) (eid : EngineId)
    (boots : EngineBoots) (user : option UsmUser) (minimum : SecurityLevel) (max : Z) (config : ConnectionTimeoutConfig)
    (el0 el : EventLoop) (polls : list PollResult) (r : option (result unit unit)) (out : list (Z * bytes)) :
  salt_state_ok salt -> 0 <= max <= ISIZE_MAX -> Forall poll_wf polls ->
  event_loop_new env addr now salt eid boots user minimum max config = Ok (el0, bound) ->
  run seed el0 polls = (r, out, el) ->
  connection_count el <= max_connections el /\
  (forall t c, connections el !! t = Some c ->
     t <> LISTENER_TOKEN /\ t <> WAKER_TOKEN /\ len (read_buf c) < MAX_FRAME_SIZE) /\
  store_wf (store el) /\ counters_ok (dispatch_inputs el 0 0) /\
  (el_usm_user el = None -> el_minimum_security_level el = NoAuthNoPriv).
Proof.
  intros Hs Hm Hp Hnew Hrun. pose proof (event_loop_new_ok _ _ _ _ _ _ _ _ _ _ _ _ Hs Hm Hnew) as Hok0.
  destruct (run_ok seed _ _ _ _ _ Hok0 Hp Hrun) as [Hcnt Hconns Hnext Hstore Hco Hsalt Hlevel].
  split_and!; [lia| |done|done|done]. intros t c Hc. destruct (Hconns t c Hc) as [Ht Hb].
  pose proof (conn_ok_short c Hb). unfold token_ok, FIRST_CONN_TOKEN, LISTENER_TOKEN, WAKER_TOKEN in *. lia.
Qed.

(** A loop with a toy user, a connection limit of two, and one connection accepted
    on which half a frame has arrived. *)
Definition toy_config : ConnectionTimeoutConfig := ConnectionTimeoutConfig_default.
Definition toy_setup : SetupOutcome := setup_granted ([127; 0; 0; 1], 10161).
Definition toy_event (token : Z) (accepts : list AcceptResult) (commands : list Command) (reads : list ReadResult) : Event :=
  MkEvent token 2000 accepts commands false reads [].
Definition toy_polls : list PollResult :=
  [PollOk [toy_event 0 [AcceptOk true 1000; AcceptOk true 1000; AcceptOk true 1000] [] [];
           toy_event 1 [] [SetValue (MkOid [1; 3; 6]) (Integer32 4)] [];
           toy_event 2 [] [] [ReadOk [0x30; 5; 1] 1500]] 2000].
Definition toy_loop : result (EventLoop * SocketAddr) EventLoopError :=
  event_loop_new toy_setup ([127; 0; 0; 1], 0) 0 None (MkEngineId [1; 2; 3; 4; 5]) 1 (Some toy_auth_user) AuthNoPriv 2 toy_config.

Lemma event_loop_invariant_witness :
  match toy_loop with
  | Ok (el0, _) => let el := snd (@run ToyCrypto.ops 5 el0 toy_polls) in
      connection_count el = 2 /\ connection_count el <= max_connections el
  | Err _ => False
  end.
Proof.
  destruct toy_loop as [[el0 bound]|e] eqn:E0; [|vm_compute in E0; discriminate]. split.
  - vm_compute in E0. injection E0 as <- _. vm_compute. reflexivity.
  - destruct (@run ToyCrypto.ops 5 el0 toy_polls) as [[r out] el] eqn:Er.
    apply (@event_loop_invariant ToyCrypto.ops 5 toy_setup ([127; 0; 0; 1], 0) bound 0 None (MkEngineId [1; 2; 3; 4; 5]) 1 (Some toy_auth_user)
      AuthNoPriv 2 toy_config el0 el toy_polls r out I).
    + unfold ISIZE_MAX; lia.
    + repeat constructor; zrange.
    + exact E0.
    + exact Er.
Defined.

(** Connections are isolated.  Handling any event leaves the state of every
    connection other than the event's own untouched (its buffered octets and its
    activity time alike), and an event for a token that is not in the table changes
    no connection at all. *)
Theorem connections_are_isolated `{CryptoOps} (seed : Z) (el el' : EventLoop) (ev : Event) (stop : bool)
    (out : list (Z * bytes)) (t : Z) (c : ConnectionState) :
  loop_ok el -> event_wf ev -> handle_event seed el ev = (stop, out, el') ->
  t <> ev_token ev -> connections el !! t = Some c -> connections el' !! t = Some c.
Proof.
  intros Hok [Hr Hc] HE Ht Hl. unfold handle_event in HE.
  destruct (ev_token ev =? LISTENER_TOKEN); [injection HE as <- <- <-; by apply accept_connections_ok|].
  destruct (ev_token ev =? WAKER_TOKEN).
  - destruct (drain_commands _ _ _) as [s1 el1] eqn:E. injection HE as <- <- <-.
    by destruct (drain_commands_ok _ _ _ _ _ Hok Hc E) as [_ ->].
  - destruct (handle_connection_event _ _ _ _ _ _) as [o el1] eqn:E. injection HE as <- <- <-.
    destruct (handle_connection_event_post _ _ _ _ _ _ _ _ Hok Hr E) as (_ & Ho & _). by rewrite Ho.
Qed.

(** Allocating a token terminates with a fresh one.  With fewer connections
    than usable tokens, [next_connection_token] returns after at most two iterations
    more than there are connections, also when the counter wraps around
    [usize::MAX]: the token is not in use, is not one of the two reserved ones, and
    nothing but the counter changes. *)
Theorem next_connection_token_fresh (el : EventLoop) :
  token_ok (next_token el) -> connection_count el + 2 <= TOKENS ->
  exists token t', next_connection_token el = Some (token, set_next_token el t') /\
    token_ok token /\ connections el !! token = None /\ token_ok t'.
Proof. apply next_connection_token_spec. Qed.


(** ** Concrete loops *)

(** Two connections, the first with half a frame, and the token counter at the end of
    its range. *)
Definition toy_el (buf : bytes) : EventLoop :=
  {| next_token := USIZE_MAX;
     connections := <[2 := MkConnectionState buf 1000]> {[ USIZE_MAX := MkConnectionState [] 0 ]};
     max_connections := 3; timeout_config := toy_config; store := small_store;
     el_engine_id := MkEngineId [1; 2; 3; 4; 5]; el_engine_boots := 1; engine_start := 0;
     el_unknown_engine_ids := 0; el_unknown_user_names := 0; el_unsupported_sec_levels := 0; el_wrong_digests := 0;
     el_not_in_time_windows := 0; el_decryption_errors := 0; el_unknown_security_models := 0;
     el_usm_user := Some toy_auth_user; el_minimum_security_level := AuthNoPriv; privacy_salt := None |}.

Lemma toy_el_ok buf : conn_ok (MkConnectionState buf 1000) -> loop_ok (toy_el buf).
Proof.
  intros Hb. split.
  - unfold connection_count. cbn [toy_el connections max_connections]. rewrite map_size_insert_None, map_size_singleton by done.
    unfold ISIZE_MAX. lia.
  - cbn [toy_el connections]. apply map_Forall_insert_2; [split; [vm_compute; split; discriminate|exact Hb]|].
    apply map_Forall_singleton. split; [vm_compute; split; discriminate|split; [constructor|vm_compute; reflexivity]].
  - vm_compute. split; discriminate.
  - apply small_store_wf.
  - intros []; vm_compute; split; congruence.
  - exact I.
  - discriminate.
Qed.

Lemma connections_are_isolated_witness :
  let el' := snd (@handle_event ToyCrypto.ops 5 (toy_el [0x30; 5]) (toy_event 2 [] [] [ReadOk [1; 2] 1500; ReadError])) in
  connections el' !! USIZE_MAX = Some (MkConnectionState [] 0).
Proof.
  destruct (@handle_event ToyCrypto.ops 5 (toy_el [0x30; 5]) (toy_event 2 [] [] [ReadOk [1; 2] 1500; ReadError]))
    as [[stop out] el'] eqn:E.
  apply (@connections_are_isolated ToyCrypto.ops 5 (toy_el [0x30; 5]) el' (toy_event 2 [] [] [ReadOk [1; 2] 1500; ReadError])
    stop out USIZE_MAX).
  - apply toy_el_ok. split; [repeat constructor; zrange|vm_compute; reflexivity].
  - split; repeat constructor; zrange.
  - exact E.
  - discriminate.
  - vm_compute. reflexivity.
Defined.

Lemma next_connection_token_fresh_witness :
  exists t', next_connection_token (toy_el []) = Some (3, set_next_token (toy_el []) t') /\
    exists token t'', next_connection_token (toy_el []) = Some (token, set_next_token (toy_el []) t'') /\ token_ok token.
Proof.
  exists 4. split; [vm_compute; reflexivity|].
  destruct (next_connection_token_fresh (toy_el [])) as (token & t'' & E & Ht & _).
  - vm_compute. split; discriminate.
  - vm_compute. discriminate.
  - exists token, t''. split; [exact E|exact Ht].
Defined.


(** After each round of the loop every connection in the table has been active within
    the longer of the two timeouts before that round's sweep, whatever happened before: an
    idle connection outlives its timeout by at most the time to the next sweep, for which
    the loop wakes up every 30 seconds. *)
Theorem idle_connections_bounded `{CryptoOps} (seed : Z) (el el' : EventLoop) (polls : list PollResult) (events : list Event)
    (now : Z) (out : list (Z * bytes)) (t : Z) (c : ConnectionState) :
  run seed el (polls ++ [PollOk events now]) = (None, out, el') -> connections el' !! t = Some c ->
  Z.max 0 (now - last_activity c) < Z.max (normal_timeout (timeout_config el')) (pressure_timeout (timeout_config el')).
Proof.
  revert el out. induction polls as [|[evs n|] polls IH]; intros el out HE Hc; cbn [app run] in HE; [| |done].
  - destruct (handle_events seed el events) as [[stop o] el1]. destruct stop; [done|]. injection HE as _ <-.
    rewrite sweep_lookup in Hc. destruct (connections el1 !! t) as [c1|]; cbn in Hc; [|done].
    destruct (is_stale el1 now c1) eqn:Es; [done|]. injection Hc as ->. unfold is_stale in Es. apply Z.leb_gt in Es.
    unfold idle_timeout in Es. cbn [timeout_config sweep_idle_connections set_connections]. destruct (_ <=? _) in Es; lia.
  - destruct (handle_events seed el evs) as [[stop o] el1]. destruct stop; [done|].
    destruct (run seed (sweep_idle_connections el1 n) _) as [[r o'] el2] eqn:Er. injection HE as -> _ ->. by eapply IH.
Qed.

(** ** Service *)

(** Reads that deliver [chunks] and then would block. *)
Definition reads_of (chunks : list (bytes * Z)) : list ReadResult := (fun '(b, now) => ReadOk b now) <$> chunks.

Lemma drain_reads_chunks chunks : forall conn, Forall (fun '(b, _) => b <> []) chunks ->
  drain_reads conn (reads_of chunks) =
    (false, MkConnectionState (read_buf conn ++ concat (chunks.*1)) (default (last_activity conn) (last (chunks.*2)))).
Proof.
  induction chunks as [|[b now] chunks IH]; intros conn Hne; cbn [reads_of fmap list_fmap drain_reads concat fst snd].
  - rewrite app_nil_r. by destruct conn.
  - apply Forall_cons in Hne as [Hb Hne]. destruct b as [|x b]; [done|]. cbn [is_nil].
    change (list_fmap _ _ _ chunks) with (reads_of chunks). rewrite IH by done. cbn [read_buf last_activity].
    rewrite <-app_assoc. do 2 f_equal. destruct chunks as [|p chunks]; [done|]. cbn [fmap list_fmap].
    rewrite last_cons_cons. by destruct (last (p.2 :: chunks.*2)) eqn:E; [|apply last_None in E].
Qed.

Lemma serve_config `{CryptoOps} seed fs : forall i salt mib,
  salt_state_ok salt -> same_config i (snd (fst (serve seed fs i salt mib))).
Proof.
  induction fs as [|f fs IH]; intros i salt mib Hs; cbn [serve]; [done|].
  destruct (process_snmpv3_request _ _ _ _ _) as [[resp ctx] s1] eqn:Ep.
  destruct (process_effect _ _ _ _ _ _ _ _ Hs Ep) as (Hcf & _ & Hs1). specialize (IH (inputs ctx) s1 mib Hs1).
  destruct (serve seed fs (inputs ctx) s1 mib) as [[o i'] s2]. cbn [fst snd] in *. by transitivity (inputs ctx).
Qed.

(** What an event on a connection does when its writes succeed. *)
Lemma connection_event_serves `{CryptoOps} (seed : Z) (el : EventLoop) (token now : Z) (conn : ConnectionState)
    (chunks : list (bytes * Z)) (writes : list bool) :
  loop_ok el -> connections el !! token = Some conn -> Forall (fun '(b, _) => b <> []) chunks ->
  Forall is_u8 (concat (chunks.*1)) -> Forall (eq true) writes ->
  let '(frames, rest, broken) := all_frames (read_buf conn ++ concat (chunks.*1)) in
  let '(responses, i, salt) :=
    serve seed frames (dispatch_inputs el (el_engine_boots el) (engine_time_seconds el now)) (privacy_salt el) (store el) in
  exists el', handle_connection_event seed el token now (reads_of chunks) writes = (responses, el') /\
    connections el' !! token =
      (match broken with Some _ => None | None => Some (MkConnectionState rest (default (last_activity conn) (last (chunks.*2)))) end) /\
    dispatch_inputs el' (el_engine_boots el) (engine_time_seconds el now) = i /\ privacy_salt el' = salt /\
    store el' = store el.
Proof.
  intros Hok Hc Hne Hu Hw. destruct (lo_conns _ Hok token conn Hc) as [_ [Hub _]].
  set (conn1 := MkConnectionState (read_buf conn ++ concat (chunks.*1)) (default (last_activity conn) (last (chunks.*2)))).
  set (el1 := set_connections el (<[token := conn1]> (connections el))).
  assert (Hc1 : connections el1 !! token = Some conn1) by (cbn; by rewrite lookup_insert_eq).
  assert (Hserve := dispatch_loop_serves seed (S (length (read_buf conn1))) el1 token conn1 (el_engine_boots el)
    (engine_time_seconds el now) writes Hc1 ltac:(by apply Forall_app) (Nat.lt_succ_diag_r _) (lo_salt _ Hok) Hw).
  unfold handle_connection_event, drain_connection_read_buffer. rewrite Hc, (drain_reads_chunks _ conn Hne).
  fold conn1. fold el1. unfold dispatch_buffered_frames. rewrite Hc1, Hserve. cbn [read_buf conn1].
  change (dispatch_inputs el1) with (dispatch_inputs el). change (privacy_salt el1) with (privacy_salt el).
  change (store el1) with (store el).
  destruct (all_frames _) as [[frames rest] broken].
  pose proof (serve_config seed frames (dispatch_inputs el (el_engine_boots el) (engine_time_seconds el now)) (privacy_salt el) (store el) (lo_salt _ Hok)) as Hcfg.
  destruct (serve seed frames _ _ _) as [[responses i] salt]. cbn [fst snd] in Hcfg.
  eexists. split; [reflexivity|]. cbn [orb].
  destruct broken; (split; [cbn; by rewrite ?lookup_delete_eq, ?lookup_insert_eq|split; [|done]]).
  - exact (dispatch_inputs_write_back el i salt _ _ Hcfg).
  - exact (dispatch_inputs_write_back el i salt _ _ Hcfg).
Qed.

(** Claim C22: a connection's requests are answered in order, whatever the reads look
    like.  When the octets of an event arrive in any chunks (and the writes succeed),
    the responses written are exactly those of the dispatcher to the complete frames
    of the buffered and received octets, one after another with the counters and the
    salt threaded through; what is left of the buffer is what follows the last
    complete frame, and the connection is closed exactly when the stream is broken. *)
Theorem requests_served_in_order `{CryptoOps} (seed : Z) (el : EventLoop) (token now : Z) (conn : ConnectionState)
    (chunks : list (bytes * Z)) (writes : list bool) :
  loop_ok el -> connections el !! token = Some conn -> Forall (fun '(b, _) => b <> []) chunks ->
  Forall is_u8 (concat (chunks.*1)) -> Forall (eq true) writes ->
  let '(frames, rest, broken) := all_frames (read_buf conn ++ concat (chunks.*1)) in
  let '(responses, i, salt) :=
    serve seed frames (dispatch_inputs el (el_engine_boots el) (engine_time_seconds el now)) (privacy_salt el) (store el) in
  exists el', handle_connection_event seed el token now (reads_of chunks) writes = (responses, el') /\
    connections el' !! token =
      (match broken with Some _ => None | None => Some (MkConnectionState rest (default (last_activity conn) (last (chunks.*2)))) end) /\
    dispatch_inputs el' (el_engine_boots el) (engine_time_seconds el now) = i /\ privacy_salt el' = salt /\
    store el' = store el.
Proof. apply connection_event_serves. Qed.

(** The first half of an authentic request is in the buffer, the rest arrives now. *)
Definition half : nat := 40.

Lemma requests_served_in_order_witness :
  exists resp el', @handle_connection_event ToyCrypto.ops 5 (toy_el (take half (signed_get toy_auth_user))) 2 100000
    (reads_of [(drop half (signed_get toy_auth_user), 1500)]) [] = ([resp], el').
Proof.
  pose proof (@requests_served_in_order ToyCrypto.ops 5 (toy_el (take half (signed_get toy_auth_user))) 2 100000
    (MkConnectionState (take half (signed_get toy_auth_user)) 1000) [(drop half (signed_get toy_auth_user), 1500)] []) as Hs.
  destruct (all_frames _) as [[frames rest] broken] eqn:Ea in Hs. vm_compute in Ea. injection Ea as <- <- <-.
  destruct (serve _ _ _ _ _) as [[responses i] salt] eqn:Es in Hs.
  vm_compute in Es. injection Es as <- <- <-.
  destruct Hs as (el' & E & _).
  - apply toy_el_ok. split; [refine (bool_decide_unpack _ _); vm_compute; exact I|vm_compute; reflexivity].
  - reflexivity.
  - repeat constructor. vm_compute. discriminate.
  - refine (bool_decide_unpack _ _). vm_compute. exact I.
  - constructor.
  - eexists _, el'. exact E.
Defined.

(** The event that completes an authentic request. *)
Lemma connection_event_answers `{CryptoOps, !CryptoLaws} (seed : Z) (el : EventLoop) (token now : Z)
    (conn : ConnectionState) (chunks : list (bytes * Z)) (writes : list bool) (m : V3InboundMessage) (pdu : InboundPdu) :
  let frame := read_buf conn ++ concat (chunks.*1) in
  let ctx := MkDispatchContext (dispatch_inputs el (el_engine_boots el) (engine_time_seconds el now)) in
  loop_ok el -> connections el !! token = Some conn -> Forall (fun '(b, _) => b <> []) chunks ->
  Forall is_u8 (concat (chunks.*1)) -> Forall (eq true) writes -> is_u64 seed -> context_wf ctx -> is_frame frame ->
  decode_v3_message frame = Ok m -> passes (inputs ctx) m -> scoped_opens (inputs ctx) m pdu ->
  len (response_octets m (store el) pdu) + 32 <= PAYLOAD_MAX ->
  exists resp el' env,
    handle_connection_event seed el token now (reads_of chunks) writes = ([resp], el') /\
    opened (msg_id m) (engine_id (inputs ctx)) (msg_user_name m) [] (engine_boots (inputs ctx)) (engine_time (inputs ctx))
      (auth_pair (el_usm_user el)) (priv_pair (el_usm_user el)) (response_octets m (store el) pdu) resp env /\
    connections el' !! token = Some (MkConnectionState [] (default (last_activity conn) (last (chunks.*2)))) /\
    dispatch_inputs el' 0 0 = dispatch_inputs el 0 0.
Proof.
  intros frame ctx Hok Hc Hne Hu Hw Hseed Hctx Hf Hd Hp Ho Hsize.
  pose proof (connection_event_serves seed el token now conn chunks writes Hok Hc Hne Hu Hw) as Hserve. fold frame in Hserve.
  assert (Huf : Forall is_u8 frame) by (apply Forall_app; split; [apply (lo_conns _ Hok token conn Hc)|done]).
  assert (Hlen : len frame <= ISIZE_MAX)
    by (destruct Hf as (? & ? & ? & ? & ?); unfold MAX_FRAME_SIZE, ISIZE_MAX in *; lia).
  pose proof (next_complete_frame_frame frame [] Hf) as Hn. rewrite app_nil_r in Hn.
  rewrite (all_frames_complete _ _ _ Huf Hn) in Hserve. cbn [all_frames take_frames length next_complete_frame serve] in Hserve.
  destruct (pipeline_answers seed (privacy_salt el) frame (store el) ctx m pdu Hseed (lo_salt _ Hok) Huf Hlen Hctx
    (lo_store _ Hok) Hd Hp Ho Hsize) as (resp & salt' & env & E & _ & Hop).
  unfold process_snmpv3_request in Hserve. change (context_new_unchecked _) with ctx in Hserve. rewrite E in Hserve.
  destruct Hserve as (el' & Eh & Hconn & Hin & _). exists resp, el', env. split_and!; [exact Eh|exact Hop|exact Hconn|].
  exact (dispatch_inputs_clock _ _ _ _ _ _ Hin).
Qed.

(** Claim C9: end to end, an authentic request is answered on its own connection.  If
    the octets buffered and received on a connection, in whatever chunks, make up one
    frame that decodes, passes every check against the loop's user, clock and
    minimum level, and opens to a PDU, then handling the event writes exactly one
    response on that connection; it opens, under the user's keys, to the response the
    handlers compute from the current MIB; the connection stays open with an empty
    buffer, and no counter moves. *)
Theorem authentic_request_end_to_end `{CryptoOps, !CryptoLaws} (seed : Z) (el : EventLoop) (token now : Z)
    (conn : ConnectionState) (chunks : list (bytes * Z)) (writes : list bool) (m : V3InboundMessage) (pdu : InboundPdu) :
  let frame := read_buf conn ++ concat (chunks.*1) in
  let ctx := MkDispatchContext (dispatch_inputs el (el_engine_boots el) (engine_time_seconds el now)) in
  loop_ok el -> connections el !! token = Some conn -> Forall (fun '(b, _) => b <> []) chunks ->
  Forall is_u8 (concat (chunks.*1)) -> Forall (eq true) writes -> is_u64 seed -> context_wf ctx -> is_frame frame ->
  decode_v3_message frame = Ok m -> passes (inputs ctx) m -> scoped_opens (inputs ctx) m pdu ->
  len (response_octets m (store el) pdu) + 32 <= PAYLOAD_MAX ->
  exists resp el' env,
    handle_connection_event seed el token now (reads_of chunks) writes = ([resp], el') /\
    opened (msg_id m) (engine_id (inputs ctx)) (msg_user_name m) [] (engine_boots (inputs ctx)) (engine_time (inputs ctx))
      (auth_pair (el_usm_user el)) (priv_pair (el_usm_user el)) (response_octets m (store el) pdu) resp env /\
    connections el' !! token = Some (MkConnectionState [] (default (last_activity conn) (last (chunks.*2)))) /\
    dispatch_inputs el' 0 0 = dispatch_inputs el 0 0.
Proof. apply connection_event_answers. Qed.

Lemma authentic_request_end_to_end_witness :
  exists resp el', @handle_connection_event ToyCrypto.ops 5 (toy_el (take half (signed_get toy_auth_user))) 2 100000
    (reads_of [(drop half (signed_get toy_auth_user), 1500)]) [true] = ([resp], el') /\
    connections el' !! 2 = Some (MkConnectionState [] 1500).
Proof.
  edestruct (@authentic_request_end_to_end ToyCrypto.ops ToyCrypto.laws 5 (toy_el (take half (signed_get toy_auth_user))) 2 100000
    (MkConnectionState (take half (signed_get toy_auth_user)) 1000) [(drop half (signed_get toy_auth_user), 1500)] [true])
    as (resp & el' & env & E & _ & Hconn & _); [..|exists resp, el'; split; [exact E|exact Hconn]].
  - apply toy_el_ok. split; [refine (bool_decide_unpack _ _); vm_compute; exact I|vm_compute; reflexivity].
  - reflexivity.
  - repeat constructor. vm_compute. discriminate.
  - refine (bool_decide_unpack _ _). vm_compute. exact I.
  - repeat constructor.
  - zrange.
  - split; [refine (bool_decide_unpack _ _); vm_compute; exact I|vm_compute; split_and?; (exact I || congruence)..].
  - apply (next_complete_frame_sound (signed_get toy_auth_user) _ []);
      [refine (bool_decide_unpack _ _); vm_compute; exact I|vm_compute; reflexivity].
  - vm_compute. reflexivity.
  - split; try (vm_compute; split_and?; congruence). exists AuthNoPriv. vm_compute. split_and!; congruence.
  - reflexivity.
  - vm_compute. discriminate.
Defined.
