(* ===== verification/Agent.v ===== *)
(** * The agent: [src/src/lib.rs] and [src/src/error.rs]

    The builder, and the agent as a system of two kinds of threads: application
    threads that push commands into the channel ([Agent::set], dropping the last
    handle) and the event-loop thread that owns the MIB.  The system is a step
    relation, so its properties hold for every interleaving. *)

From stdpp Require Import gmap.
From S2P Require Import Prelude Oid Ber BerFacts Usm Types Varbind BerPdu Snmp Codec Mib Request Dispatch Boots Trap Framing EventLoop LoopFacts.

(** ** Errors *)

Inductive AgentError :=
| AgentBind (addr : SocketAddr) (source : IoError)
| AgentSocket (e : IoError)
| AgentUdpSocket (e : IoError)
| AgentSpawn (e : IoError)
| AgentEngineBoots (e : InitBootsError)
| AgentSecurityLevelRequiresUser.

Inductive SetError := Disconnected.
Inductive TrapError := EmptyDestinations.

(** ** The builder *)

Inductive SecurityConfig (S : Type) :=
| ConfigNoAuthNoPriv
| ConfigAuthNoPriv (user : AuthNoPrivUser) (boots_store : S)
| ConfigAuthPriv (user : AuthPrivUser) (boots_store : S).
Arguments ConfigNoAuthNoPriv {S}.
Arguments ConfigAuthNoPriv {S} user boots_store.
Arguments ConfigAuthPriv {S} user boots_store.

Record AgentBuilder (S : Type) := MkAgentBuilder {
  b_listen_addr : SocketAddr;
  b_engine_id : EngineId;
  b_security : SecurityConfig S;
  b_max_connections : Z;
  b_timeout_config : ConnectionTimeoutConfig;
}.
Arguments MkAgentBuilder {S}.
Arguments b_listen_addr {S}.
Arguments b_engine_id {S}.
Arguments b_security {S}.
Arguments b_max_connections {S}.
Arguments b_timeout_config {S}.

(** 0x80 0x00 0x1f 0x88 0x04 and the text basic-snmp-agent. *)
Definition DEFAULT_ENGINE_ID : bytes := [0x80; 0x00; 0x1f; 0x88; 0x04] ++ str "basic-snmp-agent".

Definition builder_new {S} (security : SecurityConfig S) : AgentBuilder S :=
  {| b_listen_addr := ([0; 0; 0; 0], 10161);
     b_engine_id := match engine_id_try_from DEFAULT_ENGINE_ID with Ok e => e | Err _ => MkEngineId [] end;
     b_security := security; b_max_connections := DEFAULT_MAX_CONNECTIONS;
     b_timeout_config := ConnectionTimeoutConfig_default |}.

Definition builder_listen_addr {S} (b : AgentBuilder S) (addr : SocketAddr) : AgentBuilder S :=
  {| b_listen_addr := addr; b_engine_id := b_engine_id b; b_security := b_security b;
     b_max_connections := b_max_connections b; b_timeout_config := b_timeout_config b |}.
Definition builder_engine_id {S} (b : AgentBuilder S) (e : EngineId) : AgentBuilder S :=
  {| b_listen_addr := b_listen_addr b; b_engine_id := e; b_security := b_security b;
     b_max_connections := b_max_connections b; b_timeout_config := b_timeout_config b |}.
Definition builder_max_connections {S} (b : AgentBuilder S) (max : Z) : AgentBuilder S :=
  {| b_listen_addr := b_listen_addr b; b_engine_id := b_engine_id b; b_security := b_security b;
     b_max_connections := max; b_timeout_config := b_timeout_config b |}.
Definition builder_connection_timeout_config {S} (b : AgentBuilder S) (c : ConnectionTimeoutConfig) : AgentBuilder S :=
  {| b_listen_addr := b_listen_addr b; b_engine_id := b_engine_id b; b_security := b_security b;
     b_max_connections := b_max_connections b; b_timeout_config := c |}.

(** The parts of a running agent. *)
Record Agent := MkAgent { agent_loop : EventLoop; agent_trap_sender : TrapSender; bound_addr : SocketAddr }.

(** [Agent::local_addr] *)
Definition local_addr (a : Agent) : SocketAddr := bound_addr a.

(** What the operating system answers to the calls of [build]. *)
Record BuildOutcome := MkBuildOutcome {
  setup : SetupOutcome; udp_bind : result unit IoError; spawn : result unit IoError; build_now : Z }.

Definition config_level {S} (c : SecurityConfig S) : SecurityLevel :=
  match c with
  | ConfigNoAuthNoPriv => NoAuthNoPriv
  | ConfigAuthNoPriv _ _ => AuthNoPriv
  | ConfigAuthPriv _ _ => AuthPriv
  end.

(** [(usm_user, boots_store)]; the outer [None] is the panic of [expect] in the
    conversion of an [AuthPrivUser]. *)
Definition config_user {S} (c : SecurityConfig S) : option (option UsmUser * option S) :=
  match c with
  | ConfigNoAuthNoPriv => Some (None, None)
  | ConfigAuthNoPriv user boots_store => Some (Some (auth_no_priv_into_user user), Some boots_store)
  | ConfigAuthPriv user boots_store => u ← auth_priv_into_user user; Some (Some u, Some boots_store)
  end.

Definition event_loop_error (e : EventLoopError) : AgentError :=
  match e with
  | Bind addr source => AgentBind addr source
  | Waker source | Registration source => AgentSocket source
  | SecurityLevelRequiresUser => AgentSecurityLevelRequiresUser
  end.

(** [build]; returns the boots store too, which it has updated ([None] is a panic). *)
Definition build {S} `{EngineBootsStore S} (env : BuildOutcome) (salt : SaltState) (b : AgentBuilder S)
    : option (result Agent AgentError * option S) :=
  let minimum_security_level := config_level (b_security b) in
  match config_user (b_security b) with
  | None => None
  | Some (usm_user, boots_store) =>
      let '(boots_result, boots_store) :=
        match boots_store with
        | Some store =>
            let '(r, store) := initialise_engine_boots store (engine_id_bytes (b_engine_id b)) in
            (map_err AgentEngineBoots r, Some store)
        | None => (Ok 1, None)
        end in
      Some
        (let? engine_boots := boots_result in
         let? '(event_loop, bound_addr) :=
           map_err event_loop_error
             (event_loop_new (setup env) (b_listen_addr b) (build_now env) salt (b_engine_id b) engine_boots usm_user
                minimum_security_level (b_max_connections b) (b_timeout_config b)) in
         let? trap_sender := map_err AgentUdpSocket (trap_sender_new (udp_bind env) (b_engine_id b) engine_boots usm_user) in
         let? _ := map_err AgentSpawn (spawn env) in
         Ok {| agent_loop := event_loop;
               agent_trap_sender := trap_sender;
               bound_addr := bound_addr |}, boots_store)
  end.

(** [Agent::send_trap] *)
Definition agent_send_trap `{CryptoOps} (seed counter : Z) (salt : SaltState)
    (send_to : bytes -> SocketAddr -> result unit IoError) (sender : TrapSender) (ms ms' : Z) (pdu : TrapPdu)
    (destinations : list SocketAddr) : result (list TrapResult) TrapError * list (SocketAddr * bytes) * Z * SaltState :=
  if is_nil destinations then (Err EmptyDestinations, [], counter, salt)
  else
    let '(results, sent, counter, salt) := send_trap seed counter salt send_to sender ms ms' pdu destinations in
    (Ok results, sent, counter, salt).

(** ** The running system *)

(** [sys_loop] is [None] once the loop thread has returned (its receiver is gone);
    [sys_queue] is the channel; [sys_sent] is the history of accepted commands. *)
Record System := MkSystem { sys_loop : option EventLoop; sys_queue : list Command; sys_sent : list Command }.

(** [CommandSender::send]: refused once the receiver is gone. *)
Definition send_command (s : System) (c : Command) : result unit unit * System :=
  match sys_loop s with
  | None => (Err tt, s)
  | Some _ => (Ok tt, {| sys_loop := sys_loop s; sys_queue := sys_queue s ++ [c]; sys_sent := sys_sent s ++ [c] |})
  end.

(** [Agent::set] *)
Definition agent_set (s : System) (oid : Oid) (value : Value) : result unit SetError * System :=
  let '(r, s) := send_command s (SetValue oid value) in (map_err (fun _ => Disconnected) r, s).

(** [Drop for AgentInner]; the error is ignored. *)
Definition agent_drop (s : System) : System := snd (send_command s Shutdown).

Inductive sys_step `{CryptoOps} (seed : Z) : System -> System -> Prop :=
| step_set s oid value : oid_wf oid -> value_wf value -> sys_step seed s (snd (agent_set s oid value))
| step_drop s : sys_step seed s (agent_drop s)
| step_wake el queue sent ev stop out el' :
    ev_token ev = WAKER_TOKEN -> ev_commands ev = queue -> ev_disconnected ev = false -> event_wf ev ->
    handle_event seed el ev = (stop, out, el') ->
    sys_step seed (MkSystem (Some el) queue sent) (MkSystem (if stop then None else Some el') [] sent)
| step_event el queue sent ev stop out el' :
    ev_token ev <> WAKER_TOKEN -> event_wf ev -> handle_event seed el ev = (stop, out, el') ->
    sys_step seed (MkSystem (Some el) queue sent) (MkSystem (Some el') queue sent)
| step_sweep el queue sent now :
    sys_step seed (MkSystem (Some el) queue sent) (MkSystem (Some (sweep_idle_connections el now)) queue sent)
| step_poll_error el queue sent :
    sys_step seed (MkSystem (Some el) queue sent) (MkSystem None [] sent).

(** ** What the builder guarantees *)

(** The users come from their constructors, which check the key length and the name. *)
Definition config_wf {S} (c : SecurityConfig S) : Prop :=
  match c with
  | ConfigNoAuthNoPriv => True
  | ConfigAuthNoPriv u _ =>
      key_size (anp_auth_key u) = auth_key_len (anp_auth_protocol u) /\ len (user_name_bytes (anp_name u)) <= 32
  | ConfigAuthPriv u _ =>
      key_size (ap_auth_key u) = auth_key_len (ap_auth_protocol u) /\ len (user_name_bytes (ap_name u)) <= 32
  end.

Definition config_store {S} (c : SecurityConfig S) : option S :=
  match c with ConfigNoAuthNoPriv => None | ConfigAuthNoPriv _ s | ConfigAuthPriv _ s => Some s end.

Definition user_config_ok (level : SecurityLevel) (u : option UsmUser) : Prop :=
  match u with
  | Some u => user_wf u /\ len (user_name_bytes (user_name u)) <= 32 /\ user_security_level u = level
  | None => level = NoAuthNoPriv
  end.

Lemma config_user_ok {S} (c : SecurityConfig S) :
  config_wf c -> exists u, config_user c = Some (u, config_store c) /\ user_config_ok (config_level c) u.
Proof.
  destruct c as [|u s|u s]; cbn [config_wf config_user config_store config_level user_config_ok].
  - intros _. by exists None.
  - intros [Hk Hn]. eexists. split; [done|]. split; [|done]. by split.
  - intros [Hk Hn]. destruct (auth_priv_into_user_ok u Hk) as (usm & -> & Hw & Hl & Hname & _).
    exists (Some usm). cbn. rewrite Hname. done.
Qed.

Section Build.
  Context {S} `{BootsStoreLaws S}.

(** The boots step of [build]. *)
Lemma build_boots (c : SecurityConfig S) engine_id :
  Forall is_u8 engine_id -> len engine_id <= MAX_ENGINE_ID_LEN ->
  (forall s, config_store c = Some s -> store_works s /\ exists st, load s = (Ok st, s) /\ 0 <= stored_boots st engine_id) ->
  exists r s',
    match config_store c with
    | Some store => let '(r, store) := initialise_engine_boots store engine_id in (map_err AgentEngineBoots r, Some store)
    | None => (Ok 1, None)
    end = (r, s') /\
    (r = Err (AgentEngineBoots BootsAtCeiling) \/ exists b, r = Ok b /\ 1 <= b <= MAX_ENGINE_BOOTS).
Proof.
  intros Hu Hl Hs. destruct (config_store c) as [s|].
  2: { eexists _, _. split; [done|]. right. exists 1. split; [done|]. unfold MAX_ENGINE_BOOTS, CEILING. lia. }
  destruct (Hs s eq_refl) as (Hw & st & Hload & Hb).
  pose proof (initialise_step s st engine_id Hw Hu Hl Hload Hb) as Hstep.
  destruct (Z.ltb_spec (stored_boots st engine_id) MAX_ENGINE_BOOTS).
  - destruct Hstep as (s' & -> & _ & _). eexists _, _. split; [done|]. right. eexists. split; [done|]. lia.
  - rewrite Hstep. eexists _, _. split; [done|]. by left.
Qed.

(** Claim C33: what [build] hands out is consistent.  For a builder whose engine ID and
    user come from their constructors, and a boots store that works, [build] never
    panics and never fails with [SecurityLevelRequiresUser]; if it fails before the
    sockets it is because the boots ceiling was reached; and an agent it returns has
    an event loop in its invariant and a trap sender that can encode, which share
    one engine ID, one boots value between 1 and 2^31-1 and one user, whose level is
    exactly the configured minimum (no user only for noAuthNoPriv), and it reports the
    address its listener was given. *)
Theorem build_is_consistent (env : BuildOutcome) (salt : SaltState) (b : AgentBuilder S) (raw_id : bytes) :
  salt_state_ok salt -> Forall is_u8 raw_id -> engine_id_try_from raw_id = Ok (b_engine_id b) ->
  0 <= b_max_connections b <= ISIZE_MAX -> config_wf (b_security b) ->
  (forall s, config_store (b_security b) = Some s ->
     store_works s /\ exists st, load s = (Ok st, s) /\ 0 <= stored_boots st raw_id) ->
  exists r s', build env salt b = Some (r, s') /\ r <> Err AgentSecurityLevelRequiresUser /\
    (forall e, r = Err (AgentEngineBoots e) -> e = BootsAtCeiling) /\
    forall a, r = Ok a ->
      loop_ok (agent_loop a) /\ sender_wf (agent_trap_sender a) /\
      el_minimum_security_level (agent_loop a) = config_level (b_security b) /\
      user_config_ok (config_level (b_security b)) (el_usm_user (agent_loop a)) /\
      ts_usm_user (agent_trap_sender a) = el_usm_user (agent_loop a) /\
      ts_engine_id (agent_trap_sender a) = el_engine_id (agent_loop a) /\
      ts_engine_boots (agent_trap_sender a) = el_engine_boots (agent_loop a) /\
      1 <= el_engine_boots (agent_loop a) <= CEILING /\
      listener_addr (setup env) = Ok (local_addr a).
Proof.
  intros Hsalt Hu Hid Hmax Hcfg Hs. unfold engine_id_try_from in Hid.
  destruct (Z.ltb_spec (len raw_id) EngineId_MIN_LEN) as [|Hmin], (Z.ltb_spec EngineId_MAX_LEN (len raw_id)) as [|Hlen];
    cbn [orb] in Hid; try done. injection Hid as Hid. unfold EngineId_MAX_LEN in Hlen.
  destruct (config_user_ok _ Hcfg) as (u & Eu & Hucfg). unfold build. rewrite Eu, <-Hid. cbn [engine_id_bytes].
  destruct (build_boots (b_security b) raw_id Hu Hlen Hs) as (r & s' & -> & [->|(boots & -> & Hb)]).
  { eexists _, _. split; [done|]. split_and!; [done|intros e [= <-]; done|done]. }
  destruct (event_loop_new _ _ _ _ _ _ _ _ _ _) as [[el bound]|e] eqn:El.
  - cbn [map_err]. eexists _, _. split; [done|].
    destruct (udp_bind env) as [[]|?], (spawn env) as [[]|?]; cbn [map_err]; (split_and!; [done|done|]); try done.
    intros a [= <-]. cbn [agent_loop agent_trap_sender ts_usm_user ts_engine_id ts_engine_boots].
    pose proof (event_loop_new_ok _ _ _ _ _ _ _ _ _ _ _ _ Hsalt Hmax El) as Hok.
    destruct (event_loop_new_fields _ _ _ _ _ _ _ _ _ _ _ _ El) as (_ & Hla & -> & -> & -> & -> & _).
    split; [exact Hok|]. split; [|split_and!; try done; apply Hb].
    split; cbn; [by split|unfold MAX_ENGINE_BOOTS, CEILING, I32_MAX in *; lia|].
    destruct u as [u|]; [|done]. by destruct Hucfg as (? & ? & ?).
  - eexists _, _. split; [done|]. split_and!; [|by destruct e|done].
    unfold event_loop_new in El. destruct (security_level_requires_user _ _) eqn:Er.
    + destruct u as [u|]; [done|]. cbn in Hucfg. by rewrite Hucfg in Er.
    + destruct (poll_new _), (bind _), (listener_addr _), (register _), (waker_new _); cbn in El; simplify_eq; done.
Qed.

End Build.

Definition toy_builder : AgentBuilder FileEngineBootsStore :=
  builder_engine_id
    (builder_new (ConfigAuthPriv (MkAuthPrivUser (MkUserName [97]) HmacSha256 (zeroed 32) Aes128)
       (toy_file_store toy_path (Some (boots_file [1; 2; 3; 4; 5] 41)))))
    (MkEngineId [1; 2; 3; 4; 5]).

Lemma build_is_consistent_witness :
  exists a s', build (MkBuildOutcome toy_setup (Ok tt) (Ok tt) 0) None toy_builder = Some (Ok a, s') /\
    el_engine_boots (agent_loop a) = 42 /\ loop_ok (agent_loop a).
Proof.
  destruct (build_is_consistent (MkBuildOutcome toy_setup (Ok tt) (Ok tt) 0) None toy_builder [1; 2; 3; 4; 5])
    as (r & s' & E & _ & _ & Hok).
  - exact I.
  - repeat constructor; zrange.
  - reflexivity.
  - vm_compute. split; discriminate.
  - vm_compute. split; [reflexivity|discriminate].
  - intros s [= <-]. split; [split; [reflexivity|eexists; vm_compute; reflexivity]|].
    eexists. split; [vm_compute; reflexivity|vm_compute; discriminate].
  - destruct r as [a|e]; [|exfalso; vm_compute in E; discriminate].
    exists a, s'. split; [exact E|]. split; [|apply (Hok a eq_refl)].
    apply (f_equal (fun x => match x with Some (Ok y, _) => el_engine_boots (agent_loop y) | _ => 0 end)) in E.
    vm_compute in E. symmetry. exact E.
Defined.

(** ** The MIB only changes through the API *)

(** The store after a sequence of commands. *)
Definition apply_command (s : Store) (c : Command) : Store :=
  match c with SetValue oid v => store_set s oid v | Shutdown => s end.

Lemma accept_connections_store accepts : forall el, store (accept_connections el accepts) = store el.
Proof.
  induction accepts as [|a accepts IH]; intros el; cbn [accept_connections];
    (destruct (_ <=? _); [done|]); [done|]. destruct a as [registered now| |]; [|done..]. rewrite IH.
  unfold register_and_insert_connection, next_connection_token.
  generalize (S (S (size (connections el)))). intros n.
  assert (Ht : forall el', match next_connection_token_loop n el' with Some (_, el2) => store el2 = store el' | None => True end).
  { induction n as [|n IHn]; intros el'; cbn [next_connection_token_loop]; [done|]. destruct (_ && _); [done|].
    match goal with |- context [next_connection_token_loop n ?e] => exact (IHn e) end. }
  specialize (Ht el). destruct (next_connection_token_loop n el) as [[token el2]|]; [|done].
  by destruct registered.
Qed.

Lemma drain_commands_store rx : forall el stop el', drain_commands el rx false = (stop, el') ->
  if stop then True else store el' = fold_left apply_command rx (store el).
Proof.
  induction rx as [|[oid v|] rx IH]; intros el stop el' HE; cbn in HE; try by injection HE as <- <-.
  apply IH in HE. exact HE.
Qed.

Section System.
  Context `{CryptoOps} (seed : Z).

(** While the loop runs, its store is the result of the commands it has taken from
    the channel, in the order they were sent. *)
Definition sys_ok (s : System) : Prop :=
  match sys_loop s with
  | None => True
  | Some el => loop_ok el /\ Forall command_wf (sys_queue s) /\
      exists taken, sys_sent s = taken ++ sys_queue s /\ store el = fold_left apply_command taken store_new
  end.

Lemma send_command_ok s c : command_wf c -> sys_ok s -> sys_ok (snd (send_command s c)).
Proof.
  intros Hc. unfold sys_ok, send_command. destruct (sys_loop s) as [el|] eqn:E; cbn; rewrite ?E; [|done].
  intros (Hok & Hq & taken & Hs & Hst). split_and!; [done|apply Forall_app; by repeat constructor|].
  exists taken. by rewrite Hs, app_assoc.
Qed.

Lemma network_event_store el ev stop out el' :
  loop_ok el -> event_wf ev -> ev_token ev <> WAKER_TOKEN -> handle_event seed el ev = (stop, out, el') -> store el' = store el.
Proof.
  intros Hok [Hr _] Ht HE. unfold handle_event in HE. rewrite (proj2 (Z.eqb_neq _ _) Ht) in HE.
  destruct (ev_token ev =? LISTENER_TOKEN); [injection HE as <- <- <-; apply accept_connections_store|].
  destruct (handle_connection_event _ _ _ _ _ _) as [o el1] eqn:E. injection HE as <- <- <-.
  by destruct (handle_connection_event_post _ _ _ _ _ _ _ _ Hok Hr E) as (_ & _ & _ & ->).
Qed.

Lemma sys_step_ok s s' : sys_step seed s s' -> sys_ok s -> sys_ok s'.
Proof.
  destruct 1 as [s oid v Ho Hv|s|el q sent ev stop out el' Ht Hq Hd Hev HE|el q sent ev stop out el' Ht Hev HE|el q sent now|].
  - intros Hok. unfold agent_set. pose proof (send_command_ok s (SetValue oid v) (conj Ho Hv) Hok) as H1.
    by destruct (send_command s (SetValue oid v)).
  - by apply send_command_ok.
  - intros (Hok & Hwf & taken & Hs & Hst). destruct stop; [done|]. cbn in *.
    pose proof (handle_event_ok _ _ _ _ _ _ Hok Hev HE) as Hok'. split_and!; [done|constructor|].
    exists sent. rewrite app_nil_r. split; [done|]. unfold handle_event in HE. rewrite Ht, Hq, Hd in HE. cbn in HE.
    destruct (drain_commands el q false) as [stop1 el1] eqn:E. injection HE as -> _ <-.
    apply drain_commands_store in E. by rewrite E, Hs, fold_left_app, Hst.
  - intros (Hok & Hwf & taken & Hs & Hst). cbn in *. split_and!; [by eapply handle_event_ok|done|].
    exists taken. split; [done|]. by rewrite (network_event_store _ _ _ _ _ Hok Hev Ht HE).
  - intros (Hok & Hwf & taken & Hs & Hst). cbn in *. split_and!; [by apply sweep_ok|done|]. by exists taken.
  - done.
Qed.

Lemma reachable_sys_ok el0 s :
  loop_ok el0 -> store el0 = store_new -> rtc (sys_step seed) (MkSystem (Some el0) [] []) s -> sys_ok s.
Proof.
  intros Hok Hst Hr. remember (MkSystem (Some el0) [] []) as s0 eqn:E0. assert (H0 : sys_ok s0).
  { subst s0. split_and!; [done|constructor|]. by exists []. }
  clear E0. induction Hr as [|a b c Hab _ IH]; [done|]. apply IH. by eapply sys_step_ok.
Qed.

(** Claim C15: the MIB is written only through [Agent::set], in order.  In every state
    reachable, under any interleaving of application threads with the loop (network
    events carrying any octets, SET requests included, wake-ups, sweeps), while the
    loop runs its store is exactly the result of applying, in the order they were
    sent, those commands it has taken from the channel, and the channel holds the
    others; so nothing a manager sends can change the MIB, and no command is lost,
    duplicated or reordered.  Once the loop has returned, [Agent::set] reports
    [Disconnected]. *)
Theorem mib_written_only_by_set (el0 : EventLoop) (s : System) (oid : Oid) (v : Value) :
  loop_ok el0 -> store el0 = store_new -> rtc (sys_step seed) (MkSystem (Some el0) [] []) s ->
  match sys_loop s with
  | Some el => exists taken, sys_sent s = taken ++ sys_queue s /\ store el = fold_left apply_command taken store_new
  | None => fst (agent_set s oid v) = Err Disconnected
  end.
Proof.
  intros Hok Hst Hr. pose proof (reachable_sys_ok el0 s Hok Hst Hr) as Hs.
  unfold sys_ok, agent_set, send_command in *. destruct (sys_loop s); [|done]. by destruct Hs as (_ & _ & Hs).
Qed.

End System.

Lemma mib_written_only_by_set_witness :
  match toy_loop with
  | Ok (el0, _) =>
      let s1 := snd (agent_set (MkSystem (Some el0) [] []) (MkOid [1; 3; 6]) (Integer32 4)) in
      exists taken, sys_sent s1 = taken ++ sys_queue s1 /\ store el0 = fold_left apply_command taken store_new
  | Err _ => False
  end.
Proof.
  destruct toy_loop as [[el0 bound]|e] eqn:E0; [|vm_compute in E0; discriminate].
  apply (@mib_written_only_by_set ToyCrypto.ops 5 el0
    (snd (agent_set (MkSystem (Some el0) [] []) (MkOid [1; 3; 6]) (Integer32 4))) (MkOid [1; 3; 6]) (Integer32 4)).
  - apply (event_loop_new_ok toy_setup ([127; 0; 0; 1], 0) 0 None (MkEngineId [1; 2; 3; 4; 5]) 1 (Some toy_auth_user) AuthNoPriv 2 toy_config el0 bound I);
      [unfold ISIZE_MAX; lia|exact E0].
  - vm_compute in E0. injection E0 as <- _. reflexivity.
  - apply rtc_once. apply step_set; [|vm_compute; split; congruence]. split; [repeat constructor; zrange|reflexivity].
Defined.
