(* ===== verification/EndToEnd.v ===== *)
(** * The whole agent: what a manager reads is what the application wrote

    Composition of the application side ([Agent::set], the command channel), the event
    loop with its connections, the pipeline and the handlers.  The specification is a
    register per OID: the value read is the last one written. *)

From stdpp Require Import gmap.
From S2P Require Import Prelude Oid Ber BerFacts Usm Types Varbind BerPdu Snmp Codec Mib Request Dispatch Boots Trap Framing EventLoop LoopFacts Agent.

(** ** The specification *)

(** The last value written to [oid]. *)
Definition last_write (written : list Command) (oid : Oid) : option Value :=
  fold_left (fun acc c =>
    match c with SetValue o v => if decide (oid = o) then Some v else acc | Shutdown => acc end) written None.

Definition get_answer (written : list Command) (oid : Oid) (vb : Varbind) : Prop :=
  vb = MkVarbind oid (match last_write written oid with Some v => VValue v | None => NoSuchObject end).

(** The least written OID above [oid] with its last value, or the end of the view. *)
Definition next_answer (written : list Command) (oid : Oid) (vb : Varbind) : Prop :=
  match vb_value vb with
  | VValue v =>
      last_write written (vb_oid vb) = Some v /\ oid_lt oid (vb_oid vb) /\
      forall o w, last_write written o = Some w -> oid_lt oid o -> oid_le (vb_oid vb) o
  | EndOfMibView => vb_oid vb = oid /\ forall o w, last_write written o = Some w -> ~ oid_lt oid o
  | _ => False
  end.

(** The read requests, with their identifier, the OIDs they name and what each is
    answered with. *)
Inductive read_request : InboundPdu -> Z -> list Oid -> (list Command -> Oid -> Varbind -> Prop) -> Prop :=
| read_get r : read_request (PduGetRequest r) (get_request_id r) (vb_oid <$> get_varbinds r) get_answer
| read_next r : read_request (PduGetNextRequest r) (next_request_id r) (vb_oid <$> next_varbinds r) next_answer.

(** ** The store implements it *)

Lemma store_last_write cmds oid :
  store_ok (fold_left apply_command cmds store_new) /\
  store_get (fold_left apply_command cmds store_new) oid = last_write cmds oid.
Proof.
  unfold last_write. assert (H0 : store_ok store_new /\ store_get store_new oid = None) by (split; [constructor|done]).
  revert H0. generalize store_new (@None Value). induction cmds as [|c cmds IH]; intros s acc [Hs Hg]; [done|].
  cbn [fold_left]. apply IH. destruct c as [o v|]; [|done]. split; [by apply btree_insert_sorted|].
  cbn [apply_command]. unfold store_get, store_set in *. cbn [entries]. rewrite btree_get_insert by done.
  by case_decide.
Qed.

Lemma read_answers m cmds pdu rid oids answer :
  read_request pdu rid oids answer ->
  exists vbs, response_octets m (fold_left apply_command cmds store_new) pdu = std_pdu_octets TAG_RESPONSE rid 0 0 vbs /\
    Forall2 (answer cmds) oids vbs.
Proof.
  set (s := fold_left apply_command cmds store_new).
  assert (Hok : store_ok s) by apply (store_last_write cmds (MkOid [])).
  assert (Hg : forall o, store_get s o = last_write cmds o) by (intros o; apply store_last_write).
  destruct 1 as [r|r]; (eexists; split; [reflexivity|]); cbn.
  - rewrite Forall2_fmap. apply Forall_Forall2_diag, Forall_true. intros vb. unfold get_answer. by rewrite <-Hg.
  - rewrite Forall2_fmap. apply Forall_Forall2_diag, Forall_true. intros vb. unfold resolve_get_next_varbind. cbn.
    destruct (store_next s (vb_oid vb)) as [[k v]|] eqn:E; unfold next_answer; cbn.
    + destruct (store_next_Some _ _ _ _ Hok E) as (H1 & H2 & H3). rewrite <-Hg. split_and!; [done|done|].
      intros o w Hw. rewrite <-Hg in Hw. by eapply H3.
    + split; [done|]. intros o w Hw. rewrite <-Hg in Hw. by eapply store_next_None.
Qed.

(** ** The configuration never changes *)

Definition loop_config (el : EventLoop) : EngineId * EngineBoots * Z * option UsmUser * SecurityLevel :=
  (el_engine_id el, el_engine_boots el, engine_start el, el_usm_user el, el_minimum_security_level el).

Lemma next_connection_token_config n : forall el t el',
  next_connection_token_loop n el = Some (t, el') -> loop_config el' = loop_config el.
Proof.
  induction n as [|n IH]; intros el t el' HE; [done|]. cbn [next_connection_token_loop] in HE.
  destruct (_ && _); [by injection HE as _ <-|]. apply IH in HE. exact HE.
Qed.

Lemma accept_connections_config accepts : forall el, loop_config (accept_connections el accepts) = loop_config el.
Proof.
  induction accepts as [|a accepts IH]; intros el; cbn [accept_connections];
    (destruct (_ <=? _); [done|]); [done|]. destruct a as [registered now| |]; [|done..]. rewrite IH.
  unfold register_and_insert_connection, next_connection_token.
  destruct (next_connection_token_loop _ el) as [[token el2]|] eqn:E; [|done].
  apply next_connection_token_config in E. by destruct registered.
Qed.

Lemma drain_commands_config rx disc : forall el stop el',
  drain_commands el rx disc = (stop, el') -> loop_config el' = loop_config el.
Proof.
  induction rx as [|[oid v|] rx IH]; intros el stop el' HE; cbn in HE; try by injection HE as <- <-.
  apply IH in HE. exact HE.
Qed.

Section Config.
  Context `{CryptoOps} (seed : Z).

Lemma dispatch_loop_config n : forall el token boots time writes closed out el',
  dispatch_loop seed n el token boots time writes = (closed, out, el') -> loop_config el' = loop_config el.
Proof.
  induction n as [|n IH]; intros el token boots time writes closed out el' HE; cbn [dispatch_loop] in HE;
    [by injection HE as _ _ <-|].
  destruct (connections el !! token) as [conn|]; [|by injection HE as _ _ <-].
  destruct (next_complete_frame (read_buf conn)) as [[frame| |e] buf]; [|by injection HE as _ _ <-..].
  destruct (dispatch_snmpv3_frame _ _ _ _ _) as [[[resp|] ctx] salt] eqn:Ed; [|by apply IH in HE].
  destruct (connections (write_back _ _ _) !! token); [|by injection HE as _ _ <-].
  destruct (default true (head writes)); [|by injection HE as _ _ <-].
  destruct (dispatch_loop seed n _ _ _ _ _) as [[cl o] el2] eqn:E2. apply IH in E2. by injection HE as _ _ <-.
Qed.

Lemma handle_event_config el ev stop out el' :
  handle_event seed el ev = (stop, out, el') -> loop_config el' = loop_config el.
Proof.
  unfold handle_event. intros HE. destruct (_ =? LISTENER_TOKEN); [injection HE as _ _ <-; apply accept_connections_config|].
  destruct (_ =? WAKER_TOKEN).
  - destruct (drain_commands _ _ _) as [st el1] eqn:E. injection HE as _ _ <-. by eapply drain_commands_config.
  - unfold handle_connection_event, drain_connection_read_buffer, dispatch_buffered_frames in HE.
    destruct (connections el !! ev_token ev) as [conn|]; [destruct (drain_reads conn (ev_reads ev)) as [cd conn1]|];
      destruct (dispatch_loop _ _ _ _ _ _ _) as [[cl o] el2] eqn:E2; apply dispatch_loop_config in E2;
      injection HE as _ _ <-; (etrans; [|exact E2]); by match goal with |- context [if ?b then _ else _] => destruct b end.
Qed.

Lemma sys_step_config s s' el' :
  sys_step seed s s' -> sys_loop s' = Some el' -> exists el, sys_loop s = Some el /\ loop_config el' = loop_config el.
Proof.
  destruct 1 as [s oid v Ho Hv|s|el q sent ev stop out el1 Ht Hq Hd Hev HE|el q sent ev stop out el1 Ht Hev HE|el q sent now|];
    intros E.
  - unfold agent_set, send_command in E. destruct (sys_loop s) as [el|] eqn:El; cbn in E; [|congruence].
    exists el. by simplify_eq.
  - unfold agent_drop, send_command in E. destruct (sys_loop s) as [el|] eqn:El; cbn in E; [|congruence].
    exists el. by simplify_eq.
  - exists el. split; [done|]. cbn in E. destruct stop; [done|]. simplify_eq. by eapply handle_event_config.
  - exists el. split; [done|]. cbn in E. simplify_eq. by eapply handle_event_config.
  - exists el. split; [done|]. cbn in E. by simplify_eq.
  - done.
Qed.

End Config.

Lemma reachable_config `{CryptoOps} seed el0 s el :
  rtc (sys_step seed) (MkSystem (Some el0) [] []) s -> sys_loop s = Some el -> loop_config el = loop_config el0.
Proof.
  intros Hr. remember (MkSystem (Some el0) [] []) as s0 eqn:E0.
  assert (H0 : forall el, sys_loop s0 = Some el -> loop_config el = loop_config el0).
  { subst s0. cbn. intros e Ee. by simplify_eq. }
  clear E0. revert el. induction Hr as [|a b c Hab _ IH]; [done|]. apply IH. intros el1 E1.
  destruct (sys_step_config seed a b el1 Hab E1) as (el2 & E2 & ->). by apply H0.
Qed.

(** The checks only look at the configuration. *)
Lemma passes_config `{CryptoOps} i j m : same_config i j -> passes i m -> passes j m.
Proof.
  intros (H1 & H2 & H3 & H4 & H5) [He Hu Hl Hpf Hm Ht Hc]. split; try done.
  - unfold envelope_ok in *. congruence.
  - unfold user_ok in *. by rewrite <-H4.
  - unfold level_ok in *. by rewrite <-H4, <-H5.
  - unfold mac_ok in *. by rewrite <-H4.
  - unfold time_ok in *. by rewrite <-H2, <-H3, <-H4.
Qed.

Lemma scoped_opens_config `{CryptoOps} i j m pdu : same_config i j -> scoped_opens i m pdu -> scoped_opens j m pdu.
Proof.
  intros (H1 & _ & _ & H4 & _). unfold scoped_opens. destruct (scoped_data m) as [p|ct]; [done|]. by rewrite H1, H4.
Qed.

(** What the loop shows to the dispatcher at time [now]. *)
Definition context_at (el : EventLoop) (now : Z) : DispatchContext :=
  MkDispatchContext (dispatch_inputs el (el_engine_boots el) (engine_time_seconds el now)).

Lemma context_at_config el el0 now : loop_config el = loop_config el0 -> same_config (inputs (context_at el0 now)) (inputs (context_at el now)).
Proof.
  intros E. unfold loop_config in E. injection E as E1 E2 E3 E4 E5. unfold same_config, context_at, engine_time_seconds.
  cbn. by rewrite E1, E2, E3, E4, E5.
Qed.

(** ** Property *)

(** Claim C2: a manager reads what the application wrote.  Take any agent, any
    interleaving of application threads with the loop since its construction (sets,
    connections opened and closed, arbitrary octets on them, wake-ups, sweeps), and a
    read request (GET or GETNEXT of any number of OIDs, at any security level) that is
    authentic for the agent's configuration at construction, whose last octets arrive
    now in any chunks on any open connection.  The loop writes exactly one response, on
    that connection; under the user's keys it opens to the request's identifier with
    no error and, for each OID in order: the last value written to it, or noSuchObject
    if there is none (GET); the least larger OID written so far with its last value, or
    endOfMibView if there is none (GETNEXT).  The writes seen are those sent except the
    ones still waiting in the channel, in the order they were sent. *)
Theorem manager_reads_last_write `{CryptoOps, !CryptoLaws} (seed : Z) (el0 el : EventLoop) (s : System) (token now : Z)
    (conn : ConnectionState) (chunks : list (bytes * Z)) (writes : list bool) (m : V3InboundMessage) (pdu : InboundPdu)
    (rid : Z) (oids : list Oid) (answer : list Command -> Oid -> Varbind -> Prop) :
  let frame := read_buf conn ++ concat (chunks.*1) in
  let i := inputs (context_at el0 now) in
  loop_ok el0 -> store el0 = store_new -> context_wf (context_at el0 now) -> is_u64 seed ->
  rtc (sys_step seed) (MkSystem (Some el0) [] []) s -> sys_loop s = Some el -> connections el !! token = Some conn ->
  Forall (fun '(b, _) => b <> [] /\ Forall is_u8 b) chunks -> Forall (eq true) writes ->
  is_frame frame -> decode_v3_message frame = Ok m -> passes i m -> scoped_opens i m pdu ->
  read_request pdu rid oids answer -> len (response_octets m (store el) pdu) + 32 <= PAYLOAD_MAX ->
  exists written vbs resp el' env,
    sys_sent s = written ++ sys_queue s /\
    handle_event seed el (MkEvent token now [] [] false (reads_of chunks) writes) = (false, [(token, resp)], el') /\
    opened (msg_id m) (engine_id i) (msg_user_name m) [] (engine_boots i) (engine_time i) (auth_pair (usm_user i))
      (priv_pair (usm_user i)) (std_pdu_octets TAG_RESPONSE rid 0 0 vbs) resp env /\
    Forall2 (answer written) oids vbs.
Proof.
  intros frame i Hok0 Hst0 Hctx0 Hseed Hr El Hc Hch Hw Hf Hd Hp Ho Hrd Hsize.
  pose proof (reachable_sys_ok seed el0 s Hok0 Hst0 Hr) as Hs. unfold sys_ok in Hs. rewrite El in Hs.
  destruct Hs as (Hok & _ & written & Hsent & Hst).
  pose proof (context_at_config el el0 now (reachable_config seed el0 s el Hr El)) as Hcfg. fold i in Hcfg.
  assert (Hctx : context_wf (context_at el now)).
  { destruct Hctx0 as [H1 H2 H3 H4 H5]. fold i in H1, H2, H3, H4, H5. destruct Hcfg as (E1 & E2 & E3 & E4 & _).
    rewrite E1 in H1, H2. rewrite E2 in H3. rewrite E3 in H4. rewrite E4 in H5. by split. }
  assert (Hne : Forall (fun '(b, _) => b <> []) chunks) by (eapply Forall_impl; [exact Hch|]; by intros [b ?] []).
  assert (Hu : Forall is_u8 (concat chunks.*1)).
  { clear -Hch. induction Hch as [|[b t] chunks [_ Hb] _ IH]; [constructor|]. cbn. by apply Forall_app. }
  destruct (connection_event_answers seed el token now conn chunks writes m pdu Hok Hc Hne Hu Hw Hseed Hctx Hf Hd
    (passes_config _ _ _ Hcfg Hp) (scoped_opens_config _ _ _ _ Hcfg Ho) Hsize) as (resp & el' & env & E & Hop & _).
  rewrite Hst in Hop. destruct (read_answers m written pdu rid oids answer Hrd) as (vbs & Ev & Hvbs). rewrite Ev in Hop.
  destruct (lo_conns _ Hok token conn Hc) as [Htok _]. unfold token_ok, FIRST_CONN_TOKEN in Htok.
  exists written, vbs, resp, el', env. split_and!; [exact Hsent| | |exact Hvbs].
  - unfold handle_event. cbn [ev_token ev_now ev_reads ev_writes].
    rewrite (proj2 (Z.eqb_neq token LISTENER_TOKEN)) by (unfold LISTENER_TOKEN; lia).
    rewrite (proj2 (Z.eqb_neq token WAKER_TOKEN)) by (unfold WAKER_TOKEN; lia). by rewrite E.
  - destruct Hcfg as (E1 & E2 & E3 & E4 & _). rewrite E1, E2, E3, E4. exact Hop.
Qed.

(** A run: the application sets 1.3.6, a manager connects, the loop wakes up, and the
    manager's signed GET arrives in two pieces. *)
Definition demo_el0 : EventLoop := match toy_loop with Ok (el, _) => el | Err _ => toy_el [] end.
Definition demo_set : Command := SetValue (MkOid [1; 3; 6]) (Integer32 4).
Definition demo_accept : Event := toy_event LISTENER_TOKEN [AcceptOk true 1000] [] [].
Definition demo_wake : Event := toy_event WAKER_TOKEN [] [demo_set] [].
Definition demo_el1 : EventLoop := snd (@handle_event ToyCrypto.ops 5 demo_el0 demo_accept).
Definition demo_el2 : EventLoop := snd (@handle_event ToyCrypto.ops 5 demo_el1 demo_wake).
Definition demo_chunks : list (bytes * Z) :=
  [(take half (signed_get toy_auth_user), 99000); (drop half (signed_get toy_auth_user), 100000)].

Lemma demo_el0_ok : loop_ok demo_el0.
Proof.
  apply (event_loop_new_ok toy_setup ([127; 0; 0; 1], 0) 0 None (MkEngineId [1; 2; 3; 4; 5]) 1 (Some toy_auth_user) AuthNoPriv 2 toy_config demo_el0 ([127; 0; 0; 1], 10161) I);
    [unfold ISIZE_MAX; lia|reflexivity].
Qed.

Lemma demo_reachable :
  rtc (@sys_step ToyCrypto.ops 5) (MkSystem (Some demo_el0) [] []) (MkSystem (Some demo_el2) [] [demo_set]).
Proof.
  assert (Ho : oid_wf (MkOid [1; 3; 6])) by (split; [repeat constructor; zrange|reflexivity]).
  eapply rtc_l; [apply (step_set _ _ (MkOid [1; 3; 6]) (Integer32 4) Ho); vm_compute; split; congruence|].
  eapply rtc_l; [apply (step_event 5 demo_el0 [demo_set] [demo_set] demo_accept false [] demo_el1);
    [discriminate|split; constructor|vm_compute; reflexivity]|].
  apply rtc_once. apply (step_wake 5 demo_el1 [demo_set] [demo_set] demo_wake false [] demo_el2);
    [reflexivity|reflexivity|reflexivity| |vm_compute; reflexivity].
  split; [constructor|]. repeat constructor; try exact (proj1 Ho); zrange.
Qed.

Lemma manager_reads_last_write_witness :
  exists resp el' env,
    @handle_event ToyCrypto.ops 5 demo_el2 (MkEvent 2 100000 [] [] false (reads_of demo_chunks) []) = (false, [(2, resp)], el') /\
    @opened ToyCrypto.ops 1 [1; 2; 3; 4; 5] [97] [] 1 100 (auth_pair (Some toy_auth_user)) None
      (std_pdu_octets TAG_RESPONSE 9 0 0 [MkVarbind (MkOid [1; 3; 6]) (VValue (Integer32 4))]) resp env.
Proof.
  destruct (decode_v3_message (signed_get toy_auth_user)) as [m|] eqn:Ed; [|vm_compute in Ed; discriminate].
  edestruct (@manager_reads_last_write ToyCrypto.ops ToyCrypto.laws 5 demo_el0 demo_el2 (MkSystem (Some demo_el2) [] [demo_set])
    2 100000 (MkConnectionState [] 1000) demo_chunks [] m
    (PduGetRequest (MkGetRequest 9 [MkVarbind (MkOid [1; 3; 6]) Unspecified])) 9 [MkOid [1; 3; 6]] get_answer)
    as (written & vbs & resp & el' & env & Hs & E & Hop & Hf).
  - exact demo_el0_ok.
  - reflexivity.
  - split; [refine (bool_decide_unpack _ _); vm_compute; exact I|vm_compute; split_and?; (exact I || congruence)..].
  - zrange.
  - exact demo_reachable.
  - reflexivity.
  - vm_compute. reflexivity.
  - refine (bool_decide_unpack _ _). vm_compute. exact I.
  - constructor.
  - apply (next_complete_frame_sound (signed_get toy_auth_user) _ []);
      [refine (bool_decide_unpack _ _); vm_compute; exact I|vm_compute; reflexivity].
  - exact Ed.
  - vm_compute in Ed. injection Ed as <-.
    split; try (vm_compute; split_and?; congruence). exists AuthNoPriv. vm_compute. split_and!; congruence.
  - vm_compute in Ed. injection Ed as <-. reflexivity.
  - apply (read_get (MkGetRequest 9 [MkVarbind (MkOid [1; 3; 6]) Unspecified])).
  - vm_compute in Ed. injection Ed as <-. vm_compute. discriminate.
  - cbn in Hs. rewrite app_nil_r in Hs. subst written. inversion Hf as [|? vb ? ? Hv Hnil]; subst.
    inversion Hnil; subst. unfold get_answer in Hv. vm_compute in Hv. subst vb.
    vm_compute in Ed. injection Ed as <-. exists resp, el', env. split; [exact E|exact Hop].
Defined.
