(* ===== verification/Channel.v ===== *)
(** * The command channel at the level of atomic actions

    [src/src/transport/event_loop.rs]: [CommandSender::send], [EventLoop::run] and
    [EventLoop::drain_commands]; [src/src/lib.rs]: [Agent::set], cloning and dropping
    [Agent] handles.  Where the system of [Agent] sends a command and drains the channel in
    one step each, this one has a step per channel, waker, poll and [try_recv] call, so
    that senders push while the loop drains, and a wake-up can come at any time or fail.
    The theorems are that it refines the system of [Agent], that no wake-up is lost, and
    that dropping the last handle ends the loop after everything sent has been applied.

    The poll is edge-triggered, as the kernel's: a token becomes ready when its source
    reports new activity, is handed out once, and the tokens that do not fit in a batch
    stay first in line for the next one. *)

From stdpp Require Import gmap.
From S2P Require Import Prelude Oid Ber BerFacts Usm Types Varbind BerPdu Snmp Codec Mib Request Dispatch Boots Trap Framing EventLoop LoopFacts Agent EndToEnd.

(** ** State *)

(** [Events::with_capacity(128)] *)
Definition EVENTS_CAPACITY : nat := 128.

(** A thread inside [CommandSender::send], or back from it; [i] is the position of its
    command in the order of the channel. *)
Inductive SendPc :=
| AtSend
| AtWake (i : nat)
| SendOk (i : nat)
| WakeFailed (i : nat)
| BrokenPipe.

(** [io::Result] of [CommandSender::send], once it has returned. *)
Definition send_result (pc : SendPc) : option (result unit unit) :=
  match pc with
  | AtSend | AtWake _ => None
  | SendOk _ => Some (Ok tt)
  | WakeFailed _ | BrokenPipe => Some (Err tt)
  end.

(** A call of [Agent::set] through the handle [call_handle]. *)
Record SetCall := MkSetCall { call_handle : nat; call_oid : Oid; call_value : Value; call_pc : SendPc }.

Definition set_call_result (c : SetCall) : option (result unit SetError) :=
  map_err (fun _ => Disconnected) <$> send_result (call_pc c).

(** [Drop for AgentInner]: sending [Shutdown], then joining the loop thread. *)
Inductive DropPc := NotDropped | Dropping (pc : SendPc) | Joined.

(** Why [run] returns. *)
Inductive Exit := OnShutdown | OnDisconnected | OnPollError.

(** Where [run] is: at [poll]; in a batch with tokens left; in [drain_commands], entered
    with [el0], having received [taken]; about to return, with the receiver not yet
    dropped; returned. *)
Inductive LoopPc :=
| AtPoll (el : EventLoop)
| InBatch (el : EventLoop) (pending : list Z)
| Draining (el0 : EventLoop) (taken : list Command) (el : EventLoop) (pending : list Z)
| Returning (el0 : EventLoop) (taken : list Command) (el : EventLoop) (why : Exit)
| Stopped (r : result unit unit).

(** [sent] and [received] are the histories of the channel. *)
Record ChanSys := MkChanSys {
  handles : gset nat;
  calls : gmap nat SetCall;
  dropping : DropPc;
  queue : list Command; sent : list Command; received : list Command;
  ready : list Z;
  loop : LoopPc;
}.

Definition chan_init (el : EventLoop) : ChanSys :=
  {| handles := {[ 0%nat ]}; calls := ∅; dropping := NotDropped; queue := []; sent := []; received := [];
     ready := []; loop := AtPoll el |}.

(** ** Steps *)

Definition receiver_alive (s : ChanSys) : Prop := match loop s with Stopped _ => False | _ => True end.

Definition push (s : ChanSys) (c : Command) : ChanSys :=
  {| handles := handles s; calls := calls s; dropping := dropping s; queue := queue s ++ [c]; sent := sent s ++ [c];
     received := received s; ready := ready s; loop := loop s |}.

(** A source becomes ready; a token already in line stays where it is. *)
Definition signal (s : ChanSys) (token : Z) : ChanSys :=
  {| handles := handles s; calls := calls s; dropping := dropping s; queue := queue s; sent := sent s;
     received := received s; ready := if decide (token ∈ ready s) then ready s else ready s ++ [token]; loop := loop s |}.

(** [CommandSender::send]: [tx.send], which fails once the receiver is gone, then
    [waker.wake], which the operating system may refuse. *)
Inductive send_step (c : Command) : SendPc -> ChanSys -> SendPc -> ChanSys -> Prop :=
| send_tx s : receiver_alive s -> send_step c AtSend s (AtWake (length (sent s))) (push s c)
| send_broken s : ~ receiver_alive s -> send_step c AtSend s BrokenPipe s
| send_wake s i : send_step c (AtWake i) s (SendOk i) (signal s WAKER_TOKEN)
| send_wake_fails s i : send_step c (AtWake i) s (WakeFailed i) s.

Definition set_calls (s : ChanSys) (cs : gmap nat SetCall) : ChanSys :=
  {| handles := handles s; calls := cs; dropping := dropping s; queue := queue s; sent := sent s; received := received s;
     ready := ready s; loop := loop s |}.
Definition set_handles (s : ChanSys) (hs : gset nat) : ChanSys :=
  {| handles := hs; calls := calls s; dropping := dropping s; queue := queue s; sent := sent s; received := received s;
     ready := ready s; loop := loop s |}.
Definition set_dropping (s : ChanSys) (d : DropPc) : ChanSys :=
  {| handles := handles s; calls := calls s; dropping := d; queue := queue s; sent := sent s; received := received s;
     ready := ready s; loop := loop s |}.
Definition set_loop (s : ChanSys) (rest : list Z) (l : LoopPc) : ChanSys :=
  {| handles := handles s; calls := calls s; dropping := dropping s; queue := queue s; sent := sent s;
     received := received s; ready := rest; loop := l |}.
(** [try_recv] takes [c]. *)
Definition pop (s : ChanSys) (c : Command) (rest : list Command) (l : LoopPc) : ChanSys :=
  {| handles := handles s; calls := calls s; dropping := dropping s; queue := rest; sent := sent s;
     received := received s ++ [c]; ready := ready s; loop := l |}.
(** The end of [run] drops the receiver, and with it what it holds. *)
Definition drop_receiver (s : ChanSys) (r : result unit unit) : ChanSys :=
  {| handles := handles s; calls := calls s; dropping := dropping s; queue := []; sent := sent s; received := received s;
     ready := ready s; loop := Stopped r |}.

Definition in_flight (c : SetCall) : bool := match send_result (call_pc c) with None => true | Some _ => false end.

(** The application's threads.  A call borrows its handle, so the handle is not dropped
    before the call returns; the last handle dropped runs [Drop for AgentInner]. *)
Inductive app_step : ChanSys -> ChanSys -> Prop :=
| app_clone s h h' : h ∈ handles s -> h' ∉ handles s -> app_step s (set_handles s ({[ h' ]} ∪ handles s))
| app_set s h id oid v :
    h ∈ handles s -> calls s !! id = None -> oid_wf oid -> value_wf v ->
    app_step s (set_calls s (<[id := MkSetCall h oid v AtSend]> (calls s)))
| app_call s id c pc s' :
    calls s !! id = Some c -> send_step (SetValue (call_oid c) (call_value c)) (call_pc c) s pc s' ->
    app_step s (set_calls s' (<[id := MkSetCall (call_handle c) (call_oid c) (call_value c) pc]> (calls s')))
| app_drop s h :
    h ∈ handles s -> (forall id c, calls s !! id = Some c -> in_flight c = true -> call_handle c <> h) ->
    handles s ∖ {[ h ]} <> ∅ -> app_step s (set_handles s (handles s ∖ {[ h ]}))
| app_drop_last s h :
    h ∈ handles s -> (forall id c, calls s !! id = Some c -> in_flight c = true -> call_handle c <> h) ->
    handles s ∖ {[ h ]} = ∅ -> app_step s (set_dropping (set_handles s ∅) (Dropping AtSend))
| app_shutdown s pc pc' s' :
    dropping s = Dropping pc -> send_step Shutdown pc s pc' s' -> app_step s (set_dropping s' (Dropping pc'))
| app_join s pc r :
    dropping s = Dropping pc -> send_result pc <> None -> loop s = Stopped r -> app_step s (set_dropping s Joined).

(** The kernel reports activity on the listener or a connection. *)
Inductive net_step : ChanSys -> ChanSys -> Prop :=
| net_ready s token : token <> WAKER_TOKEN -> net_step s (signal s token).

Section Loop.
  Context `{CryptoOps} (seed : Z).

(** The loop thread, one call at a time. *)
Inductive loop_step : ChanSys -> ChanSys -> Prop :=
| loop_poll s el :
    loop s = AtPoll el ->
    loop_step s (set_loop s (drop EVENTS_CAPACITY (ready s)) (InBatch el (take EVENTS_CAPACITY (ready s))))
| loop_poll_error s el :
    loop s = AtPoll el -> loop_step s (set_loop s (ready s) (Returning el [] el OnPollError))
| loop_event s el token pending ev stop out el' :
    loop s = InBatch el (token :: pending) -> token <> WAKER_TOKEN -> ev_token ev = token -> event_wf ev ->
    handle_event seed el ev = (stop, out, el') -> loop_step s (set_loop s (ready s) (InBatch el' pending))
| loop_wake s el pending :
    loop s = InBatch el (WAKER_TOKEN :: pending) -> loop_step s (set_loop s (ready s) (Draining el [] el pending))
| loop_recv_set s el0 taken el pending oid v rest :
    loop s = Draining el0 taken el pending -> queue s = SetValue oid v :: rest ->
    loop_step s (pop s (SetValue oid v) rest
      (Draining el0 (taken ++ [SetValue oid v]) (set_store el (store_set (store el) oid v)) pending))
| loop_recv_shutdown s el0 taken el pending rest :
    loop s = Draining el0 taken el pending -> queue s = Shutdown :: rest ->
    loop_step s (pop s Shutdown rest (Returning el0 taken el OnShutdown))
| loop_recv_empty s el0 taken el pending :
    loop s = Draining el0 taken el pending -> queue s = [] -> dropping s <> Joined ->
    loop_step s (set_loop s (ready s) (InBatch el pending))
| loop_recv_disconnected s el0 taken el pending :
    loop s = Draining el0 taken el pending -> queue s = [] -> dropping s = Joined ->
    loop_step s (set_loop s (ready s) (Returning el0 taken el OnDisconnected))
| loop_sweep s el now :
    loop s = InBatch el [] -> loop_step s (set_loop s (ready s) (AtPoll (sweep_idle_connections el now)))
| loop_return s el0 taken el why :
    loop s = Returning el0 taken el why ->
    loop_step s (drop_receiver s (match why with OnPollError => Err tt | _ => Ok tt end)).

(** [runs n s s']: from [s] to [s'] with [n] steps of the loop thread, among any steps of
    the application and the network. *)
Inductive runs : nat -> ChanSys -> ChanSys -> Prop :=
| runs_done s : runs 0 s s
| runs_loop n s s1 s2 : loop_step s s1 -> runs n s1 s2 -> runs (S n) s s2
| runs_other n s s1 s2 : app_step s s1 \/ net_step s s1 -> runs n s1 s2 -> runs n s s2.

End Loop.

(** ** The abstraction *)

(** The state of [Agent]'s system.  A drain in progress has not happened yet: it takes
    effect when [try_recv] has found the channel empty or [run] has returned. *)
Definition abs (s : ChanSys) : System :=
  match loop s with
  | AtPoll el | InBatch el _ => MkSystem (Some el) (queue s) (sent s)
  | Draining el0 taken _ _ => MkSystem (Some el0) (taken ++ queue s) (sent s)
  | Returning el0 taken _ OnShutdown => MkSystem (Some el0) (taken ++ Shutdown :: queue s) (sent s)
  | Returning el0 taken _ _ => MkSystem (Some el0) (taken ++ queue s) (sent s)
  | Stopped _ => MkSystem None (queue s) (sent s)
  end.

(** ** The application's side of the invariant *)

Definition is_set (c : Command) : Prop := match c with SetValue _ _ => True | Shutdown => False end.

Definition pc_index (pc : SendPc) : option nat :=
  match pc with AtWake i | SendOk i | WakeFailed i => Some i | AtSend | BrokenPipe => None end.

Record app_ok (s : ChanSys) : Prop := {
  ao_joined : dropping s = Joined -> ~ receiver_alive s;
  ao_borrow : forall id c, calls s !! id = Some c -> in_flight c = true -> call_handle c ∈ handles s;
  ao_dropped : dropping s <> NotDropped -> handles s = ∅;
  ao_sets : forall pc, dropping s = Dropping pc -> forall i, pc_index pc = Some i ->
    exists sets, sent s = sets ++ [Shutdown] /\ Forall is_set sets /\ i = length sets;
  ao_no_shutdown : (dropping s = NotDropped \/ exists pc, dropping s = Dropping pc /\ pc_index pc = None) ->
    Forall is_set (sent s);
  ao_calls : forall id c i, calls s !! id = Some c -> pc_index (call_pc c) = Some i ->
    sent s !! i = Some (SetValue (call_oid c) (call_value c));
}.

(** What [CommandSender::send] does to the rest of the state. *)
Lemma send_step_frame c pc s pc' s' :
  send_step c pc s pc' s' ->
  handles s' = handles s /\ calls s' = calls s /\ dropping s' = dropping s /\ loop s' = loop s /\ received s' = received s /\
  send_result pc = None /\
  (sent s' = sent s ++ [c] /\ queue s' = queue s ++ [c] /\ pc = AtSend /\ pc' = AtWake (length (sent s)) /\ receiver_alive s \/
   sent s' = sent s /\ queue s' = queue s /\ (pc_index pc' = pc_index pc)).
Proof. destruct 1; cbn; naive_solver. Qed.

Lemma app_ok_init el : app_ok (chan_init el).
Proof.
  by split.
Qed.

(** Steps of the loop and the network leave the application's side alone. *)
Lemma app_ok_other s s' :
  handles s' = handles s -> calls s' = calls s -> dropping s' = dropping s -> sent s' = sent s ->
  (receiver_alive s' -> receiver_alive s) -> app_ok s -> app_ok s'.
Proof.
  intros Eh Ec Ed Es Hr [H1 H2 H3 H4 H5 H6]. split; rewrite ?Eh, ?Ec, ?Ed, ?Es; try done.
  intros Hj Ha. by apply (H1 Hj), Hr.
Qed.

Lemma app_ok_call s id c pc s' :
  app_ok s -> calls s !! id = Some c -> send_step (SetValue (call_oid c) (call_value c)) (call_pc c) s pc s' ->
  app_ok (set_calls s' (<[id := MkSetCall (call_handle c) (call_oid c) (call_value c) pc]> (calls s'))).
Proof.
  intros [H1 H2 H3 H4 H5 H6] Hc Hs. destruct (send_step_frame _ _ _ _ _ Hs) as (Eh & Ec & Ed & El & _ & Hp & Hsent).
  assert (Hf : in_flight c = true) by (unfold in_flight; by rewrite Hp).
  assert (Hh : call_handle c ∈ handles s) by eauto.
  assert (Hn : dropping s = NotDropped). { destruct (dropping s) eqn:E; [done|..]; rewrite H3 in Hh by done; set_solver. }
  split; cbn; rewrite ?Eh, ?Ec, ?Ed, ?Hn; try done.
  - intros id' c'. rewrite lookup_insert_Some. intros [[<- <-]|[_ Hc']] Hf'; [done|eauto].
  - intros _. destruct Hsent as [(-> & _)|(-> & _)]; [|auto]. apply Forall_app. split; [auto|by repeat constructor].
  - intros id' c' i. rewrite lookup_insert_Some.
    assert (Hmono : forall j x, sent s !! j = Some x -> sent s' !! j = Some x).
    { intros j x Hx. destruct Hsent as [(-> & _)|(-> & _)]; [by apply lookup_app_l_Some|done]. }
    intros [[<- <-]|[_ Hc']] Hi; [|eauto]. cbn in *.
    destruct Hsent as [(-> & _ & _ & -> & _)|(-> & _ & Hpc)].
    + injection Hi as <-. rewrite lookup_app_r by done. by rewrite Nat.sub_diag.
    + rewrite Hpc in Hi. eauto.
Qed.

(** While a handle is held, [AgentInner] is not dropped. *)
Lemma held_not_dropped s h : app_ok s -> h ∈ handles s -> dropping s = NotDropped.
Proof. intros Hok Hh. destruct (dropping s) eqn:E; [done|..]; rewrite (ao_dropped s Hok) in Hh by congruence; set_solver. Qed.

Lemma app_ok_shutdown s pc pc' s' :
  app_ok s -> dropping s = Dropping pc -> send_step Shutdown pc s pc' s' -> app_ok (set_dropping s' (Dropping pc')).
Proof.
  intros [H1 H2 H3 H4 H5 H6] Hd Hs. destruct (send_step_frame _ _ _ _ _ Hs) as (Eh & Ec & Ed & El & _ & Hp & Hsent).
  split; cbn; rewrite ?Eh, ?Ec; [done|done|intros _; apply H3; congruence|..].
  - intros pc1 [= <-] i Hi. destruct Hsent as [(-> & _ & -> & -> & _)|(-> & _ & Hpc)]; [|rewrite Hpc in Hi; eauto].
    injection Hi as <-. exists (sent s). split_and!; [done| |done]. apply H5. right. by exists AtSend.
  - intros [?|(pc1 & [= <-] & Hi)]; [done|]. destruct Hsent as [(_ & _ & _ & -> & _)|(-> & _ & Hpc)]; [done|].
    apply H5. right. exists pc. by rewrite <-Hpc.
  - intros id c i Hc Hi. destruct Hsent as [(-> & _)|(-> & _)]; [apply lookup_app_l_Some|]; eauto.
Qed.

Lemma app_step_ok s s' : app_step s s' -> app_ok s -> app_ok s'.
Proof.
  destruct 1 as [s h h' Hh Hh'|s h id oid v Hh Hid Ho Hv|s id c pc s' Hc Hs|s h Hh Hb Hne|s h Hh Hb He|s pc pc' s' Hd Hs|s pc r Hd Hp Hl];
    intros Hok; [| |by eapply app_ok_call| | |by eapply app_ok_shutdown|];
    [pose proof (held_not_dropped _ _ Hok Hh) as Hn..|]; destruct Hok as [H1 H2 H3 H4 H5 H6]; split; cbn; rewrite ?Hn; try done.
  all: rewrite ?Hn in *; try by eauto.
  - intros id c Hc Hf. apply H2 in Hc; [set_solver|done].
  - intros id' c'. rewrite lookup_insert_Some. intros [[<- <-]|[_ Hc]] Hf; [done|eauto].
  - intros id' c' i. rewrite lookup_insert_Some. intros [[<- <-]|[_ Hc]] Hi; [done|eauto].
  - intros id c Hc Hf. pose proof (Hb _ _ Hc Hf). apply H2 in Hc; [set_solver|done].
  - intros id c Hc Hf. pose proof (Hb _ _ Hc Hf). apply H2 in Hc; [set_solver|done].
  - intros pc [= <-] i; done.
  - intros _ Ha. unfold receiver_alive in Ha. cbn in Ha. by rewrite Hl in Ha.
  - intros _. apply H3. congruence.
  - intros [?|(? & ? & _)]; congruence.
Qed.

(** ** The loop's side, and the refinement *)

Lemma drain_commands_app rx1 rx2 d : forall el el',
  drain_commands el rx1 false = (false, el') -> drain_commands el (rx1 ++ rx2) d = drain_commands el' rx2 d.
Proof. induction rx1 as [|[oid v|] rx1 IH]; intros el el' HE; cbn in *; [by injection HE as <-|by apply IH|done]. Qed.

Record loop_side_ok (s : ChanSys) : Prop := {
  lo_pc : match loop s with
          | Draining el0 taken el _ => drain_commands el0 taken false = (false, el)
          | Returning el0 taken el why =>
              drain_commands el0 taken false = (false, el) /\ why <> OnDisconnected
          | Stopped _ => queue s = []
          | _ => True
          end;
  lo_wf : Forall command_wf (sys_queue (abs s));
  lo_calls : forall id c, calls s !! id = Some c -> oid_wf (call_oid c) /\ value_wf (call_value c);
  lo_history : receiver_alive s -> sent s = received s ++ queue s;
}.

Lemma loop_side_ok_init el : loop_side_ok (chan_init el).
Proof. split; [done|constructor|done|done]. Qed.

Lemma abs_push s c : receiver_alive s -> abs (push s c) = snd (send_command (abs s) c).
Proof.
  unfold receiver_alive, abs, send_command. cbn. destruct (loop s) as [| | |el0 taken el []|]; cbn; try done;
    intros _; by rewrite <-app_assoc.
Qed.

Lemma abs_eq s s' : loop s' = loop s -> queue s' = queue s -> sent s' = sent s -> abs s' = abs s.
Proof. unfold abs. by intros -> -> ->. Qed.

(** Changes that do not touch the channel. *)
Lemma loop_side_ok_frame s s' :
  loop s' = loop s -> queue s' = queue s -> sent s' = sent s -> received s' = received s ->
  (forall id c, calls s' !! id = Some c -> oid_wf (call_oid c) /\ value_wf (call_value c)) ->
  loop_side_ok s -> loop_side_ok s'.
Proof.
  intros El Eq Es Er Hc [H1 H2 _ H4]. split; [by rewrite El, Eq|by rewrite (abs_eq s)|done|].
  unfold receiver_alive. by rewrite El, Es, Er, Eq.
Qed.

Lemma loop_side_ok_push s c : receiver_alive s -> command_wf c -> loop_side_ok s -> loop_side_ok (push s c).
Proof.
  intros Ha Hc [H1 H2 H3 H4]. split; [|rewrite abs_push by done|done|].
  - cbn. unfold receiver_alive in Ha. by destruct (loop s).
  - unfold send_command. destruct (sys_loop (abs s)); [|done]. cbn. apply Forall_app. by repeat constructor.
  - intros _. cbn. by rewrite (H4 Ha), app_assoc.
Qed.

Section Refinement.
  Context `{CryptoOps} (seed : Z).

Lemma send_step_refines c pc s pc' s' :
  send_step c pc s pc' s' -> command_wf c -> loop_side_ok s ->
  (abs s' = abs s \/ abs s' = snd (send_command (abs s) c)) /\ loop_side_ok s'.
Proof.
  destruct 1 as [s Ha|s Ha|s i|s i]; intros Hc Hok.
  - split; [right; by apply abs_push|by apply loop_side_ok_push].
  - split; [by left|done].
  - split; [by left|]. apply (loop_side_ok_frame s); try done. apply Hok.
  - split; [by left|done].
Qed.

Lemma app_step_refines s s' :
  app_step s s' -> loop_side_ok s -> rtc (sys_step seed) (abs s) (abs s') /\ loop_side_ok s'.
Proof.
  destruct 1 as [s h h' Hh Hh'|s h id oid v Hh Hid Ho Hv|s id c pc s' Hc Hs|s h Hh Hb Hne|s h Hh Hb He|s pc pc' s' Hd Hs|s pc r Hd Hp Hl];
    intros Hok;
    try (split; [apply rtc_refl|]; apply (loop_side_ok_frame s); try done; apply Hok).
  - split; [apply rtc_refl|]. apply (loop_side_ok_frame s); try done. cbn. intros id' c. rewrite lookup_insert_Some.
    intros [[<- <-]|[_ Hc]]; [done|]. by apply (lo_calls _ Hok) in Hc.
  - pose proof (lo_calls _ Hok _ _ Hc) as [Ho Hv].
    destruct (send_step_refines _ _ _ _ _ Hs (conj Ho Hv) Hok) as [Ha Hok']. split.
    + change (abs (set_calls s' _)) with (abs s'). destruct Ha as [->| ->]; [apply rtc_refl|]. apply rtc_once.
      pose proof (step_set seed (abs s) (call_oid c) (call_value c) Ho Hv) as Hst. unfold agent_set in Hst.
      by destruct (send_command (abs s) (SetValue (call_oid c) (call_value c))).
    + apply (loop_side_ok_frame s'); try done. cbn. intros id' c'. rewrite lookup_insert_Some.
      intros [[<- <-]|[_ Hc']]; [done|]. by apply (lo_calls _ Hok') in Hc'.
  - destruct (send_step_refines _ _ _ _ _ Hs I Hok) as [Ha Hok']. split.
    + change (abs (set_dropping s' _)) with (abs s'). destruct Ha as [->| ->]; [apply rtc_refl|]. apply rtc_once. apply step_drop.
    + apply (loop_side_ok_frame s'); try done. apply Hok'.
Qed.

(** A drain that has ended is one wake-up of the abstract system. *)
Lemma drained_is_wake el0 cmds sent stop el :
  drain_commands el0 cmds false = (stop, el) -> Forall command_wf cmds ->
  sys_step seed (MkSystem (Some el0) cmds sent) (MkSystem (if stop then None else Some el) [] sent).
Proof.
  intros HE Hwf. apply (step_wake seed el0 cmds sent (MkEvent WAKER_TOKEN 0 [] cmds false [] []) stop [] el); try done.
  unfold handle_event. cbn. by rewrite HE.
Qed.

Lemma loop_step_refines s s' :
  loop_step seed s s' -> app_ok s -> loop_side_ok s -> rtc (sys_step seed) (abs s) (abs s') /\ loop_side_ok s'.
Proof.
  intros Hstep Happ [H1 H2 H3 H4].
  assert (Ha : receiver_alive s) by (unfold receiver_alive; by destruct Hstep as [s el E|s el E|s el tk p ev stop out el' E ?|
    s el p E|s el0 tk el p o v r E ?|s el0 tk el p r E ?|s el0 tk el p E ?|s el0 tk el p E ?|s el now E|s el0 tk el w E]; rewrite E).
  specialize (H4 Ha).
  destruct Hstep as [s el E|s el E|s el tk p ev stop out el' E Ht Hev Hwf HE|s el p E|s el0 tk el p o v r E Eq|s el0 tk el p r E Eq|
    s el0 tk el p E Eq Hj|s el0 tk el p E Eq Hj|s el now E|s el0 tk el why E];
    unfold abs in *; rewrite E in *; cbn in *.
  - split; [apply rtc_refl|]. split; cbn; try done.
  - split; [apply rtc_refl|]. by split.
  - split; [|by split]. apply rtc_once. eapply step_event; [by rewrite Hev|done|done].
  - split; [apply rtc_refl|]. by split.
  - rewrite Eq in *. rewrite <-app_assoc. cbn. split; [apply rtc_refl|]. split; cbn; try done.
    + erewrite drain_commands_app by done. done.
    + by rewrite <-app_assoc.
    + intros _. by rewrite <-app_assoc.
  - rewrite Eq in *. split; [apply rtc_refl|]. split; cbn; try done. intros _. by rewrite <-app_assoc.
  - rewrite Eq in *. rewrite app_nil_r in H2 |- *. split; [|by split; cbn; rewrite ?Eq]. apply rtc_once.
    exact (drained_is_wake _ _ _ _ _ H1 H2).
  - by destruct (ao_joined _ Happ Hj).
  - split; [|by split]. apply rtc_once. apply step_sweep.
  - destruct H1 as [H1 Hw]. split; [|split; cbn; [done|constructor|done|done]].
    apply rtc_once. destruct why; [|done|].
    + apply (drained_is_wake _ _ _ true el); [|done]. by erewrite drain_commands_app by done.
    + apply step_poll_error.
Qed.

Lemma net_step_refines s s' : net_step s s' -> loop_side_ok s -> abs s' = abs s /\ loop_side_ok s'.
Proof. destruct 1 as [s token Ht]. intros Hok. split; [done|]. apply (loop_side_ok_frame s); try done. apply Hok. Qed.

Lemma other_app_ok s s' : loop_step seed s s' \/ net_step s s' -> app_ok s -> app_ok s'.
Proof.
  intros [Hs|Hs]; [|destruct Hs; by apply app_ok_other].
  destruct Hs; apply app_ok_other; try done; unfold receiver_alive; cbn; by match goal with E : loop _ = _ |- _ => rewrite E end.
Qed.

(** Everything holds in every reachable state. *)
Lemma runs_ok n s s' :
  runs seed n s s' -> app_ok s -> loop_side_ok s -> app_ok s' /\ loop_side_ok s' /\ rtc (sys_step seed) (abs s) (abs s').
Proof.
  induction 1 as [s|n s s1 s2 Hs _ IH|n s s1 s2 Hs _ IH]; intros Ha Hl; [by split_and!|..].
  - destruct (loop_step_refines _ _ Hs Ha Hl) as [Hr Hl1]. apply (other_app_ok s s1) in Ha; [|by left].
    destruct (IH Ha Hl1) as (? & ? & ?). split_and!; [done..|by etrans].
  - assert (Hn : rtc (sys_step seed) (abs s) (abs s1) /\ loop_side_ok s1 /\ app_ok s1).
    { destruct Hs as [Hs|Hs].
      - destruct (app_step_refines _ _ Hs Hl). split_and!; [done..|by eapply app_step_ok].
      - destruct (net_step_refines _ _ Hs Hl) as [-> Hl1]. split_and!; [apply rtc_refl|done|]. eapply other_app_ok; [by right|done]. }
    destruct Hn as (Hr & Hl1 & Ha1). destruct (IH Ha1 Hl1) as (? & ? & ?). split_and!; [done..|by etrans].
Qed.

End Refinement.

(** ** No lost wake-up *)

(** The loop will look at the channel without being told again. *)
Definition signalled (s : ChanSys) : Prop :=
  match loop s with
  | AtPoll _ => WAKER_TOKEN ∈ ready s
  | InBatch _ pending => WAKER_TOKEN ∈ pending \/ WAKER_TOKEN ∈ ready s
  | Draining _ _ _ _ | Returning _ _ _ _ | Stopped _ => True
  end.

(** The loop is on its way out. *)
Definition ended (s : ChanSys) : Prop :=
  match loop s with Returning _ _ _ _ | Stopped _ => True | _ => False end.

(** The [i]-th command was sent and its wake-up succeeded. *)
Definition woken (s : ChanSys) (i : nat) : Prop :=
  (exists id c, calls s !! id = Some c /\ call_pc c = SendOk i) \/ dropping s = Dropping (SendOk i).

Definition wake_ok (s : ChanSys) : Prop :=
  forall i, woken s i -> (length (received s) <= i)%nat -> signalled s.

(** The steps of the loop thread left before it has received the command that is [k]-th
    in the queue. *)
Fixpoint index_of (token : Z) (l : list Z) : nat :=
  match l with [] => 0 | t :: rest => if decide (t = token) then 0 else S (index_of token rest) end.

Definition poll_cost (j k : nat) : nat :=
  (j / EVENTS_CAPACITY * (EVENTS_CAPACITY + 2) + (j mod EVENTS_CAPACITY + k + 3))%nat.

Definition remaining (s : ChanSys) (k : nat) : nat :=
  match loop s with
  | AtPoll _ => poll_cost (index_of WAKER_TOKEN (ready s)) k
  | InBatch _ pending =>
      if decide (WAKER_TOKEN ∈ pending) then (index_of WAKER_TOKEN pending + k + 2)%nat
      else (length pending + 1 + poll_cost (index_of WAKER_TOKEN (ready s)) k)%nat
  | Draining _ _ _ _ => (k + 1)%nat
  | Returning _ _ _ _ | Stopped _ => 0%nat
  end.

Lemma index_of_app token l1 l2 : token ∈ l1 -> index_of token (l1 ++ l2) = index_of token l1.
Proof.
  induction l1 as [|t l1 IH]; [by intros ?%elem_of_nil|]. cbn. case_decide; [done|]. intros [?|?]%elem_of_cons; [done|]. by rewrite IH.
Qed.

Lemma index_of_take_drop token n l :
  token ∈ l ->
  if decide (token ∈ take n l) then index_of token (take n l) = index_of token l /\ (index_of token l < n)%nat
  else token ∈ drop n l /\ index_of token l = (n + index_of token (drop n l))%nat /\ length (take n l) = n.
Proof.
  revert l. induction n as [|n IH]; intros [|t l] Hin; [by apply elem_of_nil in Hin| |by apply elem_of_nil in Hin|].
  { cbn. destruct (decide (token ∈ [])) as [Hd|Hd]; [by apply elem_of_nil in Hd|done]. }
  cbn [take drop index_of length]. destruct (decide (t = token)) as [->|Hne].
  { rewrite decide_True by (left). split; [done|lia]. }
  apply elem_of_cons in Hin as [?|Hin]; [done|]. specialize (IH l Hin).
  destruct (decide (token ∈ take n l)) as [Ht|Ht].
  - rewrite decide_True by (by right). split; [|]; lia.
  - rewrite decide_False by (rewrite elem_of_cons; naive_solver). destruct IH as (? & ? & ?). split_and!; [done|lia|lia].
Qed.

Lemma poll_cost_small j k : (j < EVENTS_CAPACITY)%nat -> poll_cost j k = (j + k + 3)%nat.
Proof. intros Hj. unfold poll_cost. by rewrite Nat.div_small, Nat.mod_small. Qed.

Lemma poll_cost_batch j k : poll_cost (EVENTS_CAPACITY + j) k = (EVENTS_CAPACITY + 2 + poll_cost j k)%nat.
Proof.
  unfold poll_cost. replace (EVENTS_CAPACITY + j)%nat with (j + 1 * EVENTS_CAPACITY)%nat by lia.
  rewrite Nat.div_add, Nat.Div0.mod_add by done. lia.
Qed.

(** A step of the application or the network: the loop's own work does not grow. *)
Lemma signal_keeps s token :
  signalled s -> signalled (signal s token) /\ forall k, remaining (signal s token) k = remaining s k.
Proof.
  unfold signalled, remaining. cbn. destruct (decide (token ∈ ready s)); [done|].
  destruct (loop s) as [|el p| | |]; try done.
  - intros Hin. split; [apply elem_of_app; by left|]. intros k. by rewrite index_of_app.
  - intros Hin. split; [rewrite elem_of_app; tauto|]. intros k. case_decide; [done|].
    rewrite index_of_app; [done|]. tauto.
Qed.

Lemma signal_waker_signals s : signalled (signal s WAKER_TOKEN).
Proof.
  unfold signalled. cbn. assert (WAKER_TOKEN ∈ (if decide (WAKER_TOKEN ∈ ready s) then ready s else ready s ++ [WAKER_TOKEN])).
  { case_decide; [done|]. apply elem_of_app. right. by left. }
  destruct (loop s); tauto.
Qed.

(** What a step outside the loop does to the loop's progress. *)
Definition keeps (s s' : ChanSys) : Prop :=
  loop s' = loop s /\ received s' = received s /\ (length (queue s) <= length (queue s'))%nat /\
  (signalled s -> signalled s' /\ forall k, remaining s' k = remaining s k).

Lemma send_step_keeps c pc s pc' s' :
  send_step c pc s pc' s' -> keeps s s' /\ (forall i, pc' = SendOk i -> signalled s').
Proof.
  destruct 1 as [s Ha|s Ha|s i|s i]; (split; [|try done]); try (split_and!; try done).
  - cbn. rewrite length_app. lia.
  - apply signal_keeps.
  - intros j _. apply signal_waker_signals.
Qed.

Lemma other_step_keeps s s' : app_step s s' \/ net_step s s' -> keeps s s'.
Proof.
  intros [Hs|[s1 token Ht]]; [|split_and!; try done; apply signal_keeps].
  destruct Hs as [| |s id c pc s' Hc Hs| | |s pc pc' s' Hd Hs|]; try done.
  - apply send_step_keeps in Hs as [(? & ? & ? & Hk) _]. by split_and!.
  - apply send_step_keeps in Hs as [(? & ? & ? & Hk) _]. by split_and!.
Qed.

Section Progress.
  Context `{CryptoOps} (seed : Z).

Lemma poll_keeps_signalled s el :
  loop s = AtPoll el -> signalled s ->
  signalled (set_loop s (drop EVENTS_CAPACITY (ready s)) (InBatch el (take EVENTS_CAPACITY (ready s)))) /\
  forall k, (remaining (set_loop s (drop EVENTS_CAPACITY (ready s)) (InBatch el (take EVENTS_CAPACITY (ready s)))) k < remaining s k)%nat.
Proof.
  unfold signalled, remaining. cbn [set_loop loop ready]. intros -> Hin. pose proof (index_of_take_drop _ EVENTS_CAPACITY _ Hin) as Hi.
  case_decide as Ht.
  - destruct Hi as [-> Hlt]. split; [by left|]. intros k. rewrite poll_cost_small by done. lia.
  - destruct Hi as (Hd & -> & ->). split; [by right|]. intros k. rewrite poll_cost_batch. lia.
Qed.

(** A step of the loop that has a wake-up coming: it leaves, or receives the command, or
    comes closer to it. *)
Lemma loop_step_progress s s' k :
  loop_step seed s s' -> loop_side_ok s -> ~ ended s -> signalled s -> (k < length (queue s))%nat ->
  ended s' \/ (length (received s) + k < length (received s'))%nat \/
  signalled s' /\ exists k', (k' < length (queue s'))%nat /\
    (length (received s') + k' = length (received s) + k)%nat /\ (remaining s' k' < remaining s k)%nat.
Proof.
  intros Hstep Hok Hne Hsig Hk.
  destruct Hstep as [s el E|s el E|s el tk p ev stop out el' E Ht Hev Hwf HE|s el p E|s el0 tk el p o v r E Eq|s el0 tk el p r E Eq|
    s el0 tk el p E Eq Hj|s el0 tk el p E Eq Hj|s el now E|s el0 tk el why E].
  - destruct (poll_keeps_signalled _ _ E Hsig) as [Hs' Hr]. right; right. split; [done|]. by exists k.
  - by left.
  - right; right. unfold signalled, remaining in *. rewrite E in *. cbn in *. rewrite elem_of_cons in Hsig.
    split; [naive_solver|]. exists k. split_and!; [done|done|].
    destruct (decide (WAKER_TOKEN ∈ p)) as [Hp|Hp].
    + rewrite decide_True by (by right). rewrite decide_False by done. lia.
    + rewrite decide_False by (rewrite elem_of_cons; naive_solver). lia.
  - right; right. split; [done|]. exists k. split_and!; [done|done|]. unfold remaining. rewrite E. cbn.
    rewrite decide_True by left. lia.
  - right. destruct k as [|k]; [left; cbn; rewrite length_app; cbn; lia|]. right. split; [done|]. exists k.
    rewrite Eq in Hk. cbn in Hk. unfold remaining. rewrite E. cbn. rewrite length_app. cbn. split_and!; lia.
  - by left.
  - rewrite Eq in Hk. cbn in Hk. lia.
  - by left.
  - right; right. unfold signalled, remaining in *. rewrite E in *. cbn in *.
    assert (Hin : WAKER_TOKEN ∈ ready s). { destruct Hsig as [?%elem_of_nil|?]; done. }
    split; [done|]. exists k. split_and!; [done|done|]. rewrite decide_False by (by intros ?%elem_of_nil). lia.
  - destruct Hne. unfold ended. by rewrite E.
Qed.

Lemma loop_step_mono s s' :
  loop_step seed s s' -> (ended s -> ended s') /\ (length (received s) <= length (received s'))%nat.
Proof.
  destruct 1; unfold ended; cbn; rewrite ?length_app; (split; [|lia]); match goal with E : loop _ = _ |- _ => by rewrite E end.
Qed.

Lemma runs_mono n s s' :
  runs seed n s s' -> (ended s -> ended s') /\ (length (received s) <= length (received s'))%nat.
Proof.
  induction 1 as [s|n s s1 s2 Hs _ [IH1 IH2]|n s s1 s2 Hs _ [IH1 IH2]]; [done|..].
  - apply loop_step_mono in Hs as [H1 H2]. split; [auto|lia].
  - apply other_step_keeps in Hs as (El & Er & _). unfold ended in *. rewrite El in IH1. rewrite Er in IH2. done.
Qed.

(** Bounded wait. *)
Lemma runs_progress n s s' :
  runs seed n s s' -> app_ok s -> loop_side_ok s -> signalled s ->
  forall k, (k < length (queue s))%nat -> (remaining s k <= n)%nat ->
  ended s' \/ (length (received s) + k < length (received s'))%nat.
Proof.
  induction 1 as [s|n s s1 s2 Hs Hr IH|n s s1 s2 Hs Hr IH]; intros Ha Hl Hsig k Hk Hn.
  - left. unfold remaining, ended, poll_cost in *. destruct (loop s); [lia| |lia|done|done]. case_decide; lia.
  - destruct (decide (match loop s with Returning _ _ _ _ | Stopped _ => true | _ => false end = true)) as [He|He].
    { left. apply (runs_mono _ _ _ Hr), (loop_step_mono _ _ Hs). unfold ended. by destruct (loop s). }
    assert (Hne : ~ ended s) by (unfold ended; destruct (loop s); naive_solver).
    destruct (loop_step_refines seed _ _ Hs Ha Hl) as [_ Hl1]. pose proof (other_app_ok seed s s1 (or_introl Hs) Ha) as Ha1.
    pose proof (runs_mono _ _ _ Hr) as [He2 Hm].
    destruct (loop_step_progress s s1 k Hs Hl Hne Hsig Hk) as [He1|[Hrec|(Hsig1 & k' & Hk' & Ek & Hlt)]]; [left; auto|right; lia|].
    rewrite <-Ek. apply IH; [done..|lia].
  - destruct (other_step_keeps _ _ Hs) as (El & Er & Hq & Hkeep). destruct (Hkeep Hsig) as [Hsig1 Hrem].
    rewrite <-Er. assert (app_ok s1 /\ loop_side_ok s1) as [Ha1 Hl1].
    { destruct Hs as [Hs|Hs]; [split; [by eapply app_step_ok|by eapply app_step_refines]|].
      split; [eapply (other_app_ok seed); [by right|done]|by eapply net_step_refines]. }
    apply IH; [done..|lia|]. by rewrite Hrem.
Qed.

End Progress.

(** ** The invariants of every run *)

(** What the loop has received when it leaves. *)
Definition exit_ok (s : ChanSys) : Prop :=
  match loop s with
  | AtPoll _ | InBatch _ _ | Draining _ _ _ _ => Forall is_set (received s)
  | Returning _ _ _ OnShutdown => exists r, received s = r ++ [Shutdown]
  | Stopped (Ok _) => received s = sent s
  | _ => True
  end.

Record chan_ok (s : ChanSys) : Prop := {
  co_app : app_ok s; co_loop : loop_side_ok s; co_wake : wake_ok s; co_exit : exit_ok s }.

Lemma woken_sent s i : app_ok s -> woken s i -> (i < length (sent s))%nat.
Proof.
  intros Ha [(id & c & Hc & Hp)|Hd].
  - eapply lookup_lt_Some, (ao_calls _ Ha _ _ i Hc). by rewrite Hp.
  - destruct (ao_sets _ Ha _ Hd i eq_refl) as (sets & -> & _ & ->). rewrite length_app. cbn. lia.
Qed.

(** [Shutdown] is the last command there is. *)
Lemma shutdown_is_last s r q : app_ok s -> receiver_alive s -> sent s = (r ++ [Shutdown]) ++ q -> q = [].
Proof.
  intros Ha Hr Hs. assert (Hn : ~ Forall is_set (sent s)).
  { rewrite Hs, !Forall_app. intros [[_ [[] _]%Forall_cons] _]. }
  destruct (dropping s) as [|pc|] eqn:Ed.
  - destruct Hn. apply (ao_no_shutdown _ Ha). by left.
  - destruct (pc_index pc) as [i|] eqn:Ei; [|destruct Hn; apply (ao_no_shutdown _ Ha); right; by exists pc].
    destruct (ao_sets _ Ha _ Ed i Ei) as (sets & Es & Hsets & _). rewrite Es in Hs.
    destruct q as [|c q] using rev_ind; [done|]. rewrite app_assoc in Hs. apply app_inj_tail in Hs as [-> _].
    rewrite !Forall_app in Hsets. destruct Hsets as [[_ [[] _]%Forall_cons] _].
  - by destruct (ao_joined _ Ha Ed).
Qed.

Section Invariants.
  Context `{CryptoOps} (seed : Z).

Lemma loop_step_wake_ok s s' : loop_step seed s s' -> app_ok s -> loop_side_ok s -> wake_ok s -> wake_ok s'.
Proof.
  intros Hstep Ha Hl Hw i Hi Hle.
  assert (Hi0 : woken s i) by (by destruct Hstep). pose proof (loop_step_mono _ _ _ Hstep) as [_ Hm].
  specialize (Hw i Hi0 ltac:(lia)). pose proof (woken_sent _ _ Ha Hi0) as Hlt.
  destruct Hstep as [s el E|s el E|s el tk p ev stop out el' E Ht Hev Hwf HE|s el p E|s el0 tk el p o v r E Eq|s el0 tk el p r E Eq|
    s el0 tk el p E Eq Hj|s el0 tk el p E Eq Hj|s el now E|s el0 tk el why E]; try done.
  - by apply poll_keeps_signalled.
  - unfold signalled in *. rewrite E in Hw. cbn in *. rewrite elem_of_cons in Hw. naive_solver.
  - exfalso. assert (Hr : receiver_alive s) by (unfold receiver_alive; by rewrite E).
    pose proof (lo_history _ Hl Hr) as Hh. rewrite Eq, app_nil_r in Hh. rewrite Hh in Hlt. cbn in Hle. lia.
  - unfold signalled in *. rewrite E in Hw. cbn in *. by destruct Hw as [?%elem_of_nil|?].
Qed.

Lemma app_step_wake_ok s s' : app_step s s' -> wake_ok s -> wake_ok s'.
Proof.
  intros Hstep Hw. pose proof (other_step_keeps _ _ (or_introl Hstep)) as (El & Er & _ & Hk).
  destruct Hstep as [s h h' Hh Hh'|s h id oid v Hh Hid Ho Hv|s id c pc s' Hc Hs|s h Hh Hb Hne|s h Hh Hb He|s pc pc' s' Hd Hs|s pc r Hd Hp Hl];
    intros i [(id' & c' & Hc' & Hp')|Hd'] Hle; cbn in *; try rewrite Er in Hle.
  all: try by (apply (Hw i); [left; eauto|done]).
  all: try by (apply (Hw i); [right; eauto|done]).
  all: try done.
  - rewrite lookup_insert_Some in Hc'. destruct Hc' as [[<- <-]|[_ Hc']]; [done|]. apply (Hw i); [left; eauto|done].
  - destruct (send_step_frame _ _ _ _ _ Hs) as (_ & Ec & Ed & _). destruct (send_step_keeps _ _ _ _ _ Hs) as [_ Hsig].
    rewrite lookup_insert_Some in Hc'. destruct Hc' as [[<- <-]|[_ Hc']]; [by apply (Hsig i)|].
    apply Hk. apply (Hw i); [|done]. left. rewrite Ec in Hc'. eauto.
  - destruct (send_step_frame _ _ _ _ _ Hs) as (_ & Ec & Ed & _).
    apply Hk. apply (Hw i); [|done]. right. by rewrite <-Ed.
  - destruct (send_step_frame _ _ _ _ _ Hs) as (_ & Ec & Ed & _).
    apply Hk. apply (Hw i); [|done]. left. rewrite Ec in Hc'. eauto.
  - injection Hd' as ->. destruct (send_step_keeps _ _ _ _ _ Hs) as [_ Hsig]. by apply (Hsig i).
Qed.

Lemma loop_step_exit_ok s s' : loop_step seed s s' -> app_ok s -> loop_side_ok s -> exit_ok s -> exit_ok s'.
Proof.
  intros Hstep Ha Hl. unfold exit_ok.
  destruct Hstep as [s el E|s el E|s el tk p ev stop out el' E Ht Hev Hwf HE|s el p E|s el0 tk el p o v r E Eq|s el0 tk el p r E Eq|
    s el0 tk el p E Eq Hj|s el0 tk el p E Eq Hj|s el now E|s el0 tk el why E]; cbn; rewrite E; try done.
  - intros Hr. apply Forall_app. split; [done|by repeat constructor].
  - intros _. by exists (received s).
  - destruct why; [|pose proof (lo_pc _ Hl) as Hp; rewrite E in Hp; by destruct Hp|done]. intros [r Hr].
    assert (Hal : receiver_alive s) by (unfold receiver_alive; by rewrite E).
    pose proof (lo_history _ Hl Hal) as Hh. rewrite Hr in Hh. rewrite (shutdown_is_last _ _ _ Ha Hal Hh), app_nil_r in Hh.
    by rewrite Hr, Hh.
Qed.

Lemma app_step_exit_ok s s' : app_step s s' -> exit_ok s -> exit_ok s'.
Proof.
  intros Hstep. pose proof (other_step_keeps _ _ (or_introl Hstep)) as (El & Er & _).
  assert (Hs : receiver_alive s \/ sent s' = sent s).
  { destruct Hstep as [| |s id c pc s' Hc Hs| | |s pc pc' s' Hd Hs|]; try (by right);
      apply send_step_frame in Hs as (_ & _ & _ & _ & _ & _ & [(_ & _ & _ & _ & ?)|(? & _)]); auto. }
  unfold exit_ok, receiver_alive in *. rewrite El, Er. destruct (loop s) as [| | | |[]]; try done. by destruct Hs as [[]| ->].
Qed.

Lemma runs_chan_ok n s s' : runs seed n s s' -> chan_ok s -> chan_ok s'.
Proof.
  induction 1 as [s|n s s1 s2 Hs _ IH|n s s1 s2 Hs _ IH]; [done|..]; intros [Ha Hl Hw He]; apply IH.
  - split; [eapply other_app_ok; [by left|done]|by eapply loop_step_refines|by eapply loop_step_wake_ok|by eapply loop_step_exit_ok].
  - destruct Hs as [Hs|Hs].
    + split; [by eapply app_step_ok|by eapply (app_step_refines seed)|by eapply app_step_wake_ok|by eapply app_step_exit_ok].
    + split; [eapply (other_app_ok seed); [by right|done]|by eapply net_step_refines| |by destruct Hs].
      destruct Hs as [s token Ht]. intros i Hi Hle. apply signal_keeps. by apply (Hw i).
Qed.

Lemma chan_ok_init el : chan_ok (chan_init el).
Proof.
  split; [apply app_ok_init|apply loop_side_ok_init| |constructor]. by intros i [(id & c & Hc & _)|Hd].
Qed.

(** The loop thread is never stuck. *)
Lemma loop_step_enabled s : receiver_alive s -> exists s', loop_step seed s s'.
Proof.
  intros Ha. unfold receiver_alive in Ha.
  destruct (loop s) as [el|el [|t p]|el0 tk el p|el0 tk el why|r] eqn:E; [..|done].
  - eexists. by eapply loop_poll.
  - eexists. by eapply (loop_sweep seed s el 0).
  - destruct (decide (t = WAKER_TOKEN)) as [->|Ht]; [eexists; by eapply loop_wake|].
    destruct (handle_event seed el (MkEvent t 0 [] [] false [] [])) as [[stop out] el'] eqn:HE.
    eexists. eapply (loop_event seed s el t p _ stop out el' E Ht); [| |exact HE]; [done|split; constructor].
  - destruct (queue s) as [|[oid v|] rest] eqn:Eq; [|eexists; by eapply loop_recv_set|eexists; by eapply loop_recv_shutdown].
    destruct (dropping s) eqn:Ed; eexists;
      [eapply loop_recv_empty|eapply loop_recv_empty|eapply loop_recv_disconnected]; try done; congruence.
  - eexists. by eapply loop_return.
Qed.

(** The MIB is what has been received so far. *)
Definition current_loop (s : ChanSys) : option EventLoop :=
  match loop s with AtPoll el | InBatch el _ | Draining _ _ el _ | Returning _ _ el _ => Some el | Stopped _ => None end.

Lemma store_is_received el0 n s el :
  loop_ok el0 -> store el0 = store_new -> runs seed n (chan_init el0) s -> current_loop s = Some el ->
  store el = fold_left apply_command (received s) store_new.
Proof.
  intros Hok Hst Hr Hc. pose proof (runs_chan_ok _ _ _ Hr (chan_ok_init el0)) as [_ Hl _ He].
  destruct (runs_ok seed _ _ _ Hr (app_ok_init el0) (loop_side_ok_init el0)) as (_ & _ & Habs).
  pose proof (reachable_sys_ok seed el0 (abs s) Hok Hst Habs) as Hs. pose proof (lo_pc _ Hl) as Hpc.
  assert (Ha : receiver_alive s) by (unfold receiver_alive, current_loop in *; by destruct (loop s)).
  pose proof (lo_history _ Hl Ha) as Hh. clear Ha Hl.
  unfold sys_ok, abs, current_loop, exit_ok in *.
  destruct (loop s) as [el1|el1 p|el1 tk el2 p|el1 tk el2 [| |]|r]; cbn in Hs; [..|done]; simplify_eq;
    destruct Hs as (_ & _ & done & Hsent & Hsto); rewrite Hh in Hsent.
  - apply app_inv_tail in Hsent as ->. done.
  - apply app_inv_tail in Hsent as ->. done.
  - rewrite app_assoc in Hsent. apply app_inv_tail in Hsent as ->.
    apply drain_commands_store in Hpc. by rewrite Hpc, fold_left_app, Hsto.
  - rewrite (app_assoc tk [Shutdown] (queue s) : tk ++ Shutdown :: queue s = _), app_assoc in Hsent.
    apply app_inv_tail in Hsent as ->. destruct Hpc as [Hpc _].
    apply drain_commands_store in Hpc. by rewrite Hpc, !fold_left_app, Hsto.
  - by destruct Hpc.
  - rewrite app_assoc in Hsent. apply app_inv_tail in Hsent as ->. destruct Hpc as [Hpc _].
    apply drain_commands_store in Hpc. by rewrite Hpc, fold_left_app, Hsto.
Qed.

End Invariants.

(** ** Properties *)

Section Properties.
  Context `{CryptoOps} (seed : Z).

(** Claim C4: the atomic channel of [Agent] is a faithful picture of the real one.  Take
    any run in which threads push, wake the poll, clone and drop handles one action at a
    time while the loop polls, handles events, receives commands one [try_recv] at a time
    and sweeps: it is a run of the system in which a command is sent in one step and a
    wake-up drains the whole channel in one step (so what is proved of that system holds
    of this one).  While the loop has not returned, the channel is first in, first out:
    what was sent is what was received followed by what waits, and the MIB is the result
    of what was received, also in the middle of a drain. *)
Theorem channel_refines_agent (n : nat) (el0 : EventLoop) (s : ChanSys) :
  loop_ok el0 -> store el0 = store_new -> runs seed n (chan_init el0) s ->
  rtc (sys_step seed) (MkSystem (Some el0) [] []) (abs s) /\
  forall el, current_loop s = Some el ->
    sent s = received s ++ queue s /\ store el = fold_left apply_command (received s) store_new.
Proof.
  intros Hok Hst Hr. destruct (runs_ok seed _ _ _ Hr (app_ok_init el0) (loop_side_ok_init el0)) as (_ & Hl & Habs).
  split; [exact Habs|]. intros el Hc. split; [|by eapply store_is_received].
  apply (lo_history _ Hl). unfold receiver_alive, current_loop in *. by destruct (loop s).
Qed.

Lemma runs_trans n m s1 s2 s3 : runs seed n s1 s2 -> runs seed m s2 s3 -> runs seed (n + m) s1 s3.
Proof. induction 1; cbn; [done|econstructor; eauto|intros; eapply runs_other; eauto]. Qed.

Lemma runs_split n m s s' : runs seed (n + m) s s' -> exists s1, runs seed n s s1 /\ runs seed m s1 s'.
Proof.
  remember (n + m)%nat as t eqn:Et. intros Hr. revert n Et.
  induction Hr as [s|t s s1 s2 Hs Hr IH|t s s1 s2 Hs _ IH]; intros n Et.
  - exists s. destruct n, m; try lia. split; constructor.
  - destruct n as [|n].
    + exists s. split; [constructor|]. cbn in Et. subst m. by eapply runs_loop.
    + destruct (IH n ltac:(lia)) as (s3 & H1 & H2). exists s3. split; [by eapply runs_loop|done].
  - destruct (IH n Et) as (s3 & H1 & H2). exists s3. split; [by eapply runs_other|done].
Qed.

Lemma runs_sent n s s' : runs seed n s s' -> forall i x, sent s !! i = Some x -> sent s' !! i = Some x.
Proof.
  induction 1 as [s|n s s1 s2 Hs _ IH|n s s1 s2 Hs _ IH]; [done|..]; intros i x Hx; apply IH; [by destruct Hs|].
  destruct Hs as [Hs|Hs]; [|by destruct Hs].
  destruct Hs as [| |s id c pc s' Hc Hs| | |s pc pc' s' Hd Hs|]; try done; cbn;
    apply send_step_frame in Hs as (_ & _ & _ & _ & _ & _ & [(-> & _)|(-> & _)]); [by apply lookup_app_l_Some|done|by apply lookup_app_l_Some|done].
Qed.

(** Once [Shutdown] has been sent and the loop woken, nobody sends any more. *)
Lemma shutdown_stays n s s' : runs seed n s s' -> app_ok s -> forall i sent0, dropping s = Dropping (SendOk i) -> sent s = sent0 ->
  sent s' = sent0 /\ (dropping s' = Dropping (SendOk i) \/ dropping s' = Joined).
Proof.
  intros Hr Ha i sent0 Hd Hs. assert (Hd' : dropping s = Dropping (SendOk i) \/ dropping s = Joined) by (by left). clear Hd.
  revert Ha Hd' Hs. induction Hr as [s|n s s1 s2 Hs _ IH|n s s1 s2 Hs _ IH]; intros Ha Hd Hst; [done|..].
  - apply IH; [eapply other_app_ok; [by left|done]|by destruct Hs..].
  - assert (Hh : handles s = ∅) by (apply (ao_dropped _ Ha); destruct Hd; congruence).
    apply IH; [destruct Hs; [by eapply app_step_ok|eapply (other_app_ok seed); [by right|done]]|..];
      (destruct Hs as [Hs|Hs]; [|by destruct Hs]);
      destruct Hs as [s h h' Hin Hh'|s h id oid v Hin Hid Ho Hv|s id c pc s' Hc Hs|s h Hin Hb Hne|s h Hin Hb He|s pc pc' s' Hd1 Hs|s pc r Hd1 Hp Hl];
      cbn; try done; try (rewrite Hh in Hin; set_solver); try (by right).
    all: destruct (send_step_frame _ _ _ _ _ Hs) as (_ & _ & _ & _ & _ & Hp & _).
    all: try (destruct Hd as [Hd|Hd]; rewrite Hd in Hd1; [injection Hd1 as <-|]; done).
    all: assert (Hin : call_handle c ∈ handles s) by (apply (ao_borrow _ Ha _ _ Hc); unfold in_flight; by rewrite Hp).
    all: rewrite Hh in Hin; set_solver.
Qed.

(** A loop that has received [Shutdown] is on its way out. *)
Lemma shutdown_received s sets :
  chan_ok s -> sent s = sets ++ [Shutdown] -> (length sets < length (received s))%nat -> ended s.
Proof.
  intros [Ha Hl _ He] Hs Hlt. unfold ended, exit_ok, receiver_alive in *. pose proof (lo_history _ Hl) as Hh. unfold receiver_alive in Hh.
  destruct (loop s) as [| | | |]; try done; exfalso; specialize (Hh I); rewrite Hs in Hh;
    assert (Hi : received s !! length sets = Some Shutdown)
      by (rewrite <-(lookup_app_l _ (queue s)), <-Hh, lookup_app_r, Nat.sub_diag by done; done);
    rewrite Forall_lookup in He; exact (He _ _ Hi).
Qed.

(** A command whose wake-up succeeded is received within a number of loop steps. *)
Lemma woken_is_received s i :
  chan_ok s -> woken s i -> exists bound, forall n s', runs seed n s s' -> (bound <= n)%nat ->
    ended s' \/ (i < length (received s'))%nat.
Proof.
  intros [Ha Hl Hw _] Hi. destruct (decide (i < length (received s))%nat) as [Hlt|Hge].
  - exists O. intros n s' [_ Hm]%runs_mono _. right. lia.
  - exists (remaining s (i - length (received s))). intros n s' Hr Hn.
    destruct (decide (match loop s with Stopped _ => true | _ => false end = true)) as [He|He].
    + left. apply (runs_mono seed _ _ _ Hr). unfold ended. by destruct (loop s).
    + assert (Hal : receiver_alive s) by (unfold receiver_alive; destruct (loop s); naive_solver).
      pose proof (woken_sent _ _ Ha Hi) as Hs. rewrite (lo_history _ Hl Hal), length_app in Hs.
      specialize (Hw i Hi ltac:(lia)).
      destruct (runs_progress seed n s s' Hr Ha Hl Hw (i - length (received s)) ltac:(lia) Hn) as [?|?]; [by left|right; lia].
Qed.

(** Claim C5: a set that was acknowledged takes effect, without further help.  In any
    state of any run, take a call of [Agent::set] that returned [Ok].  Its command has a
    place in the channel, and there is a number of steps of the loop thread after which,
    whatever other threads send meanwhile and whatever arrives from the network, the loop
    has received it and the MIB is the result of all received commands (or the loop is on
    its way out); and until it returns the loop thread always has a step to take.  So no
    wake-up is lost, whenever it comes between two polls, in a batch or during a drain. *)
Theorem acknowledged_set_is_applied (n : nat) (el0 : EventLoop) (s : ChanSys) (id : nat) (c : SetCall) :
  loop_ok el0 -> store el0 = store_new -> runs seed n (chan_init el0) s ->
  calls s !! id = Some c -> set_call_result c = Some (Ok tt) ->
  exists i bound, sent s !! i = Some (SetValue (call_oid c) (call_value c)) /\
    forall n' s', runs seed n' s s' ->
      (receiver_alive s' -> exists s'', loop_step seed s' s'') /\
      ((bound <= n')%nat -> ended s' \/
        received s' !! i = Some (SetValue (call_oid c) (call_value c)) /\
        exists el, current_loop s' = Some el /\ store el = fold_left apply_command (received s') store_new).
Proof.
  intros Hok Hst Hr Hc Hres. pose proof (runs_chan_ok seed _ _ _ Hr (chan_ok_init el0)) as Hinv.
  destruct (call_pc c) as [| |i| |] eqn:Ep; unfold set_call_result in Hres; rewrite Ep in Hres; try done.
  pose proof (ao_calls _ (co_app _ Hinv) _ _ i Hc ltac:(by rewrite Ep)) as Hi.
  destruct (woken_is_received s i Hinv) as [bound Hb]; [left; eauto|].
  exists i, bound. split; [exact Hi|]. intros n' s' Hr'. split; [apply loop_step_enabled|]. intros Hn.
  destruct (decide (match loop s' with Returning _ _ _ _ | Stopped _ => true | _ => false end = true)) as [He|He].
  { left. unfold ended. by destruct (loop s'). }
  destruct (Hb _ _ Hr' Hn) as [He'|Hlt]; [by left|]. right.
  pose proof (runs_trans _ _ _ _ _ Hr Hr') as Hrr. pose proof (runs_chan_ok seed _ _ _ Hrr (chan_ok_init el0)) as [Ha' Hl' _ _].
  destruct (current_loop s') as [el|] eqn:Ecl; [|unfold current_loop in Ecl; destruct (loop s'); naive_solver].
  split; [|exists el; split; [done|by eapply store_is_received]].
  apply (runs_sent _ _ _ Hr') in Hi.
  rewrite (lo_history _ Hl'), lookup_app_l in Hi; [done|done|]. unfold receiver_alive. destruct (loop s'); naive_solver.
Qed.

Lemma ended_returns n s s' : runs seed n s s' -> ended s -> (1 <= n)%nat -> exists r, loop s' = Stopped r.
Proof.
  assert (Hst : forall n s s', runs seed n s s' -> (exists r, loop s = Stopped r) -> exists r, loop s' = Stopped r).
  { induction 1 as [s1|n1 s1 s2 s3 Hs _ IH|n1 s1 s2 s3 Hs _ IH]; [done|..]; intros [r Er]; apply IH.
    - destruct Hs; congruence.
    - apply other_step_keeps in Hs as (El & _). exists r. congruence. }
  induction 1 as [s|n s s1 s2 Hs Hr IH|n s s1 s2 Hs _ IH]; intros He Hn; [lia|..].
  - apply (Hst _ _ _ Hr). unfold ended in He. destruct Hs as [s el E|s el E|s el tk p ev stop out el' E Ht Hev Hwf HE|s el p E|
      s el0 tk el p o v r E Eq|s el0 tk el p r E Eq|s el0 tk el p E Eq Hj|s el0 tk el p E Eq Hj|s el now E|s el0 tk el why E];
      rewrite E in He; try done. by eexists.
  - apply other_step_keeps in Hs as (El & _). apply IH; [|done]. unfold ended in *. by rewrite El.
Qed.

(** Claim C6: dropping the last handle ends the agent, after everything sent has been
    applied.  In any state of any run in which [Drop for AgentInner] has sent [Shutdown]
    and woken the loop, there is a number of steps of the loop thread after which,
    whatever the network does meanwhile, [run] has returned, so that the [join] of the
    drop returns; until then the loop thread always has a step to take.  [run] returns
    [Ok] only if every command ever sent has been received, [Shutdown] last. *)
Theorem last_drop_ends_loop (n i : nat) (el0 : EventLoop) (s : ChanSys) :
  runs seed n (chan_init el0) s -> dropping s = Dropping (SendOk i) ->
  exists bound, forall n' s', runs seed n' s s' ->
    (receiver_alive s' -> exists s'', loop_step seed s' s'') /\
    ((bound <= n')%nat -> exists r, loop s' = Stopped r /\
      (dropping s' = Joined \/ app_step s' (set_dropping s' Joined)) /\
      (r = Ok tt -> exists sets, received s' = sets ++ [Shutdown] /\ sent s' = received s' /\ Forall is_set sets)).
Proof.
  intros Hr Hd. pose proof (runs_chan_ok seed _ _ _ Hr (chan_ok_init el0)) as Hinv.
  destruct (woken_is_received s i Hinv) as [bound Hb]; [by right|].
  destruct (ao_sets _ (co_app _ Hinv) _ Hd i eq_refl) as (sets & Hsets & Hall & Hlen).
  exists (bound + 1)%nat. intros n' s' Hr'. split; [apply loop_step_enabled|]. intros Hn.
  replace n' with (bound + (n' - bound))%nat in Hr' by lia.
  pose proof (shutdown_stays _ _ _ Hr' (co_app _ Hinv) _ _ Hd Hsets) as [Hsent Hdrop].
  destruct (runs_split _ _ _ _ Hr') as (s1 & H1 & H2).
  pose proof (runs_chan_ok seed _ _ _ H1 Hinv) as Hinv1. pose proof (runs_chan_ok seed _ _ _ H2 Hinv1) as Hinv2.
  assert (He : ended s1).
  { destruct (Hb _ _ H1 (le_n _)) as [?|Hlt]; [done|]. apply (shutdown_received s1 sets); [done| |by subst i].
    by apply (shutdown_stays _ _ _ H1 (co_app _ Hinv) _ _ Hd Hsets). }
  destruct (ended_returns _ _ _ H2 He ltac:(lia)) as [r Er]. exists r. split; [exact Er|]. split.
  - destruct Hdrop as [Hdrop|Hdrop]; [|by left]. right. by eapply app_join.
  - intros ->. pose proof (co_exit _ Hinv2) as Hex. unfold exit_ok in Hex. rewrite Er in Hex.
    exists sets. by rewrite Hex, Hsent.
Qed.

End Properties.

(** ** Runs *)

Section Demo.
  Context `{CryptoOps} (seed : Z) (el0 : EventLoop) (oid : Oid) (v : Value) (Ho : oid_wf oid) (Hv : value_wf v).

(** One set, sent and woken. *)
Definition demo_sent : ChanSys :=
  {| handles := {[ 0%nat ]}; calls := {[ 0%nat := MkSetCall 0 oid v (SendOk 0) ]}; dropping := NotDropped;
     queue := [SetValue oid v]; sent := [SetValue oid v]; received := []; ready := [WAKER_TOKEN]; loop := AtPoll el0 |}.

Lemma demo_sent_reachable : runs seed 0 (chan_init el0) demo_sent.
Proof.
  eapply runs_other; [left; apply (app_set _ 0 0 oid v); [set_solver|done|done|done]|].
  eapply runs_other; [left; eapply (app_call _ 0); [apply lookup_insert_eq|by apply send_tx]|]. cbn.
  eapply runs_other; [left; eapply (app_call _ 0); [apply lookup_insert_eq|by apply send_wake]|].
  cbn. rewrite !insert_insert_eq. apply runs_done.
Qed.

(** The loop in the middle of the drain. *)
Definition demo_draining : ChanSys :=
  {| handles := {[ 0%nat ]}; calls := {[ 0%nat := MkSetCall 0 oid v (SendOk 0) ]}; dropping := NotDropped;
     queue := []; sent := [SetValue oid v]; received := [SetValue oid v]; ready := [];
     loop := Draining el0 [SetValue oid v] (set_store el0 (store_set (store el0) oid v)) [] |}.

Lemma demo_draining_reachable : runs seed 3 (chan_init el0) demo_draining.
Proof.
  apply (runs_trans seed 0 3 _ demo_sent); [apply demo_sent_reachable|].
  eapply runs_loop; [by eapply loop_poll|]. eapply runs_loop; [by eapply loop_wake|].
  eapply runs_loop; [by eapply loop_recv_set|]. apply runs_done.
Qed.

(** The last handle dropped, [Shutdown] sent and the loop woken. *)
Definition demo_dropped : ChanSys :=
  {| handles := ∅; calls := ∅; dropping := Dropping (SendOk 0);
     queue := [Shutdown]; sent := [Shutdown]; received := []; ready := [WAKER_TOKEN]; loop := AtPoll el0 |}.

Lemma demo_dropped_reachable : runs seed 0 (chan_init el0) demo_dropped.
Proof.
  eapply runs_other; [left; apply (app_drop_last _ 0); [set_solver|done|set_solver]|].
  eapply runs_other; [left; eapply app_shutdown; [done|by apply send_tx]|].
  eapply runs_other; [left; eapply app_shutdown; [done|by apply send_wake]|]. apply runs_done.
Qed.

(** When waking the poll fails, [Agent::set] reports [Disconnected] although the loop runs
    and the command is in the channel: the next wake-up applies it. *)
Theorem failed_wake_set_is_applied :
  exists n s c el, runs seed n (chan_init el0) s /\ calls s !! 0%nat = Some c /\ call_oid c = oid /\ call_value c = v /\
    set_call_result c = Some (Err Disconnected) /\ current_loop s = Some el /\ store el = store_set (store el0) oid v.
Proof.
  eexists 3%nat, _, _, _. split; [|split; [|split_and!]].
  - eapply runs_other; [left; apply (app_set _ 0 0 oid v); [set_solver|done|done|done]|].
    eapply runs_other; [left; eapply (app_call _ 0); [apply lookup_insert_eq|by apply send_tx]|].
    eapply runs_other; [left; eapply (app_call _ 0); [apply lookup_insert_eq|by apply send_wake_fails]|].
    eapply runs_other; [left; apply (app_set _ 0 1 oid v); [set_solver|done|done|done]|].
    eapply runs_other; [left; eapply (app_call _ 1); [apply lookup_insert_eq|by apply send_tx]|].
    eapply runs_other; [left; eapply (app_call _ 1); [apply lookup_insert_eq|by apply send_wake]|].
    eapply runs_loop; [by eapply loop_poll|]. eapply runs_loop; [by eapply loop_wake|].
    eapply runs_loop; [by eapply loop_recv_set|]. apply runs_done.
  - cbn. rewrite !insert_insert_eq. rewrite lookup_insert_ne by done. apply lookup_insert_eq.
  - done.
  - done.
  - done.
  - done.
  - done.
Qed.

End Demo.

Lemma demo_set_wf : oid_wf (MkOid [1; 3; 6]) /\ value_wf (Integer32 4).
Proof. split; [split; [repeat constructor; zrange|reflexivity]|vm_compute; split; congruence]. Qed.

Lemma channel_refines_agent_witness :
  let s := demo_draining demo_el0 (MkOid [1; 3; 6]) (Integer32 4) in
  rtc (@sys_step ToyCrypto.ops 5) (MkSystem (Some demo_el0) [] []) (abs s) /\
  exists el, current_loop s = Some el /\ store el = fold_left apply_command [demo_set] store_new.
Proof.
  destruct (@channel_refines_agent ToyCrypto.ops 5 3 demo_el0 (demo_draining demo_el0 (MkOid [1; 3; 6]) (Integer32 4))
    demo_el0_ok eq_refl (demo_draining_reachable 5 demo_el0 _ _ (proj1 demo_set_wf) (proj2 demo_set_wf))) as [H1 H2].
  split; [exact H1|]. eexists. split; [reflexivity|]. exact (proj2 (H2 _ eq_refl)).
Defined.

Lemma acknowledged_set_is_applied_witness :
  exists i bound, sent (demo_sent demo_el0 (MkOid [1; 3; 6]) (Integer32 4)) !! i = Some demo_set /\
    forall n' s', @runs ToyCrypto.ops 5 n' (demo_sent demo_el0 (MkOid [1; 3; 6]) (Integer32 4)) s' -> (bound <= n')%nat ->
      ended s' \/ received s' !! i = Some demo_set.
Proof.
  destruct (@acknowledged_set_is_applied ToyCrypto.ops 5 0 demo_el0 (demo_sent demo_el0 (MkOid [1; 3; 6]) (Integer32 4)) 0
    (MkSetCall 0 (MkOid [1; 3; 6]) (Integer32 4) (SendOk 0)) demo_el0_ok eq_refl
    (demo_sent_reachable 5 demo_el0 _ _ (proj1 demo_set_wf) (proj2 demo_set_wf)) eq_refl eq_refl) as (i & bound & Hi & Hb).
  exists i, bound. split; [exact Hi|]. intros n' s' Hr Hn. destruct (proj2 (Hb n' s' Hr) Hn) as [?|[? _]]; [by left|by right].
Defined.

Lemma last_drop_ends_loop_witness :
  exists bound, forall n' s', @runs ToyCrypto.ops 5 n' (demo_dropped demo_el0) s' -> (bound <= n')%nat -> exists r, loop s' = Stopped r.
Proof.
  destruct (@last_drop_ends_loop ToyCrypto.ops 5 0 0 demo_el0 (demo_dropped demo_el0) (demo_dropped_reachable 5 demo_el0) eq_refl)
    as (bound & Hb).
  exists bound. intros n' s' Hr Hn. destruct (proj2 (Hb n' s' Hr) Hn) as (r & Er & _). by exists r.
Defined.
