(* ===== verification/Replay.v ===== *)
(** * Replay protection over the life of an installation

    Composition of the boots counter ([src/src/usm/boots.rs]), [AgentBuilder::build]
    ([src/src/lib.rs]), the event loop and the time window
    ([src/src/usm/time_window.rs], [src/src/transport/dispatch.rs]): what an attacker who
    records a served request can do with it, in the same run of the agent and after
    restarts. *)

From stdpp Require Import gmap.
From S2P Require Import Prelude Usm Types Codec Mib Dispatch Boots Trap EventLoop LoopFacts Agent EndToEnd.

Section Replay.
  Context {S} `{BootsStoreLaws S} (eid : EngineId).

(** A start of the process on a boots store, successful or not, as the engine [eid]:
    [build] with any credentials, salt state and answers of the operating system.  A start
    under another engine identifier is not among them: it resets the stored counter
    ([engine_change_readmits_frame] below). *)
Inductive start : S -> S -> Prop :=
| start_build env salt b s r s' :
    config_store (b_security b) = Some s -> config_wf (b_security b) -> b_engine_id b = eid ->
    build env salt b = Some (r, Some s') -> start s s'.

(** ** The store over restarts *)

(** A working store, and the boots value it holds for this engine. *)
Definition holds (s : S) (boots : Z) : Prop :=
  store_works s /\ exists st, load s = (Ok st, s) /\ stored_boots st (engine_id_bytes eid) = boots.

Hypothesis Heid : Forall is_u8 (engine_id_bytes eid) /\ len (engine_id_bytes eid) <= MAX_ENGINE_ID_LEN.

(** [build] with a store takes the next value; the ceiling stops it. *)
Lemma build_takes_boots env salt b s r s' boots :
  config_store (b_security b) = Some s -> config_wf (b_security b) -> b_engine_id b = eid ->
  holds s boots -> 0 <= boots -> build env salt b = Some (r, s') ->
  exists s1, s' = Some s1 /\
    (holds s1 (boots + 1) /\ (forall a, r = Ok a -> el_engine_boots (agent_loop a) = boots + 1) \/
     s1 = s /\ forall a, r <> Ok a).
Proof.
  intros Hs Hcfg He (Hw & st & Hl & Hst) Hb HE. destruct Heid as [Hu Hlen]. unfold build in HE.
  destruct (config_user_ok _ Hcfg) as (u & Eu & _). rewrite Eu, Hs, He in HE.
  pose proof (initialise_step s st (engine_id_bytes eid) Hw Hu Hlen Hl ltac:(lia)) as Hi. rewrite Hst in Hi.
  destruct (boots <? MAX_ENGINE_BOOTS).
  - destruct Hi as (s1 & Ei & Hw1 & Hl1). rewrite Ei in HE. injection HE as <- <-. exists s1. split; [done|]. left. split.
    + split; [done|]. eexists. split; [exact Hl1|]. unfold stored_boots. cbn. unfold bytes_eqb. by rewrite bool_decide_eq_true_2.
    + intros a Ha. cbn [map_err] in Ha. destruct (event_loop_new _ _ _ _ _ _ _ _ _ _) as [[el bound]|] eqn:El; [|done].
      cbn [map_err] in Ha. destruct (udp_bind env) as [[]|?], (spawn env) as [[]|?]; try done. injection Ha as <-. cbn.
      by apply event_loop_new_fields in El as (_ & _ & _ & -> & _).
  - rewrite Hi in HE. injection HE as <- <-. exists s. split; [done|]. right. by split.
Qed.

Lemma starts_holds s s' : rtc start s s' -> forall boots, holds s boots -> 0 <= boots ->
  exists boots', holds s' boots' /\ boots <= boots'.
Proof.
  induction 1 as [s|s s1 s' Hst _ IH]; intros boots Hh Hb; [by exists boots|].
  destruct Hst as [env salt b s r s1 Hs Hcfg He HE].
  destruct (build_takes_boots _ _ _ _ _ _ _ Hs Hcfg He Hh Hb HE) as (s2 & [= <-] & [[Hh1 _]|[-> _]]).
  - destruct (IH _ Hh1 ltac:(lia)) as (b' & Hb' & Hle). exists b'. split; [done|lia].
  - by apply IH.
Qed.

(** [build] with a store gives the loop a user with credentials. *)
Lemma build_authenticates env salt b s a s' :
  config_store (b_security b) = Some s -> config_wf (b_security b) -> build env salt b = Some (Ok a, s') ->
  exists pk, auth_pair (el_usm_user (agent_loop a)) = Some pk.
Proof.
  intros Hs Hcfg HE. unfold build in HE. destruct (config_user_ok _ Hcfg) as (u & Eu & Hu). rewrite Eu, Hs in HE.
  destruct (initialise_engine_boots _ _) as [[boots|e] s1]; [|done]. cbn [map_err] in HE.
  destruct (event_loop_new _ _ _ _ _ _ _ _ _ _) as [[el bound]|] eqn:El; [|done]. cbn [map_err] in HE.
  destruct (udp_bind env) as [[]|?], (spawn env) as [[]|?]; try done. injection HE as <- _. cbn [agent_loop].
  apply event_loop_new_fields in El as (_ & _ & _ & _ & -> & _).
  assert (Hl : config_level (b_security b) <> NoAuthNoPriv) by (by destruct (b_security b)).
  destruct u as [u|]; [|done]. rewrite auth_pair_Some. destruct Hu as (_ & _ & Hu). unfold user_security_level in Hu.
  destruct (auth_credentials u); [by eexists|]. destruct (priv_credentials u); congruence.
Qed.

(** ** What is served in a run *)

(** The agent answers the frame at the instant [now] of one of its runs: some state its
    system can reach, with any salt state. *)
Definition serves `{CryptoOps} (seed : Z) (a : Agent) (now : Z) (frame : bytes) : Prop :=
  exists s el salt resp ctx salt',
    rtc (sys_step seed) (MkSystem (Some (agent_loop a)) [] []) s /\ sys_loop s = Some el /\
    run_validation_pipeline seed salt frame (store el) (context_at el now) = (Ok resp, ctx, salt').

(** A served frame is fresh in the run's own terms. *)
Lemma serves_fresh `{CryptoOps} seed a now frame pk :
  auth_pair (el_usm_user (agent_loop a)) = Some pk -> serves seed a now frame ->
  exists m, decode_v3_message frame = Ok m /\ auth_engine_boots (usm m) = el_engine_boots (agent_loop a) /\
    Z.abs (auth_engine_time (usm m) - engine_time_seconds (agent_loop a) now) <= 150.
Proof.
  intros Hpk (s & el & salt & resp & ctx & salt' & Hr & El & (m & pdu & Hd & Hp & _)%run_Ok_inv).
  pose proof (context_at_config _ _ now (reachable_config seed _ _ _ Hr El)) as Hcfg.
  apply (passes_config _ (inputs (context_at (agent_loop a) now))) in Hp; [|by symmetry].
  exists m. split; [done|]. pose proof (passes_time _ _ Hp) as Ht. unfold time_ok in Ht. cbn [context_at inputs dispatch_inputs usm_user engine_boots engine_time] in Ht. by rewrite Hpk in Ht.
Qed.

(** Claim C3: a recorded request cannot be replayed to the same engine.  Take an
    installation with credentials, one engine identifier and a boots store that works: an
    agent built on the store, then any number of process starts, successful or not, under
    any configuration with this engine identifier, then another agent with this engine
    identifier built on what the store has become.  A frame the first
    agent answers at some instant of some run (any interleaving of the application, the
    network and the loop) is answered at no instant of any run of the later agent; and
    the instants at which the first agent itself answers it are at most 300 seconds of
    engine time apart. *)
Theorem served_frame_is_not_replayable `{CryptoOps} (seed boots now1 now1' now2 : Z) (s0 s1 s2 : S) (s3 : option S)
    (env1 env2 : BuildOutcome) (salt1 salt2 : SaltState) (b1 b2 : AgentBuilder S) (a1 a2 : Agent) (frame : bytes) :
  holds s0 boots -> 0 <= boots ->
  config_store (b_security b1) = Some s0 -> config_wf (b_security b1) -> b_engine_id b1 = eid ->
  build env1 salt1 b1 = Some (Ok a1, Some s1) ->
  rtc start s1 s2 ->
  config_store (b_security b2) = Some s2 -> config_wf (b_security b2) -> b_engine_id b2 = eid ->
  build env2 salt2 b2 = Some (Ok a2, s3) ->
  serves seed a1 now1 frame ->
  ~ serves seed a2 now2 frame /\
  (serves seed a1 now1' frame ->
   Z.abs (engine_time_seconds (agent_loop a1) now1 - engine_time_seconds (agent_loop a1) now1') <= 300).
Proof.
  intros Hh Hb Hs1 Hc1 He1 HE1 Hst Hs2 Hc2 He2 HE2 Hserve.
  destruct (build_authenticates _ _ _ _ _ _ Hs1 Hc1 HE1) as (pk1 & Hpk1).
  destruct (build_authenticates _ _ _ _ _ _ Hs2 Hc2 HE2) as (pk2 & Hpk2).
  destruct (build_takes_boots _ _ _ _ _ _ _ Hs1 Hc1 He1 Hh Hb HE1) as (t1 & [= <-] & [[Hh1 Hb1]|[_ Hno]]);
    [|by destruct (Hno a1)].
  destruct (starts_holds _ _ Hst _ Hh1 ltac:(lia)) as (boots2 & Hh2 & Hle).
  destruct (build_takes_boots _ _ _ _ _ _ _ Hs2 Hc2 He2 Hh2 ltac:(lia) HE2) as (t2 & _ & [[_ Hb2]|[_ Hno]]);
    [|by destruct (Hno a2)].
  specialize (Hb1 a1 eq_refl). specialize (Hb2 a2 eq_refl).
  destruct (serves_fresh _ _ _ _ _ Hpk1 Hserve) as (m & Hd & Hmb & Hmt). split.
  - intros (m2 & Hd2 & Hmb2 & _)%(serves_fresh _ _ _ _ _ Hpk2). rewrite Hd in Hd2. injection Hd2 as <-. lia.
  - intros (m1 & Hd1 & _ & Hmt1)%(serves_fresh _ _ _ _ _ Hpk1). rewrite Hd in Hd1. injection Hd1 as <-. lia.
Qed.

End Replay.

(** A new installation: the first agent, a start that fails for want of its UDP socket,
    and the next agent. *)
Definition replay_builder_as (e : bytes) (s : FileEngineBootsStore) : AgentBuilder FileEngineBootsStore :=
  builder_engine_id (builder_new (ConfigAuthNoPriv (MkAuthNoPrivUser (MkUserName [97]) HmacSha256 (zeroed 32)) s)) (MkEngineId e).
Definition replay_builder (s : FileEngineBootsStore) : AgentBuilder FileEngineBootsStore := replay_builder_as [1; 2; 3; 4; 5] s.
Definition replay_env (udp : bool) : BuildOutcome :=
  MkBuildOutcome toy_setup (if udp then Ok tt else Err (io_error_new OtherKind (str "Too many open files (os error 24)"))) (Ok tt) 0.
Definition replay_build (udp : bool) (s : FileEngineBootsStore) := build (replay_env udp) None (replay_builder s).
Definition replay_store_after (udp : bool) (s : FileEngineBootsStore) : FileEngineBootsStore :=
  match replay_build udp s with Some (_, Some s') => s' | _ => s end.
Definition replay_s0 : FileEngineBootsStore := toy_file_store toy_path None.
Definition replay_s1 : FileEngineBootsStore := replay_store_after true replay_s0.
Definition replay_s2 : FileEngineBootsStore := replay_store_after false replay_s1.

Lemma served_frame_is_not_replayable_witness :
  match replay_build true replay_s0, replay_build true replay_s2 with
  | Some (Ok a1, _), Some (Ok a2, _) =>
      @serves ToyCrypto.ops 5 a1 100000 (signed_get toy_auth_user) /\
      ~ @serves ToyCrypto.ops 5 a2 100000 (signed_get toy_auth_user)
  | _, _ => False
  end.
Proof.
  destruct (replay_build true replay_s0) as [[[a1|] [s1|]]|] eqn:E1; try (vm_compute in E1; discriminate).
  destruct (replay_build true replay_s2) as [[[a2|] s3]|] eqn:E2; try (vm_compute in E2; discriminate).
  assert (Hs : @serves ToyCrypto.ops 5 a1 100000 (signed_get toy_auth_user)).
  { exists (MkSystem (Some (agent_loop a1)) [] []), (agent_loop a1), None. vm_compute in E1. injection E1 as <- _.
    eexists _, _, _. split; [apply rtc_refl|]. split; [reflexivity|]. vm_compute. reflexivity. }
  split; [exact Hs|].
  assert (E1' : s1 = replay_s1) by (unfold replay_s1, replay_store_after; rewrite E1; reflexivity). subst s1.
  apply (@served_frame_is_not_replayable FileEngineBootsStore _ _ (MkEngineId [1; 2; 3; 4; 5])
    ltac:(split; [refine (bool_decide_unpack _ _); vm_compute; exact I|vm_compute; discriminate])
    ToyCrypto.ops 5 0 100000 100000 100000 replay_s0 replay_s1 replay_s2 s3 (replay_env true) (replay_env true) None None
    (replay_builder replay_s0) (replay_builder replay_s2) a1 a2 (signed_get toy_auth_user));
    [|discriminate|reflexivity| |reflexivity|exact E1| |reflexivity| |reflexivity|exact E2|exact Hs].
  - split; [split; [reflexivity|vm_compute; exact I]|]. eexists. split; [vm_compute; reflexivity|reflexivity].
  - vm_compute. split; [reflexivity|discriminate].
  - apply rtc_once.
    destruct (replay_build false replay_s1) as [[r [s2|]]|] eqn:E; try (vm_compute in E; discriminate).
    replace replay_s2 with s2 by (unfold replay_s2, replay_store_after; rewrite E; reflexivity).
    apply (start_build _ (replay_env false) None (replay_builder replay_s1) replay_s1 r s2);
      [reflexivity|vm_compute; split; [reflexivity|discriminate]|reflexivity|exact E].
  - vm_compute. split; [reflexivity|discriminate].
Defined.

(** The engine identifier has to stay the same.  Between two agents of one engine, a start on
    the same store under another identifier resets the counter to 1
    ([initialise_engine_boots]), and the later agent answers the frame again. *)
Theorem engine_change_readmits_frame :
  match replay_build true replay_s0 with
  | Some (Ok a1, Some s1) =>
      match build (replay_env true) None (replay_builder_as [5; 4; 3; 2; 1] s1) with
      | Some (Ok _, Some s2) =>
          match replay_build true s2 with
          | Some (Ok a2, _) =>
              @serves ToyCrypto.ops 5 a1 100000 (signed_get toy_auth_user) /\ @serves ToyCrypto.ops 5 a2 100000 (signed_get toy_auth_user)
          | _ => False
          end
      | _ => False
      end
  | _ => False
  end.
Proof.
  destruct (replay_build true replay_s0) as [[[a1|] [s1|]]|] eqn:E1; try (vm_compute in E1; discriminate).
  vm_compute in E1. injection E1 as <- <-.
  destruct (build _ _ _) as [[[a'|] [s2|]]|] eqn:E2; try (vm_compute in E2; discriminate). vm_compute in E2. injection E2 as _ <-.
  destruct (replay_build true _) as [[[a2|] s3]|] eqn:E3; try (vm_compute in E3; discriminate). vm_compute in E3. injection E3 as <- _.
  split; eexists _, _, None, _, _, _; (split; [apply rtc_refl|]; split; [reflexivity|]; vm_compute; reflexivity).
Qed.
