(* ===== verification/Atomics.v ===== *)
(** * Process-wide counters under concurrency

    [next_privacy_salt] of [src/src/codec/pdu/encode.rs] and
    [MessageId::next_sequential] of [src/src/codec/pdu/types.rs] work on statics that
    the event-loop thread and any number of application threads (each [Agent] clone may
    send traps) share without a lock.  The other files thread the two counters through
    the calls in sequence; here the calls are cut into their atomic actions, a scheduler
    picks a thread at each step, and the result is that every schedule hands out what the
    sequential definitions hand out.

    One location is accessed by atomic operations in a single total order whatever their
    [Ordering], and [Once::call_once] returns only after the initialisation has finished
    and happened before; these two facts are the interleaving semantics below. *)

From stdpp Require Import gmap.
From S2P Require Import Prelude BerFacts Usm Types Codec Trap.

(** ** Seeding *)

(** [RandomState::new().build_hasher()] after [write_u64(secs)] and
    [write_u32(nanos)]; [None] is a clock before the epoch ([unwrap_or_default]). *)
Definition random_u64_from_hasher (finish : Z -> Z -> Z) (now : option (Z * Z)) : Z :=
  let '(secs, nanos) := default (0, 0) now in finish secs nanos.

(** [getrandom] fills eight octets or fails; [from_ne_bytes] of a little-endian target. *)
Definition random_u64 (filled : option bytes) (finish : Z -> Z -> Z) (now : option (Z * Z)) : Z :=
  match filled with
  | Some random_bytes => from_be_bytes (rev random_bytes)
  | None => random_u64_from_hasher finish now
  end.

(** What a call to [random_u64] finds outside the program. *)
Record Entropy := MkEntropy { filled : option bytes; hasher_finish : Z -> Z -> Z; wall_clock : option (Z * Z) }.

Definition draw (e : Entropy) : Z := random_u64 (filled e) (hasher_finish e) (wall_clock e).

(** ** Shared state and threads *)

(** [std::sync::Once] *)
Inductive Once := OnceIncomplete | OnceRunning (runner : nat) | OnceComplete.

(** Where a thread is in [next_privacy_salt]. *)
Inductive Pc := Outside | AtCallOnce | AtStore | AtComplete | AtFetchAdd.

#[export] Instance Pc_eq_dec : EqDecision Pc.
Proof. solve_decision. Defined.

Record Shared := MkShared {
  PRIVACY_SALT_INIT : Once;
  PRIVACY_SALT_COUNTER : Z;
  TRAP_MSG_ID_COUNTER : Z;
  threads : gmap nat Pc; (* absent: [Outside] *)
  issued_salts : list (nat * bytes); (* what calls have returned, in order *)
  issued_ids : list (nat * MessageId);
}.

Definition shared_init : Shared :=
  {| PRIVACY_SALT_INIT := OnceIncomplete; PRIVACY_SALT_COUNTER := 0; TRAP_MSG_ID_COUNTER := TRAP_MSG_ID_COUNTER_INIT;
     threads := ∅; issued_salts := []; issued_ids := [] |}.

Definition pc_of (s : Shared) (t : nat) : Pc := default Outside (threads s !! t).

Definition goto (s : Shared) (t : nat) (p : Pc) : Shared :=
  {| PRIVACY_SALT_INIT := PRIVACY_SALT_INIT s; PRIVACY_SALT_COUNTER := PRIVACY_SALT_COUNTER s;
     TRAP_MSG_ID_COUNTER := TRAP_MSG_ID_COUNTER s; threads := <[t := p]> (threads s);
     issued_salts := issued_salts s; issued_ids := issued_ids s |}.

Definition set_once (s : Shared) (o : Once) : Shared :=
  {| PRIVACY_SALT_INIT := o; PRIVACY_SALT_COUNTER := PRIVACY_SALT_COUNTER s;
     TRAP_MSG_ID_COUNTER := TRAP_MSG_ID_COUNTER s; threads := threads s;
     issued_salts := issued_salts s; issued_ids := issued_ids s |}.

Definition salt_store (s : Shared) (v : Z) : Shared :=
  {| PRIVACY_SALT_INIT := PRIVACY_SALT_INIT s; PRIVACY_SALT_COUNTER := v;
     TRAP_MSG_ID_COUNTER := TRAP_MSG_ID_COUNTER s; threads := threads s;
     issued_salts := issued_salts s; issued_ids := issued_ids s |}.

(** [PRIVACY_SALT_COUNTER.fetch_add(1).to_be_bytes()], returned to thread [t]. *)
Definition salt_fetch_add (s : Shared) (t : nat) : Shared :=
  {| PRIVACY_SALT_INIT := PRIVACY_SALT_INIT s;
     PRIVACY_SALT_COUNTER := (PRIVACY_SALT_COUNTER s + 1) mod 18446744073709551616;
     TRAP_MSG_ID_COUNTER := TRAP_MSG_ID_COUNTER s; threads := threads s;
     issued_salts := issued_salts s ++ [(t, to_be_bytes 8 (PRIVACY_SALT_COUNTER s))]; issued_ids := issued_ids s |}.

Inductive Action :=
| EnterSalt (* a thread calls [next_privacy_salt] *)
| TakeId (* a thread calls [next_sequential(&TRAP_MSG_ID_COUNTER)], one atomic action *)
| Run (e : Entropy). (* a thread inside [next_privacy_salt] does its next atomic action *)

(** Thread [t] does one atomic action; [None] when it cannot, which for a thread at
    [call_once] means that it is blocked while another thread initialises. *)
Definition thread_step (s : Shared) (t : nat) (a : Action) : option Shared :=
  match a, pc_of s t with
  | EnterSalt, Outside => Some (goto s t AtCallOnce)
  | TakeId, Outside =>
      let '(id, counter) := next_sequential (TRAP_MSG_ID_COUNTER s) in
      Some {| PRIVACY_SALT_INIT := PRIVACY_SALT_INIT s; PRIVACY_SALT_COUNTER := PRIVACY_SALT_COUNTER s;
              TRAP_MSG_ID_COUNTER := counter; threads := threads s;
              issued_salts := issued_salts s; issued_ids := issued_ids s ++ [(t, id)] |}
  | Run _, AtCallOnce =>
      match PRIVACY_SALT_INIT s with
      | OnceIncomplete => Some (goto (set_once s (OnceRunning t)) t AtStore)
      | OnceRunning _ => None
      | OnceComplete => Some (goto s t AtFetchAdd)
      end
  | Run e, AtStore => Some (goto (salt_store s (Z.lor (draw e) 1)) t AtComplete)
  | Run _, AtComplete => Some (goto (set_once s OnceComplete) t AtFetchAdd)
  | Run _, AtFetchAdd => Some (goto (salt_fetch_add s t) t Outside)
  | _, _ => None
  end.

(** The operating system yields octets, the hasher a [u64]. *)
Definition entropy_ok (e : Entropy) : Prop :=
  match filled e with Some b => length b = 8%nat /\ Forall is_u8 b | None => True end /\
  forall secs nanos, is_u64 (hasher_finish e secs nanos).

Definition action_ok (a : Action) : Prop := match a with Run e => entropy_ok e | _ => True end.

Inductive shared_step : Shared -> Shared -> Prop :=
| thread_steps s s' t a : action_ok a -> thread_step s t a = Some s' -> shared_step s s'.

(** A schedule, as far as every action in it is possible. *)
Definition run_schedule (schedule : list (nat * Action)) (s : Shared) : option Shared :=
  fold_left (fun acc '(t, a) => match acc with Some s => thread_step s t a | None => None end) schedule (Some s).

(** Actions left in a call. *)
Definition actions_left (p : Pc) : nat :=
  match p with Outside => 0 | AtCallOnce => 4 | AtStore => 3 | AtComplete => 2 | AtFetchAdd => 1 end.

(** ** The sequences in closed form *)

Lemma draw_u64 e : entropy_ok e -> is_u64 (draw e).
Proof.
  intros [Hf Hh]. unfold draw, random_u64, random_u64_from_hasher. destruct (filled e) as [b|].
  - destruct Hf as [Hl Hu]. pose proof (from_be_bytes_bound (rev b) (Forall_rev Hu)) as Hr.
    unfold len in Hr. rewrite length_rev, Hl in Hr. exact Hr.
  - destruct (default (0, 0) (wall_clock e)). apply Hh.
Qed.

Lemma salts_snoc n seed : forall st, is_u64 seed -> salt_state_ok st ->
  salts (S n) seed st = salts n seed st ++ [to_be_bytes 8 ((salt_counter seed st + Z.of_nat n) mod 18446744073709551616)].
Proof.
  induction n as [|n IH]; intros st Hs Hst; destruct (next_privacy_salt seed st) as [salt st'] eqn:E.
  - cbn [salts]. rewrite E. pose proof (salt_counter_u64 seed st Hs Hst).
    rewrite Z.add_0_r, Z.mod_small by done. unfold next_privacy_salt in E. by injection E as <- _.
  - destruct (next_privacy_salt_ok _ _ _ _ Hs Hst E) as (_ & _ & Hst' & _ & Hc).
    assert (Hu : forall m, salts (S m) seed st = salt :: salts m seed st') by (intros m; cbn [salts]; by rewrite E).
    rewrite !Hu, IH, Hc, Zplus_mod_idemp_l by done. cbn [app].
    by replace (salt_counter seed st + 1 + Z.of_nat n) with (salt_counter seed st + Z.of_nat (S n)) by lia.
Qed.

Lemma i32_wrap_id c : is_i32 c -> i32_wrap c = c.
Proof. intros Hc. unfold i32_wrap, is_i32 in *. rewrite Z.mod_small; lia. Qed.

Lemma i32_wrap_add a b : i32_wrap (i32_wrap a + b) = i32_wrap (a + b).
Proof. unfold i32_wrap. Z.div_mod_to_equations. lia. Qed.

Lemma i32_wrap_range a : is_i32 (i32_wrap a).
Proof. unfold i32_wrap, is_i32. Z.div_mod_to_equations. lia. Qed.

Lemma sequential_ids_snoc n : forall c, is_i32 c ->
  sequential_ids (S n) c = sequential_ids n c ++ [fst (next_sequential (i32_wrap (c + Z.of_nat n)))].
Proof.
  induction n as [|n IH]; intros c Hc.
  - cbn [sequential_ids]. by rewrite Z.add_0_r, i32_wrap_id.
  - change (sequential_ids (S (S n)) c) with (fst (next_sequential c) :: sequential_ids (S n) (i32_wrap (c + 1))).
    rewrite IH by apply i32_wrap_range. rewrite i32_wrap_add. cbn [sequential_ids next_sequential fst snd app].
    by replace (c + 1 + Z.of_nat n) with (c + Z.of_nat (S n)) by lia.
Qed.

(** ** Invariant *)

(** A thread that does not initialise is outside, waiting at [call_once] or, once the
    initialisation is over, about to increment. *)
Definition pc_allowed (o : Once) (t : nat) (p : Pc) : Prop :=
  match p with
  | Outside | AtCallOnce => o <> OnceRunning t
  | AtStore | AtComplete => o = OnceRunning t
  | AtFetchAdd => o = OnceComplete
  end.

(** The counter while [once] is in the given state, with [n] salts issued. *)
Definition counter_inv (seed : Z) (s : Shared) : Prop :=
  match PRIVACY_SALT_INIT s with
  | OnceIncomplete => issued_salts s = []
  | OnceRunning t => issued_salts s = [] /\ (pc_of s t = AtComplete -> PRIVACY_SALT_COUNTER s = Z.lor seed 1)
  | OnceComplete =>
      PRIVACY_SALT_COUNTER s = (Z.lor seed 1 + Z.of_nat (length (issued_salts s))) mod 18446744073709551616
  end.

Record shared_inv (s : Shared) : Prop := {
  si_pcs : forall t, pc_allowed (PRIVACY_SALT_INIT s) t (pc_of s t);
  si_salts : exists seed, is_u64 seed /\ counter_inv seed s /\
    (issued_salts s).*2 = salts (length (issued_salts s)) seed None;
  si_ids : TRAP_MSG_ID_COUNTER s = i32_wrap (1 + Z.of_nat (length (issued_ids s))) /\
    (issued_ids s).*2 = sequential_ids (length (issued_ids s)) 1;
}.

Lemma pc_of_goto s t p u : pc_of (goto s t p) u = if decide (u = t) then p else pc_of s u.
Proof.
  unfold pc_of, goto. cbn [threads]. destruct (decide (u = t)) as [->|Hn].
  - by rewrite lookup_insert_eq.
  - by rewrite lookup_insert_ne.
Qed.

Lemma shared_init_inv : shared_inv shared_init.
Proof.
  split.
  - intros t. unfold pc_of. cbn. rewrite lookup_empty. done.
  - exists 0. split_and!; [zrange|done|done].
  - done.
Qed.

(** Moving one thread keeps the others where the new state of [Once] allows them. *)
Lemma goto_allowed s t p o :
  (forall u, u <> t -> pc_allowed o u (pc_of s u)) -> pc_allowed o t p ->
  forall u, pc_allowed o u (pc_of (goto s t p) u).
Proof. intros Hu Ht u. rewrite pc_of_goto. destruct (decide (u = t)) as [->|]; [done|by apply Hu]. Qed.

Lemma thread_step_inv s t a s' :
  action_ok a -> thread_step s t a = Some s' -> shared_inv s -> shared_inv s'.
Proof.
  intros Ha HE [Hp (seed & Hs & Hc & Hl) [Hid Hids]]. pose proof (Hp t) as Ht. unfold thread_step in HE.
  destruct a as [| |e], (pc_of s t) eqn:Epc; cbn in Ha, Ht; try done.
  - injection HE as <-. split; [by apply goto_allowed| |done]. exists seed. split_and!; [done| |done].
    unfold counter_inv in *. cbn. destruct (PRIVACY_SALT_INIT s) as [|r|]; [done| |done]. destruct Hc as [Hn Hr].
    split; [done|]. rewrite pc_of_goto. by destruct (decide (r = t)).
  - destruct (next_sequential (TRAP_MSG_ID_COUNTER s)) as [id c] eqn:E. injection HE as <-. split; [done|by exists seed|].
    cbn. rewrite length_app, fmap_app, Nat.add_1_r, sequential_ids_snoc by zrange.
    rewrite <-Hid, E, Hids. split; [|done]. unfold next_sequential in E. injection E as _ <-. rewrite Hid, i32_wrap_add.
    f_equal. lia.
  - destruct (PRIVACY_SALT_INIT s) as [|r|] eqn:Eo; [| |]; [|done|].
    + injection HE as <-. split; [|exists seed; split_and!; [done| |done]|done].
      * apply goto_allowed; [|done]. intros u Hu. specialize (Hp u). change (pc_of (set_once s _) u) with (pc_of s u).
        cbn. destruct (pc_of s u); cbn in *; congruence.
      * unfold counter_inv in *. rewrite Eo in Hc. cbn. split; [done|]. rewrite pc_of_goto. by destruct (decide (t = t)).
    + injection HE as <-. split; [|exists seed; split_and!; [done| |done]|done].
      * cbn. rewrite Eo. by apply goto_allowed.
      * unfold counter_inv in *. cbn. by rewrite Eo in *.
  - injection HE as <-. split; [|exists (draw e); split_and!; [by apply draw_u64| |]|done].
    + cbn. rewrite Ht. apply goto_allowed; [|done]. intros u Hu. specialize (Hp u). by rewrite Ht in Hp.
    + unfold counter_inv in *. cbn. rewrite Ht in *. split; [tauto|done].
    + unfold counter_inv in Hc. rewrite Ht in Hc. destruct Hc as [Hn _]. cbn. by rewrite Hn.
  - injection HE as <-. unfold counter_inv in Hc. rewrite Ht in Hc. destruct Hc as [Hn Hc].
    split; [|exists seed; split_and!; [done| |done]|done].
    + apply goto_allowed; [|done]. intros u Hu. specialize (Hp u). change (pc_of (set_once s _) u) with (pc_of s u).
      rewrite Ht in Hp. cbn. destruct (pc_of s u); cbn in *; congruence.
    + unfold counter_inv. cbn. rewrite Hn, (Hc Epc). cbn.
      pose proof (salt_counter_u64 seed None Hs I) as Hu. cbn in Hu. rewrite Z.add_0_r, Z.mod_small; [done|exact Hu].
  - injection HE as <-. unfold counter_inv in Hc. rewrite Ht in Hc.
    split; [|exists seed; split_and!; [done| |]|done].
    + cbn. rewrite Ht. apply goto_allowed; [|done]. intros u Hu. specialize (Hp u). by rewrite Ht in Hp.
    + unfold counter_inv. cbn. rewrite Ht, Hc, length_app, Zplus_mod_idemp_l. f_equal. cbn. lia.
    + cbn. rewrite length_app, fmap_app, Nat.add_1_r, salts_snoc by done. cbn. by rewrite Hl, Hc.
Qed.

Lemma reachable_inv s : rtc shared_step shared_init s -> shared_inv s.
Proof.
  intros Hr. pose proof shared_init_inv as H0. revert H0. generalize shared_init Hr. clear Hr.
  intros s0 Hr. induction Hr as [|a b c Hab _ IH]; [done|]. intros Ha. apply IH.
  destruct Hab as [s1 s2 t act Hok HE]. by eapply thread_step_inv.
Qed.

(** No thread waits for nothing: when a thread is inside a call, some thread inside a
    call has an action to do. *)
Lemma some_thread_runs s t e :
  shared_inv s -> pc_of s t <> Outside -> exists u s', pc_of s u <> Outside /\ thread_step s u (Run e) = Some s'.
Proof.
  intros [Hp _ _] Ht. pose proof (Hp t) as H1. unfold thread_step.
  destruct (pc_of s t) eqn:Epc; [done| | | |]; try (exists t; rewrite Epc; by eexists).
  destruct (PRIVACY_SALT_INIT s) as [|r|] eqn:Eo; try (exists t; rewrite Epc; by eexists).
  exists r. specialize (Hp r). destruct (pc_of s r); cbn in *; try congruence; by eexists.
Qed.

Lemma run_action_decreases s t e s' :
  thread_step s t (Run e) = Some s' -> (actions_left (pc_of s' t) < actions_left (pc_of s t))%nat.
Proof.
  unfold thread_step. destruct (pc_of s t); intros HE; try done;
    [destruct (PRIVACY_SALT_INIT s); try done|..]; injection HE as <-; rewrite pc_of_goto;
    destruct (decide (t = t)); cbn; lia || done.
Qed.

(** ** Properties *)

(** Claim C14: the lock-free counters are linearisable.  In every state reachable by any
    number of threads under any schedule: the salts handed out, in the order of the
    increments, are those of as many calls in sequence from one seed (the initialisation
    ran at most once, and nobody incremented before it had finished), so up to 2^64 of
    them are pairwise distinct; likewise the message identifiers are those of as many
    sequential calls from 1, all between 0 and 2^31-1, and up to 2^31 of them pairwise
    distinct; and the calls terminate: when a thread is inside [next_privacy_salt], some
    thread inside it can do its next action, and each such action brings that thread
    closer to its return. *)
Theorem concurrent_counters_linearise (s : Shared) :
  rtc shared_step shared_init s ->
  (exists seed, is_u64 seed /\ (issued_salts s).*2 = salts (length (issued_salts s)) seed None) /\
  (Z.of_nat (length (issued_salts s)) <= 18446744073709551616 -> NoDup (issued_salts s).*2) /\
  (issued_ids s).*2 = sequential_ids (length (issued_ids s)) TRAP_MSG_ID_COUNTER_INIT /\
  Forall (fun id => 0 <= id <= I32_MAX) (issued_ids s).*2 /\
  (Z.of_nat (length (issued_ids s)) <= 2147483648 -> NoDup (issued_ids s).*2) /\
  (forall t e, pc_of s t <> Outside -> exists u s', pc_of s u <> Outside /\ thread_step s u (Run e) = Some s' /\
    (actions_left (pc_of s' u) < actions_left (pc_of s u))%nat).
Proof.
  intros Hr. pose proof (reachable_inv s Hr) as Hi. pose proof Hi as [_ (seed & Hs & _ & Hl) [_ Hids]].
  assert (H1 : is_i32 1) by zrange. split_and!.
  - by exists seed.
  - intros Hn. apply NoDup_alt. rewrite Hl. intros i j x E1 E2.
    exact (proj2 (salts_unique _ seed None i j x x Hs I Hn E1 E2) eq_refl).
  - done.
  - rewrite Hids. apply Forall_lookup. intros i x Hx. pose proof (lookup_lt_Some _ _ _ Hx) as Hlt.
    rewrite length_sequential_ids in Hlt. rewrite sequential_ids_lookup in Hx by done. injection Hx as <-.
    pose proof (Z.mod_pos_bound (1 + Z.of_nat i) 2147483648 ltac:(lia)). zrange.
  - intros Hn. apply NoDup_alt. rewrite Hids. intros i j x E1 E2.
    exact (proj2 (message_ids_fresh _ 1 i j x x H1 Hn E1 E2) eq_refl).
  - intros t e Ht. destruct (some_thread_runs s t e Hi Ht) as (u & s' & Hu & HE). exists u, s'.
    split_and!; [done|done|]. by eapply run_action_decreases.
Qed.

(** Two threads race: thread 1 is inside the initialisation when thread 2 arrives and
    has to wait. *)
Definition toy_entropy : Entropy := MkEntropy (Some [255; 255; 255; 255; 255; 255; 255; 255]) (fun _ _ => 7) None.
Definition toy_schedule : list (nat * Action) :=
  [(1%nat, EnterSalt); (2%nat, EnterSalt); (1%nat, Run toy_entropy); (3%nat, TakeId); (1%nat, Run toy_entropy);
   (1%nat, Run toy_entropy); (2%nat, Run toy_entropy); (2%nat, Run toy_entropy); (1%nat, Run toy_entropy); (1%nat, TakeId)].

Lemma toy_entropy_ok : entropy_ok toy_entropy.
Proof. split; [split; [reflexivity|refine (bool_decide_unpack _ _); vm_compute; exact I]|]. intros. cbn. zrange. Qed.

Lemma run_schedule_reachable schedule : forall s s', Forall (fun '(_, a) => action_ok a) schedule ->
  run_schedule schedule s = Some s' -> rtc shared_step s s'.
Proof.
  induction schedule as [|[t a] schedule IH]; intros s s' Hok HE; cbn in HE.
  - injection HE as <-. apply rtc_refl.
  - inversion Hok as [|? ? Ha Hrest]; subst. destruct (thread_step s t a) as [s1|] eqn:E.
    + eapply rtc_l; [by eapply thread_steps|]. by apply IH.
    + exfalso. clear -HE. induction schedule as [|[u b] schedule IH]; cbn in HE; [done|by apply IH].
Qed.

Lemma concurrent_counters_linearise_witness :
  exists s, run_schedule toy_schedule shared_init = Some s /\
    issued_salts s = [(2%nat, [255; 255; 255; 255; 255; 255; 255; 255]); (1%nat, [0; 0; 0; 0; 0; 0; 0; 0])] /\
    issued_ids s = [(3%nat, 1); (1%nat, 2)] /\ NoDup (issued_salts s).*2 /\ NoDup (issued_ids s).*2.
Proof.
  eexists. split; [vm_compute; reflexivity|]. split; [reflexivity|]. split; [reflexivity|].
  edestruct concurrent_counters_linearise as (_ & Hs & _ & _ & Hi & _);
    [apply (run_schedule_reachable toy_schedule); [|vm_compute; reflexivity]|].
  - repeat (apply Forall_cons; split; [first [exact I|exact toy_entropy_ok]|]). apply Forall_nil. exact I.
  - split; [apply Hs|apply Hi]; vm_compute; discriminate.
Defined.
