(* ===== verification/Secrets.v ===== *)
(** * The memory of key material: [src/src/usm/keys.rs], [src/src/usm/kdf.rs]

    [Usm] models keys as values; this file models the memory they live in, for the
    requirement that the agent zeroises every copy of key material before its memory is
    released.  A heap maps the blocks in use to their contents and records the contents
    of each piece of memory at the moment it was released; the digest that
    [finalise_into_secret_key] keeps on the stack is a block like the others.  The
    operations of [SecretKey] and the key derivation are repeated on blocks, with the
    allocator's choice, whether shrinking an allocation moves it, as an argument; the steps
    of a program are labelled with whether they moved a shortened key.

    The hasher's internal state is not modelled; the source documents that it cannot be
    cleared. *)

From stdpp Require Import gmap.
From S2P Require Import Prelude Usm.

(** ** Memory *)

Record Heap := MkHeap { live : gmap nat bytes; freed : list bytes; next_block : nat }.

Definition heap_empty : Heap := {| live := ∅; freed := []; next_block := 0 |}.

Definition contents (h : Heap) (id : nat) : bytes := default [] (live h !! id).

Definition alloc (b : bytes) (h : Heap) : nat * Heap :=
  (next_block h, {| live := <[next_block h := b]> (live h); freed := freed h; next_block := S (next_block h) |}).

Definition write (id : nat) (b : bytes) (h : Heap) : Heap :=
  {| live := <[id := b]> (live h); freed := freed h; next_block := next_block h |}.

Definition free (id : nat) (h : Heap) : Heap :=
  {| live := delete id (live h); freed := freed h ++ [contents h id]; next_block := next_block h |}.

(** [Vec::into_boxed_slice] of a vector whose length is [n]: an allocation of another
    size is shrunk, in place (the tail goes back) or by moving it (the whole block does). *)
Definition into_boxed_slice (moves : bool) (id n : nat) (h : Heap) : nat * Heap :=
  let c := contents h id in
  if (n =? length c)%nat then (id, h)
  else if moves then let '(id', h) := alloc (take n c) h in (id', free id h)
  else (id, {| live := <[id := take n c]> (live h); freed := freed h ++ [drop n c]; next_block := next_block h |}).

(** ** keys.rs on memory *)

(** [zeroize_slice] of the part of a block from [n] on. *)
Definition zeroize_from (id n : nat) (h : Heap) : Heap :=
  write id (take n (contents h id) ++ zeroize_slice (drop n (contents h id))) h.

Definition key_new_from_exposed_slice (b : bytes) (h : Heap) : nat * Heap := alloc b h.
Definition key_zeroed (n : Z) (h : Heap) : nat * Heap := alloc (replicate (Z.to_nat n) 0) h.

(** [None] is the panic. *)
Definition key_truncate (moves : bool) (id : nat) (new_len : Z) (h : Heap) : option (nat * Heap) :=
  if new_len <=? len (contents h id) then
    let n := Z.to_nat new_len in
    let h := zeroize_from id n h in
    Some (into_boxed_slice moves id n h)
  else None.

(** [Drop for SecretKey], then the release of the box. *)
Definition key_drop (id : nat) (h : Heap) : Heap := free id (zeroize_from id 0 h).

(** ** kdf.rs on memory *)

Section Kdf.
  Context `{CryptoOps}.

(** [digest] is a local of the function: its memory is released when it returns. *)
Definition finalise_into_secret_key_mem (p : AuthProtocol) (hasher : bytes) (h : Heap) : nat * Heap :=
  let '(local, h) := alloc (digest p hasher) h in
  let '(key, h) := key_zeroed (len (contents h local)) h in
  let h := write key (contents h local) h in
  let h := zeroize_from local 0 h in
  (key, free local h).

Definition localise_key_mem (key : nat) (engine_id : bytes) (p : AuthProtocol) (h : Heap) : nat * Heap :=
  let k := contents h key in
  finalise_into_secret_key_mem p (hasher_update (hasher_update (hasher_update [] k) engine_id) k) h.

(** The local [master_key] is dropped on return. *)
Definition password_to_localised_key_mem (moves : bool) (password engine_id : bytes) (p : AuthProtocol) (h : Heap)
    : option (result nat KdfError * Heap) :=
  if is_nil password then Some (Err EmptyPassword, h)
  else if len password <? 8 then Some (Err (PasswordTooShort (len password)), h)
  else
    let '(master_key, h) := finalise_into_secret_key_mem p (kdf_stream password) h in
    let '(localised, h) := localise_key_mem master_key engine_id p h in
    '(localised, h) ← key_truncate moves localised (auth_key_len p) h;
    Some (Ok localised, key_drop master_key h).

End Kdf.

(** The privacy key that [From<AuthPrivUser> for UsmUser] copies out of the
    authentication key; [None] is the panic of [expect]. *)
Definition priv_key_mem (auth_key : nat) (pp : PrivProtocol) (h : Heap) : option (nat * Heap) :=
  priv_key_bytes ← get_range (contents h auth_key) 0 (priv_key_len pp);
  Some (key_new_from_exposed_slice priv_key_bytes h).

(** ** What a program can do with keys *)

(** The operations on keys in use, whatever the allocator does when a block is shrunk.  The
    label says that the step moved a block: a key was shortened and its old block released. *)
Inductive key_step `{CryptoOps} : bool -> Heap -> Heap -> Prop :=
| ks_new h b : key_step false h (snd (key_new_from_exposed_slice b h))
| ks_zeroed h n : key_step false h (snd (key_zeroed n h))
| ks_as_bytes_mut h id b : is_Some (live h !! id) -> length b = length (contents h id) -> key_step false h (write id b h)
| ks_truncate h moves id n id' h' : is_Some (live h !! id) -> key_truncate moves id n h = Some (id', h') ->
    key_step (moves && (n <? len (contents h id))) h h'
| ks_derive h moves password engine_id p r h' :
    password_to_localised_key_mem moves password engine_id p h = Some (r, h') -> key_step false h h'
| ks_priv h id pp id' h' : is_Some (live h !! id) -> priv_key_mem id pp h = Some (id', h') -> key_step false h h'
| ks_drop h id : is_Some (live h !! id) -> key_step false h (key_drop id h).

Definition any_key_step `{CryptoOps} (h h' : Heap) : Prop := exists moved, key_step moved h h'.

(** ** Facts *)

Definition heap_fresh (h : Heap) : Prop := forall id, (next_block h <= id)%nat -> live h !! id = None.
Definition no_secrets (released : list bytes) : Prop := Forall (Forall (eq 0)) released.

Lemma zeros_are_zero n : Forall (eq 0) (replicate n 0).
Proof. by apply Forall_replicate. Qed.

Lemma contents_write id b h : contents (write id b h) id = b.
Proof. unfold contents, write. cbn. by rewrite lookup_insert_eq. Qed.

(** What a step releases: nothing but zeros unless it moved a block. *)
Definition releases (moved : bool) (h h' : Heap) : Prop :=
  exists released, freed h' = freed h ++ released /\ (moved = false -> no_secrets released).

Lemma releases_nothing moved h h' : freed h' = freed h -> releases moved h h'.
Proof. intros E. exists []. rewrite app_nil_r. split; [done|constructor]. Qed.

Lemma releases_zeros moved h h' n : freed h' = freed h ++ [replicate n 0] -> releases moved h h'.
Proof. intros E. eexists. split; [exact E|]. intros _. repeat constructor. apply zeros_are_zero. Qed.

Lemma releases_trans h1 h2 h3 : releases false h1 h2 -> releases false h2 h3 -> releases false h1 h3.
Proof.
  intros (r1 & E1 & H1) (r2 & E2 & H2). exists (r1 ++ r2). rewrite E2, E1, app_assoc. split; [done|]. intros _.
  apply Forall_app. split; [by apply H1|by apply H2].
Qed.

Lemma releases_safe h h' : releases false h h' -> no_secrets (freed h) -> no_secrets (freed h').
Proof. intros (r & -> & Hr) Hz. apply Forall_app. split; [done|by apply Hr]. Qed.

Lemma alloc_fresh b h : heap_fresh h -> heap_fresh (snd (alloc b h)).
Proof. intros Hf id Hid. cbn in *. rewrite lookup_insert_ne by lia. apply Hf. lia. Qed.

Lemma write_fresh id b h : heap_fresh h -> is_Some (live h !! id) -> heap_fresh (write id b h).
Proof.
  intros Hf [c Hc] j Hj. cbn in *. rewrite lookup_insert_ne; [by apply Hf|]. intros ->. rewrite Hf in Hc by lia. done.
Qed.

Lemma free_fresh id h : heap_fresh h -> heap_fresh (free id h).
Proof. intros Hf j Hj. cbn in *. rewrite lookup_delete_None. right. by apply Hf. Qed.

Lemma zeroize_from_contents id n h :
  contents (zeroize_from id n h) id = take n (contents h id) ++ replicate (length (contents h id) - n) 0.
Proof. unfold zeroize_from. by rewrite contents_write, zeroize_slice_zeros, length_drop. Qed.

(** Dropping a key releases its block, all zeros, and nothing else. *)
Lemma key_drop_spec id h :
  live (key_drop id h) = delete id (live h) /\ freed (key_drop id h) = freed h ++ [replicate (length (contents h id)) 0].
Proof.
  unfold key_drop, free. cbn [live freed]. rewrite zeroize_from_contents, take_0, Nat.sub_0_r. cbn.
  by rewrite delete_insert_eq.
Qed.

(** Truncation leaves the key's prefix, and releases only zeros unless it shortens the key
    by moving its block. *)
Lemma key_truncate_spec moves id n h id' h' :
  heap_fresh h -> is_Some (live h !! id) -> key_truncate moves id n h = Some (id', h') ->
  heap_fresh h' /\ contents h' id' = take (Z.to_nat n) (contents h id) /\ releases (moves && (n <? len (contents h id))) h h'.
Proof.
  intros Hf Hid HE. unfold key_truncate in HE. destruct (Z.leb_spec n (len (contents h id))) as [Hn|]; [|done].
  injection HE as HE. set (k := Z.to_nat n) in *. assert (Hk : (k <= length (contents h id))%nat) by (unfold len in Hn; lia).
  unfold into_boxed_slice in HE. rewrite zeroize_from_contents in HE.
  assert (Hl : length (take k (contents h id)) = k) by (rewrite length_take; lia).
  rewrite length_app, Hl, length_replicate in HE. rewrite take_app_le, take_ge, drop_app_ge in HE by lia.
  rewrite Hl, Nat.sub_diag, drop_0 in HE.
  assert (Hfz : heap_fresh (zeroize_from id k h)) by (by apply write_fresh).
  destruct (Nat.eqb_spec k (k + (length (contents h id) - k))) as [Ek|Ek]; [|destruct moves]; injection HE as <- <-.
  - split_and!; [done| |by apply releases_nothing]. rewrite zeroize_from_contents. rewrite take_ge by lia.
    replace (length (contents h id) - k)%nat with 0%nat by lia. apply app_nil_r.
  - assert (Hne : next_block h <> id) by (intros <-; destruct Hid as [c Hc]; by rewrite Hf in Hc by lia). split_and!.
    + by apply free_fresh, (alloc_fresh _ (zeroize_from id k h)).
    + unfold contents at 1. cbn. by rewrite lookup_delete_ne, lookup_insert_eq by done.
    + eexists. split; [reflexivity|]. intros [=Hb%Z.ltb_ge]. unfold len in *. lia.
  - split_and!.
    + intros j Hj. cbn in Hj |- *. destruct Hid as [c Hc]. rewrite !lookup_insert_ne; [by apply Hf|..];
        intros ->; rewrite Hf in Hc by lia; done.
    + unfold contents at 1. cbn. by rewrite lookup_insert_eq.
    + by eapply releases_zeros.
Qed.

Section Derivation.
  Context `{CryptoOps, !CryptoLaws}.

Lemma finalise_mem_spec p m h : heap_fresh h ->
  exists key h', finalise_into_secret_key_mem p m h = (key, h') /\ live h' = <[key := digest p m]> (live h) /\
    live h !! key = None /\ freed h' = freed h ++ [replicate (length (digest p m)) 0] /\ heap_fresh h'.
Proof.
  intros Hf. unfold finalise_into_secret_key_mem, key_zeroed. cbn [alloc fst snd].
  set (d := digest p m). set (n := next_block h). eexists (S n), _. split; [reflexivity|].
  assert (Hn : S n <> n) by lia. unfold free, zeroize_from, write, contents. cbn.
  repeat rewrite ?lookup_insert_eq, ?(lookup_insert_ne _ (S n) n), ?(lookup_insert_ne _ n (S n)) by lia. cbn.
  rewrite !drop_0. fold (zeroize_slice d). rewrite zeroize_slice_zeros, delete_insert_eq, take_0. split_and!.
  - rewrite insert_insert_eq, delete_insert_ne, delete_insert_eq, delete_id by (lia || apply Hf; lia). done.
  - apply Hf. lia.
  - done.
  - intros id Hid. cbn in Hid |- *. rewrite lookup_delete_None. right. rewrite !lookup_insert_ne by lia. apply Hf. lia.
Qed.

(** Key derivation on memory computes what it computes on values, whatever the
    allocator does: the digest already has the key's length, so nothing is shrunk. *)
Lemma derive_mem_spec moves password engine_id p h : heap_fresh h ->
  match password_to_localised_key password engine_id p with
  | Some (Ok k) => exists key h',
      password_to_localised_key_mem moves password engine_id p h = Some (Ok key, h') /\
      live h' = <[key := as_bytes k]> (live h) /\ live h !! key = None /\ heap_fresh h' /\
      releases false h h'
  | Some (Err e) => password_to_localised_key_mem moves password engine_id p h = Some (Err e, h)
  | None => False
  end.
Proof.
  intros Hf. unfold password_to_localised_key, password_to_localised_key_mem.
  destruct (is_nil password); [done|]. destruct (len password <? 8); [done|].
  unfold localise_key, localise_key_mem. rewrite !finalise_digest.
  destruct (finalise_mem_spec p (kdf_stream password) h Hf) as (k1 & h1 & -> & L1 & N1 & F1 & Hf1).
  assert (Ec : contents h1 k1 = digest p (kdf_stream password)) by (unfold contents; by rewrite L1, lookup_insert_eq).
  rewrite Ec. set (m := hasher_update _ _).
  destruct (finalise_mem_spec p m h1 Hf1) as (k2 & h2 & -> & L2 & N2 & F2 & Hf2).
  assert (Ec2 : contents h2 k2 = digest p m) by (unfold contents; by rewrite L2, lookup_insert_eq).
  assert (Hl : length (digest p m) = Z.to_nat (auth_key_len p)) by (pose proof (digest_len p m); unfold len in *; lia).
  unfold truncate. rewrite finalise_digest, digest_len. btrue (auth_key_len p <=? auth_key_len p). cbn [mbind option_bind as_bytes].
  unfold key_truncate. rewrite Ec2, digest_len. btrue (auth_key_len p <=? auth_key_len p). cbn [mbind option_bind].
  unfold into_boxed_slice. rewrite zeroize_from_contents, Ec2, Hl, Nat.sub_diag, app_nil_r, length_take, Hl, Nat.min_id.
  rewrite Nat.eqb_refl. cbn beta iota.
  assert (Hne : k1 <> k2) by (intros ->; rewrite L1, lookup_insert_eq in N2; done).
  assert (H3 : live (zeroize_from k2 (Z.to_nat (auth_key_len p)) h2) = <[k2 := digest p m]> (<[k1 := digest p (kdf_stream password)]> (live h))).
  { unfold zeroize_from, write. cbn [live]. rewrite Ec2, zeroize_slice_zeros, length_drop, Hl, Nat.sub_diag, app_nil_r, take_ge by lia.
    by rewrite L2, L1, insert_insert_eq. }
  assert (Hf3 : heap_fresh (zeroize_from k2 (Z.to_nat (auth_key_len p)) h2)).
  { apply write_fresh; [done|]. rewrite L2, lookup_insert_eq. by eexists. }
  eexists k2, _. split; [reflexivity|]. destruct (key_drop_spec k1 (zeroize_from k2 (Z.to_nat (auth_key_len p)) h2)) as [D1 D2].
  split_and!.
  - rewrite D1, H3, take_ge by lia. rewrite delete_insert_ne, delete_insert_eq, delete_id by done. done.
  - by rewrite L1, lookup_insert_ne in N2.
  - apply free_fresh, write_fresh; [done|]. rewrite H3, lookup_insert_ne, lookup_insert_eq by done. by eexists.
  - apply (releases_trans h h1); [by eapply releases_zeros|]. apply (releases_trans h1 h2); [by eapply releases_zeros|].
    by eapply releases_zeros.
Qed.

Lemma key_step_releases moved h h' : key_step moved h h' -> heap_fresh h -> heap_fresh h' /\ releases moved h h'.
Proof.
  intros Hs Hf. destruct Hs as [h b|h n|h id b Hid Hl|h moves id n id' h' Hid HE|h moves pw e p r h' HE|h id pp id' h' Hid HE|h id Hid].
  - split; [by apply alloc_fresh|by apply releases_nothing].
  - split; [by apply alloc_fresh|by apply releases_nothing].
  - split; [by apply write_fresh|by apply releases_nothing].
  - by destruct (key_truncate_spec _ _ _ _ _ _ Hf Hid HE) as (H1 & _ & H2).
  - pose proof (derive_mem_spec moves pw e p h Hf) as Hd.
    destruct (password_to_localised_key pw e p) as [[k|err]|]; [| |done].
    + destruct Hd as (key & h2 & E & _ & _ & Hf2 & Hr). rewrite HE in E. by injection E as -> ->.
    + rewrite HE in Hd. injection Hd as -> ->. split; [done|by apply releases_nothing].
  - unfold priv_key_mem in HE. destruct (get_range _ _ _) as [b|]; [|done]. cbn in HE. injection HE as <- <-.
    split; [by apply (alloc_fresh b)|by apply releases_nothing].
  - split; [by apply free_fresh, write_fresh|]. eapply releases_zeros, key_drop_spec.
Qed.

Lemma any_steps_fresh h : rtc any_key_step heap_empty h -> heap_fresh h.
Proof.
  intros Hr. assert (H1 : heap_fresh heap_empty) by (by intros id _). revert H1. generalize heap_empty Hr. clear Hr.
  intros h0 Hr. induction Hr as [|a b c [moved Hab] _ IH]; [done|]. intros Ha. apply IH. by eapply key_step_releases.
Qed.

Lemma unmoved_steps_safe h : rtc (key_step false) heap_empty h -> no_secrets (freed h).
Proof.
  intros Hr. assert (H1 : heap_fresh heap_empty) by (by intros id _). assert (H2 : no_secrets (freed heap_empty)) by constructor.
  revert H1 H2. generalize heap_empty Hr. clear Hr. intros h0 Hr. induction Hr as [|a b c Hab _ IH]; [done|].
  intros Hf Hz. destruct (key_step_releases _ _ _ Hab Hf) as [Hf' Hr]. apply IH; [done|by eapply releases_safe].
Qed.

(** ** Properties *)

(** Claim C19: key material is zeroised before its memory is released.  After any sequence
    of key operations (creating, filling, truncating, deriving from a password, copying out
    a privacy key, dropping) in which no truncation shortens a key by moving its block to
    another place, every octet of memory released so far held zero at its release.
    And from any state that key operations can reach, whatever the allocator has done and
    does, deriving a key computes the key that the derivation on values yields,
    leaves it as the only new block in use (the master key and the digests are gone) and
    releases only zeros; dropping a key releases its block as zeros. *)
Theorem key_memory_is_zeroised (h : Heap) (moves : bool) (password engine_id : bytes) (p : AuthProtocol) (k : SecretKey) (id : nat) :
  rtc any_key_step heap_empty h ->
  (rtc (key_step false) heap_empty h -> no_secrets (freed h)) /\
  (password_to_localised_key password engine_id p = Some (Ok k) -> exists key h' released,
     password_to_localised_key_mem moves password engine_id p h = Some (Ok key, h') /\
     live h' = <[key := as_bytes k]> (live h) /\ live h !! key = None /\
     freed h' = freed h ++ released /\ no_secrets released) /\
  live (key_drop id h) = delete id (live h) /\ freed (key_drop id h) = freed h ++ [replicate (length (contents h id)) 0].
Proof.
  intros Hr. pose proof (any_steps_fresh h Hr) as Hf. split_and!; [apply unmoved_steps_safe| |apply key_drop_spec..].
  intros E. pose proof (derive_mem_spec moves password engine_id p h Hf) as Hd. rewrite E in Hd.
  destruct Hd as (key & h' & E' & L & N & _ & released & Ef & Hz). exists key, h', released. split_and!; [done..|by apply Hz].
Qed.

End Derivation.

(** An allocator may also shrink a block by moving it; [truncate] has then cleared only
    the tail of the block it releases, and the key's own octets stay behind in it. *)
Theorem moving_shrink_leaves_key (prefix tail : bytes) :
  tail <> [] ->
  let '(id, h) := key_new_from_exposed_slice (prefix ++ tail) heap_empty in
  exists id' h', key_truncate true id (len prefix) h = Some (id', h') /\ contents h' id' = prefix /\
    freed h' = [prefix ++ replicate (length tail) 0].
Proof.
  intros Ht. cbn -[take]. unfold key_truncate.
  set (h := {| live := _; freed := _; next_block := _ |}).
  assert (Ec : contents h 0 = prefix ++ tail) by reflexivity. rewrite Ec, len_app.
  pose proof (len_nonneg tail). btrue (len prefix <=? len prefix + len tail).
  eexists _, _. split; [apply f_equal, surjective_pairing|]. unfold len. rewrite Nat2Z.id. unfold into_boxed_slice.
  rewrite zeroize_from_contents, Ec, take_app_length, !length_app, length_replicate.
  replace (length prefix + length tail - length prefix)%nat with (length tail) by lia.
  destruct (Nat.eqb_spec (length prefix) (length prefix + length tail)); [destruct tail; cbn in *; [done|lia]|].
  rewrite take_app_length. cbn [alloc fst snd].
  assert (Hnb : next_block (zeroize_from 0 (length prefix) h) = 1%nat) by reflexivity. rewrite Hnb. split.
  - unfold contents, free. cbn [live]. by rewrite lookup_delete_ne, lookup_insert_eq by done.
  - unfold free. cbn [freed]. cbn [zeroize_from write freed h app]. do 2 f_equal.
    unfold contents at 1. cbn [live]. rewrite lookup_insert_ne by done.
    change (default [] (live (zeroize_from 0 (length prefix) h) !! 0%nat)) with (contents (zeroize_from 0 (length prefix) h) 0).
    rewrite zeroize_from_contents, Ec, take_app_length, length_app. do 2 f_equal. lia.
Qed.

(** A key is created, truncated in place and dropped. *)
Definition demo_key : Heap := snd (key_new_from_exposed_slice [1; 2; 3; 4] heap_empty).
Definition demo_truncated : Heap := match key_truncate false 0 3 demo_key with Some (_, h) => h | None => heap_empty end.
Definition demo_dropped : Heap := key_drop 0 demo_truncated.

Lemma key_memory_is_zeroised_witness :
  contents demo_truncated 0 = [1; 2; 3] /\ freed demo_dropped = [[0]; [0; 0; 0]] /\ no_secrets (freed demo_dropped).
Proof.
  split; [reflexivity|]. split; [reflexivity|].
  assert (Hr : rtc (@key_step ToyCrypto.ops false) heap_empty demo_dropped).
  { eapply rtc_l; [exact (@ks_new ToyCrypto.ops heap_empty [1; 2; 3; 4])|].
    eapply rtc_l; [exact (@ks_truncate ToyCrypto.ops demo_key false 0 3 0 demo_truncated ltac:(eexists; reflexivity) eq_refl)|].
    apply rtc_once. apply ks_drop. eexists. reflexivity. }
  apply (@key_memory_is_zeroised ToyCrypto.ops ToyCrypto.laws demo_dropped false [] [] HmacSha256 (zeroed 0) 0); [|exact Hr].
  eapply (rtc_subrel (@key_step ToyCrypto.ops false)); [|exact Hr]. intros a b Hab. by exists false.
Defined.
