(* ===== verification/Render.v ===== *)
(** * Printed forms: the [Display] and [Debug] implementations of the USM types

    What the library prints of keys, users and the errors of [src/src/usm] and
    [src/src/codec/pdu/types.rs], as UTF-8 octets ([{}] and [{:?}] without the alternate
    flag).  [Debug] of a string, which escapes by the Unicode tables of the standard
    library, is a parameter.  The result is that a printed form never depends on the
    octets of a key or a password. *)

From S2P Require Import Prelude Oid Usm Types.

(** ** Identifiers and errors *)

Definition id_fmt (id : Z) : bytes := show_i32 id.

Definition invalid_error_status_fmt (e : InvalidErrorStatus) : bytes :=
  str "invalid SNMP error-status code: " ++ show_i32 (invalid_code e).

Definition security_model_fmt (m : SecurityModel) : bytes :=
  if m =? SecurityModel_USM then str "USM(3)" else str "unknown(" ++ show_i32 m ++ str ")".

Definition decode_error_kind_fmt (k : DecodeErrorKind) : bytes :=
  match k with
  | KindBer => str "BER decode failure"
  | UnsupportedPduType => str "unsupported PDU type"
  | InvalidOid => str "invalid OID"
  | WrongVersion => str "wrong SNMP version"
  end.

Definition kdf_error_fmt (e : KdfError) : bytes :=
  match e with
  | EmptyPassword => str "USM password must not be empty per RFC 3414"
  | PasswordTooShort length => str "USM password must be at least 8 bytes per RFC 3414 §11.2, got " ++ show_u64 length
  end.

Definition auth_error_fmt (e : AuthError) : bytes :=
  match e with
  | AuthInvalidKeyLength expected actual =>
      str "invalid authentication key length: expected " ++ show_u64 expected ++ str " bytes, got " ++ show_u64 actual
  | AuthInvalidMacLength expected actual =>
      str "invalid MAC length: expected " ++ show_u64 expected ++ str " bytes, got " ++ show_u64 actual
  | MacMismatch => str "authentication MAC mismatch"
  | HmacInitialisation => str "HMAC initialisation failed"
  end.

Definition priv_error_fmt (e : PrivError) : bytes :=
  match e with
  | PrivInvalidKeyLength expected actual =>
      str "invalid privacy key length: expected " ++ show_u64 expected ++ str " bytes, got " ++ show_u64 actual
  | CipherInitialisation => str "cipher initialisation failed"
  end.

Definition invalid_user_name_fmt (e : InvalidUserNameError) : bytes :=
  match e with
  | UserNameEmpty => str "USM user name must not be empty per RFC 3414"
  | UserNameOverlong length =>
      str "USM user name length " ++ show_u64 length ++ str " exceeds the RFC 3414 maximum of " ++
      show_u64 UserName_MAX_LENGTH ++ str " octets"
  end.

Definition invalid_key_length_fmt (e : InvalidKeyLength) : bytes :=
  str "invalid key length: expected " ++ show_u64 (ikl_expected e) ++ str " bytes, got " ++ show_u64 (ikl_actual e).

(** [{:02x}] *)
Definition hex_digit_lower (d : Z) : Z := if d <? 10 then 48 + d else 87 + d.

Definition invalid_msg_flags_fmt (e : InvalidMsgFlags) : bytes :=
  str "invalid msgFlags 0x" ++ [hex_digit_lower (invalid_flags e / 16); hex_digit_lower (invalid_flags e mod 16)] ++
  str ": privFlag set without authFlag (RFC 3412 §7.1.2a)".

Definition invalid_engine_id_length_fmt (e : InvalidEngineIdLength) : bytes :=
  str "engine ID length " ++ show_u64 (actual_len e) ++
  str " is invalid: must be between 5 and 32 octets (RFC 3411 §5)".

(** The argument is the error's length field. *)
Definition invalid_priv_salt_length_fmt (actual : Z) : bytes :=
  str "privacy salt length " ++ show_u64 actual ++ str " is invalid: must be exactly 8 octets (RFC 3826 §2.2)".

(** ** Keys and users *)

Definition secret_key_debug (k : SecretKey) : bytes :=
  str "SecretKey([REDACTED; " ++ show_u64 (key_size k) ++ str "])".

Definition user_name_fmt (n : UserName) : bytes := user_name_bytes n.
Definition usm_user_fmt (u : UsmUser) : bytes := user_name_fmt (user_name u).
Definition auth_no_priv_fmt (u : AuthNoPrivUser) : bytes := user_name_fmt (anp_name u).
Definition auth_priv_fmt (u : AuthPrivUser) : bytes := user_name_fmt (ap_name u).

(** Derived [Debug] of the protocols. *)
Definition auth_protocol_debug (p : AuthProtocol) : bytes :=
  match p with HmacSha256 => str "HmacSha256" | HmacSha512 => str "HmacSha512" end.
Definition priv_protocol_debug (p : PrivProtocol) : bytes :=
  match p with Aes128 => str "Aes128" | Aes256 => str "Aes256" end.

Section Debug.
  Variable debug_str : bytes -> bytes.

Definition user_name_debug (n : UserName) : bytes := str "UserName(" ++ debug_str (user_name_bytes n) ++ str ")".

(** [Formatter::debug_struct] with its fields. *)
Definition debug_struct (name : bytes) (fields : list (bytes * bytes)) : bytes :=
  match fields with
  | [] => name
  | (f, v) :: rest =>
      name ++ str " { " ++ f ++ str ": " ++ v ++
      concat ((fun '(f, v) => str ", " ++ f ++ str ": " ++ v) <$> rest) ++ str " }"
  end.

Definition auth_no_priv_debug (u : AuthNoPrivUser) : bytes :=
  debug_struct (str "AuthNoPrivUser")
    [(str "name", user_name_debug (anp_name u));
     (str "auth_protocol", auth_protocol_debug (anp_auth_protocol u));
     (str "auth_key", debug_str (str "[REDACTED]"))].

Definition auth_priv_debug (u : AuthPrivUser) : bytes :=
  debug_struct (str "AuthPrivUser")
    [(str "name", user_name_debug (ap_name u));
     (str "auth_protocol", auth_protocol_debug (ap_auth_protocol u));
     (str "auth_key", debug_str (str "[REDACTED]"));
     (str "priv_protocol", priv_protocol_debug (ap_priv_protocol u))].

(** ** What an operation on a secret prints *)

(** The printed forms of a result: those of the value, or that of the error. *)
Definition printed {A E} (ok : A -> list bytes) (err : E -> bytes) (r : result A E) : list bytes :=
  match r with Ok a => ok a | Err e => [err e] end.

Definition print_auth_no_priv_user (name : UserName) (p : AuthProtocol) (k : SecretKey) : list bytes :=
  printed (fun u => [auth_no_priv_fmt u; auth_no_priv_debug u; usm_user_fmt (auth_no_priv_into_user u)])
    invalid_key_length_fmt (auth_no_priv_new name p k).

Definition print_auth_priv_user (name : UserName) (p : AuthProtocol) (k : SecretKey) (pp : PrivProtocol) : list bytes :=
  printed (fun u => [auth_priv_fmt u; auth_priv_debug u] ++ option_list (usm_user_fmt <$> auth_priv_into_user u))
    invalid_key_length_fmt (auth_priv_new name p k pp).

Section Secrets.
  Context `{CryptoOps, !CryptoLaws}.

Definition print_mac (p : AuthProtocol) (k : SecretKey) (m : bytes) : list bytes :=
  printed (fun _ => []) auth_error_fmt (compute_mac p k m).

Definition print_encrypt (p : PrivProtocol) (k : SecretKey) (iv m : bytes) : list bytes :=
  printed (fun _ => []) priv_error_fmt (encrypt p k iv m).

Definition print_derive (p : AuthProtocol) (password engine_id : bytes) : option (list bytes) :=
  printed (fun k => [secret_key_debug k]) kdf_error_fmt <$> password_to_localised_key password engine_id p.

Lemma into_user_prints name p pp k :
  key_size k = auth_key_len p -> usm_user_fmt <$> auth_priv_into_user (MkAuthPrivUser name p k pp) = Some (user_name_bytes name).
Proof.
  intros E. destruct (auth_priv_into_user_ok (MkAuthPrivUser name p k pp) E) as (u & -> & _ & _ & Hn & _).
  cbn. unfold usm_user_fmt. by rewrite Hn.
Qed.

(** Claim C20: printing reveals no key material.  For any two keys of the same length, what
    is printed of the keys, of the users built from them (or of the error when the
    length is wrong), of their conversions, and of failed MAC computations and
    encryptions with them is the same; so is what is printed of the keys derived from
    any two passwords of the same length, or of the error when they are too short. *)
Theorem printing_reveals_no_key (k1 k2 : SecretKey) (pw1 pw2 engine_id : bytes) (name : UserName) (p : AuthProtocol)
    (pp : PrivProtocol) (m iv : bytes) :
  len (as_bytes k1) = len (as_bytes k2) -> len pw1 = len pw2 -> len iv = 16 ->
  secret_key_debug k1 = secret_key_debug k2 /\
  print_auth_no_priv_user name p k1 = print_auth_no_priv_user name p k2 /\
  print_auth_priv_user name p k1 pp = print_auth_priv_user name p k2 pp /\
  print_mac p k1 m = print_mac p k2 m /\ print_encrypt pp k1 iv m = print_encrypt pp k2 iv m /\
  print_derive p pw1 engine_id = print_derive p pw2 engine_id.
Proof.
  intros Hk Hpw Hiv. assert (Hs : key_size k1 = key_size k2) by exact Hk. split_and!.
  - unfold secret_key_debug. by rewrite Hs.
  - unfold print_auth_no_priv_user, auth_no_priv_new, validate_auth_key_length. rewrite Hs. by destruct (negb _).
  - unfold print_auth_priv_user, auth_priv_new, validate_auth_key_length. rewrite Hs.
    destruct (Z.eqb_spec (key_size k2) (auth_key_len p)) as [E|]; [|done]. cbn [negb printed].
    rewrite !into_user_prints by congruence. done.
  - unfold print_mac, compute_mac. rewrite Hs. destruct (negb _); [done|].
    assert (Ht : forall k, exists t, hmac p k m = Some t)
      by (intros k; destruct p; [destruct (hmac_sha256_total k m) as (t & E & _)|destruct (hmac_sha512_total k m) as (t & E & _)]; by exists t).
    destruct (Ht (as_bytes k1)) as [t1 ->], (Ht (as_bytes k2)) as [t2 ->]. done.
  - unfold print_encrypt, encrypt. rewrite Hs. destruct (Z.eqb_spec (key_size k2) (priv_key_len pp)) as [E|]; [|done]. cbn [negb].
    assert (Ht : forall k, len k = priv_key_len pp -> exists ct,
      match pp with Aes128 => aes128_cfb_encrypt k iv m | Aes256 => aes256_cfb_encrypt k iv m end = Some ct).
    { intros k Hl. destruct pp; [destruct (cfb_encrypt_total _ _ _ aes128_laws k iv m Hl Hiv) as (ct & Ec & _)
        |destruct (cfb_encrypt_total _ _ _ aes256_laws k iv m Hl Hiv) as (ct & Ec & _)]; by exists ct. }
    unfold key_size in *. destruct (Ht (as_bytes k1) ltac:(congruence)) as [c1 ->], (Ht (as_bytes k2) E) as [c2 ->]. done.
  - unfold print_derive. rewrite !password_to_localised_key_value, Hpw.
    replace (is_nil pw1) with (is_nil pw2) by (destruct pw1, pw2; try done; rewrite len_nil, len_cons in Hpw; pose proof (len_nonneg pw1); pose proof (len_nonneg pw2); lia).
    destruct (is_nil pw2); [done|]. destruct (len pw2 <? 8); [done|]. cbn. unfold secret_key_debug, key_size. cbn [as_bytes].
    by rewrite !digest_len.
Qed.

End Secrets.
End Debug.

Definition quote (s : bytes) : bytes := [34] ++ s ++ [34].

Lemma printing_reveals_no_key_witness :
  auth_no_priv_debug quote (MkAuthNoPrivUser (MkUserName (str "bob")) HmacSha256 (MkSecretKey (replicate 32 7))) =
    str "AuthNoPrivUser { name: UserName(" ++ quote (str "bob") ++ str "), auth_protocol: HmacSha256, auth_key: " ++
    quote (str "[REDACTED]") ++ str " }" /\
  print_auth_no_priv_user quote (MkUserName (str "bob")) HmacSha256 (MkSecretKey (replicate 32 7)) =
    print_auth_no_priv_user quote (MkUserName (str "bob")) HmacSha256 (zeroed 32).
Proof.
  split; [vm_compute; reflexivity|].
  apply (@printing_reveals_no_key quote ToyCrypto.ops ToyCrypto.laws (MkSecretKey (replicate 32 7)) (zeroed 32)
    (str "password") (str "drowssap") [] (MkUserName (str "bob")) HmacSha256 Aes128 [] (replicate 16 0)); reflexivity.
Defined.
