(* ===== verification/LogText.v ===== *)
(** * The texts of codec errors and what a sender can put into the log

    [Display] of [ParseOidError], [BerError], [DecodeError] and [EncodeError]
    ([src/src/codec]), and the line that [dispatch_frame] logs for a frame that does
    not decode.  That line is written about octets a remote sender chose; the main
    result is that it is short and holds no control character, so no frame can forge
    or flood the log.  [Debug] of a string is a parameter, as in [Render]. *)

From S2P Require Import Prelude Oid Ber Usm Types Varbind BerPdu Snmp Codec Render.

(** [{:02X}] of a [u8]. *)
Definition hex2 (b : Z) : bytes := [hex_digit (Z.land (Z.shiftr b 4) 15); hex_digit (Z.land b 15)].

(** [Display] of [std::num::ParseIntError]. *)
Definition int_error_kind_fmt (k : IntErrorKind) : bytes :=
  match k with
  | IntEmpty => str "cannot parse integer from empty string"
  | IntInvalidDigit => str "invalid digit found in string"
  | IntPosOverflow => str "number too large to fit in target type"
  end.

Section Texts.
  Variable debug_str : bytes -> bytes.

Definition oid_error_kind_fmt (k : OidErrorKind) : bytes :=
  match k with
  | EmptyString => str "invalid OID: empty string"
  | LeadingDot => str "invalid OID: leading dot"
  | TrailingDot => str "invalid OID: trailing dot"
  | ConsecutiveDots => str "invalid OID: consecutive dots"
  | LeadingZero part => str "invalid OID: component " ++ debug_str part ++ str " has a leading zero"
  | TooFewComponents n => str "invalid OID: an OID must have at least two components, got " ++ show_u64 n
  | InvalidFirstArc v => str "invalid OID: first OID component must be 0, 1, or 2, got " ++ show_u64 v
  | InvalidSecondArc first second =>
      str "invalid OID: second OID component must be ≤ 39 when first is " ++ show_u64 first ++ str ", got " ++
      show_u64 second
  | TooManySubIdentifiers n =>
      str "invalid OID: too many sub-identifiers (" ++ show_u64 n ++ str ", max " ++
      show_u64 MAX_OID_SUB_IDENTIFIERS ++ str " per RFC 2578 §3.5)"
  | InvalidComponent part source =>
      str "invalid OID: invalid component " ++ debug_str part ++ str ": " ++ int_error_kind_fmt source
  end.

Definition parse_oid_error_fmt (e : ParseOidError) : bytes := oid_error_kind_fmt (Oid.kind e).

(** ** The messages of [BerError] *)

Definition at_offset (off : Z) : bytes := str " at offset " ++ show_u64 off.

Definition ber_message_fmt (m : BerMessage) : bytes :=
  match m with
  | UnexpectedEndPeekingTag off => str "BER: unexpected end of input" ++ at_offset off ++ str " while peeking tag"
  | UnexpectedEndReadingLength off => str "BER: unexpected end of input" ++ at_offset off ++ str " while reading length"
  | ReservedLengthByte off => str "BER: reserved length byte 0xFF" ++ at_offset off
  | IndefiniteLength off => str "BER: indefinite-length encoding is not permitted in SNMP" ++ at_offset off
  | LengthFieldTooLarge count off => str "BER: length field too large (" ++ show_u64 count ++ str " bytes)" ++ at_offset off
  | TruncatedLength count off => str "BER: truncated length field: need " ++ show_u64 count ++ str " bytes" ++ at_offset off
  | LengthOverflow off => str "BER: length value overflows usize" ++ at_offset off
  | TruncatedValue length rem tag off =>
      str "BER: truncated value: length field (" ++ show_u64 length ++ str ") exceeds remaining input (" ++
      show_u64 rem ++ str " bytes) for tag 0x" ++ hex2 tag ++ at_offset off
  | ExpectedType type_name expected got off =>
      str "BER: expected " ++ type_name ++ str " (0x" ++ hex2 expected ++ str "), got 0x" ++ hex2 got ++ at_offset off
  | ExpectedTag expected got off =>
      str "BER: expected tag 0x" ++ hex2 expected ++ str ", got 0x" ++ hex2 got ++ at_offset off
  | NullNonEmpty n off => str "BER: NULL value must have length 0, got " ++ show_u64 n ++ at_offset off
  | IntegerZeroLength off => str "BER: INTEGER value has zero length" ++ at_offset off
  | IntegerTooLargeI32 n off => str "BER: INTEGER value too large for i32 (" ++ show_u64 n ++ str " bytes)" ++ at_offset off
  | NegativeUnsigned off => str "BER: negative INTEGER cannot be decoded as unsigned" ++ at_offset off
  | IntegerTooLarge bits n off =>
      str "BER: INTEGER value too large for u" ++ show_u64 bits ++ str " (" ++ show_u64 n ++ str " bytes)" ++ at_offset off
  | UnsignedExceedsU32 value off =>
      str "BER: decoded unsigned value " ++ show_u64 value ++ str " exceeds u32 range" ++ at_offset off
  | OidZeroLength off => str "BER: OID value has zero length" ++ at_offset off
  | OidZeroConsumed off =>
      str "BER: internal error: zero bytes consumed decoding OID sub-identifier" ++ at_offset off
  | OidNoSubIdentifiers off => str "BER: OID has no sub-identifiers" ++ at_offset off
  | OidFirstArcOverflow off => str "BER: OID first arc overflows u32" ++ at_offset off
  | OidSecondArcOverflow off => str "BER: OID second arc overflows u32" ++ at_offset off
  | OidArcOverflow off => str "BER: OID arc overflows u32" ++ at_offset off
  | OidInvalid off e =>
      str "BER: decoded OID is structurally invalid" ++ at_offset off ++ str ": " ++ parse_oid_error_fmt e
  | OidTruncated off => str "BER: truncated OID sub-identifier" ++ at_offset off
  | OidSubIdOverflow off => str "BER: OID sub-identifier overflows u64" ++ at_offset off
  | TrailingAfterVarBindList => str "BER: trailing bytes after VarBindList SEQUENCE"
  | ExceptionNonEmpty tag n => str "BER: exception tag 0x" ++ hex2 tag ++ str " must have length 0, got " ++ show_u64 n
  | UnexpectedExceptionTag tag => str "BER: unexpected exception tag 0x" ++ hex2 tag
  | TrailingInVarBind n =>
      str "BER: trailing bytes in VarBind SEQUENCE: " ++ show_u64 n ++ str " byte(s) remain after value"
  | IpAddressLength n => str "BER: IpAddress must be exactly 4 bytes, got " ++ show_u64 n
  | UnsupportedApplicationTag tag => str "BER: unsupported APPLICATION tag 0x" ++ hex2 tag ++ str " in VarBind value"
  | InvalidExceptionTag tag => str "BER: invalid exception tag 0x" ++ hex2 tag
  | TrailingAfterPdu => str "BER: trailing bytes after PDU TLV"
  | UnrecognisedPduTag tag => str "BER: unrecognised PDU tag 0x" ++ hex2 tag
  | MissingVarBindList => str "BER: PDU missing VarBindList"
  | TrailingInPdu => str "BER: trailing bytes after VarBindList in PDU"
  | InvalidStandardPduTag tag => str "BER: invalid standard PDU tag 0x" ++ hex2 tag
  | WrongMessageVersion version => str "BER: expected SNMPv3 (version 3), got version " ++ show_i32 version
  | NegativeMsgId => str "BER: msgID must be non-negative per RFC 3412 §6.4"
  | MaxSizeTooSmall => str "BER: msgMaxSize must be at least 484 per RFC 3412 §6.6"
  | MsgFlagsLength n => str "BER: msgFlags must be exactly 1 byte, got " ++ show_u64 n
  | UserNameTooLong n =>
      str "BER: msgUserName length " ++ show_u64 n ++ str " exceeds RFC 3414 §2.4 maximum of " ++
      show_u64 MSG_USER_NAME_MAX_LENGTH ++ str " octets"
  | BadScopedDataTag tag =>
      str "BER: expected ScopedPduData as SEQUENCE (0x30) or OCTET STRING (0x04), got tag 0x" ++ hex2 tag
  end.

Definition ber_error_fmt (e : BerError) : bytes := ber_message_fmt (message e).

(** ** [DecodeError] and [EncodeError] *)

Definition decode_message_fmt (m : DecodeMessage) : bytes :=
  match m with
  | BerDecodeFailed e => str "BER decode failed: " ++ ber_error_fmt e
  | VersionMismatch e => ber_error_fmt e
  | VarBindDecodeFailed e => str "VarBind decode failed: " ++ ber_error_fmt e
  | VarBindValueDecodeFailed e => str "VarBind value decode failed: " ++ ber_error_fmt e
  | ScopedPduDecodeFailed e => str "ScopedPDU decode failed: " ++ ber_error_fmt e
  | PduDecodeFailed e => str "PDU decode failed: " ++ ber_error_fmt e
  | UnexpectedOutboundPdu tag => str "unexpected outbound PDU type: tag 0x" ++ hex2 tag
  end.

Definition decode_error_fmt (e : DecodeError) : bytes :=
  str "SNMP decode error (" ++ decode_error_kind_fmt (kind e) ++ str "): " ++ decode_message_fmt (decode_message e).

Definition encode_message_fmt (e : EncodeError) : bytes :=
  match e with
  | VarbindValueEncodingFailed e => str "varbind value encoding failed: " ++ ber_error_fmt e
  | ErrorIndexTooLarge i => str "error_index " ++ show_u64 i ++ str " exceeds maximum representable value in BER"
  | PduEncodingFailed what e => str "BER encoding of " ++ what ++ str " failed: " ++ ber_error_fmt e
  | EngineBootsTooLarge b => str "engine_boots " ++ show_u64 b ++ str " exceeds maximum BER INTEGER value for i32"
  | EngineTimeTooLarge t => str "engine_time " ++ show_u64 t ++ str " exceeds maximum BER INTEGER value for i32"
  | PrivacyWithoutAuthentication => str "privacy without authentication is not permitted (RFC 3412)"
  | AesEncryptionFailed e => str "AES encryption failed: " ++ priv_error_fmt e
  | MessageEncodingFailed e => str "BER encoding of SNMPv3 Message failed: " ++ ber_error_fmt e
  | AuthOffsetMissing => str "auth params offset missing despite auth being requested"
  | HmacComputationFailed e => str "HMAC computation failed: " ++ auth_error_fmt e
  | AuthRangeOverflow => str "auth params range overflow"
  | AuthRangeOutOfBounds => str "auth params range exceeds encoded message length"
  end.

Definition encode_error_fmt (e : EncodeError) : bytes := str "SNMP encode error: " ++ encode_message_fmt e.

(** The [debug!] line of [dispatch_frame]. *)
Definition decode_failure_line (frame : bytes) : option bytes :=
  match decode_v3_message frame with
  | Ok _ => None
  | Err decode_error => Some (str "failed to decode SNMPv3 message: " ++ decode_error_fmt decode_error)
  end.

End Texts.

(** ** Clean texts: at most [n] octets, none of them an ASCII control character *)

Definition printable (c : Z) : bool := (32 <=? c) && (c <? 256) && negb (c =? 127).
Definition clean (n : Z) (s : bytes) : Prop := len s <= n /\ Forall (fun c => printable c = true) s.

Lemma clean_app a b s t : clean a s -> clean b t -> clean (a + b) (s ++ t).
Proof. intros [Hs Fs] [Ht Ft]. split; [rewrite len_app; lia|by apply Forall_app]. Qed.

Lemma clean_le a b s : clean a s -> a <= b -> clean b s.
Proof. intros [Hs Fs] ?. split; [lia|done]. Qed.

(** Literals are checked by evaluation. *)
Lemma clean_literal s : forallb printable s = true -> clean (len s) s.
Proof. intros H. split; [lia|]. apply Forall_forall. intros c Hc. eapply forallb_forall in H; [exact H|by apply list_elem_of_In]. Qed.

Lemma digit_printable n : printable (48 + n mod 10) = true.
Proof. pose proof (Z.mod_pos_bound n 10 ltac:(lia)). unfold printable. repeat case_match; lia. Qed.

Lemma show_go_clean fuel n acc a : clean a acc -> clean (Z.of_nat fuel + a) (show_go fuel n acc).
Proof.
  revert n acc a. induction fuel as [|f IH]; intros n acc a Ha; [apply (clean_le a); [done|lia]|]. cbn [show_go].
  assert (Hc : clean (1 + a) ((48 + n mod 10) :: acc))
    by (apply (clean_app 1 a [_]); [split; [done|by apply Forall_singleton, digit_printable]|done]).
  destruct (n / 10 =? 0); [apply (clean_le (1 + a)); [done|lia]|].
  apply (clean_le (Z.of_nat f + (1 + a))); [by apply IH|lia].
Qed.

Lemma show_u64_clean n : clean 20 (show_u64 n).
Proof. apply (show_go_clean 20 n [] 0). by split. Qed.

Lemma show_i32_clean n : clean 21 (show_i32 n).
Proof.
  unfold show_i32. case_match; [|apply (clean_le 20); [apply show_u64_clean|lia]].
  apply (clean_app 1 20 [45]); [by apply (clean_literal [45])|apply show_u64_clean].
Qed.

Lemma hex_digit_printable d : 0 <= d < 16 -> printable (hex_digit d) = true.
Proof. intros Hd. unfold printable, hex_digit. repeat case_match; lia. Qed.

Lemma hex2_clean b : clean 2 (hex2 b).
Proof.
  assert (Hn : forall x, 0 <= Z.land x 15 < 16)
    by (intros x; change 15 with (Z.ones 4); rewrite Z.land_ones by lia; apply Z.mod_pos_bound; lia).
  split; [done|]. unfold hex2. repeat constructor; by apply hex_digit_printable.
Qed.

Lemma at_offset_clean off : clean 31 (at_offset off).
Proof. apply (clean_app 11 20); [by apply (clean_literal (str " at offset "))|apply show_u64_clean]. Qed.

Create HintDb clean.
#[export] Hint Resolve show_u64_clean show_i32_clean hex2_clean at_offset_clean : clean.

(** Splits a text into its pieces and adds up the bounds. *)
Ltac clean_pieces :=
  lazymatch goal with
  | |- clean _ (_ ++ _) => eapply clean_app; [clean_pieces|clean_pieces]
  | |- clean _ (str ?s) => apply (clean_literal (str s)); vm_compute; reflexivity
  | |- _ => eauto 2 with clean
  end.
Ltac clean_text := eapply clean_le; [clean_pieces|vm_compute; discriminate].

(** ** The messages decoding can produce

    No text of a decoder quotes octets of the input: a type name is one of the
    literals of the reader, and the invalid OIDs are those of [Oid::try_from], never
    those of the string parser, which quote the offending part. *)

Definition quotes_input (k : OidErrorKind) : bool :=
  match k with LeadingZero _ | InvalidComponent _ _ => true | _ => false end.

Definition wire_message (m : BerMessage) : Prop :=
  match m with
  | ExpectedType type_name _ _ _ => clean 17 type_name
  | OidInvalid _ e => quotes_input (Oid.kind e) = false
  | _ => True
  end.

Definition wire_errors {A} (r : result A BerError) : Prop :=
  match r with Ok _ => True | Err e => wire_message (message e) end.

Create HintDb wire.

(** Follows the [let?] chain of a decoder: an error is that of a call, which the hint
    database knows, or one raised here. *)
Ltac wire :=
  repeat first
    [ exact I
    | match goal with
      | |- wire_errors (match ?x with _ => _ end) =>
          lazymatch type of x with
          | result _ BerError =>
              let H := fresh in
              assert (H : wire_errors x); [solve [eauto 2 with wire | wire]|destruct x; [clear H|exact H]]
          | _ => destruct x
          end
      | |- wire_errors (ok_or ?o _) => destruct o
      | |- wire_errors _ => solve [eauto 2 with wire]
      end ].

Lemma peek_tag_wire r : wire_errors (peek_tag r).
Proof. unfold peek_tag. wire. Qed.
#[export] Hint Resolve peek_tag_wire : wire.

Lemma accumulate_length_wire bs l off : wire_errors (accumulate_length bs l off).
Proof. revert l. induction bs as [|b bs IH]; intros l; cbn [accumulate_length]; [done|]. wire. Qed.
#[export] Hint Resolve accumulate_length_wire : wire.

Lemma read_tlv_wire r : wire_errors (read_tlv r).
Proof.
  assert (Hl : forall r, wire_errors (read_length r))
    by (intros r'; unfold read_length, read_long_form_length; wire).
  unfold read_tlv, read_tag. wire.
Qed.
#[export] Hint Resolve read_tlv_wire : wire.

Lemma read_expected_tlv_wire r tag type_name : clean 17 type_name -> wire_errors (read_expected_tlv r tag type_name).
Proof. intros Hc. unfold read_expected_tlv. wire. Qed.

Lemma read_constructed_wire r tag : wire_errors (read_constructed r tag).
Proof. unfold read_constructed. wire. Qed.
#[export] Hint Resolve read_constructed_wire : wire.
#[export] Hint Extern 1 (wire_errors (read_sequence _)) => apply read_constructed_wire : wire.
#[export] Hint Extern 1 (wire_errors (read_expected_tlv _ _ _)) =>
  apply read_expected_tlv_wire; clean_text : wire.

Lemma decode_signed_i32_wire bs off : wire_errors (decode_signed_i32 bs off).
Proof. unfold decode_signed_i32. wire. Qed.
Lemma decode_unsigned_wire N bs off : wire_errors (decode_unsigned N bs off).
Proof. unfold decode_unsigned. wire. Qed.
#[export] Hint Resolve decode_signed_i32_wire decode_unsigned_wire : wire.
Lemma decode_unsigned_u32_wire bs off : wire_errors (decode_unsigned_u32 bs off).
Proof. unfold decode_unsigned_u32. wire. Qed.
#[export] Hint Resolve decode_unsigned_u32_wire : wire.

Lemma decode_base128_wire bs off : wire_errors (decode_base128 bs off).
Proof.
  unfold decode_base128. generalize 0 at 1 as acc. generalize 0 as n.
  induction bs as [|b bs IH]; intros n acc; cbn [decode_base128_loop]; wire.
Qed.
#[export] Hint Resolve decode_base128_wire : wire.

Lemma decode_sub_identifiers_wire fuel bs off : wire_errors (decode_sub_identifiers fuel bs off).
Proof. revert bs. induction fuel as [|f IH]; intros bs; cbn [decode_sub_identifiers]; wire. Qed.
#[export] Hint Resolve decode_sub_identifiers_wire : wire.

Lemma collect_results_wire {A B} (f : A -> result B BerError) l :
  (forall a, wire_errors (f a)) -> wire_errors (collect_results f l).
Proof. intros Hf. induction l as [|a l IH]; cbn [collect_results]; wire. Qed.

#[export] Hint Extern 1 (wire_errors (collect_results _ _)) => apply collect_results_wire; intros; wire : wire.

Lemma validate_quotes_nothing cs e : validate_oid_components cs = Err e -> quotes_input e = false.
Proof. unfold validate_oid_components. intros H. repeat case_match; simplify_eq; done. Qed.

Lemma decode_oid_wire bs off : wire_errors (decode_oid bs off).
Proof.
  assert (Ht : forall arcs, wire_errors (map_err (fun e => ber_error (OidInvalid off e)) (try_from arcs))).
  { intros arcs. unfold try_from. destruct (validate_oid_components arcs) eqn:E; cbn; [done|].
    by eapply validate_quotes_nothing. }
  unfold decode_oid. wire.
Qed.
#[export] Hint Resolve decode_oid_wire : wire.

Lemma read_integer_wire r : wire_errors (read_integer r).
Proof. unfold read_integer. wire. Qed.
Lemma read_octet_string_wire r : wire_errors (read_octet_string r).
Proof. unfold read_octet_string. wire. Qed.
Lemma read_null_wire r : wire_errors (read_null r).
Proof. unfold read_null. wire. Qed.
Lemma read_oid_wire r : wire_errors (read_oid r).
Proof. unfold read_oid. wire. Qed.
#[export] Hint Resolve read_integer_wire read_octet_string_wire read_null_wire read_oid_wire : wire.

Lemma decode_varbind_value_wire r : wire_errors (decode_varbind_value r).
Proof. unfold decode_varbind_value. wire. Qed.
#[export] Hint Resolve decode_varbind_value_wire : wire.

Lemma decode_varbind_list_wire b : wire_errors (decode_varbind_list b).
Proof.
  assert (Hv : forall fuel r, wire_errors (decode_varbinds fuel r))
    by (induction fuel as [|f IH]; intros r; cbn [decode_varbinds]; wire).
  unfold decode_varbind_list. wire.
Qed.

Lemma decode_varbind_value_to_value_wire d : wire_errors (decode_varbind_value_to_value d).
Proof. unfold decode_varbind_value_to_value, decode_unsigned_u64. wire. Qed.

Lemma ber_decode_pdu_wire b : wire_errors (ber_decode_pdu b).
Proof. unfold ber_decode_pdu, read_validated_varbind_list. wire. Qed.

Lemma decode_v3_envelope_wire b : wire_errors (decode_v3_envelope b).
Proof.
  unfold decode_v3_envelope, decode_header_data, decode_usm_security_parameters, decode_scoped_pdu_data. wire.
Qed.

(** ** The line logged for a frame that does not decode *)

Definition wire_decode_message (m : DecodeMessage) : Prop :=
  match m with
  | BerDecodeFailed e | VersionMismatch e | VarBindDecodeFailed e | VarBindValueDecodeFailed e
  | ScopedPduDecodeFailed e | PduDecodeFailed e => wire_message (message e)
  | UnexpectedOutboundPdu _ => True
  end.

Definition wire_decode_errors {A} (r : result A DecodeError) : Prop :=
  match r with Ok _ => True | Err e => wire_decode_message (decode_message e) end.

Lemma varbinds_decode_wire raw : wire_decode_errors (decode_varbind_list_to_varbinds raw).
Proof.
  unfold decode_varbind_list_to_varbinds. pose proof (decode_varbind_list_wire raw) as Hl.
  destruct (decode_varbind_list raw) as [ds|e]; [clear Hl|exact Hl]. cbn [map_err].
  induction ds as [|d ds IH]; cbn [collect_results]; [done|].
  pose proof (decode_varbind_value_to_value_wire (decoded_value d)) as Hv.
  destruct (decode_varbind_value_to_value _); [cbn [map_err]|exact Hv].
  by destruct (collect_results _ ds).
Qed.

Lemma inbound_decode_wire p : wire_decode_errors (decoded_pdu_to_inbound p).
Proof.
  destruct p as [tag rid raw|rid nr mr raw]; unfold decoded_pdu_to_inbound; pose proof (varbinds_decode_wire raw) as Hv;
    repeat case_match; simplify_eq; done.
Qed.

Lemma decode_v3_message_wire frame : wire_decode_errors (decode_v3_message frame).
Proof.
  unfold decode_v3_message. pose proof (decode_v3_envelope_wire frame) as He.
  destruct (decode_v3_envelope frame) as [env|e]; cbn [map_err]; [clear He|by destruct (is_wrong_version e)].
  destruct (env_scoped_data env) as [ce cn raw|ct]; [|done].
  pose proof (ber_decode_pdu_wire raw) as Hp. destruct (ber_decode_pdu raw) as [p|e]; cbn [map_err]; [|exact Hp].
  pose proof (inbound_decode_wire p) as Hi. by destruct (decoded_pdu_to_inbound p).
Qed.

Section Clean.
  Variable debug_str : bytes -> bytes.

Lemma oid_error_clean k : quotes_input k = false -> clean 112 (oid_error_kind_fmt debug_str k).
Proof. destruct k; intros H; try discriminate H; cbn [oid_error_kind_fmt]; clean_text. Qed.

Lemma ber_message_clean m : wire_message m -> clean 190 (ber_message_fmt debug_str m).
Proof.
  destruct m; intros Hm; cbn [ber_message_fmt wire_message] in *;
    try (unfold parse_oid_error_fmt; pose proof (oid_error_clean _ Hm)); clean_text.
Qed.

Lemma decode_error_clean e : wire_decode_message (decode_message e) -> clean 261 (decode_error_fmt debug_str e).
Proof.
  assert (Hk : clean 20 (decode_error_kind_fmt (kind e))) by (destruct (kind e); cbn [decode_error_kind_fmt]; clean_text).
  intros Hm. unfold decode_error_fmt.
  assert (Hd : clean 219 (decode_message_fmt debug_str (decode_message e))).
  { destruct (decode_message e); cbn [decode_message_fmt wire_decode_message] in *;
      try pose proof (ber_message_clean _ Hm); unfold ber_error_fmt; clean_text. }
  clean_text.
Qed.

(** Claim C21: no frame can forge or flood the log.  Whatever octets arrive, the line that
    is logged when they do not decode is at most 300 octets long and holds no ASCII
    control character, hence no line break and no terminal escape; it is logged exactly
    when decoding fails. *)
Theorem decode_failure_line_is_clean (frame : bytes) :
  (decode_failure_line debug_str frame = None <-> is_ok (decode_v3_message frame) = true) /\
  forall line, decode_failure_line debug_str frame = Some line -> clean 300 line.
Proof.
  pose proof (decode_v3_message_wire frame) as Hw. unfold decode_failure_line.
  destruct (decode_v3_message frame) as [m|e]; (split; [done|intros line ?; simplify_eq]).
  pose proof (decode_error_clean e Hw). clean_text.
Qed.

End Clean.

(** A frame whose [msgVersion] is 1, and the text for a name with 129 sub-identifiers. *)
Lemma decode_failure_line_is_clean_witness :
  decode_failure_line quote [48; 3; 2; 1; 1] =
    Some (str "failed to decode SNMPv3 message: SNMP decode error (wrong SNMP version): " ++
          str "BER: expected SNMPv3 (version 3), got version 1") /\
  (exists line, decode_failure_line quote [48; 3; 2; 1; 1] = Some line /\ clean 300 line) /\
  ber_message_fmt quote (OidInvalid 7 (MkParseOidError (TooManySubIdentifiers 129))) =
    str "BER: decoded OID is structurally invalid at offset 7: " ++
    str "invalid OID: too many sub-identifiers (129, max 128 per RFC 2578 §3.5)".
Proof.
  split_and!; [vm_compute; reflexivity| |vm_compute; reflexivity].
  eexists. split; [vm_compute; reflexivity|].
  apply (proj2 (decode_failure_line_is_clean quote [48; 3; 2; 1; 1])). vm_compute. reflexivity.
Defined.
