(* ===== verification/AgentText.v ===== *)
(** * The texts of the agent's errors: [src/src/error.rs] and what it wraps

    [Display] of [AgentError], [SetError], [TrapError], [EventLoopError], [InitBootsError],
    [BerLengthError] and [EmptyAuthParams], with the I/O errors and socket addresses they
    contain.  An I/O error prints the text it carries, so the text of the operating system
    is data of the model. *)

From S2P Require Import Prelude Oid Ber Usm Types Codec Boots Trap Framing EventLoop Agent Render LogText.

(** ** Socket addresses *)

(** The digits of a 16-bit segment, without leading zeros. *)
Definition segment_fmt (n : Z) : bytes :=
  let digits := hex_digit_lower <$> [n / 4096; n / 256 mod 16; n / 16 mod 16; n mod 16] in
  let skipped := count_while (fun d => d =? 48) (take 3 digits) in
  drop (Z.to_nat skipped) digits.

Fixpoint segments (octets : bytes) : list Z :=
  match octets with a :: b :: rest => a * 256 + b :: segments rest | _ => [] end.

(** [fmt_subslice] *)
Definition segments_fmt (l : list Z) : bytes :=
  match l with
  | [] => []
  | s :: rest => segment_fmt s ++ concat ((fun s => 58 :: segment_fmt s) <$> rest)
  end.

(** The first of the longest runs of zero segments, as start and length: [i] is the
    position, [cur] the run that ends there. *)
Fixpoint longest_zeroes (l : list Z) (i : nat) (cur longest : nat * nat) : nat * nat :=
  match l with
  | [] => longest
  | s :: rest =>
      if s =? 0 then
        let cur := (if decide (snd cur = 0%nat) then i else fst cur, S (snd cur)) in
        longest_zeroes rest (S i) cur (if decide (snd longest < snd cur)%nat then cur else longest)
      else longest_zeroes rest (S i) (0, 0)%nat longest
  end.

(** [Display for Ipv6Addr] *)
Definition fmt_ipv6 (octets : bytes) : bytes :=
  if bytes_eqb (take 12 octets) (replicate 10 0 ++ [255; 255]) then str "::ffff:" ++ fmt_ipv4 (drop 12 octets)
  else
    let segs := segments octets in
    let '(start, n) := longest_zeroes segs 0 (0, 0)%nat (0, 0)%nat in
    if decide (1 < n)%nat then segments_fmt (take start segs) ++ str "::" ++ segments_fmt (drop (start + n) segs)
    else segments_fmt segs.

(** [Display for SocketAddr] *)
Definition socket_addr_fmt (addr : SocketAddr) : bytes :=
  let '(octets, port) := addr in
  (if len octets =? 4 then fmt_ipv4 octets else str "[" ++ fmt_ipv6 octets ++ str "]") ++ str ":" ++ show_u64 port.

(** The examples of the standard library's documentation. *)
Example socket_addr_examples :
  socket_addr_fmt ([127; 0; 0; 1], 8080) = str "127.0.0.1:8080" /\
  socket_addr_fmt (replicate 15 0 ++ [1], 8080) = str "[::1]:8080" /\
  socket_addr_fmt ([0x20; 1; 0xd; 0xb8; 0; 0; 0; 0; 0; 0; 0; 0; 0; 0; 0; 1], 80) = str "[2001:db8::1]:80" /\
  socket_addr_fmt (replicate 10 0 ++ [255; 255; 192; 0; 2; 1], 161) = str "[::ffff:192.0.2.1]:161" /\
  socket_addr_fmt ([0; 0; 0; 1; 0; 0; 0; 0; 0; 0; 0; 1; 0; 0; 0; 0], 1) = str "[0:1::1:0:0]:1".
Proof. by vm_compute. Qed.

(** ** Errors *)

Definition ber_length_error_fmt : bytes :=
  str "invalid BER length encoding (indefinite-length or >4-octet long form)".

Definition empty_auth_params_fmt : bytes :=
  str "authentication parameters are empty; use None for noAuthNoPriv messages".

Definition set_error_fmt (e : SetError) : bytes := match e with Disconnected => str "agent event loop has terminated" end.

Definition trap_error_fmt (e : TrapError) : bytes := match e with EmptyDestinations => str "trap destination list is empty" end.

Definition SECURITY_LEVEL_REQUIRES_USER_MESSAGE : bytes :=
  str "minimum security level above noAuthNoPriv requires a configured USM user".

Definition no_user_security_level_error_fmt : bytes := SECURITY_LEVEL_REQUIRES_USER_MESSAGE.

Section Texts.
  Variable debug_str : bytes -> bytes.

(** [Display for io::Error] *)
Definition io_error_fmt (e : IoError) : bytes :=
  match io_message e with
  | Text text => text
  | TrapEncodingFailed e => str "trap PDU encoding failed: " ++ encode_error_fmt debug_str e
  end.

Definition init_boots_error_fmt (e : InitBootsError) : bytes :=
  match e with
  | BootsAtCeiling =>
      str "snmpEngineBoots has reached its maximum value (2147483647); engine must be reconfigured per RFC 3414 §2.2"
  | StoreError e => str "engine-boots store error: " ++ io_error_fmt e
  end.

Definition bind_error_fmt (addr : SocketAddr) (source : IoError) : bytes :=
  str "failed to bind TCP listener to " ++ socket_addr_fmt addr ++ str ": " ++ io_error_fmt source.

Definition event_loop_error_fmt (e : EventLoopError) : bytes :=
  match e with
  | Bind addr source => bind_error_fmt addr source
  | Waker e => str "waker creation failed: " ++ io_error_fmt e
  | Registration e => str "mio token registration failed: " ++ io_error_fmt e
  | SecurityLevelRequiresUser => SECURITY_LEVEL_REQUIRES_USER_MESSAGE
  end.

Definition agent_error_fmt (e : AgentError) : bytes :=
  match e with
  | AgentBind addr source => bind_error_fmt addr source
  | AgentSocket e => str "failed to configure TCP listener: " ++ io_error_fmt e
  | AgentUdpSocket e => str "failed to create UDP trap socket: " ++ io_error_fmt e
  | AgentSpawn e => str "failed to spawn event loop thread: " ++ io_error_fmt e
  | AgentEngineBoots e => str "engine-boots initialisation failed: " ++ init_boots_error_fmt e
  | AgentSecurityLevelRequiresUser => SECURITY_LEVEL_REQUIRES_USER_MESSAGE
  end.

(** ** [Error::source] *)

(** The wrapped error, as its text. *)
Definition init_boots_error_source (e : InitBootsError) : option bytes :=
  match e with BootsAtCeiling => None | StoreError e => Some (io_error_fmt e) end.

Definition event_loop_error_source (e : EventLoopError) : option bytes :=
  match e with
  | Bind _ source => Some (io_error_fmt source)
  | Waker e | Registration e => Some (io_error_fmt e)
  | SecurityLevelRequiresUser => None
  end.

Definition agent_error_source (e : AgentError) : option bytes :=
  match e with
  | AgentBind _ source => Some (io_error_fmt source)
  | AgentSocket e | AgentUdpSocket e | AgentSpawn e => Some (io_error_fmt e)
  | AgentSecurityLevelRequiresUser => None
  | AgentEngineBoots e => Some (init_boots_error_fmt e)
  end.

(** The text of an error of the agent ends with the text of the error it wraps, so a
    caller that prints only the outermost error loses nothing. *)
Theorem agent_error_keeps_source (e : AgentError) (source : bytes) :
  agent_error_source e = Some source -> exists before, agent_error_fmt e = before ++ source.
Proof.
  destruct e; cbn [agent_error_source agent_error_fmt]; intros [= <-]; unfold bind_error_fmt; rewrite ?app_assoc;
    eexists; reflexivity.
Qed.

End Texts.
