(* ===== verification/TestAgents.v ===== *)
(** * The test agents: [src/tests/test-agent*]

    The programs the system tests start: three agents with a known MIB (one per security
    level) and a program that sends the traps of a definition file.  What they print,
    [process::exit] and panics are values.  The environment, the files, the name resolver,
    the clock, the UDP socket and the JSON values and deserialiser of [serde_json] are
    arguments. *)

From stdpp Require Import gmap.
From S2P Require Import Prelude Oid Usm Types Codec Mib Request Boots Trap EventLoop LoopFacts Agent Render LogText AgentText.

(** ** NullStore *)

Inductive NullStore := MkNullStore.

#[export] Instance NullStore_store : EngineBootsStore NullStore := {
  load s := (Ok None, s);
  save s _ _ := (Ok tt, s);
}.

(** ** [seed_test_mib] *)

(** A call whose error is a panic ([None]). *)
Definition set_or_panic (s : System) (oid : bytes) (v : Value) : option System :=
  match from_str oid with
  | Err _ => None
  | Ok oid => match agent_set s oid v with (Ok tt, s) => Some s | (Err _, _) => None end
  end.

Definition parse_or_panic (oid : bytes) (k : Oid -> option System) : option System :=
  match from_str oid with Err _ => None | Ok o => k o end.

Definition seed_test_mib (s : System) (sys_name : bytes) : option System :=
  s ← set_or_panic s (str "1.3.6.1.2.1.1.1.0") (OctetString (str "basic-snmp-agent test instance"));
  s ← set_or_panic s (str "1.3.6.1.2.1.1.3.0") (TimeTicks 0);
  s ← set_or_panic s (str "1.3.6.1.2.1.1.5.0") (OctetString sys_name);
  s ← set_or_panic s (str "1.3.6.1.4.1.99999.1.0") (Integer32 42);
  s ← set_or_panic s (str "1.3.6.1.4.1.99999.2.0") (Counter32 12345);
  s ← set_or_panic s (str "1.3.6.1.4.1.99999.3.0") (Counter64 9876543210);
  s ← set_or_panic s (str "1.3.6.1.4.1.99999.4.0") (Gauge32 500);
  s ← set_or_panic s (str "1.3.6.1.4.1.99999.5.0") (IpAddress [10; 0; 0; 1]);
  s ← parse_or_panic (str "1.3.6.1.4.1.99999") (fun o => set_or_panic s (str "1.3.6.1.4.1.99999.6.0") (ObjectIdentifier o));
  s ← set_or_panic s (str "1.3.6.1.4.1.99999.7.0") (Opaque [0xDE; 0xAD]);
  set_or_panic s (str "1.3.6.1.4.1.99999.999.0") (Integer32 0).

(** ** [init_logging] *)

(** A [log::Level] is its rank, from 1 (error) to 5 (trace); a [LevelFilter] also has 0 (off). *)
Record StderrLogger := MkStderrLogger { level_filter : Z }.

Definition logger_enabled (l : StderrLogger) (level : Z) : bool := level <=? level_filter l.

(** The line written to stderr, if any. *)
Definition logger_log (l : StderrLogger) (level : Z) (line : bytes) : option bytes :=
  if logger_enabled l level then Some line else None.

(** What the [log] crate keeps: the logger, set at most once, and the maximum level. *)
Record LogState := MkLogState { installed : option StderrLogger; max_level : Z }.

(** [parse_level] is the crate's [FromStr]; [None] is the panic when a logger is installed. *)
Definition init_logging (parse_level : bytes -> option Z) (rust_log : option bytes) (st : LogState) : option LogState :=
  let filter := default 0 (name ← rust_log; parse_level name) in
  match installed st with
  | Some _ => None
  | None => Some {| installed := Some {| level_filter := filter |}; max_level := filter |}
  end.

(** ** How a program ends *)

(** [process::exit(code)], [eprintln!] of a line and [process::exit(1)], or a panic. *)
Inductive Stop := Exit (code : Z) | Fail (stderr : bytes) | Panic.

Definition exit_code (s : Stop) : option Z :=
  match s with Exit code => Some code | Fail _ => Some 1 | Panic => None end.

(** [unwrap_or_else(|e| { eprintln!(text); process::exit(1) })], and [expect]. *)
Definition or_fail {A E} (text : E -> bytes) (r : result A E) : result A Stop := map_err (fun e => Fail (text e)) r.
Definition some_or_fail {A} (text : bytes) (o : option A) : result A Stop := ok_or o (Fail text).
Definition expect_ok {A E} (r : result A E) : result A Stop := map_err (fun _ => Panic) r.
(** A panic of the library. *)
Definition no_panic {A} (o : option A) : result A Stop := ok_or o Panic.

(** The first line of [main] of the MIB agents. *)
Definition with_logging {A} (parse_level : bytes -> option Z) (rust_log : option bytes) (k : result A Stop) : result A Stop :=
  let? _ := no_panic (init_logging parse_level rust_log {| installed := None; max_level := 0 |}) in k.

Lemma with_logging_runs {A} parse_level rust_log (k : result A Stop) : with_logging parse_level rust_log k = k.
Proof. done. Qed.

(** ** The three MIB agents *)

Definition LISTEN_ADDR : SocketAddr := ([0; 0; 0; 0], 10161).
Definition ENGINE_ID_PREFIX : bytes := [0x80; 0x00; 0x1f; 0x88; 0x04].

Section MibAgents.
  Context `{CryptoOps} (parse_level : bytes -> option Z) (rust_log : option bytes) (debug_str : bytes -> bytes).

(** [build] of the configured agent, the seeded system, and the line that says so. *)
Definition start_mib_agent (env : BuildOutcome) (security : SecurityConfig NullStore) (engine_id : bytes) (sys_name : bytes)
    : result (System * bytes) Stop :=
  let? eid := expect_ok (engine_id_try_from engine_id) in
  let? '(r, _) := no_panic (build env None (builder_engine_id (builder_listen_addr (builder_new security) LISTEN_ADDR) eid)) in
  let? agent := or_fail (fun e => str "error: failed to build agent: " ++ agent_error_fmt debug_str e) r in
  let? s := no_panic (seed_test_mib (MkSystem (Some (agent_loop agent)) [] []) sys_name) in
  Ok (s, sys_name ++ str " ready").

(** The key both authenticated agents derive. *)
Definition agent_key (engine_id : bytes) : result SecretKey Stop :=
  let? r := no_panic (password_to_localised_key (str "authpassword") engine_id HmacSha256) in
  or_fail (fun e => str "error: failed to derive localised key: " ++ kdf_error_fmt e) r.

Definition user_or_fail {A} (r : result A InvalidKeyLength) : result A Stop :=
  or_fail (fun e => str "error: failed to create USM user: " ++ invalid_key_length_fmt e) r.

Definition mib_agent (env : BuildOutcome) : result (System * bytes) Stop :=
  with_logging parse_level rust_log $ start_mib_agent env ConfigNoAuthNoPriv (ENGINE_ID_PREFIX ++ str "test-agent-mib") (str "test-agent-mib").

Definition mib_agent_auth (env : BuildOutcome) : result (System * bytes) Stop :=
  let ENGINE_ID := ENGINE_ID_PREFIX ++ str "test-agent-auth" in
  with_logging parse_level rust_log $
  let? localised_key := agent_key ENGINE_ID in
  let? name := expect_ok (user_name_new (str "authuser")) in
  let? user := user_or_fail (auth_no_priv_new name HmacSha256 localised_key) in
  start_mib_agent env (ConfigAuthNoPriv user MkNullStore) ENGINE_ID (str "test-agent-mib-auth").

Definition mib_agent_auth_priv (env : BuildOutcome) : result (System * bytes) Stop :=
  let ENGINE_ID := ENGINE_ID_PREFIX ++ str "test-agent-priv" in
  with_logging parse_level rust_log $
  let? localised_key := agent_key ENGINE_ID in
  let? name := expect_ok (user_name_new (str "privuser")) in
  let? user := user_or_fail (auth_priv_new name HmacSha256 localised_key Aes128) in
  start_mib_agent env (ConfigAuthPriv user MkNullStore) ENGINE_ID (str "test-agent-mib-auth-priv").

End MibAgents.

(** ** test-agent: values of a trap definition *)

(** The accessors of [serde_json::Value], and its [Display]. *)
Class JsonValue := {
  Json : Type;
  as_i64 : Json -> option Z;
  as_u64 : Json -> option Z;
  as_str : Json -> option bytes;
  as_array : Json -> option (list Json);
  json_fmt : Json -> bytes;
}.

(** Their documented ranges; a string is UTF-8 octets. *)
Class JsonLaws `{JsonValue} : Prop := {
  as_i64_range j z : as_i64 j = Some z -> -9223372036854775808 <= z <= 9223372036854775807;
  as_u64_range j z : as_u64 j = Some z -> is_u64 z;
  as_str_u8 j s : as_str j = Some s -> Forall is_u8 s;
}.

Definition u8_try_from (z : Z) : option Z := if (0 <=? z) && (z <=? 255) then Some z else None.

(** [Display for i64] *)
Definition show_i64 (n : Z) : bytes := show_i32 n.

(** [{name}: expected {what}, got {data}] *)
Definition expected (name what data : bytes) : bytes := name ++ str ": expected " ++ what ++ str ", got " ++ data.
Definition out_of_range (name : bytes) (value : bytes) (type : bytes) : bytes :=
  name ++ str ": value " ++ value ++ str " is out of " ++ type ++ str " range".

Section Values.
  Context `{JsonValue} (debug_str : bytes -> bytes).

Record VarbindDef := MkVarbindDef { vd_oid : bytes; vd_type : bytes; vd_data : Json }.

(** The loop over the elements of an [IpAddress]. *)
Fixpoint ip_octets (octet_index : Z) (arr : list Json) : result bytes bytes :=
  match arr with
  | [] => Ok []
  | octet_element :: rest =>
      let at_ := str "IpAddress: element " ++ show_u64 octet_index in
      let? raw_octet := ok_or (as_u64 octet_element) (at_ ++ str " is not an integer") in
      let? octet := ok_or (u8_try_from raw_octet) (at_ ++ str " value " ++ show_u64 raw_octet ++ str " is out of u8 range") in
      let? octets := ip_octets (octet_index + 1) rest in
      Ok (octet :: octets)
  end.

(** The three 32-bit unsigned types. *)
Definition u32_value (name : bytes) (make : Z -> Value) (data : Json) : result Value bytes :=
  let? raw := ok_or (as_u64 data) (expected name (str "non-negative integer") (json_fmt data)) in
  let? n := ok_or (u32_try_from raw) (out_of_range name (show_u64 raw) (str "u32")) in
  Ok (make n).

Definition string_of (name : bytes) (data : Json) : result bytes bytes :=
  ok_or (as_str data) (expected name (str "string") (json_fmt data)).

(** [to_value], with the text of its error. *)
Definition to_value (d : VarbindDef) : result Value bytes :=
  let data := vd_data d in
  let named (name : string) := bytes_eqb (vd_type d) (str name) in
  if named "Integer32" then
    let? raw_integer := ok_or (as_i64 data) (expected (str "Integer32") (str "integer") (json_fmt data)) in
    let? n := ok_or (i32_try_from raw_integer) (out_of_range (str "Integer32") (show_i64 raw_integer) (str "i32")) in
    Ok (Integer32 n)
  else if named "OctetString" then let? s := string_of (str "OctetString") data in Ok (OctetString s)
  else if named "ObjectIdentifier" then
    let? s := string_of (str "ObjectIdentifier") data in
    let? oid := map_err (fun e => str "ObjectIdentifier: invalid OID '" ++ s ++ str "': " ++ parse_oid_error_fmt debug_str e)
                  (from_str s) in
    Ok (ObjectIdentifier oid)
  else if named "Counter32" then u32_value (str "Counter32") Counter32 data
  else if named "Counter64" then
    let? n := ok_or (as_u64 data) (expected (str "Counter64") (str "non-negative integer") (json_fmt data)) in
    Ok (Counter64 n)
  else if named "Gauge32" then u32_value (str "Gauge32") Gauge32 data
  else if named "TimeTicks" then u32_value (str "TimeTicks") TimeTicks data
  else if named "IpAddress" then
    let? arr := ok_or (as_array data) (expected (str "IpAddress") (str "4-element array") (json_fmt data)) in
    if negb (len arr =? 4) then Err (expected (str "IpAddress") (str "exactly 4 elements") (show_u64 (len arr)))
    else let? octets := ip_octets 0 arr in Ok (IpAddress octets)
  else if named "Opaque" then let? s := string_of (str "Opaque") data in Ok (Opaque s)
  else Err (str "unknown value type: '" ++ vd_type d ++ str "'").

End Values.

(** ** test-agent: configuration from the environment *)

(** [std::str::from_utf8] of two octets. *)
Definition utf8_pair (a b : Z) : bool := ((a <? 128) && (b <? 128)) || ((194 <=? a) && (a <=? 223) && (128 <=? b) && (b <=? 191)).

Definition hex_value (c : Z) : option Z :=
  if (48 <=? c) && (c <=? 57) then Some (c - 48)
  else if (97 <=? c) && (c <=? 102) then Some (c - 87)
  else if (65 <=? c) && (c <=? 70) then Some (c - 55)
  else None.

(** [u8::from_str_radix(_, 16)] of two octets: a leading plus sign is skipped. *)
Definition hex_octet (a b : Z) : option Z :=
  if a =? 43 then hex_value b else x ← hex_value a; y ← hex_value b; Some (x * 16 + y).

(** [chunks_exact(2)] of an even number of octets, from the pair at [position]. *)
Fixpoint hex_pairs (position : Z) (s : bytes) : result bytes Stop :=
  match s with
  | a :: b :: rest =>
      if negb (utf8_pair a b) then Err Panic
      else
        let? o := some_or_fail (str "error: invalid hex in USM_ENGINE_ID at position " ++ show_u64 position ++ str ": " ++
                                int_error_kind_fmt IntInvalidDigit) (hex_octet a b) in
        let? os := hex_pairs (position + 2) rest in
        Ok (o :: os)
  | _ => Ok []
  end.

Definition decode_hex_engine_id (hex_str : bytes) : result bytes Stop :=
  let hex_str := match hex_str with 48 :: 120 :: rest => rest | _ => hex_str end in
  if negb (len hex_str mod 2 =? 0) then Err (Fail (str "error: USM_ENGINE_ID has odd number of hex digits"))
  else hex_pairs 0 hex_str.

Section Environment.
  Context `{CryptoOps} (var : bytes -> option bytes).

(** A variable, or the line that says it is missing. *)
Definition var_or_fail (name : string) (text : string) : result bytes Stop := some_or_fail (str text) (var (str name)).

Definition parse_user_name_env : result UserName Stop :=
  let? user_name := var_or_fail "USM_USER" "error: USM_USER required for authenticated security levels" in
  or_fail (fun _ => str "error: USM_USER must not be empty") (user_name_new user_name).

Definition unsupported (variable other : bytes) : Stop :=
  Fail (str "error: unsupported " ++ variable ++ str " '" ++ other ++ str "'").

Definition parse_auth_env (engine_id : bytes) : result (AuthProtocol * SecretKey) Stop :=
  let? auth_proto_name := var_or_fail "USM_AUTH_PROTO" "error: USM_ENGINE_ID set but USM_AUTH_PROTO missing" in
  let? auth_password := var_or_fail "USM_AUTH_PASS" "error: USM_ENGINE_ID set but USM_AUTH_PASS missing" in
  let? auth_protocol :=
    if bytes_eqb auth_proto_name (str "SHA-256") then Ok HmacSha256
    else if bytes_eqb auth_proto_name (str "SHA-512") then Ok HmacSha512
    else Err (unsupported (str "USM_AUTH_PROTO") auth_proto_name) in
  let? r := no_panic (password_to_localised_key auth_password engine_id auth_protocol) in
  let? localised_key := or_fail (fun e => str "error: failed to derive localised key: " ++ kdf_error_fmt e) r in
  Ok (auth_protocol, localised_key).

Definition parse_usm_env : result (option (EngineId * SecurityConfig NullStore)) Stop :=
  match var (str "USM_ENGINE_ID") with
  | None => Ok None
  | Some engine_id_hex =>
      let? security_level := var_or_fail "USM_SECURITY_LEVEL" "error: USM_ENGINE_ID set but USM_SECURITY_LEVEL missing" in
      let? engine_id_octets := decode_hex_engine_id engine_id_hex in
      let? engine_id := or_fail (fun e => str "error: USM_ENGINE_ID is invalid: " ++ invalid_engine_id_length_fmt e)
                          (engine_id_try_from engine_id_octets) in
      let? config :=
        if bytes_eqb security_level (str "noAuthNoPriv") then Ok ConfigNoAuthNoPriv
        else if bytes_eqb security_level (str "authNoPriv") then
          let? user_name := parse_user_name_env in
          let? '(auth_protocol, localised_key) := parse_auth_env (engine_id_bytes engine_id) in
          let? user := user_or_fail (auth_no_priv_new user_name auth_protocol localised_key) in
          Ok (ConfigAuthNoPriv user MkNullStore)
        else if bytes_eqb security_level (str "authPriv") then
          let? user_name := parse_user_name_env in
          let? '(auth_protocol, localised_key) := parse_auth_env (engine_id_bytes engine_id) in
          let? priv_proto_name := var_or_fail "USM_PRIV_PROTO" "error: USM_SECURITY_LEVEL=authPriv but USM_PRIV_PROTO missing" in
          let? priv_protocol :=
            if bytes_eqb priv_proto_name (str "AES-128") then Ok Aes128
            else if bytes_eqb priv_proto_name (str "AES-256") then Ok Aes256
            else Err (unsupported (str "USM_PRIV_PROTO") priv_proto_name) in
          let? user := user_or_fail (auth_priv_new user_name auth_protocol localised_key priv_protocol) in
          Ok (ConfigAuthPriv user MkNullStore)
        else Err (unsupported (str "USM_SECURITY_LEVEL") security_level) in
      Ok (Some (engine_id, config))
  end.

End Environment.

(** ** test-agent: sending the traps *)

(** A line of the output: two kinds on stdout, one on stderr. *)
Inductive Line := LineOk (d : SocketAddr) | LineErr (d : SocketAddr) (e : IoError) | LineFailed (e : TrapError).

Definition result_line (r : TrapResult) : Line :=
  match outcome r with Ok _ => LineOk (destination r) | Err e => LineErr (destination r) e end.

Definition line_ok (l : Line) : bool := match l with LineOk _ => true | _ => false end.

Inductive Stream := Stdout | Stderr.

Definition line_fmt (debug_str : bytes -> bytes) (l : Line) : Stream * bytes :=
  match l with
  | LineOk d => (Stdout, str "OK " ++ socket_addr_fmt d)
  | LineErr d e => (Stdout, str "ERR " ++ socket_addr_fmt d ++ str " " ++ io_error_fmt debug_str e)
  | LineFailed e => (Stderr, str "error: send_trap failed: " ++ trap_error_fmt e)
  end.

Section Traps.
  Context `{JsonValue, CryptoOps} (debug_str : bytes -> bytes) (seed : Z).

Record TrapDefinition := MkTrapDefinition {
  td_request_id : Z; td_trap_oid : bytes; td_destinations : list bytes; td_varbinds : list VarbindDef }.

(** What the run finds outside: files and the deserialiser of [serde_json], the resolver
    and, for each trap, the clock's two readings and the socket's answers. *)
Record World := MkWorld {
  read_to_string : bytes -> result bytes IoError;
  from_json : bytes -> result (list TrapDefinition) bytes;
  resolve : bytes -> result (list SocketAddr) IoError;
  times : nat -> Z * Z;
  send_to : nat -> bytes -> SocketAddr -> result unit IoError }.

(** [error: {what} '{subject}': {e}] *)
Definition subject_error (what subject e : bytes) : bytes := str "error: " ++ what ++ str " '" ++ subject ++ str "': " ++ e.

Definition to_varbind (v : VarbindDef) : result Varbind Stop :=
  let? oid := or_fail (fun e => subject_error (str "invalid varbind OID") (vd_oid v) (parse_oid_error_fmt debug_str e))
                (from_str (vd_oid v)) in
  let? value := or_fail (subject_error (str "invalid varbind value for OID") (vd_oid v)) (to_value debug_str v) in
  Ok {| vb_oid := oid; vb_value := VValue value |}.

Definition to_pdu (def : TrapDefinition) : result TrapPdu Stop :=
  let? oid := or_fail (fun e => subject_error (str "invalid trap OID") (td_trap_oid def) (parse_oid_error_fmt debug_str e))
                (from_str (td_trap_oid def)) in
  let? varbinds := collect_results to_varbind (td_varbinds def) in
  Ok {| tp_request_id := td_request_id def; trap_oid := oid; tp_varbinds := varbinds |}.

Definition to_destination (w : World) (d : bytes) : result SocketAddr Stop :=
  let? addrs := or_fail (fun e => subject_error (str "cannot resolve destination") d (io_error_fmt debug_str e)) (resolve w d) in
  some_or_fail (str "error: no addresses resolved for '" ++ d ++ str "'") (head addrs).

(** The loop over the definitions, from the [i]-th on: what it has printed and sent, and
    how it ends. *)
Fixpoint send_traps (w : World) (sender : TrapSender) (i : nat) (counter : Z) (salt : SaltState) (all_ok : bool)
    (defs : list TrapDefinition) : list Line * list (SocketAddr * bytes) * Stop :=
  match defs with
  | [] => ([], [], Exit (if all_ok then 0 else 1))
  | def :: rest =>
      match (let? pdu := to_pdu def in
             let? dests := collect_results (to_destination w) (td_destinations def) in Ok (pdu, dests)) with
      | Err stop => ([], [], stop)
      | Ok (pdu, dests) =>
          let '(r, sent, counter, salt) :=
            agent_send_trap seed counter salt (send_to w i) sender (fst (times w i)) (snd (times w i)) pdu dests in
          let lines := match r with Ok results => result_line <$> results | Err e => [LineFailed e] end in
          let '(lines', sent', stop) := send_traps w sender (S i) counter salt (all_ok && forallb line_ok lines) rest in
          (lines ++ lines', sent ++ sent', stop)
      end
  end.

(** [main] up to the loop: the definitions and the sender. *)
Definition trap_setup (w : World) (args : list bytes) (var : bytes -> option bytes) (env : BuildOutcome)
    : result (list TrapDefinition * TrapSender) Stop :=
  let? path := some_or_fail (str "usage: test-agent <trap-definition-file.json>") (args !! 1%nat) in
  let? json := or_fail (fun e => str "error: cannot read " ++ path ++ str ": " ++ io_error_fmt debug_str e) (read_to_string w path) in
  let? defs := or_fail (fun e => str "error: invalid trap definition JSON: " ++ e) (from_json w json) in
  let? usm := parse_usm_env var in
  let '(security, custom_engine_id) :=
    match usm with Some (engine_id, config) => (config, Some engine_id) | None => (ConfigNoAuthNoPriv, None) end in
  let builder := builder_listen_addr (builder_new security) ([0; 0; 0; 0], 0) in
  let builder := match custom_engine_id with Some e => builder_engine_id builder e | None => builder end in
  let? '(r, _) := no_panic (build env None builder) in
  let? agent := or_fail (fun e => str "error: failed to build agent: " ++ agent_error_fmt debug_str e) r in
  Ok (defs, agent_trap_sender agent).

(** [main] of test-agent. *)
Definition trap_main (w : World) (args : list bytes) (var : bytes -> option bytes) (env : BuildOutcome)
    : list Line * list (SocketAddr * bytes) * Stop :=
  match trap_setup w args var env with
  | Err stop => ([], [], stop)
  | Ok (defs, sender) => send_traps w sender 0 TRAP_MSG_ID_COUNTER_INIT None true defs
  end.

End Traps.

(** ** The MIB the system tests rely on *)

Definition SENTINEL : Oid := MkOid [1; 3; 6; 1; 4; 1; 99999; 999; 0].

(** The documented table, in the order of the OIDs. *)
Definition test_mib (sys_name : bytes) : list (Oid * Value) :=
  [(MkOid [1; 3; 6; 1; 2; 1; 1; 1; 0], OctetString (str "basic-snmp-agent test instance"));
   (MkOid [1; 3; 6; 1; 2; 1; 1; 3; 0], TimeTicks 0);
   (MkOid [1; 3; 6; 1; 2; 1; 1; 5; 0], OctetString sys_name);
   (MkOid [1; 3; 6; 1; 4; 1; 99999; 1; 0], Integer32 42);
   (MkOid [1; 3; 6; 1; 4; 1; 99999; 2; 0], Counter32 12345);
   (MkOid [1; 3; 6; 1; 4; 1; 99999; 3; 0], Counter64 9876543210);
   (MkOid [1; 3; 6; 1; 4; 1; 99999; 4; 0], Gauge32 500);
   (MkOid [1; 3; 6; 1; 4; 1; 99999; 5; 0], IpAddress [10; 0; 0; 1]);
   (MkOid [1; 3; 6; 1; 4; 1; 99999; 6; 0], ObjectIdentifier (MkOid [1; 3; 6; 1; 4; 1; 99999]));
   (MkOid [1; 3; 6; 1; 4; 1; 99999; 7; 0], Opaque [0xDE; 0xAD]);
   (SENTINEL, Integer32 0)].

(** The commands that seeding leaves in the channel. *)
Definition seeded (s : System) (el : EventLoop) (sys_name : bytes) : Prop :=
  sys_loop s = Some el /\ sys_queue s = (fun '(o, v) => SetValue o v) <$> test_mib sys_name.

Lemma seed_test_mib_ok el sys_name :
  exists s, seed_test_mib (MkSystem (Some el) [] []) sys_name = Some s /\ seeded s el sys_name.
Proof. eexists. split; [vm_compute; reflexivity|]. by split. Qed.

(** The next wake-up turns them into the table. *)
Lemma seeded_wake s el el' sys_name stop :
  seeded s el sys_name -> store el = store_new -> drain_commands el (sys_queue s) false = (stop, el') ->
  stop = false /\ entries (store el') = test_mib sys_name /\ store_next (store el') SENTINEL = None.
Proof.
  intros [_ Hq] Hst HE. assert (Hs : stop = false) by (rewrite Hq in HE; vm_compute in HE; congruence). subst stop.
  pose proof (drain_commands_store _ _ _ _ HE) as Hd. cbn beta iota in Hd. rewrite Hst, Hq in Hd.
  split; [done|]. rewrite Hd. by split; vm_compute.
Qed.

(** When the operating system grants the listener, the socket and the thread. *)
Definition build_succeeds (env : BuildOutcome) : Prop :=
  (exists addr, setup env = setup_granted addr) /\ udp_bind env = Ok tt /\ spawn env = Ok tt.

Lemma start_mib_agent_ok debug_str env security engine_id sys_name user :
  build_succeeds env -> 5 <= len engine_id <= 32 ->
  config_user security = Some (user, match user with Some _ => Some MkNullStore | None => None end) ->
  security_level_requires_user user (config_level security) = false ->
  exists s el, start_mib_agent debug_str env security engine_id sys_name = Ok (s, sys_name ++ str " ready") /\
    seeded s el sys_name /\ store el = store_new /\
    el_engine_id el = MkEngineId engine_id /\ el_engine_boots el = 1 /\ el_usm_user el = user /\
    el_minimum_security_level el = config_level security.
Proof.
  intros ([addr Hs] & Hu & Hsp) Hl Hc Hlev. unfold start_mib_agent, engine_id_try_from, EngineId_MIN_LEN, EngineId_MAX_LEN.
  bfalse ((len engine_id <? 5) || (32 <? len engine_id)). cbn [expect_ok map_err].
  unfold build. cbn [b_security b_listen_addr builder_engine_id builder_listen_addr builder_new b_engine_id b_max_connections b_timeout_config].
  unfold trap_sender_new. rewrite Hc, Hu, Hsp, Hs.
  assert (Hn : forall boots, event_loop_new (setup_granted addr) LISTEN_ADDR (build_now env) None (MkEngineId engine_id)
    boots user (config_level security) DEFAULT_MAX_CONNECTIONS ConnectionTimeoutConfig_default = Ok (_, addr))
    by (intros boots; unfold event_loop_new; rewrite Hlev; reflexivity).
  destruct user as [u|]; cbn [initialise_engine_boots load save NullStore_store map_err fst snd]; rewrite Hn;
    cbn [map_err no_panic ok_or or_fail agent_loop];
    match goal with |- context [seed_test_mib (MkSystem (Some ?e) [] []) _] =>
      destruct (seed_test_mib_ok e sys_name) as (s & -> & Hse); exists s, e; by split_and! end.
Qed.

Lemma agent_key_ok `{CryptoOps, !CryptoLaws} engine_id :
  exists k, password_to_localised_key (str "authpassword") engine_id HmacSha256 = Some (Ok k) /\
    agent_key engine_id = Ok k /\ key_size k = auth_key_len HmacSha256.
Proof.
  unfold agent_key. rewrite password_to_localised_key_value. cbn -[digest].
  eexists. split_and!; [reflexivity..|]. unfold key_size. apply digest_len.
Qed.

(** The three agents of the system tests start whenever the operating system grants their
    calls; each prints the line the test harness waits for, has its configured security
    level and user and boots 1, and after its first wake-up its MIB is exactly the
    documented table, whose last entry is the sentinel: a GETNEXT beyond it finds the end
    of the MIB. *)
Theorem mib_agents_serve_test_mib `{CryptoOps, !CryptoLaws} (parse_level : bytes -> option Z) (rust_log : option bytes)
    (debug_str : bytes -> bytes) (env : BuildOutcome) (stop : bool)
    (el' : EventLoop) :
  build_succeeds env ->
  Forall (fun '(r, sys_name, level) => exists s el, r = Ok (s, sys_name ++ str " ready") /\ sys_loop s = Some el /\
      el_engine_boots el = 1 /\ el_minimum_security_level el = level /\
      level_rank level = level_rank (default NoAuthNoPriv (user_security_level <$> el_usm_user el)) /\
      (drain_commands el (sys_queue s) false = (stop, el') ->
       stop = false /\ entries (store el') = test_mib sys_name /\ store_next (store el') SENTINEL = None))
    [(mib_agent parse_level rust_log debug_str env, str "test-agent-mib", NoAuthNoPriv);
     (mib_agent_auth parse_level rust_log debug_str env, str "test-agent-mib-auth", AuthNoPriv);
     (mib_agent_auth_priv parse_level rust_log debug_str env, str "test-agent-mib-auth-priv", AuthPriv)].
Proof.
  intros Henv.
  assert (Hgo : forall security engine_id sys_name user, 5 <= len engine_id <= 32 ->
    config_user security = Some (user, match user with Some _ => Some MkNullStore | None => None end) ->
    default NoAuthNoPriv (user_security_level <$> user) = config_level security ->
    exists s el, start_mib_agent debug_str env security engine_id sys_name = Ok (s, sys_name ++ str " ready") /\
      sys_loop s = Some el /\ el_engine_boots el = 1 /\
      el_minimum_security_level el = config_level security /\
      level_rank (config_level security) = level_rank (default NoAuthNoPriv (user_security_level <$> el_usm_user el)) /\
      (drain_commands el (sys_queue s) false = (stop, el') ->
       stop = false /\ entries (store el') = test_mib sys_name /\ store_next (store el') SENTINEL = None)).
  { intros security engine_id sys_name user Hl Hc Hlev.
    destruct (start_mib_agent_ok debug_str env security engine_id sys_name user Henv Hl Hc) as (s & el & E & Hse & Hst & _ & Hb & Hu & Hm).
    { destruct user; [done|]. cbn in Hlev. by rewrite <-Hlev. }
    exists s, el. split_and!; [done|apply Hse|done|done|by rewrite Hu, Hlev|]. intros HE. by eapply seeded_wake. }
  repeat apply Forall_cons_2; [| | |constructor].
  - apply (Hgo ConfigNoAuthNoPriv _ _ None); [vm_compute; split; discriminate|done|done].
  - unfold mib_agent_auth. rewrite with_logging_runs. destruct (agent_key_ok (ENGINE_ID_PREFIX ++ str "test-agent-auth")) as (k & _ & -> & Hk). cbn [expect_ok map_err].
    unfold auth_no_priv_new, validate_auth_key_length. rewrite Hk, Z.eqb_refl.
    refine (Hgo (ConfigAuthNoPriv (MkAuthNoPrivUser (MkUserName (str "authuser")) HmacSha256 k) MkNullStore) _ _ (Some _) _ eq_refl eq_refl).
    vm_compute; split; discriminate.
  - unfold mib_agent_auth_priv. rewrite with_logging_runs. destruct (agent_key_ok (ENGINE_ID_PREFIX ++ str "test-agent-priv")) as (k & _ & -> & Hk). cbn [expect_ok map_err].
    unfold auth_priv_new, validate_auth_key_length. rewrite Hk, Z.eqb_refl.
    destruct (auth_priv_into_user_ok (MkAuthPrivUser (MkUserName (str "privuser")) HmacSha256 k Aes128) Hk) as (u & Eu & _ & Hlev & _).
    refine (Hgo (ConfigAuthPriv (MkAuthPrivUser (MkUserName (str "privuser")) HmacSha256 k Aes128) MkNullStore) _ _ (Some u) _ _ Hlev).
    + vm_compute; split; discriminate.
    + cbn [config_user]. by rewrite Eu.
Qed.

(** Logging is off unless [RUST_LOG] names a level, and a second initialisation panics. *)
Theorem logging_off_by_default (parse_level : bytes -> option Z) (rust_log : option bytes) (max level : Z) (line : bytes) :
  1 <= level -> (forall name, rust_log = Some name -> parse_level name = None) ->
  exists l st, init_logging parse_level rust_log (MkLogState None max) = Some st /\ installed st = Some l /\
    logger_log l level line = None /\ init_logging parse_level rust_log st = None.
Proof.
  intros Hl Hp. unfold init_logging. cbn [installed]. eexists _, _. split_and!; [done|done| |done].
  unfold logger_log, logger_enabled. cbn [level_filter].
  replace (default 0 (name ← rust_log; parse_level name)) with 0 by (destruct rust_log as [n|]; [cbn; by rewrite Hp|done]).
  by bfalse (level <=? 0).
Qed.

(** ** The trap sender *)

Lemma ip_octets_ok `{JsonValue} arr : forall i os,
  ip_octets i arr = Ok os -> length os = length arr /\ Forall is_u8 os.
Proof.
  induction arr as [|j arr IH]; intros i os HE; cbn [ip_octets] in HE; [by injection HE as <-|].
  destruct (as_u64 j) as [raw|]; cbn [ok_or] in HE; [|done].
  destruct (u8_try_from raw) as [o|] eqn:Eo; cbn [ok_or] in HE; [|done].
  destruct (ip_octets (i + 1) arr) as [os'|] eqn:E; [|done]. injection HE as <-. destruct (IH _ _ E) as [Hl Hu].
  split; [cbn; congruence|]. constructor; [|done]. unfold u8_try_from in Eo. destruct (_ && _) eqn:Eb; [|done].
  injection Eo as <-. zrange.
Qed.

(** Every value a definition file can describe is a value the codec can carry. *)
Lemma to_value_wf `{JsonValue, !JsonLaws} debug_str d v : to_value debug_str d = Ok v -> value_wf v.
Proof.
  unfold to_value, u32_value, string_of. intros HE.
  repeat match type of HE with
    | (if ?b then _ else _) = _ => destruct b eqn:?
    | (match ok_or ?o _ with Ok _ => _ | Err _ => _ end) = _ => destruct o eqn:?; cbn [ok_or] in HE
    | (match map_err _ ?r with Ok _ => _ | Err _ => _ end) = _ => destruct r eqn:?; cbn [map_err] in HE
    end; try discriminate HE;
    repeat match goal with
    | H : u32_try_from _ = Some _ |- _ => apply u32_try_from_inv in H as [-> ?]
    | H : i32_try_from _ = Some _ |- _ => apply i32_try_from_inv in H as [-> ?]
    | H : as_str _ = Some _ |- _ => apply as_str_u8 in H
    | H : as_u64 _ = Some _ |- _ => apply as_u64_range in H
    end; try (injection HE as <-; done).
  - injection HE as <-. by eapply from_str_wf.
  - match goal with Hn : negb (_ =? 4) = false |- _ => apply negb_false_iff, Z.eqb_eq in Hn as Hl end.
    destruct (ip_octets _ _) as [os|] eqn:E; [|done]. injection HE as <-.
    destruct (ip_octets_ok _ _ _ E) as [Hlen Hu]. split; [unfold len in *; congruence|done].
Qed.

Lemma collect_results_Err {A B E} (f : A -> result B E) l e : collect_results f l = Err e -> exists a, f a = Err e.
Proof.
  induction l as [|a l IH]; cbn; [done|]. destruct (f a) as [b|e'] eqn:Ea.
  - destruct (collect_results f l); [done|]. intros [= <-]. by apply IH.
  - intros [= <-]. by exists a.
Qed.

Lemma collect_results_elem {A B E} (f : A -> result B E) l r b :
  collect_results f l = Ok r -> b ∈ r -> exists a, f a = Ok b.
Proof.
  intros Hc%collect_results_Ok Hb. apply list_elem_of_lookup in Hb as [i Hi].
  destruct (Forall2_lookup_r _ _ _ _ _ Hc Hi) as (a & _ & Ha). by exists a.
Qed.

(** So every trap it sends is one the delivery theorem of [Trap] speaks about. *)
Lemma to_pdu_wf `{JsonValue, !JsonLaws} debug_str def pdu :
  is_i32 (td_request_id def) -> to_pdu debug_str def = Ok pdu -> trap_pdu_wf pdu.
Proof.
  intros Hr HE. unfold to_pdu in HE. destruct (from_str (td_trap_oid def)) as [o|] eqn:Eo; [|done]. cbn [or_fail map_err] in HE.
  destruct (collect_results (to_varbind debug_str) (td_varbinds def)) as [vbs|] eqn:Ev; [|done]. injection HE as <-.
  split_and!; [done|by eapply from_str_wf|]. cbn. apply Forall_forall. intros vb Hvb.
  destruct (collect_results_elem _ _ _ _ Ev Hvb) as [d Ed]. unfold to_varbind in Ed.
  destruct (from_str (vd_oid d)) as [vo|] eqn:Evo; [|done]. cbn [or_fail map_err] in Ed.
  destruct (to_value debug_str d) as [v|] eqn:Et; [|done]. injection Ed as <-. split; [by eapply from_str_wf|by eapply to_value_wf].
Qed.

Section ExitCode.
  Context `{JsonValue, CryptoOps} (debug_str : bytes -> bytes) (seed : Z) (w : World) (sender : TrapSender).

(** [send_trap] answers once per destination, in order; the API refuses an empty list. *)
Lemma agent_send_trap_results counter salt send ms ms' pdu dests r sent counter' salt' :
  agent_send_trap seed counter salt send sender ms ms' pdu dests = (r, sent, counter', salt') ->
  match r with Ok results => dests <> [] /\ destination <$> results = dests | Err _ => dests = [] end.
Proof.
  unfold agent_send_trap. destruct (is_nil dests) eqn:En; intros HE.
  { injection HE as <- _ _ _. by destruct dests. }
  assert (Hne : dests <> []) by (by intros ->).
  unfold send_trap in HE. destruct (encode_trap_pdu _ _ _ _ _ _) as [[[b|e] c1] s1]; [destruct (TRAP_MTU_BYTES <? len b)|];
    injection HE as <- _ _ _; (split; [done|]); unfold encode_error_for_all; rewrite <-list_fmap_compose; by apply list_fmap_id.
Qed.

Lemma result_lines_ok results : forallb line_ok (result_line <$> results) = true <->
  result_line <$> results = LineOk <$> (destination <$> results).
Proof.
  induction results as [|[d o] results IH]; [done|]. cbn. destruct o; cbn; [|done]. rewrite IH.
  split; [intros E; f_equal; exact E|by intros [= E]].
Qed.

(** The conversions stop the program with a message. *)
Lemma to_pdu_stops def st : to_pdu debug_str def = Err st -> exists line, st = Fail line.
Proof.
  unfold to_pdu. destruct (from_str (td_trap_oid def)); cbn [or_fail map_err]; [|intros [= <-]; by eexists].
  destruct (collect_results _ (td_varbinds def)) as [|e] eqn:Ec; [done|]. intros [= <-].
  apply collect_results_Err in Ec as [v Ev]. unfold to_varbind in Ev.
  destruct (from_str (vd_oid v)); cbn [or_fail map_err] in Ev; [|injection Ev as <-; by eexists].
  destruct (to_value debug_str v); cbn [or_fail map_err] in Ev; [done|injection Ev as <-; by eexists].
Qed.

Lemma to_destinations_stop ds st : collect_results (to_destination debug_str w) ds = Err st -> exists line, st = Fail line.
Proof.
  intros [d Ed]%collect_results_Err. unfold to_destination in Ed.
  destruct (resolve w d) as [[|a addrs]|]; cbn [or_fail map_err some_or_fail head ok_or] in Ed; [|done|];
    injection Ed as <-; by eexists.
Qed.

(** What a definition asks for: a PDU and its destinations, of which there is one. *)
Definition plans (def : TrapDefinition) (p : TrapPdu * list SocketAddr) : Prop :=
  to_pdu debug_str def = Ok (fst p) /\ collect_results (to_destination debug_str w) (td_destinations def) = Ok (snd p) /\
  snd p <> [].

Lemma send_traps_exit defs : forall i counter salt all_ok lines sent stop,
  send_traps debug_str seed w sender i counter salt all_ok defs = (lines, sent, stop) ->
  (exit_code stop = Some 0 <-> all_ok = true /\ exists plan, Forall2 plans defs plan /\ lines = LineOk <$> concat (plan.*2)) /\
  (exit_code stop = Some 0 \/ exit_code stop = Some 1).
Proof.
  induction defs as [|def defs IH]; intros i counter salt all_ok lines sent stop HE; cbn [send_traps] in HE.
  { injection HE as <- _ <-. split; [|destruct all_ok; auto].
    split; [destruct all_ok; [|done]; intros _; split; [done|]; by exists []|]. by intros [-> _]. }
  destruct (to_pdu debug_str def) as [pdu|st] eqn:Ep.
  2: { injection HE as <- _ <-. destruct (to_pdu_stops _ _ Ep) as [line ->]. split; [|by right]. split; [done|].
       intros [_ (plan & Hp & _)]. inversion Hp as [|? p ? ? [Hp1 _]]; subst. congruence. }
  destruct (collect_results (to_destination debug_str w) (td_destinations def)) as [dests|st] eqn:Ed.
  2: { injection HE as <- _ <-. destruct (to_destinations_stop _ _ Ed) as [line ->]. split; [|by right]. split; [done|].
       intros [_ (plan & Hp & _)]. inversion Hp as [|? p ? ? (_ & Hp2 & _)]; subst. congruence. }
  destruct (agent_send_trap _ _ _ _ _ _ _ _ _) as [[[r sent1] c1] s1] eqn:Ea.
  apply agent_send_trap_results in Ea. destruct (send_traps _ _ _ _ _ _ _ _ _) as [[lines' sent'] stop'] eqn:Es.
  injection HE as <- _ <-. destruct (IH _ _ _ _ _ _ _ Es) as [Hiff Hcode]. split; [|done]. rewrite Hiff, andb_true_iff.
  destruct r as [results|e]; [destruct Ea as [Hne Hd]|].
  - rewrite result_lines_ok, Hd. split.
    + intros [[-> Hl] (plan & Hp & ->)]. split; [done|]. exists ((pdu, dests) :: plan). split; [by constructor|].
      cbn. by rewrite fmap_app, Hl.
    + intros [-> (plan & Hp & El)]. inversion Hp as [|? [pdu' dests'] ? plan' (H1 & H2 & _) Hp']; subst. cbn in *.
      rewrite Ed in H2. injection H2 as <-. rewrite fmap_app in El.
      apply app_inj_1 in El as [E1 E2]; [|by rewrite !length_fmap]. split; [done|]. by exists plan'.
  - subst dests. split; [by intros [[_ ?] _]|]. intros [_ (plan & Hp & _)].
    inversion Hp as [|? p ? ? (_ & Hp2 & Hp3)]; subst. congruence.
Qed.

End ExitCode.

(** The exit code of the trap sender tells the truth.  Once it has its definitions and its
    agent it ends with code 0 or 1 and never panics, and the code is 0 exactly when every
    definition is valid, has a destination, and the lines printed are one OK line per
    destination of every trap, in order. *)
Theorem trap_sender_exit_code `{JsonValue, CryptoOps} (debug_str : bytes -> bytes) (seed : Z) (w : World) (args : list bytes)
    (var : bytes -> option bytes) (env : BuildOutcome) (defs : list TrapDefinition) (sender : TrapSender)
    (lines : list Line) (sent : list (SocketAddr * bytes)) (stop : Stop) :
  trap_setup debug_str w args var env = Ok (defs, sender) ->
  trap_main debug_str seed w args var env = (lines, sent, stop) ->
  (exit_code stop = Some 0 <-> exists plan, Forall2 (plans debug_str w) defs plan /\ lines = LineOk <$> concat (plan.*2)) /\
  (exit_code stop = Some 0 \/ exit_code stop = Some 1).
Proof.
  intros Hs HE. unfold trap_main in HE. rewrite Hs in HE. apply send_traps_exit in HE as [Hiff Hcode]. split; [|done].
  rewrite Hiff. naive_solver.
Qed.

(** A plus sign passes for a hexadecimal digit. *)
Theorem hex_engine_id_accepts_plus :
  decode_hex_engine_id (str "0x+1+2+3+4+5") = Ok [1; 2; 3; 4; 5] /\ decode_hex_engine_id (str "0102030405") = Ok [1; 2; 3; 4; 5] /\
  decode_hex_engine_id (str "0x1-") = Err (Fail (str "error: invalid hex in USM_ENGINE_ID at position 0: invalid digit found in string")).
Proof. by vm_compute. Qed.

(** A name that is too long stops the program with the message for an empty one. *)
Theorem long_user_name_exits (var : bytes -> option bytes) (name : bytes) :
  var (str "USM_USER") = Some name -> 32 < len name -> parse_user_name_env var = Err (Fail (str "error: USM_USER must not be empty")).
Proof.
  intros E Hl. unfold parse_user_name_env, var_or_fail, some_or_fail. rewrite E. cbn [ok_or]. unfold user_name_new, UserName_MAX_LENGTH.
  destruct name; [rewrite len_nil in Hl; lia|]. cbn [is_nil]. by btrue (32 <? len (z :: name)).
Qed.
