(* ===== verification/Frames.v ===== *)
(** * Manager frames: [src/tests/snmpv3-frames]

    The library with which the repository builds the requests of a manager: GET,
    GETNEXT, GETBULK and SET messages, signed messages and engine discovery probes.
    It fills in the structures of the [rasn_snmp] crate and leaves the encoding to
    [rasn::ber::encode]; that crate is the class [RasnBer], and the class [RasnLaws]
    says that it emits the definite-length encoding that X.690 prescribes for these
    structures.  The results connect the two sides of the wire: what this library
    builds, with arguments in the ranges of the agent's decoder, is what the agent decodes,
    and what an agent without a user does with it is stated for every request encoder. *)

From S2P Require Import Prelude Oid Ber BerFacts Usm Types Varbind BerPdu Snmp Codec Mib Request Dispatch Framing.

(** ** The structures of [rasn_snmp] that are used *)

Inductive RasnVarBindValue := RasnUnspecified.

Record VarBind := MkVarBind { rvb_name : list Z; rvb_value : RasnVarBindValue }.

Record RasnPdu := MkRasnPdu {
  rp_request_id : Z; rp_error_status : Z; rp_error_index : Z; rp_variable_bindings : list VarBind }.

Record BulkPdu := MkBulkPdu {
  bp_request_id : Z; bp_non_repeaters : Z; bp_max_repetitions : Z; bp_variable_bindings : list VarBind }.

Inductive Pdus :=
| RasnGetRequest (p : RasnPdu)
| RasnGetNextRequest (p : RasnPdu)
| RasnGetBulkRequest (p : BulkPdu)
| RasnSetRequest (p : RasnPdu).

Record ScopedPdu := MkScopedPdu { sp_engine_id : bytes; sp_name : bytes; sp_data : Pdus }.

Record USMSecurityParameters := MkUSMSecurityParameters {
  authoritative_engine_id : bytes; authoritative_engine_boots : Z; authoritative_engine_time : Z;
  rusm_user_name : bytes; authentication_parameters : bytes; privacy_parameters : bytes }.

Record HeaderData := MkHeaderData {
  message_id : Z; hd_max_size : Z; hd_flags : bytes; hd_security_model : Z }.

Record V3Message := MkV3Message {
  v3_version : Z; global_data : HeaderData; security_parameters : bytes; cleartext_pdu : ScopedPdu }.

(** [rasn::ber::encode] at the two types it is used with. *)
Class RasnBer := {
  RasnEncodeError : Type;
  rasn_encode_usm : USMSecurityParameters -> result bytes RasnEncodeError;
  rasn_encode_message : V3Message -> result bytes RasnEncodeError;
}.

(** ** The frame encoders *)

Section Encoders.
  Context `{RasnBer}.

(** [expect]: [None] is the panic. *)
Definition expect {A E} (r : result A E) : option A := result_ok r.

Definition single_varbind_pdu (request_id : Z) (oid_arcs : list Z) : RasnPdu :=
  {| rp_request_id := request_id; rp_error_status := 0; rp_error_index := 0;
     rp_variable_bindings := [{| rvb_name := oid_arcs; rvb_value := RasnUnspecified |}] |}.

Definition encode_v3_message_with_usm_params (engine_id user_name context_name : bytes) (msg_id : Z) (pdus : Pdus)
    (msg_flags_byte : Z) (auth_params : bytes) (auth_engine_boots auth_engine_time : Z)
    : result bytes RasnEncodeError :=
  let scoped_pdu := {| sp_engine_id := engine_id; sp_name := context_name; sp_data := pdus |} in
  let usm_params :=
    {| authoritative_engine_id := engine_id; authoritative_engine_boots := auth_engine_boots;
       authoritative_engine_time := auth_engine_time; rusm_user_name := user_name;
       authentication_parameters := auth_params; privacy_parameters := [] |} in
  let? security_parameters_bytes := rasn_encode_usm usm_params in
  rasn_encode_message
    {| v3_version := 3;
       global_data := {| message_id := msg_id; hd_max_size := 0xFFFF; hd_flags := [msg_flags_byte];
                         hd_security_model := 3 |};
       security_parameters := security_parameters_bytes; cleartext_pdu := scoped_pdu |}.

Definition encode_v3_message_with_auth_params (engine_id user_name context_name : bytes) (msg_id : Z) (pdus : Pdus)
    (msg_flags_byte : Z) (auth_params : bytes) : result bytes RasnEncodeError :=
  encode_v3_message_with_usm_params engine_id user_name context_name msg_id pdus msg_flags_byte auth_params 0 0.

(** [encode_v3_message] of the frames library. *)
Definition frames_encode_v3_message (engine_id user_name context_name : bytes) (msg_id : Z) (pdus : Pdus)
    (msg_flags_byte : Z) : result bytes RasnEncodeError :=
  encode_v3_message_with_auth_params engine_id user_name context_name msg_id pdus msg_flags_byte [].

Definition encode_v3_message_with_max_size (engine_id user_name context_name : bytes) (msg_id : Z) (pdus : Pdus)
    (msg_flags_byte msg_max_size : Z) : result bytes RasnEncodeError :=
  let scoped_pdu := {| sp_engine_id := engine_id; sp_name := context_name; sp_data := pdus |} in
  let usm_params :=
    {| authoritative_engine_id := engine_id; authoritative_engine_boots := 0; authoritative_engine_time := 0;
       rusm_user_name := user_name; authentication_parameters := []; privacy_parameters := [] |} in
  let? security_parameters_bytes := rasn_encode_usm usm_params in
  rasn_encode_message
    {| v3_version := 3;
       global_data := {| message_id := msg_id; hd_max_size := msg_max_size; hd_flags := [msg_flags_byte];
                         hd_security_model := 3 |};
       security_parameters := security_parameters_bytes; cleartext_pdu := scoped_pdu |}.

Definition try_encode_get_request (engine_id context_name : bytes) (msg_id request_id : Z) (oid_arcs : list Z)
    : result bytes RasnEncodeError :=
  let rasn_pdu := single_varbind_pdu request_id oid_arcs in
  frames_encode_v3_message engine_id [] context_name msg_id (RasnGetRequest rasn_pdu) 0x04.

Definition encode_get_request (engine_id context_name : bytes) (msg_id request_id : Z) (oid_arcs : list Z) : option bytes :=
  expect (try_encode_get_request engine_id context_name msg_id request_id oid_arcs).

Definition encode_get_request_with_user_and_flags (engine_id user_name context_name : bytes) (msg_id request_id : Z)
    (oid_arcs : list Z) (msg_flags_byte : Z) : option bytes :=
  let rasn_pdu := single_varbind_pdu request_id oid_arcs in
  expect (frames_encode_v3_message engine_id user_name context_name msg_id (RasnGetRequest rasn_pdu) msg_flags_byte).

Definition encode_get_request_with_user (engine_id user_name context_name : bytes) (msg_id request_id : Z)
    (oid_arcs : list Z) : option bytes :=
  encode_get_request_with_user_and_flags engine_id user_name context_name msg_id request_id oid_arcs 0x04.

Definition encode_get_request_with_user_no_report (engine_id user_name context_name : bytes) (msg_id request_id : Z)
    (oid_arcs : list Z) : option bytes :=
  encode_get_request_with_user_and_flags engine_id user_name context_name msg_id request_id oid_arcs 0x00.

Definition encode_get_request_with_auth_params (engine_id user_name context_name : bytes) (msg_id request_id : Z)
    (oid_arcs : list Z) (msg_flags_byte : Z) (auth_params : bytes) : option bytes :=
  let rasn_pdu := single_varbind_pdu request_id oid_arcs in
  expect (encode_v3_message_with_auth_params engine_id user_name context_name msg_id (RasnGetRequest rasn_pdu)
            msg_flags_byte auth_params).

Definition try_encode_get_request_with_auth_params_and_time (engine_id user_name context_name : bytes)
    (msg_id request_id : Z) (oid_arcs : list Z) (msg_flags_byte : Z) (auth_params : bytes)
    (auth_engine_boots auth_engine_time : Z) : result bytes RasnEncodeError :=
  let rasn_pdu := single_varbind_pdu request_id oid_arcs in
  encode_v3_message_with_usm_params engine_id user_name context_name msg_id (RasnGetRequest rasn_pdu)
    msg_flags_byte auth_params auth_engine_boots auth_engine_time.

Definition encode_get_request_with_auth_params_and_time (engine_id user_name context_name : bytes)
    (msg_id request_id : Z) (oid_arcs : list Z) (msg_flags_byte : Z) (auth_params : bytes)
    (auth_engine_boots auth_engine_time : Z) : option bytes :=
  expect (try_encode_get_request_with_auth_params_and_time engine_id user_name context_name msg_id request_id
            oid_arcs msg_flags_byte auth_params auth_engine_boots auth_engine_time).

Definition try_encode_get_next_request (engine_id context_name : bytes) (msg_id request_id : Z) (oid_arcs : list Z)
    : result bytes RasnEncodeError :=
  let rasn_pdu := single_varbind_pdu request_id oid_arcs in
  frames_encode_v3_message engine_id [] context_name msg_id (RasnGetNextRequest rasn_pdu) 0x04.

Definition encode_get_next_request (engine_id context_name : bytes) (msg_id request_id : Z) (oid_arcs : list Z)
    : option bytes :=
  expect (try_encode_get_next_request engine_id context_name msg_id request_id oid_arcs).

Definition try_encode_get_bulk_request_with_max_size (engine_id context_name : bytes)
    (msg_id request_id non_repeaters max_repetitions : Z) (oid_arcs : list Z) (msg_max_size : Z)
    : result bytes RasnEncodeError :=
  let rasn_pdu :=
    {| bp_request_id := request_id; bp_non_repeaters := non_repeaters; bp_max_repetitions := max_repetitions;
       bp_variable_bindings := [{| rvb_name := oid_arcs; rvb_value := RasnUnspecified |}] |} in
  encode_v3_message_with_max_size engine_id [] context_name msg_id (RasnGetBulkRequest rasn_pdu) 0x04 msg_max_size.

Definition encode_get_bulk_request_with_max_size (engine_id context_name : bytes)
    (msg_id request_id non_repeaters max_repetitions : Z) (oid_arcs : list Z) (msg_max_size : Z) : option bytes :=
  expect (try_encode_get_bulk_request_with_max_size engine_id context_name msg_id request_id non_repeaters
            max_repetitions oid_arcs msg_max_size).

Definition try_encode_get_bulk_request (engine_id context_name : bytes)
    (msg_id request_id non_repeaters max_repetitions : Z) (oid_arcs : list Z) : result bytes RasnEncodeError :=
  try_encode_get_bulk_request_with_max_size engine_id context_name msg_id request_id non_repeaters
    max_repetitions oid_arcs 0xFFFF.

Definition encode_get_bulk_request (engine_id context_name : bytes)
    (msg_id request_id non_repeaters max_repetitions : Z) (oid_arcs : list Z) : option bytes :=
  expect (try_encode_get_bulk_request engine_id context_name msg_id request_id non_repeaters max_repetitions oid_arcs).

Definition try_encode_set_request (engine_id context_name : bytes) (msg_id request_id : Z) (oid_arcs : list Z)
    : result bytes RasnEncodeError :=
  let rasn_pdu := single_varbind_pdu request_id oid_arcs in
  frames_encode_v3_message engine_id [] context_name msg_id (RasnSetRequest rasn_pdu) 0x04.

Definition encode_set_request (engine_id context_name : bytes) (msg_id request_id : Z) (oid_arcs : list Z) : option bytes :=
  expect (try_encode_set_request engine_id context_name msg_id request_id oid_arcs).

Definition encode_get_request_with_context_engine_id (usm_engine_id context_engine_id context_name : bytes)
    (msg_id request_id : Z) (oid_arcs : list Z) : option bytes :=
  let rasn_pdu := single_varbind_pdu request_id oid_arcs in
  let scoped_pdu := {| sp_engine_id := context_engine_id; sp_name := context_name; sp_data := RasnGetRequest rasn_pdu |} in
  let usm_params :=
    {| authoritative_engine_id := usm_engine_id; authoritative_engine_boots := 0; authoritative_engine_time := 0;
       rusm_user_name := []; authentication_parameters := []; privacy_parameters := [] |} in
  security_parameters_bytes ← expect (rasn_encode_usm usm_params);
  expect (rasn_encode_message
    {| v3_version := 3;
       global_data := {| message_id := msg_id; hd_max_size := 0xFFFF; hd_flags := [0x04]; hd_security_model := 3 |};
       security_parameters := security_parameters_bytes; cleartext_pdu := scoped_pdu |}).

Definition encode_discovery_probe_with_flags (flags : bytes) : option bytes :=
  let usm_params :=
    {| authoritative_engine_id := []; authoritative_engine_boots := 0; authoritative_engine_time := 0;
       rusm_user_name := []; authentication_parameters := []; privacy_parameters := [] |} in
  security_parameters_bytes ← expect (rasn_encode_usm usm_params);
  let oid := [1; 3; 6; 1; 2; 1; 1; 1; 0] in
  let get_request :=
    {| rp_request_id := 1; rp_error_status := 0; rp_error_index := 0;
       rp_variable_bindings := [{| rvb_name := oid; rvb_value := RasnUnspecified |}] |} in
  let scoped_pdu := {| sp_engine_id := []; sp_name := []; sp_data := RasnGetRequest get_request |} in
  expect (rasn_encode_message
    {| v3_version := 3;
       global_data := {| message_id := 42; hd_max_size := 0xFFFF; hd_flags := flags; hd_security_model := 3 |};
       security_parameters := security_parameters_bytes; cleartext_pdu := scoped_pdu |}).

Definition encode_discovery_probe : option bytes := encode_discovery_probe_with_flags [0x04].

Definition encode_discovery_probe_no_report : option bytes := encode_discovery_probe_with_flags [0x00].

End Encoders.

(** ** What the encoder emits *)

Definition varbind_of (v : VarBind) : Varbind := MkVarbind (MkOid (rvb_name v)) Unspecified.

(** The context-tagged PDU, and the request the agent should see. *)
Definition pdus_octets (p : Pdus) : bytes :=
  let std tag q := std_pdu_octets tag (rp_request_id q) (rp_error_status q) (rp_error_index q) (varbind_of <$> rp_variable_bindings q) in
  match p with
  | RasnGetRequest q => std TAG_GET_REQUEST q
  | RasnGetNextRequest q => std TAG_GET_NEXT_REQUEST q
  | RasnSetRequest q => std TAG_SET_REQUEST q
  | RasnGetBulkRequest q =>
      std_pdu_octets TAG_GET_BULK_REQUEST (bp_request_id q) (bp_non_repeaters q) (bp_max_repetitions q)
        (varbind_of <$> bp_variable_bindings q)
  end.

Definition inbound_of (p : Pdus) : InboundPdu :=
  match p with
  | RasnGetRequest q => PduGetRequest (MkGetRequest (rp_request_id q) (varbind_of <$> rp_variable_bindings q))
  | RasnGetNextRequest q => PduGetNextRequest (MkGetNextRequest (rp_request_id q) (varbind_of <$> rp_variable_bindings q))
  | RasnSetRequest q => PduSetRequest (MkSetRequest (rp_request_id q) (varbind_of <$> rp_variable_bindings q))
  | RasnGetBulkRequest q =>
      PduGetBulkRequest (MkGetBulkRequest (bp_request_id q) (bp_non_repeaters q) (bp_max_repetitions q)
        (varbind_of <$> bp_variable_bindings q))
  end.

Definition pdus_wf (p : Pdus) : Prop :=
  match p with
  | RasnGetRequest q | RasnGetNextRequest q | RasnSetRequest q =>
      is_i32 (rp_request_id q) /\ is_i32 (rp_error_status q) /\ is_i32 (rp_error_index q) /\
      Forall varbind_wf (varbind_of <$> rp_variable_bindings q)
  | RasnGetBulkRequest q =>
      is_i32 (bp_request_id q) /\ 0 <= bp_non_repeaters q <= I32_MAX /\ 0 <= bp_max_repetitions q <= I32_MAX /\
      Forall varbind_wf (varbind_of <$> bp_variable_bindings q)
  end.

Definition usm_octets (u : USMSecurityParameters) : bytes :=
  seq_tlv (oct_tlv (authoritative_engine_id u) ++ int_tlv (authoritative_engine_boots u)
    ++ int_tlv (authoritative_engine_time u) ++ oct_tlv (rusm_user_name u)
    ++ oct_tlv (authentication_parameters u) ++ oct_tlv (privacy_parameters u)).

Definition message_octets (m : V3Message) : bytes :=
  let h := global_data m in
  let s := cleartext_pdu m in
  seq_tlv (int_tlv (v3_version m)
    ++ seq_tlv (int_tlv (message_id h) ++ int_tlv (hd_max_size h) ++ oct_tlv (hd_flags h) ++ int_tlv (hd_security_model h))
    ++ oct_tlv (security_parameters m)
    ++ seq_tlv (oct_tlv (sp_engine_id s) ++ oct_tlv (sp_name s) ++ pdus_octets (sp_data s))).

(** [rasn::ber::encode] on structures whose integers are 32-bit and whose object
    identifiers are well formed: it succeeds with the encoding of X.690 (definite,
    minimal lengths and integers), the structures being those of RFC 3412 and RFC 3414. *)
Class RasnLaws `{RasnBer} : Prop := {
  rasn_usm_ber u : is_i32 (authoritative_engine_boots u) -> is_i32 (authoritative_engine_time u) ->
    rasn_encode_usm u = Ok (usm_octets u);
  rasn_message_ber m : is_i32 (v3_version m) -> is_i32 (message_id (global_data m)) -> is_i32 (hd_max_size (global_data m)) ->
    is_i32 (hd_security_model (global_data m)) -> pdus_wf (sp_data (cleartext_pdu m)) ->
    rasn_encode_message m = Ok (message_octets m);
}.

(** A concrete encoder with these laws. *)
Module RefRasn.
#[export] Instance ops : RasnBer := {|
  RasnEncodeError := unit;
  rasn_encode_usm u := Ok (usm_octets u);
  rasn_encode_message m := Ok (message_octets m);
|}.

#[export] Instance laws : @RasnLaws ops.
Proof. by split. Qed.
End RefRasn.

(** ** A manager's request and its frame *)

Record ManagerRequest := MkManagerRequest {
  mr_msg_id : Z; mr_max_size : Z; mr_flags : Z; mr_engine_id : bytes; mr_boots : Z; mr_time : Z;
  mr_user : bytes; mr_auth : bytes; mr_context_engine : bytes; mr_context_name : bytes; mr_pdus : Pdus }.

Definition mr_scoped (r : ManagerRequest) : ScopedData :=
  SPlaintext (mr_context_engine r) (mr_context_name r) (pdus_octets (mr_pdus r)).

Definition frame_octets (r : ManagerRequest) : bytes :=
  v3_octets (mr_msg_id r) (mr_max_size r) (mr_flags r) 3 (mr_engine_id r) (mr_boots r) (mr_time r) (mr_user r)
    (mr_auth r) [] (scoped_data_octets (mr_scoped r)).

Definition frame_prefix (r : ManagerRequest) : bytes :=
  v3_prefix (mr_msg_id r) (mr_max_size r) (mr_flags r) 3 (mr_engine_id r) (mr_boots r) (mr_time r) (mr_user r)
    (len (mr_auth r)) [] (scoped_data_octets (mr_scoped r)).

(** The message the agent sees. *)
Definition frame_message (r : ManagerRequest) : V3InboundMessage :=
  {| msg_id := mr_msg_id r; max_size := mr_max_size r; security_model := 3; msg_engine_id := mr_context_engine r;
     msg_context_name := mr_context_name r; msg_user_name := mr_user r; scoped_data := Plaintext (inbound_of (mr_pdus r));
     usm := {| auth_engine_id := mr_engine_id r; auth_engine_boots := mr_boots r; auth_engine_time := mr_time r;
               security_flags := MkMsgFlags (mr_flags r); auth_params := result_ok (auth_params_try_from (mr_auth r));
               priv_params := None |};
     raw_message := frame_octets r;
     auth_params_offset := if is_nil (mr_auth r) then None else Some (len (frame_prefix r)) |}.

Record request_wf (r : ManagerRequest) : Prop := {
  rw_id : 0 <= mr_msg_id r <= I32_MAX;
  rw_max : 484 <= mr_max_size r <= I32_MAX;
  rw_flags : is_u8 (mr_flags r);
  rw_boots : 0 <= mr_boots r <= I32_MAX;
  rw_time : 0 <= mr_time r <= I32_MAX;
  rw_user : len (mr_user r) <= 32;
  rw_bytes : Forall is_u8 (mr_engine_id r ++ mr_user r ++ mr_auth r ++ mr_context_engine r ++ mr_context_name r);
  rw_pdus : pdus_wf (mr_pdus r);
  rw_size : len (mr_engine_id r) + len (mr_auth r) + len (mr_context_engine r) + len (mr_context_name r)
            + len (pdus_octets (mr_pdus r)) <= PAYLOAD_MAX;
}.

Lemma frame_len r : request_wf r -> len (frame_octets r) <= 2 * PAYLOAD_MAX + 400.
Proof.
  intros []. unfold frame_octets. pose proof (v3_octets_len (mr_msg_id r) (mr_max_size r) (mr_flags r) 3 (mr_engine_id r)
    (mr_boots r) (mr_time r) (mr_user r) (mr_auth r) [] (scoped_data_octets (mr_scoped r))) as Hl.
  unfold I32_MAX, PAYLOAD_MAX in *. rewrite len_nil in Hl.
  pose proof (len_nonneg (mr_engine_id r)). pose proof (len_nonneg (mr_auth r)). pose proof (len_nonneg (mr_context_engine r)).
  pose proof (len_nonneg (mr_context_name r)). pose proof (len_nonneg (pdus_octets (mr_pdus r))).
  assert (HU : USIZE_MAX = 18446744073709551615) by done.
  pose proof (oct_tlv_len (mr_context_engine r) ltac:(lia)). pose proof (oct_tlv_len (mr_context_name r) ltac:(lia)).
  assert (Hs : len (scoped_data_octets (mr_scoped r)) <= 4294967296 + 30).
  { unfold scoped_data_octets, mr_scoped. pose proof (seq_tlv_len (oct_tlv (mr_context_engine r) ++ oct_tlv (mr_context_name r)
      ++ pdus_octets (mr_pdus r)) ltac:(rewrite !len_app; lia)) as Hq. rewrite !len_app in Hq. lia. }
  etrans; [apply Hl; first [zrange|lia]|]. lia.
Qed.

Lemma pdus_octets_std p : pdus_wf p ->
  exists tag a b c vbs, pdus_octets p = std_pdu_octets tag a b c vbs /\ is_u8 tag /\ is_i32 a /\ is_i32 b /\ is_i32 c /\
    Forall varbind_wf vbs.
Proof.
  destruct p as [q|q|q|q]; cbn [pdus_wf pdus_octets]; intros (Ha & Hb & Hc & Hv);
    eexists _, _, _, _, _; (split; [reflexivity|]); unfold I32_MAX in *; split_and!; try done; try zrange.
Qed.

Lemma pdus_octets_u8 p : pdus_wf p -> len (pdus_octets p) <= ISIZE_MAX -> Forall is_u8 (pdus_octets p).
Proof. intros (tag & a & b & c & vbs & -> & ? & ? & ? & ? & ?)%pdus_octets_std Hl. by apply std_pdu_octets_u8. Qed.

(** The agent's decoder recovers the request from the PDU's octets. *)
Lemma pdus_decode p : pdus_wf p -> len (pdus_octets p) <= ISIZE_MAX ->
  exists d, ber_decode_pdu (pdus_octets p) = Ok d /\ decoded_pdu_to_inbound d = Ok (inbound_of p).
Proof.
  destruct p as [q|q|q|q]; cbn [pdus_wf pdus_octets inbound_of]; intros (Ha & Hb & Hc & Hv) Hl;
    pose proof (decode_varbinds_roundtrip _ Hv (std_pdu_octets_parts _ _ _ _ _ Hl)) as Hd;
    try (match type of Hl with len (std_pdu_octets ?tag _ _ _ _) <= _ =>
        destruct (std_pdu_decodes tag _ _ _ _ ltac:(cbn; tauto) Ha Hb Hc Hv Hl) as [-> _] end; eexists; (split; [reflexivity|]);
      cbv beta iota delta [decoded_pdu_to_inbound TAG_GET_REQUEST TAG_GET_NEXT_REQUEST TAG_SET_REQUEST Z.eqb Pos.eqb];
      by rewrite Hd).
  unfold std_pdu_octets, vbl_octets, seq_tlv in *. unfold I32_MAX in *. rewrite ber_decode_pdu_octets by (done || zrange).
  eexists. split; [reflexivity|]. cbn [decoded_pdu_to_inbound].
  rewrite Hd. unfold u32_or. by rewrite !u32_try_from_Some by zrange.
Qed.

Lemma scoped_octets_bound r : request_wf r ->
  len (scoped_data_octets (mr_scoped r)) <= ISIZE_MAX /\ len (pdus_octets (mr_pdus r)) <= ISIZE_MAX.
Proof.
  intros Hw. pose proof (frame_len r Hw) as Hl. unfold frame_octets in Hl. rewrite v3_octets_split in Hl.
  unfold v3_suffix in Hl. rewrite !len_app in Hl. destruct Hw.
  pose proof (len_nonneg (mr_engine_id r)). pose proof (len_nonneg (mr_auth r)). pose proof (len_nonneg (mr_context_engine r)).
  pose proof (len_nonneg (mr_context_name r)).
  pose proof (len_nonneg (v3_prefix (mr_msg_id r) (mr_max_size r) (mr_flags r) 3 (mr_engine_id r) (mr_boots r) (mr_time r)
    (mr_user r) (len (mr_auth r)) [] (scoped_data_octets (mr_scoped r)))).
  pose proof (len_nonneg (oct_tlv [])). unfold ISIZE_MAX, PAYLOAD_MAX in *. lia.
Qed.

Lemma frame_u8 r : request_wf r -> Forall is_u8 (frame_octets r).
Proof.
  intros Hw. pose proof (frame_len r Hw) as HM. destruct (scoped_octets_bound r Hw) as [_ Hp]. pose proof Hw as [].
  rewrite !Forall_app in rw_bytes0. destruct rw_bytes0 as (Be & Bu & Ba & Bc & Bn).
  assert (HI : len (frame_octets r) <= ISIZE_MAX) by (unfold ISIZE_MAX, PAYLOAD_MAX in *; lia). clear HM.
  unfold frame_octets, v3_octets in *. pose proof (len_tlv_content _ _ _ HI) as H1. apply seq_tlv_u8; [|done].
  rewrite !len_app in H1. pose proof (len_nonneg (int_tlv SNMPV3_VERSION)).
  match type of H1 with _ + (len ?a + (len ?b + len ?c)) <= _ =>
    pose proof (len_nonneg a); pose proof (len_nonneg b); pose proof (len_nonneg c);
    assert (L1 : len a <= ISIZE_MAX) by lia; assert (L2 : len b <= ISIZE_MAX) by lia; assert (L3 : len c <= ISIZE_MAX) by lia end.
  apply len_tlv_content in L1. pose proof (len_tlv_content _ _ _ L2) as L4. apply len_tlv_content in L4 as L5.
  unfold scoped_data_octets, mr_scoped in *. apply len_tlv_content in L3. rewrite !Forall_app. unfold I32_MAX in *.
  assert (Hsmall : forall b : bytes, len b <= PAYLOAD_MAX -> len b <= ISIZE_MAX) by (unfold ISIZE_MAX, PAYLOAD_MAX; lia).
  pose proof (len_nonneg (mr_engine_id r)). pose proof (len_nonneg (mr_auth r)). pose proof (len_nonneg (mr_context_engine r)).
  pose proof (len_nonneg (mr_context_name r)). pose proof (len_nonneg (pdus_octets (mr_pdus r))).
  split_and!; [by apply int_tlv_u8| | |].
  - apply seq_tlv_u8; [|exact L1]. rewrite !Forall_app. split_and!; try (apply int_tlv_u8; zrange). apply oct_tlv_u8; [by constructor|done].
  - apply oct_tlv_u8; [|exact L4]. apply seq_tlv_u8; [|exact L5]. rewrite !Forall_app.
    split_and!; try (apply int_tlv_u8; zrange); apply oct_tlv_u8; try done; try (apply Hsmall; lia).
    apply Hsmall. etrans; [exact rw_user0|done].
  - apply seq_tlv_u8; [|exact L3]. rewrite !Forall_app. split_and!; [apply oct_tlv_u8; [done|apply Hsmall; lia]..|].
    exact (pdus_octets_u8 _ rw_pdus0 Hp).
Qed.

(** The agent decodes the frame to the message the manager described. *)
Lemma frame_decodes r : request_wf r -> decode_v3_message (frame_octets r) = Ok (frame_message r).
Proof.
  intros Hw. pose proof (frame_len r Hw) as HM. destruct (scoped_octets_bound r Hw) as [_ Hp]. pose proof Hw as [].
  destruct (pdus_decode _ rw_pdus0 Hp) as (d & Ed & Ei). unfold decode_v3_message, I32_MAX in *.
  unfold frame_octets at 1. rewrite (decode_v3_envelope_octets _ _ _ _ _ _ _ _ _ _ _) with (d := mr_scoped r);
    try done; try zrange; try (fold (frame_octets r); unfold ISIZE_MAX, PAYLOAD_MAX in *; lia); try lia.
  cbn [map_err env_usm env_scoped_data mr_scoped uf_engine_boots uf_engine_time]. rewrite Ed. cbn [map_err]. rewrite Ei.
  unfold u32_or. by rewrite !u32_try_from_Some by zrange.
Qed.

Lemma v3_octets_frame i m f s e b t u a p scoped :
  len (v3_octets i m f s e b t u a p scoped) <= MAX_FRAME_SIZE -> is_frame (v3_octets i m f s e b t u a p scoped).
Proof. apply seq_tlv_frame. Qed.

#[local] Opaque v3_octets v3_prefix std_pdu_octets tlv.

(** ** The agent's answer *)

Section Answers.
  Context `{CryptoOps, !CryptoLaws}.

(** The request is for this engine's default context, and is no discovery probe. *)
Definition addressed (r : ManagerRequest) (i : DispatchInputs) : Prop :=
  mr_engine_id r <> [] /\ mr_context_engine r = engine_id i /\ mr_context_name r = [].

(** A request that passes the checks is answered with the response of its handler. *)
Lemma frame_answered seed salt r mib ctx :
  is_u64 seed -> salt_state_ok salt -> request_wf r -> context_wf ctx -> store_wf mib -> addressed r (inputs ctx) ->
  user_ok (inputs ctx) (frame_message r) -> level_ok (inputs ctx) (frame_message r) -> is_priv (MkMsgFlags (mr_flags r)) = false ->
  mac_ok (inputs ctx) (frame_message r) -> time_ok (inputs ctx) (frame_message r) ->
  len (response_octets (frame_message r) mib (inbound_of (mr_pdus r))) + 32 <= PAYLOAD_MAX ->
  exists resp salt' env,
    process_snmpv3_request seed salt (frame_octets r) ctx mib = (Some resp, ctx, salt') /\ salt_state_ok salt' /\
    opened (mr_msg_id r) (engine_id (inputs ctx)) (mr_user r) [] (engine_boots (inputs ctx)) (engine_time (inputs ctx))
      (auth_pair (usm_user (inputs ctx))) (priv_pair (usm_user (inputs ctx)))
      (response_octets (frame_message r) mib (inbound_of (mr_pdus r))) resp env.
Proof.
  intros Hseed Hst Hw Hctx Hmib (Hne & Hce & Hcn) Hu Hlev Hpriv Hmac Htime Hsize.
  pose proof (frame_len r Hw) as Hl. assert (HI : len (frame_octets r) <= ISIZE_MAX) by (unfold ISIZE_MAX, PAYLOAD_MAX in *; lia).
  assert (Hp : passes (inputs ctx) (frame_message r)).
  { split; [|exact Hu|exact Hlev|exact Hpriv|exact Hmac|exact Htime|exact Hcn].
    split; [done|]. by split. }
  destruct (pipeline_answers seed salt (frame_octets r) mib ctx (frame_message r) (inbound_of (mr_pdus r)) Hseed Hst
    (frame_u8 r Hw) HI Hctx Hmib (frame_decodes r Hw) Hp eq_refl Hsize) as (resp & salt' & env & E & Hst' & Ho).
  exists resp, salt', env. split_and!; [|exact Hst'|exact Ho]. unfold process_snmpv3_request. by rewrite E.
Qed.

(** A request that is refused is dropped, or counted and reported if its flags ask for it. *)
Lemma frame_outcome seed salt r mib ctx oc :
  request_wf r -> refusal (inputs ctx) (frame_message r) oc ->
  exists rj ctx', refuses oc (frame_message r) ctx rj ctx' /\
    process_snmpv3_request seed salt (frame_octets r) ctx mib = (reject_into_option rj, ctx', salt).
Proof.
  intros Hw Hr. unfold process_snmpv3_request, run_validation_pipeline. rewrite (frame_decodes _ Hw).
  pose proof (validate_outcome (frame_message r) ctx) as Ho.
  destruct (validate (frame_message r) ctx) as [[[pdu cn]|rj] ctx']; inversion Ho as [pdu' Hp Hs|oc' r' ctx2 Hr' Hk]; subst.
  - by destruct (refusal_not_served _ _ _ pdu Hr).
  - pose proof (refusal_functional _ _ _ _ Hr Hr'). subst oc'. by exists rj, ctx'.
Qed.

Lemma frame_refused seed salt r mib ctx c :
  request_wf r -> refusal (inputs ctx) (frame_message r) (Some c) ->
  exists ctx', counted c ctx ctx' /\
    process_snmpv3_request seed salt (frame_octets r) ctx mib = (reject_into_option (report_for c (frame_message r) ctx), ctx', salt).
Proof.
  intros Hw Hr. destruct (frame_outcome seed salt r mib ctx (Some c) Hw Hr) as (rj & ctx' & [Hk ->] & E). by exists ctx'.
Qed.

Lemma frame_dropped seed salt r mib ctx :
  request_wf r -> refusal (inputs ctx) (frame_message r) None ->
  process_snmpv3_request seed salt (frame_octets r) ctx mib = (None, ctx, salt).
Proof.
  intros Hw Hr. destruct (frame_outcome seed salt r mib ctx None Hw Hr) as (rj & ctx' & [-> ->] & ->). done.
Qed.

Lemma frame_reported seed salt r mib ctx c :
  request_wf r -> context_wf ctx -> (forall c, is_u32 (select_counter c (inputs ctx))) ->
  is_reportable (MkMsgFlags (mr_flags r)) = true -> refusal (inputs ctx) (frame_message r) (Some c) ->
  exists report ctx' env,
    process_snmpv3_request seed salt (frame_octets r) ctx mib = (Some report, ctx', salt) /\ counted c ctx ctx' /\
    opened (mr_msg_id r) (engine_id (inputs ctx)) [] [] (engine_boots (inputs ctx)) (engine_time (inputs ctx)) None None
      (std_pdu_octets TAG_REPORT (mr_msg_id r) 0 0 [report_varbind c (inputs ctx')]) report env.
Proof.
  intros Hw Hctx Hc Hf Hr. destruct (frame_refused seed salt r mib ctx c Hw Hr) as (ctx' & Hk & E).
  destruct (report_for_opens c (frame_message r) ctx ctx' Hctx Hc ltac:(by destruct Hw) Hk Hf) as (b & env & Eb & Ho).
  rewrite Eb in E. by exists b, ctx', env.
Qed.

Definition signed_with (mac : bytes) (r : ManagerRequest) : ManagerRequest :=
  {| mr_msg_id := mr_msg_id r; mr_max_size := mr_max_size r; mr_flags := mr_flags r; mr_engine_id := mr_engine_id r;
     mr_boots := mr_boots r; mr_time := mr_time r; mr_user := mr_user r; mr_auth := mac;
     mr_context_engine := mr_context_engine r; mr_context_name := mr_context_name r; mr_pdus := mr_pdus r |}.

Lemma frame_split r :
  frame_octets r = frame_prefix r ++ mr_auth r ++ v3_suffix [] (scoped_data_octets (mr_scoped r)).
Proof. unfold frame_octets. rewrite v3_octets_split. reflexivity. Qed.

Lemma verify_hmac_slice p k pre mac post :
  len (pre ++ mac ++ post) <= ISIZE_MAX ->
  verify_hmac p k (MkHmacInput (pre ++ mac ++ post) mac (Some (len pre))) = true <->
  compute_mac p k (pre ++ replicate (length mac) 0 ++ post) = Ok mac.
Proof.
  intros Hl. unfold verify_hmac. cbn [hi_auth_params_offset hi_raw_message hi_auth_params].
  rewrite zero_auth_params_slice by exact Hl. rewrite <-verify_mac_ok. by destruct (verify_mac _ _ _ _) as [[]|].
Qed.

(** A frame with a MAC in the place of its zeroed parameters verifies under the keys with
    this MAC of the zeroed frame. *)
Lemma signed_frame_verifies r p k mac :
  mr_auth r = replicate (Z.to_nat (mac_len p)) 0 -> len mac = mac_len p -> Forall is_u8 mac -> request_wf r ->
  request_wf (signed_with mac r) /\
  (verify_hmac p k (hmac_input (frame_message (signed_with mac r))) = true <-> compute_mac p k (frame_octets r) = Ok mac).
Proof.
  intros Ha Hml Hu Hw.
  assert (Hla : len (mr_auth r) = len mac) by (rewrite Hml, Ha; unfold len; rewrite length_replicate; by destruct p).
  assert (Hw' : request_wf (signed_with mac r)).
  { destruct Hw. split; try done; cbn.
    - rewrite !Forall_app in *. tauto.
    - by rewrite <-Hla. }
  split; [done|]. pose proof (frame_len _ Hw') as Hl.
  assert (Hne : is_nil mac = false) by (destruct mac; [by destruct p|done]).
  assert (Epre : frame_prefix r = frame_prefix (signed_with mac r)).
  { unfold frame_prefix. cbn [signed_with mr_msg_id mr_max_size mr_flags mr_engine_id mr_boots mr_time mr_user mr_auth].
    by rewrite Hla. }
  assert (Ein : hmac_input (frame_message (signed_with mac r)) =
    MkHmacInput (frame_prefix r ++ mac ++ v3_suffix [] (scoped_data_octets (mr_scoped r))) mac (Some (len (frame_prefix r)))).
  { unfold hmac_input, frame_message, auth_params_try_from. cbn [usm auth_params raw_message auth_params_offset].
    rewrite frame_split, Epre. change (mr_auth (signed_with mac r)) with mac. rewrite Hne. reflexivity. }
  rewrite Ein. rewrite frame_split, <-Epre in Hl. change (mr_auth (signed_with mac r)) with mac in Hl.
  rewrite verify_hmac_slice; [|unfold ISIZE_MAX, PAYLOAD_MAX in *; etrans; [exact Hl|lia]].
  rewrite frame_split, Ha. unfold len in Hml. by replace (Z.to_nat (mac_len p)) with (length mac) by lia.
Qed.

(** ** The library's functions build these frames *)

Context `{RasnBer, !RasnLaws}.

(** The manager request described by the arguments of [encode_v3_message_with_usm_params]. *)
Definition usm_request (e user cname : bytes) (mid : Z) (pdus : Pdus) (flags : Z) (auth : bytes) (boots time : Z) : ManagerRequest :=
  MkManagerRequest mid 0xFFFF flags e boots time user auth e cname pdus.

Lemma message_frame r : request_wf r ->
  (let? sp := rasn_encode_usm (MkUSMSecurityParameters (mr_engine_id r) (mr_boots r) (mr_time r) (mr_user r) (mr_auth r) []) in
   rasn_encode_message (MkV3Message 3 (MkHeaderData (mr_msg_id r) (mr_max_size r) [mr_flags r] 3) sp
     (MkScopedPdu (mr_context_engine r) (mr_context_name r) (mr_pdus r)))) = Ok (frame_octets r).
Proof.
  intros []. unfold I32_MAX in *. rewrite rasn_usm_ber by (cbn; zrange).
  rewrite rasn_message_ber; [reflexivity|cbn; zrange..|exact rw_pdus0].
Qed.

Lemma usm_params_frame e user cname mid pdus flags auth boots time :
  request_wf (usm_request e user cname mid pdus flags auth boots time) ->
  encode_v3_message_with_usm_params e user cname mid pdus flags auth boots time =
    Ok (frame_octets (usm_request e user cname mid pdus flags auth boots time)).
Proof. apply (message_frame (usm_request e user cname mid pdus flags auth boots time)). Qed.

Lemma max_size_frame e user cname mid pdus flags max :
  request_wf (MkManagerRequest mid max flags e 0 0 user [] e cname pdus) ->
  encode_v3_message_with_max_size e user cname mid pdus flags max =
    Ok (frame_octets (MkManagerRequest mid max flags e 0 0 user [] e cname pdus)).
Proof. apply (message_frame (MkManagerRequest mid max flags e 0 0 user [] e cname pdus)). Qed.

(** A PDU with one varbind is well formed and small. *)
Lemma single_varbind_len oid : oid_wf oid ->
  varbind_wf (varbind_of (MkVarBind (as_slice oid) RasnUnspecified)) /\
  len (concat (varbind_octets <$> [varbind_of (MkVarBind (as_slice oid) RasnUnspecified)])) <= 700.
Proof.
  intros Ho. assert (Ev : varbind_of (MkVarBind (as_slice oid) RasnUnspecified) = MkVarbind oid Unspecified) by (by destruct oid).
  rewrite Ev. split; [by split|]. cbn [fmap list_fmap concat]. rewrite app_nil_r. unfold varbind_octets.
  cbn [vb_oid vb_value value_tag value_content].
  pose proof (oid_wf_len _ Ho). pose proof (encode_oid_len _ Ho). assert (HU : USIZE_MAX = 18446744073709551615) by done.
  pose proof (tlv_len TAG_OID (encode_oid oid) ltac:(lia)). pose proof (tlv_len TAG_NULL [] ltac:(done)) as Hn. rewrite len_nil in Hn.
  pose proof (tlv_len TAG_SEQUENCE (tlv TAG_OID (encode_oid oid) ++ tlv TAG_NULL []) ltac:(rewrite len_app; lia)) as Hs.
  rewrite len_app in Hs. lia.
Qed.

Definition single_pdus (oid : Oid) (p : Pdus) : Prop :=
  match p with
  | RasnGetRequest q | RasnGetNextRequest q | RasnSetRequest q =>
      exists rid, is_i32 rid /\ q = single_varbind_pdu rid (as_slice oid)
  | RasnGetBulkRequest q =>
      exists rid nr mr, is_i32 rid /\ 0 <= nr <= I32_MAX /\ 0 <= mr <= I32_MAX /\
        q = MkBulkPdu rid nr mr [MkVarBind (as_slice oid) RasnUnspecified]
  end.

Lemma single_pdus_wf oid p : oid_wf oid -> single_pdus oid p -> pdus_wf p /\ len (pdus_octets p) <= 800.
Proof.
  intros Ho Hp. destruct (single_varbind_len oid Ho) as [Hv Hl]. assert (HU : USIZE_MAX = 18446744073709551615) by done.
  assert (Hlen : forall tag a b c, is_i32 a -> is_i32 b -> is_i32 c ->
    len (std_pdu_octets tag a b c [varbind_of (MkVarBind (as_slice oid) RasnUnspecified)]) <= 800).
  { intros tag a b c Ha Hb Hc. pose proof (std_pdu_octets_len tag a b c
      [varbind_of (MkVarBind (as_slice oid) RasnUnspecified)] Ha Hb Hc ltac:(lia)). lia. }
  destruct p as [q|q|q|q]; cbn [single_pdus] in Hp.
  3: { destruct Hp as (rid & nr & mr & Hr & Hn & Hm & ->). split.
       - cbn. unfold I32_MAX in *. split_and!; try zrange. by constructor.
       - apply Hlen; unfold I32_MAX in *; cbn; zrange. }
  all: destruct Hp as (rid & Hr & ->); split; [cbn; split_and!; try zrange; by constructor|apply Hlen; cbn; zrange].
Qed.

Lemma single_request_wf oid r :
  oid_wf oid -> single_pdus oid (mr_pdus r) -> 0 <= mr_msg_id r <= I32_MAX -> 484 <= mr_max_size r <= I32_MAX ->
  is_u8 (mr_flags r) -> 0 <= mr_boots r <= I32_MAX -> 0 <= mr_time r <= I32_MAX -> len (mr_user r) <= 32 ->
  Forall is_u8 (mr_engine_id r ++ mr_user r ++ mr_auth r ++ mr_context_engine r ++ mr_context_name r) ->
  len (mr_engine_id r) + len (mr_auth r) + len (mr_context_engine r) + len (mr_context_name r) <= 65535 -> request_wf r.
Proof.
  intros Ho Hp Hi Hm Hf Hb Ht Hu Hby Hl. destruct (single_pdus_wf _ _ Ho Hp) as [Hw Hs].
  split; try assumption. unfold PAYLOAD_MAX. lia.
Qed.

(** Such a request is one frame on a stream. *)
Lemma single_request_frame oid r :
  oid_wf oid -> single_pdus oid (mr_pdus r) -> request_wf r ->
  len (mr_engine_id r) + len (mr_auth r) + len (mr_context_engine r) + len (mr_context_name r) <= 1024 ->
  is_frame (frame_octets r).
Proof.
  intros Ho Hp Hw Hl. destruct (single_pdus_wf _ _ Ho Hp) as [_ Hs]. destruct Hw as [Hw1 Hw2 Hw3 Hw4 Hw5 Hw6 _ _ _].
  apply v3_octets_frame. unfold MAX_FRAME_SIZE.
  pose proof (v3_octets_len (mr_msg_id r) (mr_max_size r) (mr_flags r) 3 (mr_engine_id r)
    (mr_boots r) (mr_time r) (mr_user r) (mr_auth r) [] (scoped_data_octets (mr_scoped r))) as Hv.
  unfold I32_MAX, PAYLOAD_MAX in *. rewrite len_nil in Hv.
  pose proof (len_nonneg (mr_engine_id r)). pose proof (len_nonneg (mr_auth r)). pose proof (len_nonneg (mr_context_engine r)).
  pose proof (len_nonneg (mr_context_name r)). pose proof (len_nonneg (pdus_octets (mr_pdus r))).
  assert (HU : USIZE_MAX = 18446744073709551615) by done.
  pose proof (oct_tlv_len (mr_context_engine r) ltac:(lia)). pose proof (oct_tlv_len (mr_context_name r) ltac:(lia)).
  assert (Hs' : len (scoped_data_octets (mr_scoped r)) <= 2000).
  { unfold scoped_data_octets, mr_scoped. pose proof (seq_tlv_len (oct_tlv (mr_context_engine r) ++ oct_tlv (mr_context_name r)
      ++ pdus_octets (mr_pdus r)) ltac:(rewrite !len_app; lia)) as Hq. rewrite !len_app in Hq. lia. }
  etrans; [apply Hv; first [zrange|lia]|]. lia.
Qed.

(** ** Properties *)

Definition answer_octets (rid status index : Z) (vbs : list Varbind) : bytes :=
  std_pdu_octets TAG_RESPONSE rid status index vbs.

(** The answers to a GET and a GETBULK. *)
Definition get_answer (mib : Store) (rid : Z) (oid : Oid) : bytes :=
  answer_octets rid 0 0 [MkVarbind oid (match store_get mib oid with Some v => VValue v | None => NoSuchObject end)].
Definition bulk_answer (mib : Store) (rid nr mr : Z) (oid : Oid) (max : Z) : bytes :=
  answer_octets rid 0 0 (resp_varbinds (handle_get_bulk (MkGetBulkRequest rid nr mr [MkVarbind oid Unspecified]) mib 100 (Z.min max 65535))).

(** The requests of the library for the engine [e] and the context [cn]: what the arguments
    describe, the call, and what an agent that serves it should answer.  Every public
    encoder is here but the discovery probes, with every argument free. *)
Inductive manager_frame (e cn : bytes) (mib : Store) (mid rid : Z) (oid : Oid) : ManagerRequest -> option bytes -> bytes -> Prop :=
| frame_get : manager_frame e cn mib mid rid oid
    (usm_request e [] cn mid (RasnGetRequest (single_varbind_pdu rid (as_slice oid))) 4 [] 0 0)
    (encode_get_request e cn mid rid (as_slice oid)) (get_answer mib rid oid)
| frame_get_user name : manager_frame e cn mib mid rid oid
    (usm_request e name cn mid (RasnGetRequest (single_varbind_pdu rid (as_slice oid))) 4 [] 0 0)
    (encode_get_request_with_user e name cn mid rid (as_slice oid)) (get_answer mib rid oid)
| frame_get_user_no_report name : manager_frame e cn mib mid rid oid
    (usm_request e name cn mid (RasnGetRequest (single_varbind_pdu rid (as_slice oid))) 0 [] 0 0)
    (encode_get_request_with_user_no_report e name cn mid rid (as_slice oid)) (get_answer mib rid oid)
| frame_get_user_flags name flags : manager_frame e cn mib mid rid oid
    (usm_request e name cn mid (RasnGetRequest (single_varbind_pdu rid (as_slice oid))) flags [] 0 0)
    (encode_get_request_with_user_and_flags e name cn mid rid (as_slice oid) flags) (get_answer mib rid oid)
| frame_get_auth name flags auth : manager_frame e cn mib mid rid oid
    (usm_request e name cn mid (RasnGetRequest (single_varbind_pdu rid (as_slice oid))) flags auth 0 0)
    (encode_get_request_with_auth_params e name cn mid rid (as_slice oid) flags auth) (get_answer mib rid oid)
| frame_get_auth_time name flags auth boots time : manager_frame e cn mib mid rid oid
    (usm_request e name cn mid (RasnGetRequest (single_varbind_pdu rid (as_slice oid))) flags auth boots time)
    (encode_get_request_with_auth_params_and_time e name cn mid rid (as_slice oid) flags auth boots time) (get_answer mib rid oid)
| frame_get_context usm_engine : usm_engine <> [] -> manager_frame e cn mib mid rid oid
    (MkManagerRequest mid 65535 4 usm_engine 0 0 [] [] e cn (RasnGetRequest (single_varbind_pdu rid (as_slice oid))))
    (encode_get_request_with_context_engine_id usm_engine e cn mid rid (as_slice oid)) (get_answer mib rid oid)
| frame_get_next : manager_frame e cn mib mid rid oid
    (usm_request e [] cn mid (RasnGetNextRequest (single_varbind_pdu rid (as_slice oid))) 4 [] 0 0)
    (encode_get_next_request e cn mid rid (as_slice oid))
    (answer_octets rid 0 0 [match store_next mib oid with
                            | Some (next, v) => MkVarbind next (VValue v) | None => MkVarbind oid EndOfMibView end])
| frame_set : manager_frame e cn mib mid rid oid
    (usm_request e [] cn mid (RasnSetRequest (single_varbind_pdu rid (as_slice oid))) 4 [] 0 0)
    (encode_set_request e cn mid rid (as_slice oid)) (answer_octets rid 17 1 [MkVarbind oid Unspecified])
| frame_bulk nr mr : manager_frame e cn mib mid rid oid
    (MkManagerRequest mid 65535 4 e 0 0 [] [] e cn (RasnGetBulkRequest (MkBulkPdu rid nr mr [MkVarBind (as_slice oid) RasnUnspecified])))
    (encode_get_bulk_request e cn mid rid nr mr (as_slice oid)) (bulk_answer mib rid nr mr oid 65535)
| frame_bulk_max nr mr max : manager_frame e cn mib mid rid oid
    (MkManagerRequest mid max 4 e 0 0 [] [] e cn (RasnGetBulkRequest (MkBulkPdu rid nr mr [MkVarBind (as_slice oid) RasnUnspecified])))
    (encode_get_bulk_request_with_max_size e cn mid rid nr mr (as_slice oid) max) (bulk_answer mib rid nr mr oid max).

Lemma bulk_response e cn mib mid rid nr mr oid max :
  let r := MkManagerRequest mid max 4 e 0 0 [] [] e cn (RasnGetBulkRequest (MkBulkPdu rid nr mr [MkVarBind (as_slice oid) RasnUnspecified])) in
  request_wf r -> response_octets (frame_message r) mib (inbound_of (mr_pdus r)) = bulk_answer mib rid nr mr oid max.
Proof.
  intros r [_ Hx _ _ _ _ _ (_ & Hn & Hm & _) _]. assert (Eo : MkOid (as_slice oid) = oid) by (by destruct oid). cbn in Hx, Hn, Hm.
  unfold response_octets, bulk_answer, answer_octets, r. cbn [inbound_of mr_pdus handle_pdu response_envelope re_max_size max_size
    frame_message mr_max_size]. btrue (0 <=? max). unfold varbind_of. cbn [fmap list_fmap bp_variable_bindings rvb_name
    bp_request_id bp_non_repeaters bp_max_repetitions]. rewrite Eo.
  destruct (handle_get_bulk_split (MkGetBulkRequest rid nr mr [MkVarbind oid Unspecified]) mib MAX_BULK_REPETITIONS
    (Z.min max MAX_FRAME_SIZE)) as (k & _ & Er & _); [cbn; lia..|done|].
  unfold MAX_BULK_REPETITIONS, MAX_FRAME_SIZE in Er |- *. by rewrite Er.
Qed.

Lemma get_response mib rid oid r :
  mr_pdus r = RasnGetRequest (single_varbind_pdu rid (as_slice oid)) ->
  response_octets (frame_message r) mib (inbound_of (mr_pdus r)) = get_answer mib rid oid.
Proof. intros ->. unfold response_octets, get_answer, answer_octets. cbn. by replace (MkOid (as_slice oid)) with oid by (by destruct oid). Qed.

Lemma context_engine_frame usm_engine e cn mid rid oid :
  let r := MkManagerRequest mid 65535 4 usm_engine 0 0 [] [] e cn (RasnGetRequest (single_varbind_pdu rid (as_slice oid))) in
  request_wf r -> encode_get_request_with_context_engine_id usm_engine e cn mid rid (as_slice oid) = Some (frame_octets r).
Proof.
  intros r Hw. pose proof (message_frame r Hw) as E. unfold encode_get_request_with_context_engine_id.
  cbn [mr_engine_id mr_boots mr_time mr_user mr_auth r] in E.
  destruct (rasn_encode_usm _) as [sp|]; [|done]. cbn [expect result_ok mbind option_bind]. cbn in E. by rewrite E.
Qed.

(** The call encodes the request, and its handler gives the answer. *)
Lemma manager_frame_request e cn mib mid rid oid r frame answer :
  e <> [] -> manager_frame e cn mib mid rid oid r frame answer -> request_wf r ->
  frame = Some (frame_octets r) /\ response_octets (frame_message r) mib (inbound_of (mr_pdus r)) = answer /\
  mr_engine_id r <> [] /\ mr_context_engine r = e /\ mr_context_name r = cn /\ mr_msg_id r = mid.
Proof.
  intros He Hf Hw. assert (Eo : MkOid (as_slice oid) = oid) by (by destruct oid).
  assert (Hx : forall user pdus flags auth boots time, request_wf (usm_request e user cn mid pdus flags auth boots time) ->
    expect (encode_v3_message_with_usm_params e user cn mid pdus flags auth boots time) =
      Some (frame_octets (usm_request e user cn mid pdus flags auth boots time))).
  { intros. by rewrite usm_params_frame. }
  destruct Hf; split_and!; try done; try (by apply Hx); try (by apply get_response); try (by apply bulk_response);
    try (by apply context_engine_frame).
  - unfold response_octets, answer_octets, resolve_get_next_varbind. cbn. by rewrite Eo.
  - unfold encode_get_bulk_request_with_max_size, try_encode_get_bulk_request_with_max_size. by rewrite max_size_frame.
Qed.

(** A request without user, flags or context of its own: its ranges. *)
Lemma plain_request_wf e mid oid max pdus :
  Forall is_u8 e -> len e <= 32 -> 0 <= mid <= I32_MAX -> 484 <= max <= I32_MAX -> oid_wf oid -> single_pdus oid pdus ->
  let r := MkManagerRequest mid max 4 e 0 0 [] [] e [] pdus in request_wf r /\ is_frame (frame_octets r).
Proof.
  intros He Hel Hid Hm Ho Hp r. assert (Hw : request_wf r).
  { apply (single_request_wf oid); cbn; unfold I32_MAX in *; try done; try zrange. rewrite !app_nil_r. cbn. by rewrite Forall_app. }
  split; [exact Hw|]. apply (single_request_frame oid); [done|done|done|]. cbn. change (len (@nil Z)) with 0. lia.
Qed.

(** An agent without a user: only noAuthNoPriv, nothing to verify. *)
Definition open_agent (i : DispatchInputs) : Prop :=
  engine_id i <> [] /\ usm_user i = None /\ minimum_security_level i = NoAuthNoPriv.

(** The flags ask for no security. *)
Definition asks_no_security (flags : Z) : bool := negb (is_auth (MkMsgFlags flags)) && negb (is_priv (MkMsgFlags flags)).

Lemma open_agent_level r i : open_agent i ->
  user_ok i (frame_message r) /\ mac_ok i (frame_message r) /\ time_ok i (frame_message r) /\
  (level_ok i (frame_message r) <-> asks_no_security (mr_flags r) = true).
Proof.
  intros (_ & Hu & Hm). unfold user_ok, level_ok, mac_ok, time_ok. rewrite Hu, Hm. split_and!; try done.
  unfold flags_security_level, security_level_try_from, asks_no_security. cbn [frame_message usm security_flags flags_byte].
  destruct (is_auth _), (is_priv _); cbn; (split; [|try done]); try (intros (l & [= <-] & _ & Hl); cbn in Hl; lia); try done.
  intros _. by exists NoAuthNoPriv.
Qed.

Lemma open_agent_passes r i : open_agent i -> mr_flags r = 4 ->
  user_ok i (frame_message r) /\ level_ok i (frame_message r) /\ mac_ok i (frame_message r) /\ time_ok i (frame_message r).
Proof. intros Ha Hf. destruct (open_agent_level r i Ha) as (Hu & Hm & Ht & Hl). split_and!; [done|apply Hl; by rewrite Hf|done..]. Qed.

(** Claim C16: the two sides of the wire agree.  Take any request encoder of the frames
    library (GET in all its variants, GETNEXT, SET, GETBULK), called for the engine of an
    agent without a user, with any context name and any user name, flags, authentication
    parameters, boots, time, bulk parameters and message size where the encoder takes them,
    as long as the arguments are in the ranges that the agent's decoder accepts
    ([request_wf]: a message identifier that is not negative, a maximum message size of at
    least 484, bulk parameters, boots and time of at most 2^31-1, a user name of at most 32
    octets, a valid OID).  The request is encoded without panicking.  If its flags ask for
    authentication or privacy it is refused: counted once as an unsupported security level,
    and answered by a Report exactly if it is reportable.  Otherwise, if its context name is
    not empty, it is dropped silently.  Otherwise it is answered and no counter moves: the
    answer carries the message identifier and the user name and opens to the request
    identifier with, respectively, the stored value or noSuchObject, the least larger entry
    or endOfMibView, a notWritable error with index 1, or the rows of the bulk walk. *)
Theorem manager_requests_are_answered (seed : Z) (salt : SaltState) (mib : Store) (ctx : DispatchContext) (cn : bytes) (mid rid : Z)
    (oid : Oid) (r : ManagerRequest) (frame : option bytes) (answer : bytes) :
  is_u64 seed -> salt_state_ok salt -> context_wf ctx -> (forall c, is_u32 (select_counter c (inputs ctx))) -> store_wf mib ->
  open_agent (inputs ctx) -> len answer + 32 <= PAYLOAD_MAX ->
  manager_frame (engine_id (inputs ctx)) cn mib mid rid oid r frame answer -> request_wf r ->
  exists octets resp ctx' salt', frame = Some octets /\ process_snmpv3_request seed salt octets ctx mib = (resp, ctx', salt') /\
    if negb (asks_no_security (mr_flags r)) then
      counted UnsupportedSecLevels ctx ctx' /\ salt' = salt /\
      if is_reportable (MkMsgFlags (mr_flags r)) then
        exists report env, resp = Some report /\
          opened mid (engine_id (inputs ctx)) [] [] (engine_boots (inputs ctx)) (engine_time (inputs ctx)) None None
            (std_pdu_octets TAG_REPORT mid 0 0 [report_varbind UnsupportedSecLevels (inputs ctx')]) report env
      else resp = None
    else if negb (is_nil cn) then resp = None /\ ctx' = ctx /\ salt' = salt
    else ctx' = ctx /\ exists b env, resp = Some b /\
      opened mid (engine_id (inputs ctx)) (mr_user r) [] (engine_boots (inputs ctx)) (engine_time (inputs ctx)) None None answer b env.
Proof.
  intros Hseed Hst Hctx Hc Hmib Ha Hsize Hf Hw. pose proof Ha as (He & Huser & _).
  destruct (manager_frame_request _ _ _ _ _ _ _ _ _ He Hf Hw) as (-> & <- & E1 & E2 & E3 & <-). clear Hf.
  destruct (open_agent_level r _ Ha) as (Hu & Hm & Ht & Hl).
  assert (Henv : envelope_ok (inputs ctx) (frame_message r)) by done.
  exists (frame_octets r). destruct (asks_no_security (mr_flags r)) eqn:Ef; cbn [negb].
  - assert (Hp : is_priv (MkMsgFlags (mr_flags r)) = false) by (apply andb_prop in Ef as [_ Ef]; by apply negb_true_iff).
    destruct cn as [|c cn]; cbn [is_nil negb].
    + destruct (frame_answered seed salt r mib ctx Hseed Hst Hw Hctx Hmib ltac:(by split) Hu ltac:(by apply Hl) Hp Hm Ht Hsize)
        as (resp & salt' & env & E & _ & Hop). rewrite Huser in Hop. exists (Some resp), ctx, salt'. split_and!; [done..|].
      exists resp, env. by split.
    + exists None, ctx, salt. split_and!; [done| |done..]. apply frame_dropped; [done|].
      apply refused_context; [done|done|by apply Hl|exact Hp|done|done|]. cbn. by rewrite E3.
  - assert (Href : refusal (inputs ctx) (frame_message r) (Some UnsupportedSecLevels)).
    { apply refused_level; [done|done|]. rewrite Hl. done. }
    destruct (is_reportable _) eqn:Er.
    + destruct (frame_reported seed salt r mib ctx _ Hw Hctx Hc Er Href) as (report & ctx' & env & E & Hk & Hop).
      exists (Some report), ctx', salt. split_and!; [done..|]. by exists report, env.
    + destruct (frame_refused seed salt r mib ctx _ Hw Href) as (ctx' & Hk & E). unfold report_for in E.
      cbn [frame_message usm security_flags] in E. rewrite Er in E. by exists None, ctx', salt.
Qed.

(** Of the two engine identifiers of an unencrypted request only the context's is compared:
    with the agent's own there, a GET is answered whatever engine its security parameters
    name, as long as they name one; with another one there, it is counted as unknown
    engine and refused by a Report. *)
Theorem only_context_engine_is_compared (seed : Z) (salt : SaltState) (mib : Store) (ctx : DispatchContext)
    (usm_engine context_engine : bytes) (mid rid : Z) (oid : Oid) :
  is_u64 seed -> salt_state_ok salt -> context_wf ctx -> store_wf mib -> open_agent (inputs ctx) ->
  0 <= mid <= I32_MAX -> is_i32 rid -> oid_wf oid -> usm_engine <> [] ->
  Forall is_u8 (usm_engine ++ context_engine) -> len usm_engine + len context_engine <= 1024 ->
  let value := MkVarbind oid (match store_get mib oid with Some v => VValue v | None => NoSuchObject end) in
  len (answer_octets rid 0 0 [value]) + 32 <= PAYLOAD_MAX ->
  exists octets resp ctx' salt',
    encode_get_request_with_context_engine_id usm_engine context_engine [] mid rid (as_slice oid) = Some octets /\
    process_snmpv3_request seed salt octets ctx mib = (resp, ctx', salt') /\
    (context_engine = engine_id (inputs ctx) -> ctx' = ctx /\ exists b env, resp = Some b /\
       opened mid (engine_id (inputs ctx)) [] [] (engine_boots (inputs ctx)) (engine_time (inputs ctx)) None None
         (answer_octets rid 0 0 [value]) b env) /\
    (context_engine <> engine_id (inputs ctx) -> counted UnknownEngineIds ctx ctx').
Proof.
  intros Hseed Hst Hctx Hmib Ha Hid Hr Ho Hne Hu8 Hlen value Hsize.
  pose (r := MkManagerRequest mid 65535 4 usm_engine 0 0 [] [] context_engine [] (RasnGetRequest (single_varbind_pdu rid (as_slice oid)))).
  assert (Hw : request_wf r).
  { apply (single_request_wf oid); cbn; unfold I32_MAX in *; try done; try zrange.
    - by exists rid.
    - by rewrite app_nil_r. }
  pose proof (context_engine_frame usm_engine context_engine [] mid rid oid Hw) as Ef.
  destruct (process_snmpv3_request seed salt (frame_octets r) ctx mib) as [[resp ctx'] salt'] eqn:Ep.
  exists (frame_octets r), resp, ctx', salt'. split_and!; [exact Ef|done| |].
  - intros He. destruct (open_agent_passes r _ Ha eq_refl) as (Hu & Hl & Hm & Ht).
    assert (Ea : response_octets (frame_message r) mib (inbound_of (mr_pdus r)) = answer_octets rid 0 0 [value]).
    { unfold response_octets, answer_octets, value. cbn. replace (MkOid (as_slice oid)) with oid by (by destruct oid). done. }
    destruct (frame_answered seed salt r mib ctx Hseed Hst Hw Hctx Hmib ltac:(by split) Hu Hl eq_refl Hm Ht ltac:(by rewrite Ea))
      as (b & salt1 & env & E & _ & Hop).
    rewrite E in Ep. injection Ep as <- <- <-. split; [done|]. exists b, env. split; [done|].
    destruct Ha as (_ & Huser & _). rewrite Ea, Huser in Hop. exact Hop.
  - intros He. unfold process_snmpv3_request, run_validation_pipeline in Ep. rewrite (frame_decodes _ Hw) in Ep.
    destruct (check_message_envelope_spec (frame_message r) ctx) as [[(_ & _ & Hx) _]|[_ (rj & ctx1 & E & Hk)]]; [done|].
    rewrite decide_True in Hk by done. destruct Hk as [Hk _]. unfold validate, dbind in Ep. rewrite E in Ep.
    by injection Ep as _ <- _.
Qed.

(** The request a discovery probe makes. *)
Definition probe (flags : Z) : ManagerRequest :=
  MkManagerRequest 42 65535 flags [] 0 0 [] [] [] [] (RasnGetRequest (single_varbind_pdu 1 [1; 3; 6; 1; 2; 1; 1; 1; 0])).

Lemma probe_frame flags : is_u8 flags ->
  request_wf (probe flags) /\ encode_discovery_probe_with_flags [flags] = Some (frame_octets (probe flags)).
Proof.
  intros Hf. assert (Hw : request_wf (probe flags)).
  { apply (single_request_wf (MkOid [1; 3; 6; 1; 2; 1; 1; 1; 0])); cbn; unfold I32_MAX; try done; try zrange.
    - split; [repeat constructor; zrange|reflexivity].
    - exists 1. split; [zrange|done]. }
  split; [done|]. pose proof (message_frame _ Hw) as E. unfold encode_discovery_probe_with_flags.
  destruct (rasn_encode_usm _) as [sp|e] eqn:Eu; [|done]. cbn [expect result_ok]. cbn in E |- *.
  change (MkRasnPdu 1 0 0 [MkVarBind [1; 3; 6; 1; 2; 1; 1; 1; 0] RasnUnspecified]) with
    (single_varbind_pdu 1 [1; 3; 6; 1; 2; 1; 1; 1; 0]). by rewrite E.
Qed.

(** A probe is refused for its missing engine identifier. *)
Lemma probe_refused flags i : refusal i (frame_message (probe flags)) (Some UnknownEngineIds).
Proof. apply refused_engine; [done|]. by intros (_ & Hne & _). Qed.

(** The probe with the reportable flag gets a Report that names the engine. *)
Lemma probe_answered seed salt mib ctx :
  context_wf ctx -> (forall c, is_u32 (select_counter c (inputs ctx))) ->
  exists octets report ctx' env, encode_discovery_probe = Some octets /\ Forall is_u8 octets /\ is_frame octets /\
    process_snmpv3_request seed salt octets ctx mib = (Some report, ctx', salt) /\ counted UnknownEngineIds ctx ctx' /\
    opened 42 (engine_id (inputs ctx)) [] [] (engine_boots (inputs ctx)) (engine_time (inputs ctx)) None None
      (std_pdu_octets TAG_REPORT 42 0 0 [report_varbind UnknownEngineIds (inputs ctx')]) report env.
Proof.
  intros Hctx Hc. destruct (probe_frame 4 ltac:(zrange)) as [Hw Hp].
  destruct (frame_reported seed salt (probe 4) mib ctx UnknownEngineIds Hw Hctx Hc eq_refl (probe_refused 4 _))
    as (b & ctx' & env & E & Hk & Ho).
  exists (frame_octets (probe 4)), b, ctx', env. split_and!; [exact Hp|by apply frame_u8| |exact E|exact Hk|exact Ho].
  apply (single_request_frame (MkOid [1; 3; 6; 1; 2; 1; 1; 1; 0])); [split; [repeat constructor; zrange|reflexivity]| |exact Hw|done].
  exists 1. split; [zrange|done].
Qed.

(** Claim C17: engine discovery works whatever the agent's configuration.  A discovery
    probe (no engine identifier) sent to any agent is counted once as an unknown engine
    and answered by a Report that tells the manager the agent's engine identifier, boots
    and time, with the counter's new value; the probe without the reportable flag is
    counted and gets no answer. *)
Theorem discovery_probe_reports_engine (seed : Z) (salt : SaltState) (mib : Store) (ctx : DispatchContext) :
  context_wf ctx -> (forall c, is_u32 (select_counter c (inputs ctx))) ->
  (exists octets report ctx' env, encode_discovery_probe = Some octets /\
     process_snmpv3_request seed salt octets ctx mib = (Some report, ctx', salt) /\ counted UnknownEngineIds ctx ctx' /\
     opened 42 (engine_id (inputs ctx)) [] [] (engine_boots (inputs ctx)) (engine_time (inputs ctx)) None None
       (std_pdu_octets TAG_REPORT 42 0 0 [report_varbind UnknownEngineIds (inputs ctx')]) report env) /\
  (exists octets ctx', encode_discovery_probe_no_report = Some octets /\
     process_snmpv3_request seed salt octets ctx mib = (None, ctx', salt) /\ counted UnknownEngineIds ctx ctx').
Proof.
  intros Hctx Hc. split.
  - destruct (probe_answered seed salt mib ctx Hctx Hc) as (octets & report & ctx' & env & E1 & _ & _ & E2 & Hk & Ho).
    by exists octets, report, ctx', env.
  - destruct (frame_refused seed salt (probe 0) mib ctx UnknownEngineIds (proj1 (probe_frame 0 ltac:(zrange))) (probe_refused 0 _))
      as (ctx' & Hk & E). exists (frame_octets (probe 0)), ctx'.
    split_and!; [exact (proj2 (probe_frame 0 ltac:(zrange)))|exact E|exact Hk].
Qed.

End Answers.

#[local] Transparent v3_octets v3_prefix std_pdu_octets tlv.

Definition open_context : DispatchContext := MkDispatchContext (toy_inputs None NoAuthNoPriv).

Lemma open_context_wf : context_wf open_context.
Proof. split; [refine (bool_decide_unpack _ _); vm_compute; exact I|vm_compute; split_and?; (exact I || congruence)..]. Qed.

Lemma manager_requests_are_answered_witness :
  (exists octets resp salt', @encode_get_request RefRasn.ops [1; 2; 3; 4; 5] [] 7 8 [1; 3; 6] = Some octets /\
    @process_snmpv3_request ToyCrypto.ops 5 None octets open_context small_store = (Some resp, open_context, salt')) /\
  (exists octets, @encode_get_request_with_user_and_flags RefRasn.ops [1; 2; 3; 4; 5] [117] [98; 97; 100] 7 8 [1; 3; 6] 0 = Some octets /\
    @process_snmpv3_request ToyCrypto.ops 5 None octets open_context small_store = (None, open_context, None)).
Proof.
  assert (Ho : oid_wf (MkOid [1; 3; 6])) by (split; [repeat constructor; zrange|reflexivity]).
  assert (Hw : forall user cn flags, Forall is_u8 ([1; 2; 3; 4; 5] ++ user ++ [] ++ [1; 2; 3; 4; 5] ++ cn) -> len user <= 32 ->
    len cn <= 100 -> is_u8 flags ->
    request_wf (usm_request [1; 2; 3; 4; 5] user cn 7 (RasnGetRequest (single_varbind_pdu 8 [1; 3; 6])) flags [] 0 0)).
  { intros user cn flags Hu Hl Hc Hf. apply (single_request_wf (MkOid [1; 3; 6])); cbn; unfold I32_MAX; try done; try zrange.
    exists 8. split; [zrange|done]. }
  assert (Hc : forall c, is_u32 (select_counter c (inputs open_context))) by (intros c; destruct c; vm_compute; split; congruence).
  assert (Ha : open_agent (inputs open_context)) by (split; [discriminate|split; reflexivity]).
  assert (Hs : len (get_answer small_store 8 (MkOid [1; 3; 6])) + 32 <= PAYLOAD_MAX) by (vm_compute; discriminate).
  pose (req user cn flags := usm_request [1; 2; 3; 4; 5] user cn 7 (RasnGetRequest (single_varbind_pdu 8 [1; 3; 6])) flags [] 0 0). split.
  - destruct (@manager_requests_are_answered ToyCrypto.ops ToyCrypto.laws RefRasn.ops RefRasn.laws 5 None small_store open_context
      [] 7 8 (MkOid [1; 3; 6]) (req [] [] 4) (@encode_get_request RefRasn.ops [1; 2; 3; 4; 5] [] 7 8 [1; 3; 6])
      (get_answer small_store 8 (MkOid [1; 3; 6])) ltac:(zrange) I open_context_wf Hc small_store_wf Ha Hs (frame_get _ _ _ _ _ _)
      ltac:(apply Hw; [refine (bool_decide_unpack _ _); vm_compute; exact I|vm_compute; discriminate..|zrange]))
      as (octets & resp & ctx' & salt' & E1 & E2 & Hx).
    change (negb (asks_no_security (mr_flags (req [] [] 4)))) with false in Hx. cbn [is_nil negb] in Hx.
    destruct Hx as (-> & b & env & -> & _). exists octets, b, salt'. split; [exact E1|exact E2].
  - destruct (@manager_requests_are_answered ToyCrypto.ops ToyCrypto.laws RefRasn.ops RefRasn.laws 5 None small_store open_context
      [98; 97; 100] 7 8 (MkOid [1; 3; 6]) (req [117] [98; 97; 100] 0)
      (@encode_get_request_with_user_and_flags RefRasn.ops [1; 2; 3; 4; 5] [117] [98; 97; 100] 7 8 [1; 3; 6] 0)
      (get_answer small_store 8 (MkOid [1; 3; 6])) ltac:(zrange) I open_context_wf Hc small_store_wf Ha Hs
      (frame_get_user_flags _ _ _ _ _ _ [117] 0)
      ltac:(apply Hw; [refine (bool_decide_unpack _ _); vm_compute; exact I|vm_compute; discriminate..|zrange]))
      as (octets & resp & ctx' & salt' & E1 & E2 & Hx).
    change (negb (asks_no_security (mr_flags (req [117] [98; 97; 100] 0)))) with false in Hx. cbn [is_nil negb] in Hx.
    destruct Hx as (-> & -> & ->). exists octets. split; [exact E1|exact E2].
Defined.

Lemma discovery_probe_reports_engine_witness :
  exists octets report ctx', @encode_discovery_probe RefRasn.ops = Some octets /\
    @process_snmpv3_request ToyCrypto.ops 5 None octets open_context small_store = (Some report, ctx', None).
Proof.
  destruct (@discovery_probe_reports_engine ToyCrypto.ops ToyCrypto.laws RefRasn.ops RefRasn.laws 5 None small_store open_context
    open_context_wf ltac:(intros c; destruct c; vm_compute; split; congruence))
    as [(octets & report & ctx' & env & E1 & E2 & _) _].
  exists octets, report, ctx'. split; [exact E1|exact E2].
Defined.
