(* ===== verification/Walk.v ===== *)
(** * Walking the MIB over a connection

    The three sides together: a manager that sends the GETNEXT frames of the frames
    library ([src/tests/snmpv3-frames/src/lib.rs]) on a TCP connection and reads the answers, the
    event loop that serves the connection, and the MIB the application wrote.  The
    manager's walk is executable; the theorems say what it finds, against any agent
    without a user and against the test agent of the system tests. *)

From stdpp Require Import gmap.
From S2P Require Import Prelude Oid Ber BerFacts Usm Types Varbind BerPdu Snmp Codec Mib Request Dispatch Boots Trap Framing EventLoop LoopFacts Agent EndToEnd TestAgents Frames.

(** ** The manager *)

(** The single varbind of an unencrypted response with this request identifier. *)
Definition read_answer (id : Z) (msg : bytes) : option Varbind :=
  match decode_v3_envelope msg with
  | Ok env =>
      match env_scoped_data env with
      | SPlaintext _ _ raw =>
          match ber_decode_pdu raw with
          | Ok (Standard tag rid vbl) =>
              if (tag =? TAG_RESPONSE) && (rid =? id) then
                match decode_varbind_list_to_varbinds vbl with Ok [vb] => Some vb | _ => None end
              else None
          | _ => None
          end
      | SEncrypted _ => None
      end
  | Err _ => None
  end.

Section Manager.
  Context `{CryptoOps, RasnBer} (seed token : Z) (engine : bytes).
  (** How the network cuts the [k]-th request into chunks, and the clock then. *)
  Context (chop : nat -> bytes -> list (bytes * Z)) (clock : nat -> Z).

(** The arrival of the [k]-th request on the connection. *)
Definition arrival (k : nat) (frame : bytes) : Event := MkEvent token (clock k) [] [] false (reads_of (chop k frame)) [].

(** Ask for the entry after [cur], until the agent answers endOfMibView. *)
Fixpoint wire_walk (fuel k : nat) (el : EventLoop) (cur : Oid) : option (list (Oid * Value) * EventLoop) :=
  match fuel with
  | O => None
  | S f =>
      frame ← encode_get_next_request engine [] (Z.of_nat k) (Z.of_nat k) (as_slice cur);
      match handle_event seed el (arrival k frame) with
      | (false, [(t, resp)], el') =>
          vb ← read_answer (Z.of_nat k) resp;
          match vb_value vb with
          | EndOfMibView => Some ([], el')
          | VValue v => '(rest, el'') ← wire_walk f (S k) el' (vb_oid vb); Some ((vb_oid vb, v) :: rest, el'')
          | _ => None
          end
      | _ => None
      end
  end.

End Manager.

(** ** One exchange *)

Lemma read_answer_opened `{CryptoOps} mid e user boots time auth rid vb resp env :
  is_i32 rid -> varbind_wf vb -> len (answer_octets rid 0 0 [vb]) <= ISIZE_MAX ->
  opened mid e user [] boots time auth None (answer_octets rid 0 0 [vb]) resp env -> read_answer rid resp = Some vb.
Proof.
  intros Hr Hvb Hl [Hd _ _ _ _ _ _ _ _ [Hs _]]. unfold read_answer. rewrite Hd, Hs.
  destruct (std_pdu_decodes TAG_RESPONSE rid 0 0 [vb]) as [E1 E2];
    [by right; right; left|done|zrange|zrange|constructor; [done|constructor]|exact Hl|].
  unfold answer_octets. rewrite E1, E2. by rewrite !Z.eqb_refl.
Qed.

(** A loop in its invariant with an idle connection, whose context is in range whenever
    the manager's requests arrive. *)
Record conn_ready (el : EventLoop) (token : Z) (clock : nat -> Z) : Prop := {
  cr_loop : loop_ok el;
  cr_context : forall k, context_wf (context_at el (clock k));
  cr_conn : exists at_, connections el !! token = Some (MkConnectionState [] at_);
}.

(** A loop ready for a manager without credentials. *)
Record walk_ready (el : EventLoop) (token : Z) (engine : bytes) (clock : nat -> Z) : Prop := {
  wr_ready : conn_ready el token clock;
  wr_user : el_usm_user el = None;
  wr_engine : engine_id_bytes (el_engine_id el) = engine /\ engine <> [];
}.

(** The answer to a GETNEXT. *)
Definition next_varbind (s : Store) (oid : Oid) : Varbind :=
  match store_next s oid with Some (k, v) => MkVarbind k (VValue v) | None => MkVarbind oid EndOfMibView end.

Section Exchange.
  Context `{CryptoOps} (seed token : Z) (chop : nat -> bytes -> list (bytes * Z)) (clock : nat -> Z).
  Hypothesis Hchop : forall k f, concat (chop k f).*1 = f /\ Forall (fun '(b, _) => b <> []) (chop k f).

Lemma arrival_wf k frame : Forall is_u8 frame -> event_wf (arrival token chop clock k frame).
Proof.
  intros Hu. split; [|constructor]. cbn. unfold reads_of. rewrite Forall_fmap. destruct (Hchop k frame) as [Hcat _].
  rewrite <-Hcat in Hu. clear Hcat. induction (chop k frame) as [|[b t] l IH]; [constructor|]. cbn in Hu.
  apply Forall_app in Hu as [? ?]. constructor; [done|auto].
Qed.

Lemma same_config_wf c1 c2 : same_config (inputs c1) (inputs c2) -> context_wf c1 -> context_wf c2.
Proof. intros (E1 & E2 & E3 & E4 & _) [C1 C2 C3 C4 C5]. by split; rewrite <-?E1, <-?E2, <-?E3, <-?E4. Qed.

(** Whatever the chunks, the loop does with a frame what the pipeline does with it. *)
Lemma frame_event el k frame resp ctx' salt' :
  conn_ready el token clock -> Forall is_u8 frame -> is_frame frame ->
  process_snmpv3_request seed (privacy_salt el) frame (context_at el (clock k)) (store el) = (resp, ctx', salt') ->
  exists el', handle_event seed el (arrival token chop clock k frame) = (false, match resp with Some r => [(token, r)] | None => [] end, el') /\
    conn_ready el' token clock /\ loop_config el' = loop_config el /\ store el' = store el /\
    inputs (context_at el' (clock k)) = inputs ctx'.
Proof.
  intros [Hok Hctx [at_ Hc]] Hu Hf HE. destruct (Hchop k frame) as [Hcat Hnon].
  destruct (lo_conns _ Hok token _ Hc) as [Htok _]. unfold token_ok, FIRST_CONN_TOKEN in Htok.
  pose proof (connection_event_serves seed el token (clock k) (MkConnectionState [] at_) (chop k frame) [] Hok Hc Hnon
    ltac:(by rewrite Hcat) (Forall_nil_2 _)) as Hs. cbn [read_buf app] in Hs. rewrite Hcat in Hs.
  pose proof (next_complete_frame_frame frame [] Hf) as Hn. rewrite app_nil_r in Hn.
  rewrite (all_frames_complete _ _ _ Hu Hn) in Hs. cbn [all_frames take_frames length next_complete_frame serve] in Hs.
  change (context_new_unchecked _) with (context_at el (clock k)) in Hs. rewrite HE in Hs.
  destruct Hs as (el' & Eh & Hconn & Hin & _ & Hst).
  assert (Eev : handle_event seed el (arrival token chop clock k frame) = (false, match resp with Some r => [(token, r)] | None => [] end, el')).
  { unfold handle_event, arrival. cbn [ev_token ev_now ev_reads ev_writes].
    rewrite (proj2 (Z.eqb_neq token LISTENER_TOKEN)) by (unfold LISTENER_TOKEN; lia).
    rewrite (proj2 (Z.eqb_neq token WAKER_TOKEN)) by (unfold WAKER_TOKEN; lia). rewrite Eh. by destruct resp. }
  pose proof (handle_event_config seed el _ _ _ _ Eev) as Hcfg. exists el'. split_and!; [exact Eev| |exact Hcfg|exact Hst|].
  - split; [by eapply handle_event_ok, Eev; [|by apply arrival_wf]| |by eexists].
    intros j. refine (same_config_wf _ _ (context_at_config _ _ _ Hcfg) (Hctx j)).
  - rewrite <-Hin. unfold loop_config in Hcfg. injection Hcfg as _ E2 E3 _ _. unfold context_at, engine_time_seconds. cbn [inputs].
    by rewrite E2, E3.
Qed.

End Exchange.

Section Walk.
  Context `{CryptoOps, !CryptoLaws, RasnBer, !RasnLaws} (seed token : Z) (engine : bytes).
  Context (chop : nat -> bytes -> list (bytes * Z)) (clock : nat -> Z).
  Hypothesis Hseed : is_u64 seed.
  Hypothesis Hchop : forall k f, concat (chop k f).*1 = f /\ Forall (fun '(b, _) => b <> []) (chop k f).

Lemma wire_step el k cur :
  walk_ready el token engine clock -> 0 <= Z.of_nat k <= I32_MAX -> oid_wf cur -> varbind_wf (next_varbind (store el) cur) ->
  len (answer_octets (Z.of_nat k) 0 0 [next_varbind (store el) cur]) + 32 <= PAYLOAD_MAX ->
  exists frame resp el',
    encode_get_next_request engine [] (Z.of_nat k) (Z.of_nat k) (as_slice cur) = Some frame /\
    handle_event seed el (arrival token chop clock k frame) = (false, [(token, resp)], el') /\
    read_answer (Z.of_nat k) resp = Some (next_varbind (store el) cur) /\
    walk_ready el' token engine clock /\ store el' = store el.
Proof.
  intros [Hrd Hu [He Hne]] Hk Ho Hvb Hsize. pose proof (cr_loop _ _ _ Hrd) as Hok.
  pose proof (cr_context _ _ _ Hrd k) as Hcx. pose proof Hcx as [Hu8 Hel _ _ _]. cbn in Hu8, Hel. rewrite He in Hu8, Hel.
  assert (Hi : is_i32 (Z.of_nat k)) by (unfold I32_MAX in Hk; zrange).
  set (r := usm_request engine [] [] (Z.of_nat k) (RasnGetNextRequest (single_varbind_pdu (Z.of_nat k) (as_slice cur))) 4 [] 0 0).
  destruct (plain_request_wf engine (Z.of_nat k) cur 65535 (mr_pdus r) Hu8 Hel Hk ltac:(unfold I32_MAX; lia) Ho ltac:(by exists (Z.of_nat k)))
    as [Hw Hf].
  destruct (manager_frame_request engine [] (store el) (Z.of_nat k) (Z.of_nat k) cur r _ _ Hne (frame_get_next _ _ _ _ _ _) Hw) as (Ef & Ea & _).
  change (answer_octets (Z.of_nat k) 0 0 [_]) with (answer_octets (Z.of_nat k) 0 0 [next_varbind (store el) cur]) in Ea.
  assert (Hopen : open_agent (inputs (context_at el (clock k)))).
  { split; [cbn; by rewrite He|]. split; [exact Hu|exact (lo_level _ Hok Hu)]. }
  destruct (open_agent_passes r _ Hopen eq_refl) as (Hp1 & Hp2 & Hp3 & Hp4).
  destruct (frame_answered seed (privacy_salt el) r (store el) (context_at el (clock k)) Hseed (lo_salt _ Hok) Hw Hcx (lo_store _ Hok)
    ltac:(unfold addressed; cbn; by rewrite He) Hp1 Hp2 eq_refl Hp3 Hp4 ltac:(by rewrite Ea))
    as (resp & salt' & env & E & _ & Hop).
  destruct (frame_event seed token chop clock Hchop el k _ _ _ _ Hrd (frame_u8 r Hw) Hf E) as (el' & Eev & Hrd' & Hcfg & Hst & _).
  exists (frame_octets r), resp, el'. split_and!; [exact Ef|exact Eev| | |exact Hst].
  - rewrite Ea in Hop. eapply (read_answer_opened _ _ _ _ _ _ (Z.of_nat k) _ resp env Hi Hvb); [unfold PAYLOAD_MAX, ISIZE_MAX in *; lia|].
    cbn in Hop. rewrite Hu in Hop. exact Hop.
  - unfold loop_config in Hcfg. injection Hcfg as C1 _ _ C4 _. by split; [exact Hrd'|rewrite C4|rewrite C1].
Qed.

(** ** The walk *)

(** Every entry fits in a response. *)
Definition entries_fit (s : Store) : Prop :=
  Forall (fun '(o, v) => len (varbind_octets (MkVarbind o (VValue v))) + 200 <= PAYLOAD_MAX) (entries s).

Lemma answer_len rid vb :
  is_i32 rid -> len (varbind_octets vb) + 200 <= PAYLOAD_MAX -> len (answer_octets rid 0 0 [vb]) + 32 <= PAYLOAD_MAX.
Proof.
  intros Hr Hl. assert (E : concat (varbind_octets <$> [vb]) = varbind_octets vb) by (cbn; by rewrite app_nil_r).
  pose proof (std_pdu_octets_len TAG_RESPONSE rid 0 0 [vb] Hr ltac:(zrange) ltac:(zrange)) as Hs. rewrite E in Hs.
  unfold answer_octets. unfold PAYLOAD_MAX in *. assert (HU : USIZE_MAX = 18446744073709551615) by done. lia.
Qed.

Lemma end_of_view_len oid : oid_wf oid -> len (varbind_octets (MkVarbind oid EndOfMibView)) + 200 <= PAYLOAD_MAX.
Proof.
  intros Ho. unfold varbind_octets, PAYLOAD_MAX. cbn [vb_oid vb_value value_tag value_content].
  pose proof (oid_wf_len _ Ho). pose proof (encode_oid_len _ Ho). assert (HU : USIZE_MAX = 18446744073709551615) by done.
  pose proof (tlv_len TAG_OID (encode_oid oid) ltac:(lia)).
  match goal with |- context [tlv ?tag []] => pose proof (tlv_len tag [] ltac:(done)) as Hn end. rewrite len_nil in Hn.
  match goal with |- context [tlv TAG_SEQUENCE ?b] => pose proof (tlv_len TAG_SEQUENCE b ltac:(rewrite len_app; lia)) as Hs end.
  rewrite len_app in Hs. lia.
Qed.

Lemma wire_walk_suffix suf : forall fuel k el cur pre,
  walk_ready el token engine clock -> entries (store el) = pre ++ suf -> Forall (fun e => above cur e = false) pre ->
  sorted_from cur suf -> oid_wf cur -> entries_fit (store el) -> (length suf < fuel)%nat -> Z.of_nat (k + fuel) <= I32_MAX ->
  exists el', wire_walk seed token engine chop clock fuel k el cur = Some (suf, el') /\ store el' = store el /\
    walk_ready el' token engine clock.
Proof.
  induction suf as [|[o v] suf IH]; intros fuel k el cur pre Hr He Hpre Hs Ho Hfit Hfuel Hk;
    (destruct fuel as [|fuel]; [cbn in Hfuel; lia|]); pose proof (store_next_suffix _ _ _ Hpre Hs) as Hx;
    (match type of Hx with context [MkStore ?m] => replace (MkStore m) with (store el) in Hx by (rewrite <-He; by destruct (store el)) end);
    cbn [wire_walk];
    assert (Hi : is_i32 (Z.of_nat k)) by (unfold I32_MAX in Hk; zrange);
    assert (Hnb : next_varbind (store el) cur = match store_next (store el) cur with
      | Some (k, v) => MkVarbind k (VValue v) | None => MkVarbind cur EndOfMibView end) by done.
  - rewrite Hx in Hnb. destruct (wire_step el k cur Hr) as (frame & resp & el' & -> & E & Ea & Hr' & Hst);
      [unfold I32_MAX in *; lia|done|rewrite Hnb; by split|rewrite Hnb; apply answer_len; [done|by apply end_of_view_len]|].
    cbn [mbind option_bind]. rewrite E, Ea, Hnb. cbn. by exists el'.
  - destruct Hx as (Hx & Hpre' & Hs'). rewrite Hx in Hnb.
    assert (Hin : (o, v) ∈ entries (store el)) by (rewrite He; apply elem_of_app; right; left).
    destruct (lo_store _ (cr_loop _ _ _ (wr_ready _ _ _ _ Hr))) as [_ Hwf]. rewrite Forall_forall in Hwf. destruct (Hwf _ Hin) as [Hov Hvv].
    pose proof (proj1 (Forall_forall _ _) Hfit _ Hin) as Hf. cbn beta iota in Hf.
    destruct (wire_step el k cur Hr) as (frame & resp & el' & -> & E & Ea & Hr' & Hst);
      [unfold I32_MAX in *; lia|done|rewrite Hnb; by split|rewrite Hnb; by apply answer_len|].
    cbn [mbind option_bind]. rewrite E, Ea, Hnb. cbn [mbind option_bind vb_value vb_oid].
    destruct (IH fuel (S k) el' o (pre ++ [(o, v)]) Hr') as (el2 & -> & Hst2 & Hr2);
      [rewrite Hst, He, <-app_assoc; done|done|done|done|by rewrite Hst|cbn in Hfuel; lia|lia|].
    exists el2. split_and!; [done|by rewrite Hst2|done].
Qed.

(** Claim C7: a manager that walks the MIB over a connection gets all of it.  Take any
    event loop in its invariant without a user, with an idle connection and any MIB whose
    entries fit in a response.  A manager that asks on that connection with the frames
    library's GETNEXT for the entry after its current OID, each request cut into chunks in
    any way and arriving at any time, reads the response off the connection, continues
    from the OID it got and stops at endOfMibView, ends after one exchange more than there are entries above the
    starting OID, having read exactly these entries, each once, in ascending order; the
    MIB is unchanged and the connection is idle again. *)
Theorem wire_walk_reads_mib (fuel k : nat) (el : EventLoop) (start : Oid) :
  walk_ready el token engine clock -> entries_fit (store el) -> oid_wf start ->
  (length (List.filter (above start) (entries (store el))) < fuel)%nat -> Z.of_nat (k + fuel) <= I32_MAX ->
  exists el', wire_walk seed token engine chop clock fuel k el start = Some (List.filter (above start) (entries (store el)), el') /\
    store el' = store el /\ walk_ready el' token engine clock.
Proof.
  intros Hr Hfit Ho Hfuel Hk. destruct (lo_store _ (cr_loop _ _ _ (wr_ready _ _ _ _ Hr))) as [Hok _].
  destruct (sorted_split start _ Hok) as (pre & suf & E & Hpre & Hsuf & Hf). rewrite Hf in Hfuel |- *.
  by apply (wire_walk_suffix suf fuel k el start pre).
Qed.

End Walk.

(** ** The test agents of the system tests *)

(** The event loop of an agent with the builder's defaults. *)
Definition agent_el (env : BuildOutcome) (engine : bytes) (user : option UsmUser) (level : SecurityLevel) : EventLoop :=
  match event_loop_new (setup env) LISTEN_ADDR (build_now env) None (MkEngineId engine) 1 user level
    DEFAULT_MAX_CONNECTIONS ConnectionTimeoutConfig_default with Ok (el, _) => el | Err _ => demo_el0 end.

Definition table_commands (sys_name : bytes) : list Command := (fun '(o, v) => SetValue o v) <$> test_mib sys_name.

Definition test_engine : bytes := ENGINE_ID_PREFIX ++ str "test-agent-mib".

(** [test-agent-mib] started. *)
Definition test_agent_el (env : BuildOutcome) : EventLoop := agent_el env test_engine None NoAuthNoPriv.

Lemma test_agent_started parse_level rust_log debug_str env : build_succeeds env ->
  exists s line, mib_agent parse_level rust_log debug_str env = Ok (s, line) /\ sys_loop s = Some (test_agent_el env) /\ sys_queue s = table_commands (str "test-agent-mib").
Proof.
  destruct env as [st u sp now]. intros ([addr Hs] & Hu & Hsp). cbn in Hs, Hu, Hsp. subst st u sp.
  eexists _, _. split; [vm_compute; reflexivity|]. split; vm_compute; reflexivity.
Qed.

Section TestAgent.
  Context `{CryptoOps} (seed at_ : Z) (clock : nat -> Z).

(** Its first wake-up handled, and a manager connected. *)
Definition agent_woken (sys_name : bytes) (el : EventLoop) : EventLoop :=
  snd (handle_event seed el (MkEvent WAKER_TOKEN at_ [] (table_commands sys_name) false [] [])).
Definition agent_connected (sys_name : bytes) (el : EventLoop) : EventLoop :=
  snd (handle_event seed (agent_woken sys_name el) (MkEvent LISTENER_TOKEN at_ [AcceptOk true at_] [] false [] [])).

Definition test_agent_connected (env : BuildOutcome) : EventLoop := agent_connected (str "test-agent-mib") (test_agent_el env).

Lemma table_commands_wf sys_name : Forall is_u8 sys_name -> Forall command_wf (table_commands sys_name).
Proof. intros Hs. repeat constructor; try zrange; try reflexivity. exact Hs. Qed.

Lemma agent_connected_ready env engine user level sys_name :
  build_succeeds env -> security_level_requires_user user level = false -> match user with Some u => user_wf u | None => True end ->
  Forall is_u8 engine -> len engine <= 32 -> Forall is_u8 sys_name -> (forall k, clock k - build_now env < 1000 * I32_MAX) ->
  let el := agent_connected sys_name (agent_el env engine user level) in
  conn_ready el FIRST_CONN_TOKEN clock /\ entries (store el) = test_mib sys_name /\
  loop_config el = (MkEngineId engine, 1, build_now env, user, level).
Proof.
  destruct env as [st u sp now]. intros ([addr Hs] & Hu & Hsp) Hlev Huser Heu Hel Hsys Hclock el. cbn in Hs, Hu, Hsp, Hclock. subst st u sp.
  assert (Hnew : event_loop_new (setup_granted addr) LISTEN_ADDR now None (MkEngineId engine) 1 user level DEFAULT_MAX_CONNECTIONS
    ConnectionTimeoutConfig_default = Ok (agent_el (MkBuildOutcome (setup_granted addr) (Ok tt) (Ok tt) now) engine user level, addr)).
  { unfold agent_el, event_loop_new. cbn [setup build_now]. by rewrite Hlev. }
  assert (Hok : loop_ok el).
  { subst el. unfold agent_connected, agent_woken. destruct (handle_event _ (agent_el _ _ _ _) _) as [[s1 o1] el1] eqn:E1.
    cbn [snd]. destruct (handle_event _ el1 _) as [[s2 o2] el2] eqn:E2. cbn [snd].
    refine (handle_event_ok _ _ _ _ _ _ _ _ E2); [|split; constructor].
    refine (handle_event_ok _ _ _ _ _ _ _ _ E1); [|split; [constructor|by apply table_commands_wf]].
    apply (event_loop_new_ok (setup_granted addr) LISTEN_ADDR now None (MkEngineId engine) 1 user level
      DEFAULT_MAX_CONNECTIONS ConnectionTimeoutConfig_default _ addr); [exact I| |exact Hnew]. vm_compute. split; discriminate. }
  assert (Hf : entries (store el) = test_mib sys_name /\ loop_config el = (MkEngineId engine, 1, now, user, level) /\
    connections el !! FIRST_CONN_TOKEN = Some (MkConnectionState [] at_)).
  { unfold el, agent_connected, agent_woken, agent_el, event_loop_new. cbn [setup build_now]. rewrite Hlev.
    vm_compute. by split_and!. }
  clearbody el. destruct Hf as (He & Hcfg & Hc). split; [|by split]. split; [exact Hok| |by exists at_].
  intros k. unfold loop_config in Hcfg. injection Hcfg as C1 C2 C3 C4 _. unfold context_at, engine_time_seconds.
  split; cbn; rewrite ?C1, ?C2, ?C3, ?C4; [exact Heu|exact Hel|done| |exact Huser].
  specialize (Hclock k). unfold I32_MAX, U32_MAX in *. pose proof (Z.div_pos (Z.max 0 (clock k - now)) 1000 ltac:(lia) ltac:(lia)).
  pose proof (Z.div_le_upper_bound (Z.max 0 (clock k - now)) 1000 2147483647 ltac:(lia) ltac:(lia)). lia.
Qed.

Lemma test_agent_ready env : build_succeeds env -> (forall k, clock k - build_now env < 1000 * I32_MAX) ->
  walk_ready (test_agent_connected env) FIRST_CONN_TOKEN test_engine clock /\
  entries (store (test_agent_connected env)) = test_mib (str "test-agent-mib").
Proof.
  intros Henv Hclock. destruct (agent_connected_ready env test_engine None NoAuthNoPriv (str "test-agent-mib") Henv eq_refl I)
    as (Hr & He & Hcfg); [refine (bool_decide_unpack _ _); by vm_compute|by vm_compute|refine (bool_decide_unpack _ _); by vm_compute|done|].
  unfold loop_config in Hcfg. injection Hcfg as C1 _ _ C4 _. split; [|exact He].
  split; [exact Hr|exact C4|]. unfold test_agent_connected, test_agent_el. rewrite C1. by split.
Qed.

Lemma test_mib_sorted : sorted_from (MkOid [0; 0]) (test_mib (str "test-agent-mib")).
Proof. repeat (constructor; [vm_compute; reflexivity|]). constructor. Qed.

Lemma zero_oid_wf : oid_wf (MkOid [0; 0]).
Proof. split; [repeat constructor; zrange|reflexivity]. Qed.

Lemma test_mib_fits s : entries s = test_mib (str "test-agent-mib") -> entries_fit s.
Proof.
  intros He. unfold entries_fit. rewrite He. refine (bool_decide_unpack _ _). vm_compute. exact I.
Qed.

Lemma test_mib_length : (length (test_mib (str "test-agent-mib")) < 12)%nat.
Proof. vm_compute. lia. Qed.

(** The table of the system tests, read by walking [test-agent-mib] from 0.0: twelve
    exchanges, whatever the network does to the requests. *)
Theorem test_agent_walk `{!CryptoLaws, RasnBer, !RasnLaws} (env : BuildOutcome)
    (chop : nat -> bytes -> list (bytes * Z)) (k : nat) :
  is_u64 seed -> (forall k f, concat (chop k f).*1 = f /\ Forall (fun '(b, _) => b <> []) (chop k f)) ->
  build_succeeds env -> (forall k, clock k - build_now env < 1000 * I32_MAX) -> Z.of_nat (k + 12) <= I32_MAX ->
  exists el', wire_walk seed FIRST_CONN_TOKEN test_engine chop clock 12 k (test_agent_connected env) (MkOid [0; 0]) =
    Some (test_mib (str "test-agent-mib"), el').
Proof.
  intros Hseed Hchop Henv Hclock Hk. destruct (test_agent_ready env Henv Hclock) as [Hr He].
  destruct (wire_walk_suffix seed FIRST_CONN_TOKEN test_engine chop clock Hseed Hchop (test_mib (str "test-agent-mib")) 12 k
    (test_agent_connected env) (MkOid [0; 0]) [] Hr He (Forall_nil_2 _) test_mib_sorted zero_oid_wf
    (test_mib_fits _ He) test_mib_length Hk) as (el' & E & _).
  exists el'. exact E.
Qed.

End TestAgent.

(** Every request arrives as its first octet and then the rest. *)
Definition two_chunks (k : nat) (f : bytes) : list (bytes * Z) :=
  match f with [] => [] | [b] => [([b], 0)] | b :: rest => [([b], 0); (rest, 1)] end.

Lemma two_chunks_ok k f : concat (two_chunks k f).*1 = f /\ Forall (fun '(b, _) => b <> []) (two_chunks k f).
Proof. destruct f as [|b [|b' f]]; cbn; rewrite ?app_nil_r; split; try done; repeat constructor; done. Qed.

Definition granted : BuildOutcome := MkBuildOutcome (setup_granted LISTEN_ADDR) (Ok tt) (Ok tt) 0.

Lemma wire_walk_reads_mib_witness :
  exists el', @wire_walk ToyCrypto.ops RefRasn.ops 5 FIRST_CONN_TOKEN test_engine two_chunks (fun _ => 5000) 9 1
    (@test_agent_connected ToyCrypto.ops 5 0 granted) (MkOid [1; 3; 6; 1; 4]) =
    Some (drop 3 (test_mib (str "test-agent-mib")), el').
Proof.
  destruct (@test_agent_ready ToyCrypto.ops 5 0 (fun _ => 5000) granted ltac:(split; [by eexists|split; reflexivity])
    ltac:(intros k; reflexivity)) as [Hr He].
  destruct (@wire_walk_reads_mib ToyCrypto.ops ToyCrypto.laws RefRasn.ops RefRasn.laws 5 FIRST_CONN_TOKEN test_engine two_chunks
    (fun _ => 5000) ltac:(zrange) two_chunks_ok 9 1 (@test_agent_connected ToyCrypto.ops 5 0 granted) (MkOid [1; 3; 6; 1; 4]) Hr
    (test_mib_fits _ He) ltac:(split; [repeat constructor; zrange|reflexivity])) as (el' & E & _).
  - rewrite He. vm_compute. lia.
  - vm_compute. discriminate.
  - exists el'. rewrite He in E. exact E.
Defined.
