(* ===== verification/Seeds.v ===== *)
(** * Fuzzing inputs and seeds: [src/fuzz]

    The structured inputs of the fuzz targets ([arbitrary_snmpv3.rs]), the context they
    run the pipeline in, and the seed generator ([generate_seeds.rs]), which builds
    requests with the frames library, runs the agent's pipeline on them and asserts that
    a response comes back.  A panic ([expect], [assert!], [unwrap]) is [None]; whether a
    file can be written is the parameter [write_ok]. *)

From stdpp Require Import gmap.
From S2P Require Import Prelude Oid Ber BerFacts Usm Types Varbind BerPdu Snmp Codec Mib Request Dispatch Framing EventLoop LoopFacts Frames.

(** ** [arbitrary_snmpv3.rs] *)

Definition FUZZ_ENGINE_ID : bytes := [0x80; 0x00; 0x1f; 0x88; 0x80] ++ str "test".

Inductive PduType := PtGetRequest | PtGetNextRequest | PtGetBulkRequest | PtSetRequest.

Inductive EngineIdChoice := EngineMatching | EngineEmpty | EngineCustom (custom_engine_id : bytes).

Definition engine_id_choice_bytes (c : EngineIdChoice) : bytes :=
  match c with
  | EngineMatching => FUZZ_ENGINE_ID
  | EngineEmpty => []
  | EngineCustom custom_engine_id => custom_engine_id
  end.

Definition constrained_oid_arcs (oid_arc_count : Z) (oid_arcs : list Z) : list Z :=
  let count := Z.to_nat (Z.max 2 (Z.min oid_arc_count 12)) in
  imap (fun index arc => match index with O => arc mod 3 | S O => arc mod 40 | _ => arc end) (take count oid_arcs).

Record FuzzSnmpv3 := MkFuzzSnmpv3 {
  fz_pdu_type : PduType; fz_msg_id : Z; fz_request_id : Z; fz_engine_id : EngineIdChoice; fz_oid_arc_count : Z;
  fz_oid_arcs : list Z; fz_non_repeaters : Z; fz_max_repetitions : Z }.

Inductive UserNameChoice := UserValid | UserCustom (custom_user_name : bytes).

Definition user_name_choice_bytes (c : UserNameChoice) : bytes :=
  match c with UserValid => str "fuzz-user" | UserCustom custom_user_name => custom_user_name end.

Record FuzzSnmpv3Auth := MkFuzzSnmpv3Auth {
  fa_msg_id : Z; fa_request_id : Z; fa_engine_id : EngineIdChoice; fa_user_name : UserNameChoice; fa_msg_flags : Z;
  fa_auth_params : bytes; fa_engine_boots : Z; fa_engine_time : Z; fa_oid_arc_count : Z; fa_oid_arcs : list Z }.

Section Fuzz.
  Context `{RasnBer}.

(** [FuzzSnmpv3::encode] *)
Definition fuzz_encode (f : FuzzSnmpv3) : option bytes :=
  let engine_id := engine_id_choice_bytes (fz_engine_id f) in
  let oid_arcs := constrained_oid_arcs (fz_oid_arc_count f) (fz_oid_arcs f) in
  match fz_pdu_type f with
  | PtGetRequest => result_ok (try_encode_get_request engine_id [] (fz_msg_id f) (fz_request_id f) oid_arcs)
  | PtGetNextRequest => result_ok (try_encode_get_next_request engine_id [] (fz_msg_id f) (fz_request_id f) oid_arcs)
  | PtGetBulkRequest =>
      result_ok (try_encode_get_bulk_request engine_id [] (fz_msg_id f) (fz_request_id f) (fz_non_repeaters f)
                   (fz_max_repetitions f) oid_arcs)
  | PtSetRequest => result_ok (try_encode_set_request engine_id [] (fz_msg_id f) (fz_request_id f) oid_arcs)
  end.

(** [FuzzSnmpv3Auth::encode] *)
Definition fuzz_auth_encode (f : FuzzSnmpv3Auth) : option bytes :=
  let oid_arcs := constrained_oid_arcs (fa_oid_arc_count f) (fa_oid_arcs f) in
  result_ok (try_encode_get_request_with_auth_params_and_time (engine_id_choice_bytes (fa_engine_id f))
    (user_name_choice_bytes (fa_user_name f)) [] (fa_msg_id f) (fa_request_id f) oid_arcs (fa_msg_flags f)
    (fa_auth_params f) (fa_engine_boots f) (fa_engine_time f)).

End Fuzz.

(** ** The context and MIB of the targets *)

(** [fuzz_support::mib]; the OID literals are parsed. *)
Definition oid_literal (s : string) : Oid := match from_str (str s) with Ok oid => oid | Err _ => MkOid [] end.

Definition fuzz_mib : Store :=
  let store := store_new in
  let store := store_set store (oid_literal "1.3.6.1.2.1.1.1.0") (OctetString (str "basic-snmp-agent")) in
  let store := store_set store (oid_literal "1.3.6.1.2.1.1.3.0") (TimeTicks 0) in
  let store := store_set store (oid_literal "1.3.6.1.2.1.1.5.0") (OctetString (str "agent")) in
  let store := store_set store (oid_literal "1.3.6.1.2.1.2.1.0") (Integer32 1) in
  let store := store_set store (oid_literal "1.3.6.1.2.1.2.2.0") (Counter32 0) in
  let store := store_set store (oid_literal "1.3.6.1.2.1.2.3.0") (Counter64 0) in
  let store := store_set store (oid_literal "1.3.6.1.2.1.2.4.0") (Gauge32 0) in
  let store := store_set store (oid_literal "1.3.6.1.2.1.2.5.0") (IpAddress [127; 0; 0; 1]) in
  let store := store_set store (oid_literal "1.3.6.1.2.1.2.6.0") (ObjectIdentifier (oid_literal "1.3.6.1.4.1.99999")) in
  store_set store (oid_literal "1.3.6.1.2.1.2.7.0") (Opaque [0xDE; 0xAD; 0xBE; 0xEF]).

(** [DispatchCounters::new] and [DispatchCounters::context]; the targets build the same
    context inline.  [unwrap] is the [None]. *)
Definition counters_context (user : option UsmUser) (minimum : SecurityLevel) : option DispatchContext :=
  result_ok (context_new
    {| engine_id := FUZZ_ENGINE_ID; engine_boots := 1; engine_time := 0;
       unknown_engine_ids_counter := 0; unknown_user_names_counter := 0; unsupported_sec_levels_counter := 0;
       wrong_digests_counter := 0; not_in_time_windows_counter := 0; decryption_errors_counter := 0;
       unknown_security_models_counter := 0; usm_user := user; minimum_security_level := minimum |}).

(** The user of the authenticating targets and seeds. *)
Definition fuzz_auth_key : SecretKey := new_from_exposed_slice (replicate 32 0xAB).

Definition fuzz_user : option UsmUser :=
  name ← result_ok (user_name_new (str "fuzz-user"));
  user ← result_ok (auth_no_priv_new name HmacSha256 fuzz_auth_key);
  Some (auth_no_priv_into_user user).

(** ** [generate_seeds.rs] *)

Definition SYSDESCR_OID : list Z := [1; 3; 6; 1; 2; 1; 1; 1; 0].

Section Generate.
  Context `{CryptoOps, RasnBer} (seed : Z) (write_ok : bytes -> bool).

(** Runs the pipeline on a seed in a fresh context with an empty MIB: whether a
    response came back. *)
Definition seed_response (salt : SaltState) (user : option UsmUser) (minimum : SecurityLevel) (encoded : bytes)
    : option (bool * SaltState) :=
  ctx ← counters_context user minimum;
  let '(response, _, salt) := process_snmpv3_request seed salt encoded ctx store_new in
  Some (match response with Some _ => true | None => false end, salt).

(** The loop over seeds: the assertion, then the file. *)
Fixpoint write_seeds (salt : SaltState) (user : option UsmUser) (minimum : SecurityLevel)
    (seeds : list (bytes * option bytes * bool)) : option (list (bytes * bytes) * SaltState) :=
  match seeds with
  | [] => Some ([], salt)
  | (name, frame, expect_response) :: rest =>
      encoded ← frame;
      '(is_some, salt) ← seed_response salt user minimum encoded;
      if expect_response && negb is_some then None
      else if write_ok name then
        '(written, salt) ← write_seeds salt user minimum rest;
        Some ((name, encoded) :: written, salt)
      else None
  end.

Definition write_snmpv3_request_seeds (salt : SaltState) : option (list (bytes * bytes) * SaltState) :=
  write_seeds salt None NoAuthNoPriv
    [(str "get_request", encode_get_request FUZZ_ENGINE_ID [] 1 1 SYSDESCR_OID, true);
     (str "get_next_request", encode_get_next_request FUZZ_ENGINE_ID [] 2 2 SYSDESCR_OID, true);
     (str "get_bulk_request", encode_get_bulk_request FUZZ_ENGINE_ID [] 3 3 0 10 SYSDESCR_OID, true);
     (str "set_request", encode_set_request FUZZ_ENGINE_ID [] 4 4 SYSDESCR_OID, true)].

(** Encode with zeroed parameters, compute the MAC, encode again with it. *)
Definition authenticated_frame (engine_id user_name : bytes) (msg_id request_id : Z) (oid_arcs : list Z) (flags : Z)
    (protocol : AuthProtocol) (key : SecretKey) (boots time : Z) : option bytes :=
  zeroed_frame ← encode_get_request_with_auth_params_and_time engine_id user_name [] msg_id request_id oid_arcs flags
    (replicate (Z.to_nat (mac_len protocol)) 0) boots time;
  mac ← expect (compute_mac protocol key zeroed_frame);
  encode_get_request_with_auth_params_and_time engine_id user_name [] msg_id request_id oid_arcs flags mac boots time.

Definition build_authenticated_frame : option bytes :=
  authenticated_frame FUZZ_ENGINE_ID (str "fuzz-user") 10 10 SYSDESCR_OID 0x05 HmacSha256 fuzz_auth_key 1 0.

Definition write_auth_seeds (salt : SaltState) : option (list (bytes * bytes) * SaltState) :=
  auth_user ← fuzz_user;
  write_seeds salt (Some auth_user) AuthNoPriv
    [(str "auth_get_request_valid_hmac", build_authenticated_frame, true);
     (str "auth_get_request",
      encode_get_request_with_auth_params_and_time FUZZ_ENGINE_ID (str "fuzz-user") [] 10 10 SYSDESCR_OID 0x05
        (replicate 24 0) 1 0, false);
     (str "auth_get_request_wrong_user",
      encode_get_request_with_auth_params_and_time FUZZ_ENGINE_ID (str "wrong-user") [] 11 11 SYSDESCR_OID 0x05
        (replicate 24 0) 1 0, false);
     (str "noauth_get_request",
      encode_get_request_with_user_and_flags FUZZ_ENGINE_ID (str "fuzz-user") [] 12 12 SYSDESCR_OID 0x04, false)].

(** The fuzz targets: the pipeline on arbitrary octets, and on structured inputs. *)
Definition fuzz_snmpv3_request (salt : SaltState) (request_bytes : bytes) : option (option bytes) :=
  ctx ← counters_context None NoAuthNoPriv;
  let '(response, _, _) := process_snmpv3_request seed salt request_bytes ctx fuzz_mib in Some response.

Definition fuzz_snmpv3_request_auth (salt : SaltState) (request_bytes : bytes) : option (option bytes) :=
  user ← fuzz_user;
  ctx ← counters_context (Some user) AuthNoPriv;
  let '(response, _, _) := process_snmpv3_request seed salt request_bytes ctx fuzz_mib in Some response.

Definition fuzz_snmpv3_request_structured (salt : SaltState) (input : FuzzSnmpv3) : option (option bytes) :=
  match fuzz_encode input with None => Some None | Some encoded => fuzz_snmpv3_request salt encoded end.

Definition fuzz_snmpv3_request_auth_structured (salt : SaltState) (input : FuzzSnmpv3Auth) : option (option bytes) :=
  match fuzz_auth_encode input with None => Some None | Some encoded => fuzz_snmpv3_request_auth salt encoded end.

End Generate.

(** [write_tcp_framing_seeds], [write_structured_seeds]: the files' contents. *)
Definition tcp_framing_seeds : list (bytes * bytes) :=
  [(str "short_form_zero", [0x00]); (str "short_form_max", [0x7F]); (str "long_form_1_octet", [0x81; 0x80]);
   (str "long_form_2_octets", [0x82; 0x01; 0x00]); (str "long_form_3_octets", [0x83; 0x01; 0x00; 0x00]);
   (str "long_form_4_octets", [0x84; 0x00; 0x01; 0x00; 0x00]); (str "indefinite_length", [0x80]); (str "empty", [])].

Definition structured_seeds : list (bytes * bytes) :=
  [(str "zeros", replicate 128 0); (str "ones", replicate 128 0xFF); (str "ascending", seqZ 0 128)].

#[local] Opaque v3_octets v3_prefix std_pdu_octets tlv.

Section Signed.
  Context `{CryptoOps, !CryptoLaws, RasnBer, !RasnLaws}.

(** The manager knows the user's name and key, and the engine's identifier and clock. *)
Record knows_user (i : DispatchInputs) (user : UsmUser) (p : AuthProtocol) (k : SecretKey) (time : Z) : Prop := {
  ku_user : usm_user i = Some user;
  ku_auth : auth_credentials user = Some (MkAuthCredentials p k);
  ku_name : Forall is_u8 (user_name_bytes (user_name user)) /\ len (user_name_bytes (user_name user)) <= 32;
  ku_level : minimum_security_level i <> AuthPriv;
  ku_engine : engine_id i <> [];
  ku_time : 0 <= time <= I32_MAX /\ Z.abs (time - engine_time i) <= 150;
}.

(** A GET with zeroed authentication parameters. *)
Definition unsigned_get (e name : bytes) (mid rid : Z) (oid : Oid) (p : AuthProtocol) (boots time : Z) : ManagerRequest :=
  usm_request e name [] mid (RasnGetRequest (single_varbind_pdu rid (as_slice oid))) 5 (replicate (Z.to_nat (mac_len p)) 0) boots time.

(** Signing with any key of the protocol's size gives one frame, that verifies under the
    keys that give the zeroed frame the same MAC. *)
Lemma authenticated_frame_ok e name mid rid oid p k boots time :
  Forall is_u8 (e ++ name) -> len e <= 32 -> len name <= 32 -> key_size k = auth_key_len p ->
  0 <= mid <= I32_MAX -> is_i32 rid -> oid_wf oid -> 0 <= boots <= I32_MAX -> 0 <= time <= I32_MAX ->
  let r := unsigned_get e name mid rid oid p boots time in
  exists mac, compute_mac p k (frame_octets r) = Ok mac /\
    authenticated_frame e name mid rid (as_slice oid) 0x05 p k boots time = Some (frame_octets (signed_with mac r)) /\
    request_wf (signed_with mac r) /\ is_frame (frame_octets (signed_with mac r)) /\
    forall k', verify_hmac p k' (hmac_input (frame_message (signed_with mac r))) = true <-> compute_mac p k' (frame_octets r) = Ok mac.
Proof.
  intros Hu Hel Hnl Hk Hid Hr Ho Hb Ht r. rewrite Forall_app in Hu.
  assert (Hz : len (mr_auth r) <= 48 /\ Forall is_u8 (mr_auth r)).
  { cbn. unfold len. rewrite length_replicate. split; [by destruct p|]. apply Forall_replicate. zrange. }
  assert (Hw : request_wf r).
  { apply (single_request_wf oid); cbn; unfold I32_MAX in *; try done; try zrange; try tauto.
    - by exists rid.
    - rewrite !Forall_app. destruct Hu, Hz. split_and!; done.
    - change (len (@nil Z)) with 0. destruct Hz as [Hz _]. cbn in Hz. lia. }
  destruct (compute_mac_total p k (frame_octets r) Hk) as (mac & Em & Hmu). pose proof (compute_mac_len _ _ _ _ Em) as Hml.
  assert (Hv : forall k', _) by (intros k'; exact (signed_frame_verifies r p k' mac eq_refl Hml Hmu Hw)).
  pose proof (proj1 (Hv k)) as Hw'. exists mac. split_and!; [exact Em| |exact Hw'| |intros k'; exact (proj2 (Hv k'))].
  - unfold authenticated_frame, encode_get_request_with_auth_params_and_time, try_encode_get_request_with_auth_params_and_time.
    rewrite usm_params_frame by exact Hw. cbn [expect result_ok mbind option_bind]. fold (unsigned_get e name mid rid oid p boots time).
    fold r. rewrite Em. cbn [expect result_ok mbind option_bind]. by rewrite usm_params_frame by exact Hw'.
  - apply (single_request_frame oid); [done|by exists rid|exact Hw'|]. cbn. change (len (@nil Z)) with 0. rewrite Hml. destruct p; cbn; lia.
Qed.

(** Such a frame, arriving with the user's name within the time window. *)
Lemma signed_request_answered seed salt mib ctx user p k mid rid oid time :
  is_u64 seed -> salt_state_ok salt -> context_wf ctx -> store_wf mib -> knows_user (inputs ctx) user p k time ->
  0 <= mid <= I32_MAX -> is_i32 rid -> oid_wf oid -> len (get_answer mib rid oid) + 32 <= PAYLOAD_MAX ->
  exists octets resp salt' env,
    authenticated_frame (engine_id (inputs ctx)) (user_name_bytes (user_name user)) mid rid (as_slice oid) 0x05 p k
      (engine_boots (inputs ctx)) time = Some octets /\ Forall is_u8 octets /\ is_frame octets /\
    process_snmpv3_request seed salt octets ctx mib = (Some resp, ctx, salt') /\ salt_state_ok salt' /\
    opened mid (engine_id (inputs ctx)) (user_name_bytes (user_name user)) [] (engine_boots (inputs ctx))
      (engine_time (inputs ctx)) (Some (p, k)) (priv_pair (Some user)) (get_answer mib rid oid) resp env.
Proof.
  intros Hseed Hst Hctx Hmib [Hu Ha [Hnu Hnl] Hlev Hne [Ht Htw]] Hid Hr Ho Hsize. pose proof Hctx as [He Hel Hb _ Huw].
  rewrite Hu in Huw. destruct Huw as [Hk _]. rewrite Ha in Hk. cbn in Hk.
  assert (Hpair : auth_pair (usm_user (inputs ctx)) = Some (p, k)) by (by rewrite Hu, auth_pair_Some, Ha).
  destruct (authenticated_frame_ok (engine_id (inputs ctx)) (user_name_bytes (user_name user)) mid rid oid p k (engine_boots (inputs ctx)) time
    ltac:(by apply Forall_app) Hel Hnl Hk Hid Hr Ho Hb Ht) as (mac & Em & Ef & Hw & Hf & Hv).
  set (r := signed_with mac _) in *. assert (Eo : MkOid (as_slice oid) = oid) by (by destruct oid).
  assert (Eans : response_octets (frame_message r) mib (inbound_of (mr_pdus r)) = get_answer mib rid oid).
  { unfold response_octets, get_answer, answer_octets. cbn. by rewrite Eo. }
  destruct (frame_answered seed salt r mib ctx Hseed Hst Hw Hctx Hmib) as (resp & salt' & env & E & Hst' & Hop).
  - done.
  - unfold user_ok. by rewrite Hu.
  - exists AuthNoPriv. split; [done|]. rewrite Hu. unfold user_security_level. rewrite Ha.
    destruct (minimum_security_level (inputs ctx)), (priv_credentials user); try done; cbn; lia.
  - done.
  - unfold mac_ok. rewrite Hpair. by apply Hv.
  - unfold time_ok. rewrite Hpair. cbn. done.
  - rewrite Eans. exact Hsize.
  - exists (frame_octets r), resp, salt', env. split_and!; [exact Ef|by apply frame_u8|exact Hf|exact E|exact Hst'|].
    rewrite Eans, Hpair, Hu in Hop. exact Hop.
Qed.

(** ** The assertions of the seed generator *)

Definition fuzz_context (user : option UsmUser) (minimum : SecurityLevel) : DispatchContext :=
  MkDispatchContext {| engine_id := FUZZ_ENGINE_ID; engine_boots := 1; engine_time := 0;
    unknown_engine_ids_counter := 0; unknown_user_names_counter := 0; unsupported_sec_levels_counter := 0;
    wrong_digests_counter := 0; not_in_time_windows_counter := 0; decryption_errors_counter := 0;
    unknown_security_models_counter := 0; usm_user := user; minimum_security_level := minimum |}.

Definition fuzz_usm_user : UsmUser :=
  MkUsmUser (MkUserName (str "fuzz-user")) (Some (MkAuthCredentials HmacSha256 fuzz_auth_key)) None.

Lemma fuzz_context_wf user minimum :
  match user with Some u => user_wf u | None => True end -> context_wf (fuzz_context user minimum).
Proof.
  intros Hu. split; [|vm_compute; split_and?; congruence..|exact Hu].
  change (engine_id (inputs (fuzz_context user minimum))) with FUZZ_ENGINE_ID. refine (bool_decide_unpack _ _). by vm_compute.
Qed.

(** A seed whose frame is built, and answered where that is asserted. *)
Definition seed_ok (seed : Z) (user : option UsmUser) (minimum : SecurityLevel) (s : bytes * option bytes * bool) : Prop :=
  exists enc, s.1.2 = Some enc /\ (s.2 = true -> forall salt, salt_state_ok salt ->
    exists resp, fst (fst (process_snmpv3_request seed salt enc (fuzz_context user minimum) store_new)) = Some resp).

(** The loop writes every seed. *)
Lemma write_seeds_ok seed write_ok user minimum seeds salt :
  counters_context user minimum = Some (fuzz_context user minimum) -> (forall n, write_ok n = true) -> salt_state_ok salt ->
  Forall (seed_ok seed user minimum) seeds ->
  exists files salt', write_seeds seed write_ok salt user minimum seeds = Some (files, salt') /\ length files = length seeds /\
    salt_state_ok salt'.
Proof.
  intros Hc Hwr Hst Hs. revert salt Hst. induction Hs as [|[[name frame] expected] seeds [enc [Ef Hex]] _ IH]; intros salt Hst.
  { by exists [], salt. }
  cbn [fst snd] in Ef, Hex. subst frame. cbn [write_seeds mbind option_bind]. unfold seed_response. rewrite Hc. cbn [mbind option_bind].
  destruct (process_snmpv3_request seed salt enc (fuzz_context user minimum) store_new) as [[resp ctx'] salt1] eqn:E.
  destruct (process_effect _ _ _ _ _ _ _ _ Hst E) as (_ & _ & Hst1). rewrite Hwr.
  assert (Hneg : expected && negb (match resp with Some _ => true | None => false end) = false).
  { destruct expected; [|done]. destruct (Hex eq_refl salt Hst) as [x Ex]. rewrite E in Ex. cbn in Ex. by subst resp. }
  cbn [mbind option_bind]. rewrite Hneg. destruct (IH salt1 Hst1) as (files & salt' & Ew & Hlen & Hst'). rewrite Ew. cbn [mbind option_bind].
  exists ((name, enc) :: files), salt'. split; [done|]. cbn. by rewrite Hlen.
Qed.

Lemma sysdescr_wf : oid_wf (MkOid SYSDESCR_OID).
Proof. split; [repeat constructor; zrange|reflexivity]. Qed.

(** The four unauthenticated seeds, whatever the salt, are built and answered. *)
Lemma request_seed_answered seed salt mid max pdus frame answer :
  let r := MkManagerRequest mid max 4 FUZZ_ENGINE_ID 0 0 [] [] FUZZ_ENGINE_ID [] pdus in
  is_u64 seed -> salt_state_ok salt -> 0 <= mid <= 100 -> 484 <= max <= I32_MAX -> single_pdus (MkOid SYSDESCR_OID) pdus ->
  len answer + 32 <= PAYLOAD_MAX -> manager_frame FUZZ_ENGINE_ID [] store_new mid mid (MkOid SYSDESCR_OID) r frame answer ->
  exists enc resp salt', frame = Some enc /\ salt_state_ok salt' /\
    process_snmpv3_request seed salt enc (fuzz_context None NoAuthNoPriv) store_new =
      (Some resp, fuzz_context None NoAuthNoPriv, salt').
Proof.
  intros r Hseed Hst Hmid Hmax Hp Hsize Hf. pose proof (fuzz_context_wf None NoAuthNoPriv I) as Hctx. pose proof Hctx as [He Hel _ _ _].
  destruct (plain_request_wf FUZZ_ENGINE_ID mid (MkOid SYSDESCR_OID) max pdus He Hel ltac:(unfold I32_MAX; lia) Hmax sysdescr_wf Hp) as [Hw _].
  destruct (manager_frame_request FUZZ_ENGINE_ID [] store_new mid mid (MkOid SYSDESCR_OID) r frame answer ltac:(by vm_compute) Hf Hw) as (-> & Ea & _).
  assert (Hopen : open_agent (inputs (fuzz_context None NoAuthNoPriv))) by done.
  destruct (open_agent_passes r _ Hopen eq_refl) as (Hu & Hl & Hm & Ht). rewrite <-Ea in Hsize.
  destruct (frame_answered seed salt r store_new (fuzz_context None NoAuthNoPriv) Hseed Hst Hw Hctx store_new_wf
    ltac:(done) Hu Hl eq_refl Hm Ht Hsize) as (resp & salt' & env & E & Hst' & _).
  exists (frame_octets r), resp, salt'. split_and!; [done|exact Hst'|exact E].
Qed.

Lemma fuzz_usm_user_wf : user_wf fuzz_usm_user.
Proof. by vm_compute. Qed.

(** A frame of the library with constant fields. *)
Lemma auth_params_frame (e u a : bytes) mid flags boots time :
  Forall is_u8 (e ++ u ++ a) -> len e <= 32 -> len u <= 32 -> len a <= 48 -> 0 <= mid <= 100 -> is_u8 flags ->
  0 <= boots <= I32_MAX -> 0 <= time <= I32_MAX ->
  exists enc, encode_v3_message_with_usm_params e u [] mid (RasnGetRequest (single_varbind_pdu mid SYSDESCR_OID)) flags a boots time
    = Ok enc.
Proof.
  intros Hu He Hul Ha Hm Hf Hb Ht. eexists. apply usm_params_frame, (single_request_wf (MkOid SYSDESCR_OID)); cbn;
    unfold I32_MAX in *; try done; try zrange.
  - apply sysdescr_wf.
  - exists mid. split; [zrange|done].
  - rewrite !Forall_app in Hu. rewrite !Forall_app. destruct Hu as (? & ? & ?). by split_and!.
Qed.

Lemma request_seed_ok seed name mid max pdus frame answer :
  is_u64 seed -> 0 <= mid <= 100 -> 484 <= max <= I32_MAX -> single_pdus (MkOid SYSDESCR_OID) pdus -> len answer + 32 <= PAYLOAD_MAX ->
  manager_frame FUZZ_ENGINE_ID [] store_new mid mid (MkOid SYSDESCR_OID)
    (MkManagerRequest mid max 4 FUZZ_ENGINE_ID 0 0 [] [] FUZZ_ENGINE_ID [] pdus) frame answer ->
  seed_ok seed None NoAuthNoPriv (name, frame, true).
Proof.
  intros Hseed Hm Hx Hp Hsz Hf. destruct (request_seed_answered seed None mid max pdus frame answer Hseed I Hm Hx Hp Hsz Hf)
    as (enc & _ & _ & -> & _). exists enc. split; [done|]. intros _ salt0 Hs0.
  destruct (request_seed_answered seed salt0 mid max pdus (Some enc) answer Hseed Hs0 Hm Hx Hp Hsz Hf) as (enc' & resp & s' & [= <-] & _ & E).
  exists resp. by rewrite E.
Qed.

Lemma signed_seed_ok seed name : is_u64 seed ->
  seed_ok seed (Some fuzz_usm_user) AuthNoPriv (name, build_authenticated_frame, true).
Proof.
  intros Hseed.
  assert (Hk : knows_user (inputs (fuzz_context (Some fuzz_usm_user) AuthNoPriv)) fuzz_usm_user HmacSha256 fuzz_auth_key 0).
  { split; try done. split; [refine (bool_decide_unpack _ _); by vm_compute|by vm_compute]. }
  pose proof (fuzz_context_wf (Some fuzz_usm_user) AuthNoPriv fuzz_usm_user_wf) as Hctx.
  assert (Hall : forall salt, salt_state_ok salt -> exists enc resp, build_authenticated_frame = Some enc /\
    fst (fst (process_snmpv3_request seed salt enc (fuzz_context (Some fuzz_usm_user) AuthNoPriv) store_new)) = Some resp).
  { intros salt Hs. destruct (signed_request_answered seed salt store_new _ _ _ _ 10 10 (MkOid SYSDESCR_OID) 0 Hseed Hs Hctx
      store_new_wf Hk ltac:(by vm_compute) ltac:(zrange) sysdescr_wf ltac:(by vm_compute)) as (enc & resp & s' & _ & E & _ & _ & Ep & _).
    exists enc, resp. split; [exact E|by rewrite Ep]. }
  destruct (Hall None I) as (enc & _ & E & _). exists enc. split; [exact E|]. intros _ salt Hs.
  destruct (Hall salt Hs) as (enc' & resp & E' & Hr). rewrite E in E'. injection E' as <-. by exists resp.
Qed.

End Signed.

(** A frame with constant fields exists; its response is not asserted. *)
Ltac library_frame u a mid flags boots :=
  let enc := fresh "enc" in
  edestruct (auth_params_frame FUZZ_ENGINE_ID u a mid flags boots 0) as [enc E];
  [refine (bool_decide_unpack _ _); by vm_compute|by vm_compute..|];
  exists enc; cbn [fst snd]; split; [|done].

(** The seed generator's assertions hold.  With any crypto and encoder that
    satisfy their laws, from any salt state, and as long as the files can be written,
    the generator never panics: every unauthenticated seed and the seed signed by
    [build_authenticated_frame] gets a response from the agent, and every seed is
    written. *)
Theorem seed_assertions_hold `{CryptoOps, !CryptoLaws, RasnBer, !RasnLaws} (seed : Z) (salt : SaltState) (write_ok : bytes -> bool) :
  is_u64 seed -> salt_state_ok salt -> (forall name, write_ok name = true) ->
  (exists files salt', write_snmpv3_request_seeds seed write_ok salt = Some (files, salt') /\ length files = 4%nat /\
     salt_state_ok salt') /\
  (exists files salt', write_auth_seeds seed write_ok salt = Some (files, salt') /\ length files = 4%nat /\ salt_state_ok salt').
Proof.
  intros Hseed Hst Hwr. split.
  - apply write_seeds_ok; [done..|]. repeat constructor.
    + eapply (request_seed_ok _ _ 1 65535 _ _ _ Hseed ltac:(lia) ltac:(done)) with (3 := frame_get _ _ _ _ _ _);
        [by exists 1; split; [zrange|]|by vm_compute].
    + eapply (request_seed_ok _ _ 2 65535 _ _ _ Hseed ltac:(lia) ltac:(done)) with (3 := frame_get_next _ _ _ _ _ _);
        [by exists 2; split; [zrange|]|by vm_compute].
    + eapply (request_seed_ok _ _ 3 65535 _ _ _ Hseed ltac:(lia) ltac:(done)) with (3 := frame_bulk _ _ _ _ _ _ 0 10);
        [by exists 3, 0, 10; split; [zrange|]|by vm_compute].
    + eapply (request_seed_ok _ _ 4 65535 _ _ _ Hseed ltac:(lia) ltac:(done)) with (3 := frame_set _ _ _ _ _ _);
        [by exists 4; split; [zrange|]|by vm_compute].
  - unfold write_auth_seeds. change fuzz_user with (Some fuzz_usm_user). cbn [mbind option_bind].
    apply write_seeds_ok; [done..|]. repeat constructor; [by apply signed_seed_ok| | |].
    + library_frame (str "fuzz-user") (replicate 24 0) 10 5 1.
      unfold encode_get_request_with_auth_params_and_time, try_encode_get_request_with_auth_params_and_time. by rewrite E.
    + library_frame (str "wrong-user") (replicate 24 0) 11 5 1.
      unfold encode_get_request_with_auth_params_and_time, try_encode_get_request_with_auth_params_and_time. by rewrite E.
    + library_frame (str "fuzz-user") (@nil Z) 12 4 0.
      unfold encode_get_request_with_user_and_flags, frames_encode_v3_message, encode_v3_message_with_auth_params. by rewrite E.
Qed.

(** Claim C18: a manager that knows the user's key is served.  A GET signed the way the
    library's callers sign (encode with zeroed parameters, compute the HMAC, encode again
    with it) with the key, name, boots and time of an agent's user is accepted whatever the
    protocol, and answered with the stored value or noSuchObject; the answer carries a MAC
    that verifies under the same key, and is encrypted if the user has a privacy key. *)
Theorem signed_request_is_answered `{CryptoOps, !CryptoLaws, RasnBer, !RasnLaws} (seed : Z) (salt : SaltState) (mib : Store)
    (ctx : DispatchContext) (user : UsmUser) (p : AuthProtocol) (k : SecretKey) (mid rid : Z) (oid : Oid) (time : Z) :
  is_u64 seed -> salt_state_ok salt -> context_wf ctx -> store_wf mib -> knows_user (inputs ctx) user p k time ->
  0 <= mid <= I32_MAX -> is_i32 rid -> oid_wf oid -> len (get_answer mib rid oid) + 32 <= PAYLOAD_MAX ->
  exists octets resp salt' env,
    authenticated_frame (engine_id (inputs ctx)) (user_name_bytes (user_name user)) mid rid (as_slice oid) 0x05 p k
      (engine_boots (inputs ctx)) time = Some octets /\
    process_snmpv3_request seed salt octets ctx mib = (Some resp, ctx, salt') /\
    opened mid (engine_id (inputs ctx)) (user_name_bytes (user_name user)) [] (engine_boots (inputs ctx))
      (engine_time (inputs ctx)) (Some (p, k)) (priv_pair (Some user)) (get_answer mib rid oid) resp env.
Proof.
  intros Hseed Hst Hctx Hmib Hk Hid Hr Ho Hs.
  destruct (signed_request_answered seed salt mib ctx user p k mid rid oid time Hseed Hst Hctx Hmib Hk Hid Hr Ho Hs)
    as (octets & resp & salt' & env & E1 & _ & _ & E2 & _ & Hop). by exists octets, resp, salt', env.
Qed.

Lemma signed_request_is_answered_witness :
  let ctx := fuzz_context (Some toy_user) AuthNoPriv in
  exists octets resp salt',
    @authenticated_frame ToyCrypto.ops RefRasn.ops FUZZ_ENGINE_ID [97] 3 4 [1; 3; 6] 5 HmacSha256 (zeroed 32) 1 100 = Some octets /\
    @process_snmpv3_request ToyCrypto.ops 5 None octets ctx small_store = (Some resp, ctx, salt').
Proof.
  destruct (@signed_request_is_answered ToyCrypto.ops ToyCrypto.laws RefRasn.ops RefRasn.laws 5 None small_store
    (fuzz_context (Some toy_user) AuthNoPriv) toy_user HmacSha256 (zeroed 32) 3 4 (MkOid [1; 3; 6]) 100
    ltac:(zrange) I (fuzz_context_wf (Some toy_user) AuthNoPriv ltac:(by vm_compute)) small_store_wf
    ltac:(split; [reflexivity|reflexivity|split; [refine (bool_decide_unpack _ _); by vm_compute|by vm_compute]|discriminate
      |discriminate|by vm_compute])
    ltac:(by vm_compute) ltac:(zrange) ltac:(split; [repeat constructor; zrange|reflexivity]) ltac:(by vm_compute))
    as (octets & resp & salt' & env & E1 & E2 & _).
  exists octets, resp, salt'. split; [exact E1|exact E2].
Defined.

(** ** Structured inputs *)

(** The ranges of the fields' types. *)
Record fuzz_input_ok (f : FuzzSnmpv3) : Prop := {
  fi_msg_id : is_i32 (fz_msg_id f);
  fi_request_id : is_i32 (fz_request_id f);
  fi_engine : match fz_engine_id f with EngineCustom b => len b = 8 /\ Forall is_u8 b | _ => True end;
  fi_count : is_u8 (fz_oid_arc_count f);
  fi_arcs : length (fz_oid_arcs f) = 12%nat /\ Forall is_u32 (fz_oid_arcs f);
  fi_bulk : 0 <= fz_non_repeaters f <= 65535 /\ 0 <= fz_max_repetitions f <= 65535;
}.

Lemma constrained_oid_arcs_wf count arcs :
  is_u8 count -> length arcs = 12%nat -> Forall is_u32 arcs -> oid_wf (MkOid (constrained_oid_arcs count arcs)).
Proof.
  intros Hc Hl Ha. unfold constrained_oid_arcs. set (n := Z.to_nat _).
  assert (Hn : (2 <= n <= 12)%nat) by (subst n; lia).
  assert (Hlen : length (take n arcs) = n) by (rewrite length_take; lia).
  assert (Hu : Forall is_u32 (take n arcs)) by (by apply Forall_take).
  destruct (take n arcs) as [|a [|b l]]; [cbn in Hlen; lia..|]. cbn in Hlen.
  inversion Hu as [|? ? Hua Hu']; subst. inversion Hu' as [|? ? Hub Hul]; subst. cbn [imap].
  change (imap _ l) with (imap (fun _ arc => arc) l).
  assert (El : imap (fun _ (arc : Z) => arc) l = l) by (clear; induction l as [|x l IH]; [done|]; cbn; by f_equal). rewrite El.
  pose proof (Z.mod_pos_bound a 3 ltac:(lia)). pose proof (Z.mod_pos_bound b 40 ltac:(lia)). split; cbn [as_slice].
  - do 2 (constructor; [cbn; zrange|]); exact Hul.
  - cbn. bfalse (2 <? a mod 3). bfalse (39 <? b mod 40). rewrite andb_false_r. unfold MAX_OID_SUB_IDENTIFIERS.
    by bfalse (128 <? len (a mod 3 :: b mod 40 :: l)).
Qed.

Definition fuzz_oid (f : FuzzSnmpv3) : Oid := MkOid (constrained_oid_arcs (fz_oid_arc_count f) (fz_oid_arcs f)).

(** The request a structured input describes. *)
Definition fuzz_pdu (f : FuzzSnmpv3) : InboundPdu :=
  let vbs := [MkVarbind (fuzz_oid f) Unspecified] in
  match fz_pdu_type f with
  | PtGetRequest => PduGetRequest (MkGetRequest (fz_request_id f) vbs)
  | PtGetNextRequest => PduGetNextRequest (MkGetNextRequest (fz_request_id f) vbs)
  | PtGetBulkRequest => PduGetBulkRequest (MkGetBulkRequest (fz_request_id f) (fz_non_repeaters f) (fz_max_repetitions f) vbs)
  | PtSetRequest => PduSetRequest (MkSetRequest (fz_request_id f) vbs)
  end.

(** Structured inputs get past the decoder: every value of the input type is encoded (the
    arcs it is constrained to are always a valid OID), and unless its message identifier is
    negative the agent decodes the frame to exactly the engine identifier and request that
    the input describes. *)
Theorem structured_inputs_decode `{RasnBer, !RasnLaws} (f : FuzzSnmpv3) :
  fuzz_input_ok f -> 0 <= fz_msg_id f ->
  exists octets m, fuzz_encode f = Some octets /\ decode_v3_message octets = Ok m /\ msg_id m = fz_msg_id f /\
    auth_engine_id (usm m) = engine_id_choice_bytes (fz_engine_id f) /\ scoped_data m = Plaintext (fuzz_pdu f).
Proof.
  intros [Hid Hr He Hc [Hl Ha] [Hn Hm]] Hpos. pose proof (constrained_oid_arcs_wf _ _ Hc Hl Ha) as Ho.
  set (e := engine_id_choice_bytes (fz_engine_id f)).
  assert (Heb : len e <= 32 /\ Forall is_u8 e).
  { subst e. destruct (fz_engine_id f) as [| |b]; cbn [engine_id_choice_bytes];
      [split; [by vm_compute|refine (bool_decide_unpack _ _); by vm_compute]|done|destruct He; split; [lia|done]]. }
  assert (Hw : forall pdus, single_pdus (fuzz_oid f) pdus -> request_wf (MkManagerRequest (fz_msg_id f) 65535 4 e 0 0 [] [] e [] pdus)).
  { intros pdus Hp. apply (single_request_wf (fuzz_oid f)); cbn; unfold I32_MAX; try done; try zrange.
    rewrite !app_nil_r. cbn. rewrite Forall_app. tauto. }
  assert (Hm' : forall pdus, single_pdus (fuzz_oid f) pdus -> inbound_of pdus = fuzz_pdu f ->
    fuzz_encode f = result_ok (encode_v3_message_with_usm_params e [] [] (fz_msg_id f) pdus 4 [] 0 0) ->
    exists octets m, fuzz_encode f = Some octets /\ decode_v3_message octets = Ok m /\ msg_id m = fz_msg_id f /\
      auth_engine_id (usm m) = e /\ scoped_data m = Plaintext (fuzz_pdu f)).
  { intros pdus Hp Hi ->. rewrite usm_params_frame by (by apply Hw). eexists _, _. split; [reflexivity|].
    split; [by apply frame_decodes, Hw|]. cbn. by rewrite Hi. }
  unfold fuzz_encode, fuzz_pdu in *. destruct (fz_pdu_type f).
  - apply (Hm' (RasnGetRequest (single_varbind_pdu (fz_request_id f) (as_slice (fuzz_oid f))))); [by eexists|done|done].
  - apply (Hm' (RasnGetNextRequest (single_varbind_pdu (fz_request_id f) (as_slice (fuzz_oid f))))); [by eexists|done|done].
  - apply (Hm' (RasnGetBulkRequest (MkBulkPdu (fz_request_id f) (fz_non_repeaters f) (fz_max_repetitions f)
      [MkVarBind (as_slice (fuzz_oid f)) RasnUnspecified]))); [|done|done].
    eexists _, _, _. split_and!; [exact Hr|..|reflexivity]; unfold I32_MAX; lia.
  - apply (Hm' (RasnSetRequest (single_varbind_pdu (fz_request_id f) (as_slice (fuzz_oid f))))); [by eexists|done|done].
Qed.
