(* ===== verification/Session.v ===== *)
(** * A manager with a password

    The protocol as its users see it.  A manager knows a user name and a password, and
    nothing of the agent: it sends a discovery probe, takes the engine's identifier, boots
    and time from the Report, localises the key, signs its requests and checks the MAC of
    every response.  The manager is executable; the theorems put it together with the
    frames library, the event loop, the USM checks, key derivation and the MIB, also for
    the authenticated agent of the system tests. *)

From stdpp Require Import gmap.
From S2P Require Import Prelude Oid Ber BerFacts Usm Types Varbind BerPdu Snmp Codec Mib Request Dispatch Boots Trap Framing EventLoop LoopFacts Agent EndToEnd TestAgents Frames Walk Seeds.

(** ** The manager *)

(** What a Report says of the engine: identifier, boots and time. *)
Definition read_discovery (report : bytes) : option (bytes * Z * Z) :=
  match decode_v3_envelope report with
  | Ok env => Some (uf_engine_id (env_usm env), uf_engine_boots (env_usm env), uf_engine_time (env_usm env))
  | Err _ => None
  end.

(** The response carries the MAC of itself with the MAC's octets zeroed. *)
Definition response_authentic `{CryptoOps} (p : AuthProtocol) (key : SecretKey) (resp : bytes) : bool :=
  match decode_v3_envelope resp with
  | Ok env =>
      let mac := uf_auth_params (env_usm env) in
      match env_auth_params_offset env with
      | Some offset =>
          is_ok (verify_mac p key (take (Z.to_nat offset) resp ++ replicate (length mac) 0 ++ drop (Z.to_nat offset + length mac) resp) mac)
      | None => false
      end
  | Err _ => false
  end.

Section Manager.
  Context `{CryptoOps, RasnBer} (seed token : Z) (chop : nat -> bytes -> list (bytes * Z)) (clock : nat -> Z).
  Context (name : bytes) (p : AuthProtocol).

(** The [k]-th request and the one response to it. *)
Definition exchange (k : nat) (el : EventLoop) (frame : bytes) : option (bytes * EventLoop) :=
  match handle_event seed el (arrival token chop clock k frame) with
  | (false, [(_, resp)], el') => Some (resp, el')
  | _ => None
  end.

(** One signed GET per OID. *)
Fixpoint read_oids (engine : bytes) (boots time : Z) (key : SecretKey) (k : nat) (el : EventLoop) (oids : list Oid)
    : option (list Varbind * EventLoop) :=
  match oids with
  | [] => Some ([], el)
  | oid :: rest =>
      frame ← authenticated_frame engine name (Z.of_nat k) (Z.of_nat k) (as_slice oid) 0x05 p key boots time;
      '(resp, el1) ← exchange k el frame;
      if response_authentic p key resp then
        vb ← read_answer (Z.of_nat k) resp;
        '(vbs, el2) ← read_oids engine boots time key (S k) el1 rest;
        Some (vb :: vbs, el2)
      else None
  end.

Definition password_session (password : bytes) (el : EventLoop) (oids : list Oid) : option (list Varbind * EventLoop) :=
  probe ← encode_discovery_probe;
  '(report, el1) ← exchange 0 el probe;
  '(engine, boots, time) ← read_discovery report;
  match password_to_localised_key password engine p with
  | Some (Ok key) => read_oids engine boots time key 1 el1 oids
  | _ => None
  end.

End Manager.

(** ** The agent *)

(** A loop with an idle connection and one user, whose key is localised from the password
    and who has no privacy key. *)
Record session_ready `{CryptoOps} (el : EventLoop) (token : Z) (clock : nat -> Z) (name : bytes) (p : AuthProtocol)
    (key : SecretKey) : Prop := {
  sr_ready : conn_ready el token clock;
  sr_user : el_usm_user el = Some (MkUsmUser (MkUserName name) (Some (MkAuthCredentials p key)) None);
  sr_name : Forall is_u8 name /\ len name <= 32;
  sr_level : el_minimum_security_level el <> AuthPriv;
  sr_engine : engine_id_bytes (el_engine_id el) <> [];
}.

(** What a GET finds. *)
Definition get_varbind (mib : Store) (oid : Oid) : Varbind :=
  MkVarbind oid (match store_get mib oid with Some v => VValue v | None => NoSuchObject end).

(** Every answer fits in a response. *)
Definition answers_fit (mib : Store) (oids : list Oid) : Prop :=
  Forall (fun oid => oid_wf oid /\ len (varbind_octets (get_varbind mib oid)) + 200 <= PAYLOAD_MAX) oids.

Lemma response_authentic_opened `{CryptoOps} mid e user cn boots time p key priv raw resp env :
  opened mid e user cn boots time (Some (p, key)) priv raw resp env -> response_authentic p key resp = true.
Proof.
  intros [Hd _ _ _ _ _ _ _ (pre & post & Em & Eo & Hl & Hv) _]. unfold response_authentic. rewrite Hd, Eo.
  set (mac := uf_auth_params (env_usm env)) in *. assert (Hm : Z.to_nat (mac_len p) = length mac) by (unfold len in Hl; lia).
  rewrite Em. replace (Z.to_nat (len pre)) with (length pre) by (unfold len; lia).
  rewrite take_app_length, drop_app_add, drop_app_length. by rewrite <-Hm, Hv.
Qed.

Section Session.
  Context `{CryptoOps, !CryptoLaws, RasnBer, !RasnLaws} (seed token : Z).
  Context (chop : nat -> bytes -> list (bytes * Z)) (clock : nat -> Z) (name : bytes) (p : AuthProtocol).
  Hypothesis Hseed : is_u64 seed.
  Hypothesis Hchop : forall k f, concat (chop k f).*1 = f /\ Forall (fun '(b, _) => b <> []) (chop k f).

(** The pipeline's one answer to a frame is what the manager gets. *)
Lemma exchange_event el k frame resp ctx' salt' :
  conn_ready el token clock -> Forall is_u8 frame -> is_frame frame ->
  process_snmpv3_request seed (privacy_salt el) frame (context_at el (clock k)) (store el) = (Some resp, ctx', salt') ->
  exists el', exchange seed token chop clock k el frame = Some (resp, el') /\ conn_ready el' token clock /\
    loop_config el' = loop_config el /\ store el' = store el /\ inputs (context_at el' (clock k)) = inputs ctx'.
Proof.
  intros Hr Hu Hf E. destruct (frame_event seed token chop clock Hchop el k frame (Some resp) ctx' salt' Hr Hu Hf E)
    as (el' & Ev & Hrest). exists el'. split; [|exact Hrest]. unfold exchange. by rewrite Ev.
Qed.

Lemma discovery_step el :
  conn_ready el token clock ->
  exists frame report el', encode_discovery_probe = Some frame /\ exchange seed token chop clock 0 el frame = Some (report, el') /\
    read_discovery report = Some (engine_id_bytes (el_engine_id el), el_engine_boots el, engine_time_seconds el (clock 0%nat)) /\
    conn_ready el' token clock /\ loop_config el' = loop_config el /\ store el' = store el.
Proof.
  intros Hr. pose proof (cr_context _ _ _ Hr 0%nat) as Hctx.
  destruct (probe_answered seed (privacy_salt el) (store el) (context_at el (clock 0%nat)) Hctx) as
    (frame & report & ctx' & env & Ef & Hu & Hf & E & _ & [Hd _ _ _ He Hb Ht _ _ _]).
  { intros c. pose proof (lo_counters _ (cr_loop _ _ _ Hr) c) as Hc. by destruct c. }
  destruct (exchange_event el 0 frame report ctx' _ Hr Hu Hf E) as (el' & Ex & Hr' & Hcfg & Hst & _).
  exists frame, report, el'. split_and!; [exact Ef|exact Ex| |exact Hr'|exact Hcfg|exact Hst].
  unfold read_discovery. by rewrite Hd, He, Hb, Ht.
Qed.

Lemma session_ready_config el el' key :
  loop_config el' = loop_config el -> conn_ready el' token clock -> session_ready el token clock name p key ->
  session_ready el' token clock name p key.
Proof.
  intros Hcfg Hr [_ Hu Hn Hl He]. unfold loop_config in Hcfg. injection Hcfg as C1 _ _ C4 C5.
  split; [exact Hr|by rewrite C4|exact Hn|by rewrite C5|by rewrite C1].
Qed.

Lemma get_varbind_wf mib oid : store_wf mib -> oid_wf oid -> varbind_wf (get_varbind mib oid).
Proof.
  intros Hs Ho. split; [exact Ho|]. cbn. destruct (store_get mib oid) as [v|] eqn:E; [|done].
  by apply (store_get_wf mib oid v Hs E).
Qed.

(** The time the manager learnt, against the engine's at the [k]-th request. *)
Definition in_window (el : EventLoop) (time : Z) (k : nat) : Prop :=
  0 <= time <= I32_MAX /\ Z.abs (time - engine_time_seconds el (clock k)) <= 150.

Lemma signed_step el key time k oid :
  session_ready el token clock name p key -> 0 <= Z.of_nat k <= I32_MAX -> oid_wf oid ->
  len (varbind_octets (get_varbind (store el) oid)) + 200 <= PAYLOAD_MAX -> in_window el time k ->
  exists frame resp el',
    authenticated_frame (engine_id_bytes (el_engine_id el)) name (Z.of_nat k) (Z.of_nat k) (as_slice oid) 0x05 p key
      (el_engine_boots el) time = Some frame /\
    exchange seed token chop clock k el frame = Some (resp, el') /\ response_authentic p key resp = true /\
    read_answer (Z.of_nat k) resp = Some (get_varbind (store el) oid) /\
    session_ready el' token clock name p key /\ loop_config el' = loop_config el /\ store el' = store el.
Proof.
  intros Hs Hk Ho Hfit Hw. pose proof Hs as [Hr Hu Hn Hlev He]. pose proof (cr_loop _ _ _ Hr) as Hok.
  assert (Hi : is_i32 (Z.of_nat k)) by (unfold I32_MAX in Hk; zrange).
  pose proof (answer_len (Z.of_nat k) (get_varbind (store el) oid) Hi Hfit) as Hsize.
  pose proof (get_varbind_wf (store el) oid (lo_store _ Hok) Ho) as Hvb.
  destruct (signed_request_answered seed (privacy_salt el) (store el) (context_at el (clock k))
    (MkUsmUser (MkUserName name) (Some (MkAuthCredentials p key)) None) p key (Z.of_nat k) (Z.of_nat k) oid time
    Hseed (lo_salt _ Hok) (cr_context _ _ _ Hr k) (lo_store _ Hok)) as (frame & resp & salt' & env & Ef & Hfu & Hff & E & _ & Hop);
    [by split|done|done|done|exact Hsize|].
  destruct (exchange_event el k frame resp _ salt' Hr Hfu Hff E) as (el' & Ex & Hr' & Hcfg & Hst & _).
  exists frame, resp, el'. split_and!; [exact Ef|exact Ex|by eapply response_authentic_opened| | |exact Hcfg|exact Hst].
  - eapply read_answer_opened; [exact Hi|exact Hvb|unfold PAYLOAD_MAX, ISIZE_MAX in *; lia|exact Hop].
  - by apply (session_ready_config el).
Qed.

Lemma read_oids_answers key time oids : forall k el,
  session_ready el token clock name p key -> answers_fit (store el) oids -> Z.of_nat (k + length oids) <= I32_MAX ->
  (forall j, in_window el time j) ->
  exists el', read_oids seed token chop clock name p (engine_id_bytes (el_engine_id el)) (el_engine_boots el) time key k el oids =
      Some (get_varbind (store el) <$> oids, el') /\
    session_ready el' token clock name p key /\ store el' = store el.
Proof.
  induction oids as [|oid oids IH]; intros k el Hs Hfit Hk Hw; cbn [read_oids]; [by exists el|].
  inversion Hfit as [|? ? [Ho Hf] Hfit']; subst. cbn [length] in Hk.
  destruct (signed_step el key time k oid Hs ltac:(lia) Ho Hf (Hw k)) as (frame & resp & el' & -> & Ex & Ha & Er & Hs' & Hcfg & Hst).
  cbn [mbind option_bind]. rewrite Ex. cbn [mbind option_bind]. rewrite Ha, Er. cbn [mbind option_bind].
  unfold loop_config in Hcfg. injection Hcfg as C1 C2 C3 _ _.
  destruct (IH (S k) el' Hs') as (el2 & E2 & Hs2 & Hst2).
  - by rewrite Hst.
  - lia.
  - intros j. specialize (Hw j). unfold in_window, engine_time_seconds in *. by rewrite C3.
  - rewrite C1, C2 in E2. rewrite E2. cbn [mbind option_bind]. exists el2. rewrite Hst. split_and!; [done|exact Hs2|by rewrite Hst2].
Qed.

(** Requests within 150 seconds of the discovery are within the window. *)
Lemma discovered_time_in_window el j :
  conn_ready el token clock -> clock 0%nat <= clock j <= clock 0%nat + 150000 ->
  in_window el (engine_time_seconds el (clock 0%nat)) j.
Proof.
  intros Hr Hc. split; [exact (cw_time _ (cr_context _ _ _ Hr 0%nat))|]. unfold engine_time_seconds.
  set (a := Z.max 0 (clock 0%nat - engine_start el)). set (b := Z.max 0 (clock j - engine_start el)).
  assert (Hab : a <= b <= a + 150000) by lia.
  pose proof (Z.div_le_mono a b 1000 ltac:(lia) ltac:(lia)). pose proof (Z.div_le_mono b (a + 150 * 1000) 1000 ltac:(lia) ltac:(lia)) as Hd.
  rewrite Z.div_add in Hd by lia. lia.
Qed.

(** A Report, or anything else without a MAC, does not pass for a response. *)
Lemma report_not_authentic mid e user cn boots time priv raw resp env key :
  opened mid e user cn boots time None priv raw resp env -> response_authentic p key resp = false.
Proof. intros [Hd _ _ _ _ _ _ _ [_ Ho] _]. unfold response_authentic. by rewrite Hd, Ho. Qed.

(** A request signed with a key that gives it another MAC than the user's key is counted as
    a wrong digest and answered by a Report. *)
Lemma forged_step el key key' time k oid :
  session_ready el token clock name p key -> key_size key' = auth_key_len p -> 0 <= Z.of_nat k <= I32_MAX -> oid_wf oid ->
  0 <= time <= I32_MAX ->
  (let unsigned := frame_octets (unsigned_get (engine_id_bytes (el_engine_id el)) name (Z.of_nat k) (Z.of_nat k) oid p (el_engine_boots el) time) in
   compute_mac p key' unsigned <> compute_mac p key unsigned) ->
  exists frame resp el' ctx',
    authenticated_frame (engine_id_bytes (el_engine_id el)) name (Z.of_nat k) (Z.of_nat k) (as_slice oid) 0x05 p key'
      (el_engine_boots el) time = Some frame /\
    exchange seed token chop clock k el frame = Some (resp, el') /\ response_authentic p key' resp = false /\
    counted WrongDigests (context_at el (clock k)) ctx' /\ inputs (context_at el' (clock k)) = inputs ctx' /\ store el' = store el.
Proof.
  intros [Hr Hu [Hnu Hnl] Hlev He] Hks Hk Ho Ht Hmac. pose proof (cr_loop _ _ _ Hr) as Hok.
  assert (Hi : is_i32 (Z.of_nat k)) by (unfold I32_MAX in Hk; zrange). pose proof (cr_context _ _ _ Hr k) as Hctx.
  pose proof Hctx as [Heu Hel Hb _ _]. cbn in Heu, Hel, Hb.
  destruct (authenticated_frame_ok (engine_id_bytes (el_engine_id el)) name (Z.of_nat k) (Z.of_nat k) oid p key' (el_engine_boots el) time
    ltac:(by apply Forall_app) Hel Hnl Hks Hk Hi Ho Hb Ht) as (mac & Em & Ef & Hw & Hf & Hv).
  set (r := signed_with mac _) in *.
  destruct (frame_reported seed (privacy_salt el) r (store el) (context_at el (clock k)) WrongDigests Hw Hctx) as (resp & ctx' & env & E & Hc & Hop).
  - intros c. pose proof (lo_counters _ Hok c) as Hc. by destruct c.
  - done.
  - apply refused_mac; [done|unfold user_ok; cbn; by rewrite Hu| |done|].
    + exists AuthNoPriv. split; [done|]. cbn. rewrite Hu. by destruct (el_minimum_security_level el).
    + unfold mac_ok. cbn. rewrite Hu. cbn. rewrite (Hv key). intros Ek. apply Hmac. cbn zeta. by rewrite Em, Ek.
  - destruct (exchange_event el k _ resp ctx' _ Hr (frame_u8 r Hw) Hf E) as (el' & Ex & _ & _ & Hst & Hin).
    exists (frame_octets r), resp, el', ctx'. split_and!; [exact Ef|exact Ex|by eapply report_not_authentic|exact Hc|exact Hin|exact Hst].
Qed.

(** What a session comes to once the password has been localised. *)
Lemma password_session_key password el key oids :
  conn_ready el token clock -> password_to_localised_key password (engine_id_bytes (el_engine_id el)) p = Some (Ok key) ->
  exists el1, conn_ready el1 token clock /\ loop_config el1 = loop_config el /\ store el1 = store el /\
    password_session seed token chop clock name p password el oids =
      read_oids seed token chop clock name p (engine_id_bytes (el_engine_id el1)) (el_engine_boots el1)
        (engine_time_seconds el1 (clock 0%nat)) key 1 el1 oids.
Proof.
  intros Hr Hkey. destruct (discovery_step el Hr) as (frame & report & el1 & Ep & Ex & Ed & Hr1 & Hcfg & Hst).
  exists el1. split_and!; [exact Hr1|exact Hcfg|exact Hst|]. unfold loop_config in Hcfg. injection Hcfg as C1 C2 C3 _ _.
  unfold password_session, engine_time_seconds. rewrite Ep. cbn [mbind option_bind]. rewrite Ex. cbn [mbind option_bind]. rewrite Ed.
  cbn [mbind option_bind]. by rewrite Hkey, C1, C2, C3.
Qed.

Lemma localised_key_size password engine key : password_to_localised_key password engine p = Some (Ok key) -> key_size key = auth_key_len p.
Proof.
  rewrite password_to_localised_key_value. destruct (is_nil password); [done|]. destruct (len password <? 8); [done|].
  intros [= <-]. unfold key_size. apply digest_len.
Qed.

(** Claim C8: a manager that knows only the user's name and password reads the MIB, and one
    with another password reads nothing.  Take any event loop in its invariant with an idle
    connection and a user without a privacy key, whose authentication key is localised from
    a password for this engine.  A manager that sends the library's discovery probe, takes
    the engine's identifier, boots and time from the Report, localises the key from the
    password it has and sends a signed GET per OID, each cut into chunks in any way, within
    150 seconds of the discovery, gets, if its key is the user's, for every OID a response
    whose MAC verifies, with the stored value or noSuchObject, in order; the MIB is unchanged
    and the connection is idle again.  If its key gives the first request another MAC
    than the user's key does, it gets a Report without a MAC, and no value. *)
Theorem password_session_outcome (password : bytes) (el : EventLoop) (key key' : SecretKey) (oids : list Oid) :
  session_ready el token clock name p key ->
  password_to_localised_key password (engine_id_bytes (el_engine_id el)) p = Some (Ok key') ->
  (forall j, clock 0%nat <= clock j <= clock 0%nat + 150000) -> answers_fit (store el) oids ->
  Z.of_nat (1 + length oids) <= I32_MAX ->
  (key' = key ->
   exists el', password_session seed token chop clock name p password el oids = Some (get_varbind (store el) <$> oids, el') /\
     session_ready el' token clock name p key /\ store el' = store el) /\
  (forall oid rest, oids = oid :: rest ->
   (let unsigned := frame_octets (unsigned_get (engine_id_bytes (el_engine_id el)) name 1 1 oid p (el_engine_boots el)
      (engine_time_seconds el (clock 0%nat))) in
    compute_mac p key' unsigned <> compute_mac p key unsigned) ->
   password_session seed token chop clock name p password el oids = None).
Proof.
  intros Hs Hkey Hclock Hfit Hlen. pose proof (sr_ready _ _ _ _ _ _ Hs) as Hr.
  destruct (password_session_key password el key' oids Hr Hkey) as (el1 & Hr1 & Hcfg & Hst & ->).
  pose proof (session_ready_config el el1 key Hcfg Hr1 Hs) as Hs1. split.
  - intros ->. rewrite <-Hst in Hfit |- *. apply (read_oids_answers key _ oids 1 el1 Hs1 Hfit Hlen).
    intros j. by apply discovered_time_in_window.
  - intros oid rest -> Hmac. inversion Hfit as [|? ? [Ho _] _]; subst. unfold loop_config in Hcfg. injection Hcfg as C1 C2 C3 _ _.
    unfold engine_time_seconds in Hmac. rewrite <-C1, <-C2, <-C3 in Hmac.
    destruct (forged_step el1 key key' (engine_time_seconds el1 (clock 0%nat)) 1 oid Hs1 (localised_key_size _ _ _ Hkey)
      ltac:(unfold I32_MAX; lia) Ho (cw_time _ (cr_context _ _ _ Hr1 0%nat)) Hmac) as (frame & resp & el2 & ctx' & Ef & Ex & Ha & _).
    cbn [read_oids]. rewrite Ef. cbn [mbind option_bind]. rewrite Ex. cbn [mbind option_bind]. by rewrite Ha.
Qed.

End Session.

(** ** The authenticated agent of the system tests *)

Definition auth_engine : bytes := ENGINE_ID_PREFIX ++ str "test-agent-auth".

Definition auth_user (key : SecretKey) : UsmUser :=
  MkUsmUser (MkUserName (str "authuser")) (Some (MkAuthCredentials HmacSha256 key)) None.

Section AuthAgent.
  Context `{CryptoOps, !CryptoLaws} (seed at_ : Z) (clock : nat -> Z) (env : BuildOutcome).

(** [test-agent-mib-auth] started, its first wake-up handled and a manager connected. *)
Definition auth_agent_connected (key : SecretKey) : EventLoop :=
  agent_connected seed at_ (str "test-agent-mib-auth") (agent_el env auth_engine (Some (auth_user key)) AuthNoPriv).

Lemma auth_agent_started parse_level rust_log debug_str : build_succeeds env ->
  exists key s line, password_to_localised_key (str "authpassword") auth_engine HmacSha256 = Some (Ok key) /\
    mib_agent_auth parse_level rust_log debug_str env = Ok (s, line) /\
    sys_loop s = Some (agent_el env auth_engine (Some (auth_user key)) AuthNoPriv) /\
    sys_queue s = table_commands (str "test-agent-mib-auth").
Proof.
  destruct env as [st u sp now]. intros ([addr Hs] & Hu & Hsp). cbn in Hs, Hu, Hsp. subst st u sp.
  unfold mib_agent_auth. rewrite with_logging_runs. fold auth_engine.
  destruct (agent_key_ok auth_engine) as (key & Ek & -> & Hk). exists key.
  unfold auth_no_priv_new, validate_auth_key_length. rewrite Hk, Z.eqb_refl.
  eexists _, _. split; [exact Ek|]. split; [vm_compute; reflexivity|]. split; vm_compute; reflexivity.
Qed.

Lemma auth_agent_ready key : key_size key = auth_key_len HmacSha256 ->
  build_succeeds env -> (forall k, clock k - build_now env < 1000 * I32_MAX) ->
  session_ready (auth_agent_connected key) FIRST_CONN_TOKEN clock (str "authuser") HmacSha256 key /\
  entries (store (auth_agent_connected key)) = test_mib (str "test-agent-mib-auth") /\
  el_engine_id (auth_agent_connected key) = MkEngineId auth_engine.
Proof.
  intros Hk Henv Hclock.
  destruct (agent_connected_ready seed at_ clock env auth_engine (Some (auth_user key)) AuthNoPriv (str "test-agent-mib-auth") Henv eq_refl)
    as (Hr & He & Hcfg);
    [by split|refine (bool_decide_unpack _ _); by vm_compute|by vm_compute|refine (bool_decide_unpack _ _); by vm_compute|done|].
  unfold loop_config in Hcfg. injection Hcfg as C1 _ _ C4 C5. unfold auth_agent_connected.
  split_and!; [|exact He|exact C1]. split; [exact Hr|exact C4| |by rewrite C5|by rewrite C1].
  split; [refine (bool_decide_unpack _ _); by vm_compute|by vm_compute].
Qed.

Lemma auth_table_fits : answers_fit (MkStore (test_mib (str "test-agent-mib-auth"))) (test_mib (str "test-agent-mib-auth")).*1.
Proof.
  apply Forall_and. split; [repeat constructor; try zrange; reflexivity|]. refine (bool_decide_unpack _ _). by vm_compute.
Qed.

(** The manager of the system tests, by name and password, reads the whole table of the
    authenticated agent, whatever the network does to its requests. *)
Theorem auth_agent_session `{RasnBer, !RasnLaws} (chop : nat -> bytes -> list (bytes * Z)) (parse_level : bytes -> option Z)
    (rust_log : option bytes) (debug_str : bytes -> bytes) :
  is_u64 seed -> (forall k f, concat (chop k f).*1 = f /\ Forall (fun '(b, _) => b <> []) (chop k f)) ->
  build_succeeds env -> (forall k, clock k - build_now env < 1000 * I32_MAX) ->
  (forall j, clock 0%nat <= clock j <= clock 0%nat + 150000) ->
  exists key s line el', mib_agent_auth parse_level rust_log debug_str env = Ok (s, line) /\
    sys_loop s = Some (agent_el env auth_engine (Some (auth_user key)) AuthNoPriv) /\
    sys_queue s = table_commands (str "test-agent-mib-auth") /\
    password_session seed FIRST_CONN_TOKEN chop clock (str "authuser") HmacSha256 (str "authpassword") (auth_agent_connected key)
      (test_mib (str "test-agent-mib-auth")).*1 =
      Some ((fun '(o, v) => MkVarbind o (VValue v)) <$> test_mib (str "test-agent-mib-auth"), el').
Proof.
  intros Hseed Hchop Henv Hclock Hwin. destruct (auth_agent_started parse_level rust_log debug_str Henv) as (key & s & line & Hkey & Es & El & Eq).
  destruct (auth_agent_ready key (localised_key_size _ _ _ _ Hkey) Henv Hclock) as (Hs & He & Eid). exists key, s, line.
  assert (Est : store (auth_agent_connected key) = MkStore (test_mib (str "test-agent-mib-auth"))).
  { destruct (store (auth_agent_connected key)). cbn in He. by subst. }
  destruct (password_session_key seed FIRST_CONN_TOKEN chop clock (str "authuser") HmacSha256 Hchop (str "authpassword") (auth_agent_connected key) key
    (test_mib (str "test-agent-mib-auth")).*1 (sr_ready _ _ _ _ _ _ Hs) ltac:(rewrite Eid; exact Hkey)) as (el1 & Hr1 & Hcfg & Hst & E).
  destruct (read_oids_answers seed FIRST_CONN_TOKEN chop clock (str "authuser") HmacSha256 Hseed Hchop key (engine_time_seconds el1 (clock 0%nat))
    (test_mib (str "test-agent-mib-auth")).*1 1 el1 (session_ready_config _ _ _ _ _ _ _ Hcfg Hr1 Hs)) as (el2 & E2 & _).
  - rewrite Hst, Est. apply auth_table_fits.
  - by vm_compute.
  - intros j. apply (discovered_time_in_window FIRST_CONN_TOKEN); [exact Hr1|apply Hwin].
  - exists el2. split_and!; [exact Es|exact El|exact Eq|]. rewrite E, E2, Hst, Est. do 2 f_equal.
Qed.

End AuthAgent.

(** Keys that differ can give a request different MACs. *)
Example forged_mac_differs :
  let unsigned := frame_octets (unsigned_get auth_engine (str "authuser") 1 1 SENTINEL HmacSha256 1 5) in
  @compute_mac ToyCrypto.ops HmacSha256 (zeroed 32) unsigned <> @compute_mac ToyCrypto.ops HmacSha256 (MkSecretKey (replicate 31 0 ++ [1])) unsigned.
Proof. by vm_compute. Qed.

Lemma password_session_outcome_witness :
  exists key el',
    @password_session ToyCrypto.ops RefRasn.ops 5 FIRST_CONN_TOKEN two_chunks (fun _ => 5000) (str "authuser") HmacSha256 (str "authpassword")
      (@auth_agent_connected ToyCrypto.ops 5 0 granted key) (test_mib (str "test-agent-mib-auth")).*1 =
    Some (get_varbind (store (@auth_agent_connected ToyCrypto.ops 5 0 granted key)) <$> (test_mib (str "test-agent-mib-auth")).*1, el').
Proof.
  destruct (@agent_key_ok ToyCrypto.ops ToyCrypto.laws auth_engine) as (key & Hkey & _ & Hk). exists key.
  destruct (@auth_agent_ready ToyCrypto.ops 5 0 (fun _ => 5000) granted key Hk ltac:(split; [by eexists|split; reflexivity])
    ltac:(intros k; reflexivity)) as (Hs & He & Eid).
  destruct (@password_session_outcome ToyCrypto.ops ToyCrypto.laws RefRasn.ops RefRasn.laws 5 FIRST_CONN_TOKEN two_chunks
    (fun _ => 5000) (str "authuser") HmacSha256 ltac:(zrange) two_chunks_ok (str "authpassword")
    (@auth_agent_connected ToyCrypto.ops 5 0 granted key) key key (test_mib (str "test-agent-mib-auth")).*1 Hs) as [Hread _].
  - rewrite Eid. exact Hkey.
  - intros _. lia.
  - replace (store (@auth_agent_connected ToyCrypto.ops 5 0 granted key)) with (MkStore (test_mib (str "test-agent-mib-auth")));
      [exact auth_table_fits|]. destruct (store (@auth_agent_connected ToyCrypto.ops 5 0 granted key)). cbn in He. by subst.
  - vm_compute. discriminate.
  - destruct (Hread eq_refl) as (el' & E & _). exists el'. exact E.
Defined.
