(* ===== verification/Corpus.v ===== *)
(** * Filling the corpora: [src/fuzz/generate_seeds.rs]

    [cross_pollinate] and [main] of the program that fills the fuzzers' corpus
    directories.  A directory is a finite map from file names (UTF-8, on which
    [to_string_lossy] is the identity) to files and other nodes; what the operating system
    answers, and in which order it lists a directory, is an argument.  [arbitrary], which
    turns octets into structured inputs, is a third-party crate and a parameter. *)

From stdpp Require Import gmap.
From S2P Require Import Prelude Oid Usm Types Codec Mib Dispatch Framing Frames Seeds.

(** ** Directories *)

Inductive Node := File (content : bytes) | NotFile.
Notation Dir := (gmap bytes Node).

(** The answers of the operating system: the entries [read_dir] yields ([None] for an
    entry that cannot be read), and whether the other calls succeed. *)
Record FsAnswers := MkFsAnswers {
  read_dir : Dir -> option (list (option bytes));
  create_dir_ok : bool;
  remove_ok : bytes -> bool;
  file_type_ok : bytes -> bool;
  read_ok : bytes -> bool;
  write_ok : bytes -> bool;
}.

Definition is_file (d : Dir) (name : bytes) : bool := match d !! name with Some (File _) => true | _ => false end.

(** [fs::write]: creates or replaces a file; [None] is the panic of the caller. *)
Definition write_file (ans : FsAnswers) (name content : bytes) (d : Dir) : option Dir :=
  match d !! name with
  | Some NotFile => None
  | _ => if write_ok ans name then Some (<[name := File content]> d) else None
  end.

Definition CROSS_POLLINATED_PREFIX : bytes := str "structured_".

Definition starts_with (prefix s : bytes) : bool := bytes_eqb (take (length prefix) s) prefix.

(** ** [cross_pollinate] *)

(** The removal of stale seeds; an error is logged and the entry skipped. *)
Fixpoint remove_stale (ans : FsAnswers) (listing : list (option bytes)) (d : Dir) : Dir :=
  match listing with
  | [] => d
  | None :: rest => remove_stale ans rest d
  | Some name :: rest =>
      remove_stale ans rest
        (if starts_with CROSS_POLLINATED_PREFIX name && is_file d name && remove_ok ans name then delete name d else d)
  end.

(** The loop over the structured entries; [None] is the panic when a seed cannot be written. *)
Fixpoint convert_entries {E : Type} (ans : FsAnswers) (decode_and_encode : bytes -> result bytes E) (structured : Dir)
    (listing : list (option bytes)) (d : Dir) (converted total : nat) : option (Dir * nat * nat) :=
  match listing with
  | [] => Some (d, converted, total)
  | None :: rest => convert_entries ans decode_and_encode structured rest d converted total
  | Some name :: rest =>
      match (if file_type_ok ans name then structured !! name else None) with
      | Some (File entry_bytes) =>
          if negb (read_ok ans name) then convert_entries ans decode_and_encode structured rest d converted (S total)
          else
            match decode_and_encode entry_bytes with
            | Err _ => convert_entries ans decode_and_encode structured rest d converted (S total)
            | Ok ber_encoded =>
                d ← write_file ans (CROSS_POLLINATED_PREFIX ++ name) ber_encoded d;
                convert_entries ans decode_and_encode structured rest d (S converted) (S total)
            end
      | _ => convert_entries ans decode_and_encode structured rest d converted total
      end
  end.

(** The unstructured directory afterwards, with the counts it prints (none when the
    structured directory cannot be read and nothing is done). *)
Definition cross_pollinate {E : Type} (ans : FsAnswers) (structured unstructured : Dir) (decode_and_encode : bytes -> result bytes E)
    : option (Dir * option (nat * nat)) :=
  match read_dir ans structured with
  | None => Some (unstructured, None)
  | Some entries =>
      existing_entries ← read_dir ans unstructured;
      let d := remove_stale ans existing_entries unstructured in
      '(d, converted, total) ← convert_entries ans decode_and_encode structured entries d 0 0;
      Some (d, Some (converted, total))
  end.

(** ** [main] *)

Record Corpora := MkCorpora {
  snmpv3_request_corpus : Dir; tcp_framing_corpus : Dir; auth_corpus : Dir; structured_corpus : Dir; auth_structured_corpus : Dir }.

(** The files of one category, written one after the other. *)
Fixpoint write_files (ans : FsAnswers) (files : list (bytes * bytes)) (d : Dir) : option Dir :=
  match files with
  | [] => Some d
  | (name, content) :: rest => d ← write_file ans name content d; write_files ans rest d
  end.

Section Main.
  Context `{CryptoOps, RasnBer} (seed : Z).
  (** [Unstructured::new(bytes).arbitrary()] *)
  Context (arbitrary_snmpv3 : bytes -> option FuzzSnmpv3) (arbitrary_snmpv3_auth : bytes -> option FuzzSnmpv3Auth).

Inductive ConvertError := FailedToDeserialise | FailedToEncode.

Definition decode_and_encode (entry_bytes : bytes) : result bytes ConvertError :=
  let? value := ok_or (arbitrary_snmpv3 entry_bytes) FailedToDeserialise in ok_or (fuzz_encode value) FailedToEncode.
Definition decode_and_encode_auth (entry_bytes : bytes) : result bytes ConvertError :=
  let? value := ok_or (arbitrary_snmpv3_auth entry_bytes) FailedToDeserialise in ok_or (fuzz_auth_encode value) FailedToEncode.

(** Each directory is created before it is filled; [None] is a panic. *)
Definition generate_seeds_main (ans : FsAnswers) (salt : SaltState) (c : Corpora) : option Corpora :=
  if negb (create_dir_ok ans) then None
  else
    '(files, salt) ← write_snmpv3_request_seeds seed (write_ok ans) salt;
    request ← write_files ans files (snmpv3_request_corpus c);
    tcp ← write_files ans tcp_framing_seeds (tcp_framing_corpus c);
    '(files, _) ← write_auth_seeds seed (write_ok ans) salt;
    auth ← write_files ans files (auth_corpus c);
    structured ← write_files ans structured_seeds (structured_corpus c);
    auth_structured ← write_files ans structured_seeds (auth_structured_corpus c);
    '(request, _) ← cross_pollinate ans structured request decode_and_encode;
    '(auth, _) ← cross_pollinate ans auth_structured auth decode_and_encode_auth;
    Some {| snmpv3_request_corpus := request; tcp_framing_corpus := tcp; auth_corpus := auth;
            structured_corpus := structured; auth_structured_corpus := auth_structured |}.

End Main.

(** ** What cross-pollination leaves *)

(** The operating system grants every call, and lists every entry once. *)
Record granted_fs (ans : FsAnswers) : Prop := {
  gf_list : forall d, exists l, read_dir ans d = Some (Some <$> l) /\ NoDup l /\ forall name, name ∈ l <-> is_Some (d !! name);
  gf_create : create_dir_ok ans = true;
  gf_remove : forall n, remove_ok ans n = true;
  gf_type : forall n, file_type_ok ans n = true;
  gf_read : forall n, read_ok ans n = true;
  gf_write : forall n, write_ok ans n = true;
}.

(** The seed that the entry [orig] of the structured directory becomes. *)
Definition converted_seed {E : Type} (conv : bytes -> result bytes E) (structured : Dir) (orig : bytes) : option Node :=
  match structured !! orig with
  | Some (File b) => match conv b with Ok ber => Some (File ber) | Err _ => None end
  | _ => None
  end.

(** The specification: seeds with the prefix are exactly the converted entries, the
    other files are as they were. *)
Definition mirrors {E : Type} (conv : bytes -> result bytes E) (structured before after : Dir) : Prop :=
  (forall orig, after !! (CROSS_POLLINATED_PREFIX ++ orig) = converted_seed conv structured orig) /\
  (forall name, starts_with CROSS_POLLINATED_PREFIX name = false -> after !! name = before !! name).

Lemma starts_with_app p s : starts_with p (p ++ s) = true.
Proof. unfold starts_with, bytes_eqb. rewrite take_app_length. by apply bool_decide_eq_true_2. Qed.

Lemma starts_with_inv p s : starts_with p s = true -> exists r, s = p ++ r.
Proof.
  unfold starts_with, bytes_eqb. intros Hp%bool_decide_eq_true. exists (drop (length p) s). rewrite <-Hp at 1. by rewrite take_drop.
Qed.

Lemma remove_stale_lookup ans l : forall d n, granted_fs ans ->
  remove_stale ans (Some <$> l) d !! n =
    if bool_decide (n ∈ l) && starts_with CROSS_POLLINATED_PREFIX n && is_file d n then None else d !! n.
Proof.
  induction l as [|name l IH]; intros d n Hg; [done|]. cbn [fmap list_fmap remove_stale].
  rewrite IH, (gf_remove _ Hg), andb_true_r by done.
  destruct (decide (n = name)) as [->|Hne].
  - rewrite (bool_decide_eq_true_2 (name ∈ name :: l)) by left.
    unfold is_file. destruct (starts_with CROSS_POLLINATED_PREFIX name) eqn:Ep; cbn [andb]; rewrite ?andb_false_r; [|done].
    destruct (d !! name) as [[b|]|] eqn:Ed; cbn [andb]; rewrite ?lookup_delete_eq, ?Ed, ?andb_false_r; done.
  - rewrite (bool_decide_ext (n ∈ name :: l) (n ∈ l)) by (rewrite elem_of_cons; naive_solver).
    destruct (starts_with _ name && is_file d name); [|done]. unfold is_file. by rewrite lookup_delete_ne.
Qed.

Lemma convert_entries_lookup {E : Type} ans (conv : bytes -> result bytes E) structured l : forall d c t,
  granted_fs ans -> NoDup l -> (forall orig, d !! (CROSS_POLLINATED_PREFIX ++ orig) <> Some NotFile) ->
  exists d' c' t', convert_entries ans conv structured (Some <$> l) d c t = Some (d', c', t') /\ (c <= t -> c' <= t')%nat /\
    forall n, d' !! n = match filter (fun o => n = CROSS_POLLINATED_PREFIX ++ o /\ is_Some (converted_seed conv structured o)) l with
                        | o :: _ => converted_seed conv structured o | [] => d !! n end.
Proof.
  induction l as [|name l IH]; intros d c t Hg Hnd Hd; [by exists d, c, t|].
  apply NoDup_cons in Hnd as [Hni Hnd]. cbn [fmap list_fmap convert_entries]. rewrite (gf_type _ Hg).
  assert (Hskip : forall c1 t1, converted_seed conv structured name = None -> (c <= t -> c1 <= t1)%nat ->
    exists d' c' t', convert_entries ans conv structured (Some <$> l) d c1 t1 = Some (d', c', t') /\ (c <= t -> c' <= t')%nat /\
    forall n, d' !! n = match filter (fun o => n = CROSS_POLLINATED_PREFIX ++ o /\ is_Some (converted_seed conv structured o)) (name :: l) with
                        | o :: _ => converted_seed conv structured o | [] => d !! n end).
  { intros c1 t1 Hs Hct. destruct (IH d c1 t1 Hg Hnd Hd) as (d' & c' & t' & E1 & Hc & Hl). exists d', c', t'.
    split_and!; [done|auto|]. intros n. rewrite filter_cons_False; [done|]. rewrite Hs. by intros [_ []]. }
  unfold converted_seed in Hskip at 1. destruct (structured !! name) as [[b|]|] eqn:Es; [|by apply Hskip..].
  rewrite (gf_read _ Hg). cbn [negb]. destruct (conv b) as [ber|e] eqn:Ec; [|apply Hskip; [done|lia]].
  unfold write_file. rewrite (gf_write _ Hg).
  assert (Hs : converted_seed conv structured name = Some (File ber)) by (unfold converted_seed; by rewrite Es, Ec).
  set (d1 := <[CROSS_POLLINATED_PREFIX ++ name := File ber]> d).
  assert (Hm : match d !! (CROSS_POLLINATED_PREFIX ++ name) with Some NotFile => None | _ => Some d1 end = Some d1).
  { specialize (Hd name). by destruct (d !! _) as [[]|]. }
  rewrite Hm. cbn [mbind option_bind].
  destruct (IH d1 (S c) (S t) Hg Hnd) as (d' & c' & t' & E1 & Hc & Hl).
  { intros orig. unfold d1. destruct (decide (orig = name)) as [->|Hne]; [by rewrite lookup_insert_eq|].
    rewrite lookup_insert_ne; [done|]. intros ?%app_inv_head. done. }
  exists d', c', t'. split_and!; [done|lia|]. intros n. rewrite Hl. destruct (decide (n = CROSS_POLLINATED_PREFIX ++ name)) as [->|Hne].
  - rewrite filter_cons_True by (rewrite Hs; eauto). rewrite Hs.
    destruct (filter _ l) as [|o rest] eqn:Ef; [by apply lookup_insert_eq|].
    assert (Hin : o ∈ filter (fun o => CROSS_POLLINATED_PREFIX ++ name = CROSS_POLLINATED_PREFIX ++ o /\ is_Some (converted_seed conv structured o)) l)
      by (rewrite Ef; left).
    apply list_elem_of_filter in Hin as [[Ho%app_inv_head _] Hin]. by subst o.
  - rewrite filter_cons_False by naive_solver. destruct (filter _ l); [|done]. unfold d1. by rewrite lookup_insert_ne.
Qed.

Lemma cross_pollinate_spec {E : Type} ans (conv : bytes -> result bytes E) structured d :
  granted_fs ans -> (forall orig, d !! (CROSS_POLLINATED_PREFIX ++ orig) <> Some NotFile) ->
  exists after c t, cross_pollinate ans structured d conv = Some (after, Some (c, t)) /\ (c <= t)%nat /\ mirrors conv structured d after.
Proof.
  intros Hg Hd. unfold cross_pollinate.
  destruct (gf_list _ Hg structured) as (ls & -> & Hnd & Hls). destruct (gf_list _ Hg d) as (ld & -> & _ & Hld). cbn [mbind option_bind].
  set (d1 := remove_stale ans (Some <$> ld) d).
  assert (Hclean : forall orig, d1 !! (CROSS_POLLINATED_PREFIX ++ orig) = None).
  { intros orig. unfold d1. rewrite remove_stale_lookup, starts_with_app, andb_true_r by done. specialize (Hd orig). unfold is_file.
    destruct (d !! _) as [[b|]|] eqn:Ed; [|done|by rewrite andb_false_r].
    rewrite bool_decide_eq_true_2; [done|]. apply Hld. by eexists. }
  destruct (convert_entries_lookup ans conv structured ls d1 0 0 Hg Hnd) as (after & c & t & -> & Hc & Hl).
  { intros orig. by rewrite Hclean. }
  cbn [mbind option_bind]. exists after, c, t. split_and!; [done|lia|]. split.
  - intros orig. rewrite Hl. destruct (filter _ ls) as [|o rest] eqn:Ef.
    + rewrite Hclean. destruct (converted_seed conv structured orig) as [n|] eqn:Es; [|done].
      assert (Hin : orig ∈ filter (fun o => CROSS_POLLINATED_PREFIX ++ orig = CROSS_POLLINATED_PREFIX ++ o /\ is_Some (converted_seed conv structured o)) ls).
      { apply list_elem_of_filter. split; [split; [done|by eexists]|]. apply Hls. unfold converted_seed in Es. by destruct (structured !! orig). }
      rewrite Ef in Hin. by apply elem_of_nil in Hin.
    + assert (Hin : o ∈ filter (fun o => CROSS_POLLINATED_PREFIX ++ orig = CROSS_POLLINATED_PREFIX ++ o /\ is_Some (converted_seed conv structured o)) ls)
        by (rewrite Ef; left).
      apply list_elem_of_filter in Hin as [[Ho%app_inv_head _] _]. by subst o.
  - intros name Hp. rewrite Hl. destruct (filter _ ls) as [|o rest] eqn:Ef.
    + unfold d1. rewrite remove_stale_lookup by done. by rewrite Hp, andb_false_r.
    + exfalso. assert (Hin : o ∈ filter (fun o => name = CROSS_POLLINATED_PREFIX ++ o /\ is_Some (converted_seed conv structured o)) ls)
        by (rewrite Ef; left).
      apply list_elem_of_filter in Hin as [[-> _] _]. by rewrite starts_with_app in Hp.
Qed.

(** Cross-pollinating twice is cross-pollinating once: stale seeds are replaced, nothing
    accumulates. *)
Theorem cross_pollinate_idempotent {E : Type} (ans : FsAnswers) (conv : bytes -> result bytes E) (structured d : Dir) :
  granted_fs ans -> (forall orig, d !! (CROSS_POLLINATED_PREFIX ++ orig) <> Some NotFile) ->
  exists after counts counts', cross_pollinate ans structured d conv = Some (after, Some counts) /\
    cross_pollinate ans structured after conv = Some (after, Some counts').
Proof.
  intros Hg Hd. destruct (cross_pollinate_spec ans conv structured d Hg Hd) as (after & c & t & E1 & _ & [Hm1 Hm2]).
  destruct (cross_pollinate_spec ans conv structured after Hg) as (after' & c' & t' & E2 & _ & [Hm1' Hm2']).
  { intros orig. rewrite Hm1. unfold converted_seed. by repeat case_match. }
  assert (after' = after) as ->; [|by exists after, (c, t), (c', t')].
  apply map_eq. intros n. destruct (starts_with CROSS_POLLINATED_PREFIX n) eqn:Ep; [|by apply Hm2'].
  destruct (starts_with_inv _ _ Ep) as (r & ->). by rewrite Hm1', Hm1.
Qed.

(** ** What the generator leaves *)

Definition only_files (d : Dir) : Prop := forall n, d !! n <> Some NotFile.
Definition holds_files (files : list (bytes * bytes)) (d : Dir) : Prop := forall n c, (n, c) ∈ files -> d !! n = Some (File c).

Lemma write_files_ok ans files : forall d, granted_fs ans -> only_files d -> NoDup files.*1 ->
  exists d', write_files ans files d = Some d' /\ only_files d' /\ holds_files files d' /\
    forall n, n ∉ files.*1 -> d' !! n = d !! n.
Proof.
  induction files as [|[n c] files IH]; intros d Hg Hd Hnd; [exists d; split_and!; try done; by intros n c ?%elem_of_nil|].
  cbn in Hnd. apply NoDup_cons in Hnd as [Hni Hnd]. cbn [write_files]. unfold write_file. rewrite (gf_write _ Hg).
  assert (Hm : match d !! n with Some NotFile => None | _ => Some (<[n := File c]> d) end = Some (<[n := File c]> d)).
  { specialize (Hd n). by destruct (d !! n) as [[]|]. }
  rewrite Hm. cbn [mbind option_bind].
  destruct (IH (<[n := File c]> d) Hg) as (d' & -> & Ho & Hh & Hk); [|done|].
  { intros m. destruct (decide (m = n)) as [->|]; [by rewrite lookup_insert_eq|by rewrite lookup_insert_ne]. }
  exists d'. split_and!; [done|done| |].
  - intros m b [[= -> ->]|Hin]%elem_of_cons; [|by apply Hh]. rewrite (Hk n Hni). apply lookup_insert_eq.
  - intros m Hm'. cbn in Hm'. rewrite not_elem_of_cons in Hm'. rewrite (Hk m) by tauto. apply lookup_insert_ne. naive_solver.
Qed.

(** The names of the files written are those of the seeds. *)
Lemma write_seeds_names `{CryptoOps} seed wok seeds : forall salt user minimum files salt',
  write_seeds seed wok salt user minimum seeds = Some (files, salt') -> files.*1 = (fst ∘ fst) <$> seeds.
Proof.
  induction seeds as [|[[name frame] ex] seeds IH]; intros salt user minimum files salt' HE; cbn [write_seeds] in HE; [by simplify_eq|].
  destruct frame as [enc|]; [|done]. cbn [mbind option_bind] in HE.
  destruct (seed_response _ _ _ _ _) as [[b s1]|]; [|done]. cbn [mbind option_bind] in HE.
  destruct (ex && negb b); [done|]. destruct (wok name); [|done].
  destruct (write_seeds _ _ _ _ _ seeds) as [[w s2]|] eqn:E2; [|done]. cbn in HE. simplify_eq. cbn. f_equal. by eapply IH.
Qed.

Section Generator.
  Context `{CryptoOps, !CryptoLaws, RasnBer, !RasnLaws} (seed : Z).
  Context (arbitrary_snmpv3 : bytes -> option FuzzSnmpv3) (arbitrary_snmpv3_auth : bytes -> option FuzzSnmpv3Auth).

(** Claim C40: the seed generator completes and leaves the corpora it promises.  With any
    crypto, encoder and [arbitrary] implementation, if the operating system grants its
    calls and the corpus directories hold only files, [main] does not panic: every
    assertion that a seed is answered holds; the request, framing, authenticated and
    structured seeds are there; and in each unstructured directory the cross-pollinated
    seeds are exactly the entries of the structured directory that decode and encode,
    under the prefixed name: seeds of entries that are gone have been removed. *)
Theorem generator_fills_corpora (ans : FsAnswers) (salt : SaltState) (c : Corpora) :
  is_u64 seed -> salt_state_ok salt -> granted_fs ans ->
  only_files (snmpv3_request_corpus c) -> only_files (tcp_framing_corpus c) -> only_files (auth_corpus c) ->
  only_files (structured_corpus c) -> only_files (auth_structured_corpus c) ->
  exists c' files auth_files salt' salt'',
    generate_seeds_main seed arbitrary_snmpv3 arbitrary_snmpv3_auth ans salt c = Some c' /\
    write_snmpv3_request_seeds seed (write_ok ans) salt = Some (files, salt') /\ length files = 4%nat /\
    write_auth_seeds seed (write_ok ans) salt' = Some (auth_files, salt'') /\ length auth_files = 4%nat /\
    holds_files files (snmpv3_request_corpus c') /\ holds_files auth_files (auth_corpus c') /\
    holds_files tcp_framing_seeds (tcp_framing_corpus c') /\
    holds_files structured_seeds (structured_corpus c') /\ holds_files structured_seeds (auth_structured_corpus c') /\
    (forall orig, snmpv3_request_corpus c' !! (CROSS_POLLINATED_PREFIX ++ orig) =
       converted_seed (decode_and_encode arbitrary_snmpv3) (structured_corpus c') orig) /\
    (forall orig, auth_corpus c' !! (CROSS_POLLINATED_PREFIX ++ orig) =
       converted_seed (decode_and_encode_auth arbitrary_snmpv3_auth) (auth_structured_corpus c') orig).
Proof.
  intros Hseed Hst Hg D1 D2 D3 D4 D5. unfold generate_seeds_main. rewrite (gf_create _ Hg). cbn [negb].
  destruct (proj1 (seed_assertions_hold seed salt (write_ok ans) Hseed Hst (gf_write _ Hg))) as (files & salt1 & E1 & Hl1 & Hst1).
  destruct (proj2 (seed_assertions_hold seed salt1 (write_ok ans) Hseed Hst1 (gf_write _ Hg))) as (afiles & salt2 & E2 & Hl2 & _).
  pose proof (write_seeds_names _ _ _ _ _ _ _ _ E1) as N1.
  assert (N2 : afiles.*1 = [str "auth_get_request_valid_hmac"; str "auth_get_request"; str "auth_get_request_wrong_user"; str "noauth_get_request"]).
  { unfold write_auth_seeds in E2. destruct fuzz_user; [|done]. exact (write_seeds_names _ _ _ _ _ _ _ _ E2). }
  cbn [fmap list_fmap fst compose] in N1.
  destruct (write_files_ok ans files (snmpv3_request_corpus c) Hg D1) as (d1 & W1 & O1 & F1 & _);
    [rewrite N1; refine (bool_decide_unpack _ _); vm_compute; exact I|].
  destruct (write_files_ok ans tcp_framing_seeds (tcp_framing_corpus c) Hg D2) as (d2 & W2 & O2 & F2 & _);
    [refine (bool_decide_unpack _ _); vm_compute; exact I|].
  destruct (write_files_ok ans afiles (auth_corpus c) Hg D3) as (d3 & W3 & O3 & F3 & _);
    [rewrite N2; refine (bool_decide_unpack _ _); vm_compute; exact I|].
  destruct (write_files_ok ans structured_seeds (structured_corpus c) Hg D4) as (d4 & W4 & O4 & F4 & _);
    [refine (bool_decide_unpack _ _); vm_compute; exact I|].
  destruct (write_files_ok ans structured_seeds (auth_structured_corpus c) Hg D5) as (d5 & W5 & O5 & F5 & _);
    [refine (bool_decide_unpack _ _); vm_compute; exact I|].
  destruct (cross_pollinate_spec ans (decode_and_encode arbitrary_snmpv3) d4 d1 Hg (fun o => O1 _)) as (e1 & c1 & t1 & P1 & _ & [M1 K1]).
  destruct (cross_pollinate_spec ans (decode_and_encode_auth arbitrary_snmpv3_auth) d5 d3 Hg (fun o => O3 _)) as (e3 & c3 & t3 & P3 & _ & [M3 K3]).
  rewrite E1. cbn [mbind option_bind]. rewrite W1. cbn [mbind option_bind]. rewrite W2. cbn [mbind option_bind]. rewrite E2.
  cbn [mbind option_bind]. rewrite W3. cbn [mbind option_bind]. rewrite W4. cbn [mbind option_bind]. rewrite W5.
  cbn [mbind option_bind]. rewrite P1. cbn [mbind option_bind]. rewrite P3. cbn [mbind option_bind].
  eexists _, files, afiles, salt1, salt2. split_and!; [reflexivity|done..| | |exact F2|exact F4|exact F5|exact M1|exact M3]; cbn.
  - intros n b Hin. rewrite K1; [by apply F1|]. apply (list_elem_of_fmap_2 fst) in Hin. rewrite N1 in Hin.
    repeat (apply elem_of_cons in Hin as [Hin|Hin]; [cbn in Hin; subst n; vm_compute; reflexivity|]). by apply elem_of_nil in Hin.
  - intros n b Hin. rewrite K3; [by apply F3|]. apply (list_elem_of_fmap_2 fst) in Hin. rewrite N2 in Hin.
    repeat (apply elem_of_cons in Hin as [Hin|Hin]; [cbn in Hin; subst n; vm_compute; reflexivity|]). by apply elem_of_nil in Hin.
Qed.

End Generator.

(** An operating system that grants everything, and empty directories but for a stale seed. *)
Definition granting : FsAnswers :=
  {| read_dir d := Some (Some <$> (map_to_list d).*1); create_dir_ok := true; remove_ok _ := true; file_type_ok _ := true;
     read_ok _ := true; write_ok _ := true |}.

Lemma granting_ok : granted_fs granting.
Proof.
  split; try done. intros d. exists (map_to_list d).*1. split_and!; [done|apply NoDup_fst_map_to_list|].
  intros name. rewrite list_elem_of_fmap. split.
  - intros ([n v] & -> & Hin%elem_of_map_to_list). by exists v.
  - intros [v Hv]. exists (name, v). split; [done|]. by apply elem_of_map_to_list.
Qed.

Definition stale_corpora : Corpora :=
  MkCorpora {[ CROSS_POLLINATED_PREFIX ++ str "gone" := File [1] ]} ∅ ∅ {[ str "kept" := File [7] ]} ∅.
Definition toy_arbitrary (b : bytes) : option FuzzSnmpv3 :=
  match b with [7] => Some (MkFuzzSnmpv3 PtGetRequest 1 1 EngineMatching 3 [1; 3; 6] 0 0) | _ => None end.

Lemma generator_fills_corpora_witness :
  exists c', @generate_seeds_main ToyCrypto.ops RefRasn.ops 5 toy_arbitrary (fun _ => None) granting None stale_corpora = Some c' /\
    snmpv3_request_corpus c' !! (CROSS_POLLINATED_PREFIX ++ str "gone") = None /\
    tcp_framing_corpus c' !! str "empty" = Some (File []).
Proof.
  destruct (@generator_fills_corpora ToyCrypto.ops ToyCrypto.laws RefRasn.ops RefRasn.laws 5 toy_arbitrary (fun _ => None) granting None
    stale_corpora ltac:(zrange) I granting_ok) as (c' & files & afiles & s1 & s2 & E & _ & _ & _ & _ & _ & _ & Htcp & Hs & _ & Hm & _).
  - intros n. unfold stale_corpora. cbn. intros Hn%lookup_singleton_Some. by destruct Hn.
  - intros n. cbn. by rewrite lookup_empty.
  - intros n. cbn. by rewrite lookup_empty.
  - intros n. unfold stale_corpora. cbn. intros Hn%lookup_singleton_Some. by destruct Hn.
  - intros n. cbn. by rewrite lookup_empty.
  - exists c'. split; [exact E|]. split; [|apply Htcp; vm_compute; repeat constructor].
    rewrite Hm. unfold converted_seed.
    assert (Hn : structured_corpus c' !! str "gone" = None).
    { change (match Some c' with Some x => structured_corpus x !! str "gone" | None => None end = None).
      rewrite <-E. vm_compute. reflexivity. }
    rewrite Hn. reflexivity.
Defined.
